(** * TB guideline retrieval endpoint (api/tb-rag-query.js): a shallow embedding

    The retrieval handler, its scope resolver, scope filter, score cascade,
    channel merge, de-duplication and table enrichment are transcribed
    function by function from the JavaScript source.  Conventions:

    - a JS string is a [string] of 8-bit characters; [toLowerCase] and [trim]
      act on the ASCII range only;
    - a JS property that may be missing ([undefined]/[null]) is an [option];
    - similarity scores are exact rationals [Q] (binary64 rounding is not
      modelled); [normalize] alone, which tests its own result for overflow,
      runs on binary64 numbers, and is also read over the reals extended
      with NaN and the infinities;
    - [Array.prototype.sort] is the stable sort required by ECMAScript 2019;
    - the file system, the CSV parser and the embedding provider are
      parameters of the sections that use them;
    - the retrieval log and the console output are write-only and left out. *)

From Stdlib Require Import String Ascii List Bool Arith ZArith QArith Qminmax.
From Stdlib Require Import DecimalString Lia Permutation Sorted.
From Stdlib Require Import Reals Lra.
From Stdlib Require Floats.
Import ListNotations.

Close Scope R_scope.
Close Scope Q_scope.
Open Scope nat_scope.
Open Scope string_scope.
Open Scope list_scope.

(** ** JavaScript string and array primitives *)

(** string concatenation, as [a + b] or a template literal *)
Infix "^^" := String.append (at level 60, right associativity).

Module JS.

(** [s.includes(sub)] *)
Fixpoint includes (s sub : string) : bool :=
  prefix sub s ||
  match s with
  | EmptyString => false
  | String _ s' => includes s' sub
  end.

Definition lower_ascii (c : ascii) : ascii :=
  let n := nat_of_ascii c in
  if (65 <=? n)%nat && (n <=? 90)%nat then ascii_of_nat (n + 32) else c.

(** [s.toLowerCase()] *)
Fixpoint toLowerCase (s : string) : string :=
  match s with
  | EmptyString => EmptyString
  | String c s' => String (lower_ascii c) (toLowerCase s')
  end.

Definition is_space (c : ascii) : bool :=
  let n := nat_of_ascii c in
  ((9 <=? n)%nat && (n <=? 13)%nat) || (n =? 32)%nat.

Fixpoint trimStart (s : string) : string :=
  match s with
  | EmptyString => EmptyString
  | String c s' => if is_space c then trimStart s' else s
  end.

Fixpoint trimEnd (s : string) : string :=
  match s with
  | EmptyString => EmptyString
  | String c s' =>
      match trimEnd s' with
      | EmptyString => if is_space c then EmptyString else String c EmptyString
      | t => String c t
      end
  end.

(** [s.trim()] *)
Definition trim (s : string) : string := trimEnd (trimStart s).

(** [s.split(sep)] for a one-character separator: never an empty array. *)
Fixpoint split (sep : ascii) (s : string) : list string :=
  match s with
  | EmptyString => [EmptyString]
  | String c s' =>
      if Ascii.eqb c sep then EmptyString :: split sep s'
      else match split sep s' with
           | [] => [String c EmptyString]
           | w :: ws => String c w :: ws
           end
  end.

(** [s.endsWith(suf)] *)
Definition endsWith (s suf : string) : bool :=
  let n := String.length s in
  let m := String.length suf in
  (m <=? n)%nat && String.eqb (substring (n - m) m s) suf.

(** [s.startsWith(pre)] *)
Definition startsWith (s pre : string) : bool := prefix pre s.

(** [arr.includes(x)] on an array of strings *)
Definition arr_includes (arr : list string) (x : string) : bool :=
  existsb (String.eqb x) arr.

(** [new Set(...)] followed by [add]: insertion order, no repetition *)
Definition set_add (keys : list string) (k : string) : list string :=
  if arr_includes keys k then keys else keys ++ [k].

Definition set_of (l : list string) : list string := fold_left set_add l [].

(** [x || ""] on a possibly missing string *)
Definition or_empty (x : option string) : string :=
  match x with Some s => s | None => EmptyString end.

(** truthiness of a possibly missing string: missing and [""] are falsy *)
Definition truthy (x : option string) : bool :=
  match x with
  | Some s => negb (String.eqb s EmptyString)
  | None => false
  end.

(** [String(x)] on a possibly missing string *)
Definition to_String (x : option string) : string :=
  match x with Some s => s | None => "undefined" end.

(** [parts.join(sep)] *)
Fixpoint join (sep : string) (parts : list string) : string :=
  match parts with
  | [] => EmptyString
  | [p] => p
  | p :: rest => p ^^ sep ^^ join sep rest
  end.

End JS.

(** ** Intent classifier and scope resolver *)

(** [keywordScore(text, keywords)] *)
Definition keywordScore (text : string) (keywords : list string) : nat :=
  fold_left (fun score kw => if JS.includes text kw then score + 1 else score)
            keywords 0.

Definition topicPriority : list string :=
  ["treatment"; "diagnosis"; "prevention"; "screening"].

(** The [topicCandidates] set built by [inferScopeFromQuestion]. *)
Definition topicCandidates (flags : list string) : list string :=
  let hasFlag := JS.arr_includes flags in
  let c0 : list string := [] in
  let c1 := if hasFlag "prevention_and_ltbi" || hasFlag "infection_prevention_and_control"
            then JS.set_add c0 "prevention" else c0 in
  let c2 := if hasFlag "screening" then JS.set_add c1 "screening" else c1 in
  let c3 := if hasFlag "diagnostic_workup" then JS.set_add c2 "diagnosis" else c2 in
  let c4 := if hasFlag "regimen_selection" || hasFlag "regimen_modification" ||
               hasFlag "toxicity_management" || hasFlag "monitoring_schedule" ||
               hasFlag "treatment_failure_or_reversion"
            then JS.set_add c3 "treatment" else c3 in
  c4.

Definition preventionKeywords : list string :=
  ["prevention"; "tb infection"; "latent tb"; "tpt"; "preventive treatment";
   "contact management"; "household contacts"].

Definition screeningKeywords : list string :=
  ["screening"; "systematic screening"; "triage"; "ai-assisted"; "cxr screening";
   "screen for tb"].

Definition diagnosisKeywords : list string :=
  ["diagnos"; "algorithm"; "cxr"; "x-ray"; "radiograph"; "xpert"; "naat";
   "truenat"; "lamp"; "wrd"; "wrds"; "lpa"; "smear"; "ultra"].

Definition treatmentKeywords : list string :=
  ["treatment"; "regimen"; "therapy"; "dosing"; "dose"; "4-month"; "6-month";
   "bpal"; "bdq"; "pretomanid"; "linezolid"; "dr-tb"; "drug-resistant"].

(** [inferScopeFromQuestion(question, intentFlags)]; [None] is [null]. *)
Definition inferScopeFromQuestion (question : option string) (intentFlags : list string)
  : option string :=
  let q := JS.toLowerCase (JS.or_empty question) in
  let cands := topicCandidates intentFlags in
  match find (JS.arr_includes cands) topicPriority with
  | Some t => Some t
  | None =>
      if String.eqb q EmptyString then None
      else
        let preventionScore := keywordScore q preventionKeywords in
        let screeningScore := keywordScore q screeningKeywords in
        let diagnosisScore := keywordScore q diagnosisKeywords in
        let treatmentScore := keywordScore q treatmentKeywords in
        if (2 <=? preventionScore)%nat || JS.includes q "module 1" then Some "prevention"
        else if (2 <=? screeningScore)%nat ||
                (negb (screeningScore =? 0)%nat && JS.includes q "module 2")
        then Some "screening"
        else if (2 <=? diagnosisScore)%nat ||
                (negb (diagnosisScore =? 0)%nat && JS.includes q "module 3")
        then Some "diagnosis"
        else if (2 <=? treatmentScore)%nat || JS.includes q "module 4" then Some "treatment"
        else None
  end.

(** Keyword groups of [inferIntentFlags], in source order. *)
Definition intentGroups : list (list string * list string) :=
  [ (["screening"; "systematic screening"; "triage"; "ai-assisted"; "ai assisted";
      "cxr screening"; "screen for tb"],
     ["screening"]);
    (["diagnos"; "algorithm"; "cxr"; "x-ray"; "xray"; "radiograph"; "xpert"; "ultra";
      "naat"; "truenat"; "lamp"; "wrd"; "wrds"; "lpa"; "smear"; "culture"; "dst";
      "drug susceptibility"],
     ["diagnostic_workup"]);
    (["tpt"; "preventive treatment"; "tb preventive treatment"; "tb infection";
      "latent tb"; "ltbi"; "isoniazid preventive"; "inh preventive"],
     ["prevention_and_ltbi"]);
    (["infection prevention"; "ipc"; "airborne infection"; "ventilation"; "uvgi";
      "n95"; "respirator"; "masking"; "administrative controls";
      "environmental controls"],
     ["infection_prevention_and_control"]);
    (["start treatment"; "starting treatment"; "initial regimen"; "which regimen";
      "what regimen"; "choose regimen"; "choice of regimen"; "regimen choice"],
     ["regimen_selection"]);
    (["change regimen"; "switch regimen"; "modify regimen"; "regimen modification";
      "adjust regimen"; "add drug"; "add a drug"; "remove drug"; "stop drug";
      "substitute"; "substitution"],
     ["regimen_modification"]);
    (["toxicity"; "adverse event"; "side effect"; "peripheral neuropathy";
      "neuropathy"; "optic neuritis"; "myelosuppression"; "anaemia"; "anemia";
      "thrombocytopenia"; "hepatotoxicity"; "liver toxicity"; "vomiting"; "nausea";
      "abdominal pain"; "hyperpigmentation"; "qt prolongation"; "qt-prolonging";
      "cardiac toxicity"],
     ["toxicity_management"]);
    (["monitoring"; "follow-up"; "follow up"; "schedule"; "how often";
      "how frequently"; "baseline tests"; "baseline investigations";
      "routine monitoring"; "post-treatment monitoring"],
     ["monitoring_schedule"]);
    (["treatment failure"; "failed treatment"; "failure of treatment";
      "culture reversion"; "remains culture-positive"; "remains culture positive";
      "persistent positive"; "recurrent tb"; "relapse"],
     ["treatment_failure_or_reversion"]);
    (["pregnant"; "pregnancy"; "breastfeeding"; "lactating"; "postpartum"; "child";
      "children"; "paediatric"; "pediatric"; "adolescent"; "infant"; "neonate"],
     ["special_populations"]);
    (["mdr-tb"; "mdr tb"; "xdr-tb"; "xdr tb"; "pre-xdr"; "pre xdr"; "rr-tb"; "rr tb";
      "rifampicin-resistant"; "rifampin-resistant"; "drug-resistant tb";
      "drug resistant tb"; "fluoroquinolone-resistant"; "fluoroquinolone resistance"],
     ["drug_resistance"]);
    (["tpt"; "tb preventive treatment"; "tb preventive therapy";
      "preventive treatment"; "preventive therapy"; "ipt";
      "isoniazid preventive therapy"; "3hp"; "1hp"; "3hr"; "4r";
      "latent tb infection treatment"; "ltbi treatment"; "tb infection treatment";
      "tb infection therapy"],
     ["tpt"]);
    (["levofloxacin preventive"; "levofloxacin prophylaxis"; "6lfx";
      "6 months of levofloxacin"; "mdr-tb contact"; "mdr tb contact";
      "rr-tb contact"; "rr tb contact"; "contact of mdr-tb";
      "household contact of mdr-tb"],
     ["dr_tpt"; "tpt"]);
    (["hiv"; "plhiv"; "cd4"; "viral load"; "diabetes"; "diabetic"; "renal failure";
      "kidney disease"; "ckd"; "cirrhosis"; "liver disease"; "alcohol use";
      "harmful use"; "substance use"; "drug use"; "depression"; "anxiety";
      "mental health"; "hepatitis"; "hbv"; "hcv"],
     ["comorbidities"]) ].

(** [inferIntentFlags(question)] *)
Definition inferIntentFlags (question : string) : list string :=
  let q := JS.toLowerCase question in
  if String.eqb q EmptyString then []
  else
    let has words := existsb (JS.includes q) words in
    let flags :=
      fold_left (fun acc g => if has (fst g) then acc ++ snd g else acc)
                intentGroups [] in
    JS.set_of flags.

(** ** JavaScript objects with string keys *)

Module Obj.

Section Objects.
Context {V : Type}.

(** Properties in insertion order; [set] keeps the keys distinct. *)
Definition t : Type := list (string * V).

(** [o[k]]; [None] is [undefined] *)
Fixpoint get (o : t) (k : string) : option V :=
  match o with
  | [] => None
  | (k', v) :: o' => if String.eqb k' k then Some v else get o' k
  end.

(** [o[k] = v] *)
Fixpoint set (o : t) (k : string) (v : V) : t :=
  match o with
  | [] => [(k, v)]
  | (k', v') :: o' =>
      if String.eqb k' k then (k', v) :: o' else (k', v') :: set o' k v
  end.

(** [{ ...a, ...b }] *)
Definition spread (a b : t) : t :=
  fold_left (fun acc kv => set acc (fst kv) (snd kv)) b a.
End Objects.

Arguments t : clear implicits.

(** Value of a canonical array index ("0", "7", "42": decimal, no leading
    zero, at most 2^32 - 2); such keys are enumerated first. *)
Fixpoint digits_value (acc : N) (s : string) : option N :=
  match s with
  | EmptyString => Some acc
  | String c s' =>
      let n := nat_of_ascii c in
      if ((48 <=? n) && (n <=? 57))%nat
      then digits_value (acc * 10 + N.of_nat (n - 48))%N s'
      else None
  end.

Definition array_index (s : string) : option N :=
  match s with
  | EmptyString => None
  | String c s' =>
      if Ascii.eqb c "0"%char && negb (String.eqb s' EmptyString) then None
      else match digits_value 0%N s with
           | Some v => if (v <=? 4294967294)%N then Some v else None
           | None => None
           end
  end.

Fixpoint insert_index (e : N * string) (l : list (N * string)) : list (N * string) :=
  match l with
  | [] => [e]
  | x :: l' => if (fst e <=? fst x)%N then e :: l else x :: insert_index e l'
  end.

(** [Object.keys(o)]: array indices in ascending order, then the other
    keys in insertion order. *)
Definition keys {V : Type} (o : t V) : list string :=
  let ks := map fst o in
  let idx :=
    fold_right
      (fun k acc => match array_index k with
                    | Some v => insert_index (v, k) acc
                    | None => acc
                    end) [] ks in
  map snd idx ++
  filter (fun k => match array_index k with Some _ => false | None => true end) ks.

End Obj.

(** A row of the parsed CSV ([Papa.parse] with [header: true]): cells are
    strings keyed by the names of the first CSV line. *)
Definition rawrow : Type := Obj.t string.

(** A logical row: cells keyed by header labels; a cell copied from a column
    that the raw row lacks is [undefined], here [None]. *)
Definition lrow : Type := Obj.t (option string).

(** Values found in the debug records of the renderers. *)
Inductive dval : Type :=
| DStr (s : string)
| DNum (n : nat)
| DBool (b : bool)
| DStrs (l : list string)
| DNull.

Definition debug : Type := Obj.t dval.

(** ** Corpus records *)

(** A chunk as read from the manifest, and as returned by the enrichment
    step, which adds the [table_*] properties to a copy. *)
Record chunk : Type := mkChunk {
  chunk_id : option string;
  doc_id : option string;
  guideline_title : option string;
  year : option string;
  section_path : option string;
  scope : option string;
  content_type : option string;
  text : option string;
  caption : option string;
  attachment_id : option string;
  attachment_path : option string;
  table_subtype : option string;
  table_text : option string;
  table_rows : option (list rawrow);
  table_row_count : option nat;
  table_debug : option debug
}.

(** The empty object [{}] of [chunks[i] || {}]. *)
Definition emptyChunk : chunk :=
  mkChunk None None None None None None None None None None None None
          None None None None.

(** [chunks[i] || {}] *)
Definition chunkAt (chunks : list chunk) (i : nat) : chunk :=
  nth i chunks emptyChunk.

Definition lc (x : option string) : string := JS.toLowerCase (JS.or_empty x).

(** [isDrugSusceptibleChunk(chunk)] *)
Definition dsSignals : list string :=
  ["drug - susceptible"; "drug-susceptible"; "drug susceptible"; "ds-tb"; "ds tb"].

Definition isDrugSusceptibleChunk (c : chunk) : bool :=
  let doc := lc (doc_id c) in
  let section := lc (section_path c) in
  let scope := lc (scope c) in
  let text := lc (text c) in
  let hasSignal s := existsb (JS.includes s) dsSignals in
  if hasSignal scope then true
  else if hasSignal section then true
  else if hasSignal text then true
  else JS.includes doc "module4" && JS.includes doc "treat" &&
       JS.includes section "chapter 1".

(** ** Scope filter *)

Definition anyIncludes (s : string) (pats : list string) : bool :=
  existsb (JS.includes s) pats.

(** The predicate of [filterIndicesByScope] for the lower-cased scope [s]. *)
Definition scopeMatches (s : string) (c : chunk) : bool :=
  let docId := lc (doc_id c) in
  let section := lc (section_path c) in
  let chunkScope := lc (scope c) in
  if negb (String.eqb chunkScope EmptyString) then String.eqb chunkScope s
  else if String.eqb s "prevention" then
    anyIncludes section ["prevention"; "tb infection"; "tpt"; "preventive treatment";
                         "contact management"; "latent tb"] ||
    JS.includes docId "module1"
  else if String.eqb s "screening" then
    anyIncludes section ["screening"; "systematic screening"; "triage"; "ai-assisted";
                         "cxr screening"] ||
    JS.includes docId "module2"
  else if String.eqb s "diagnosis" then
    JS.includes docId "diag" || JS.includes docId "module3" ||
    anyIncludes section ["diagnos"; "xpert"; "cxr"; "smear"; "naat"]
  else if String.eqb s "treatment" then
    JS.includes docId "treat" || JS.includes docId "module4" ||
    anyIncludes section ["treatment"; "regimen"; "drug-resistant tb"; "dr-tb"; "mdr-tb";
                         "rifampicin-resistant"]
  else if String.eqb s "pediatrics" then
    JS.includes docId "pediatric" || JS.includes docId "child" ||
    JS.includes docId "module5" ||
    anyIncludes section ["child"; "children"; "adolescent"; "paediatric"; "pediatric"]
  else if String.eqb s "comorbidities" then
    JS.includes docId "module6" ||
    anyIncludes section ["hiv"; "diabetes"; "comorbid"; "substance use"; "alcohol use";
                         "mental health"; "hepatitis"; "hcv"]
  else true.

(** [filterIndicesByScope(indices, chunks, scope)]; a missing or empty
    [scope] is falsy and returns [indices] itself. *)
Definition filterIndicesByScope (indices : list nat) (chunks : list chunk)
           (scope : option string) : list nat :=
  if negb (JS.truthy scope) then indices
  else
    let s := JS.toLowerCase (JS.or_empty scope) in
    filter (fun i => scopeMatches s (chunkAt chunks i)) indices.

(** ** Section keys *)

Definition is_digit (c : ascii) : bool :=
  let n := nat_of_ascii c in ((48 <=? n) && (n <=? 57))%nat.

(** a word character of the regular-expression class [\w] *)
Definition is_word (c : ascii) : bool :=
  let n := nat_of_ascii c in
  is_digit c || ((65 <=? n) && (n <=? 90))%nat ||
  ((97 <=? n) && (n <=? 122))%nat || (n =? 95)%nat.

Fixpoint take_digits (l : list ascii) : list ascii * list ascii :=
  match l with
  | c :: l' =>
      if is_digit c then let (ds, r) := take_digits l' in (c :: ds, r)
      else ([], l)
  | [] => ([], [])
  end.

(** [\b] after a digit: the next character is missing or not a word character *)
Definition boundary_after (l : list ascii) : bool :=
  match l with
  | [] => true
  | c :: _ => negb (is_word c)
  end.

(** The tail [(?:\.\d+)*\b] of the heading pattern, greedy with backtracking
    over the number of groups; [l] follows a maximal run of digits. *)
Fixpoint num_tail (fuel : nat) (l : list ascii) : option (list ascii * list ascii) :=
  match fuel with
  | 0 => None
  | S f =>
      let here := if boundary_after l then Some ([], l) else None in
      match l with
      | c :: l1 =>
          if Ascii.eqb c "."%char then
            let (ds, l2) := take_digits l1 in
            match ds with
            | [] => here
            | _ :: _ =>
                match num_tail f l2 with
                | Some (m, rest) => Some (c :: ds ++ m, rest)
                | None => here
                end
            end
          else here
      | [] => here
      end
  end.

(** All matches of [/\b\d+(?:\.\d+)*\b/g], left to right; [prev_word] tells
    whether the character before [l] is a word character. *)
Fixpoint num_scan (fuel : nat) (prev_word : bool) (l : list ascii) : list string :=
  match fuel with
  | 0 => []
  | S f =>
      match l with
      | [] => []
      | c :: l' =>
          if is_digit c && negb prev_word then
            let (ds, l1) := take_digits l in
            match num_tail (S (List.length l1)) l1 with
            | Some (m, rest) => string_of_list_ascii (ds ++ m) :: num_scan f true rest
            | None => num_scan f (is_word c) l'
            end
          else num_scan f (is_word c) l'
      end
  end.

Definition numMatches (s : string) : list string :=
  let l := list_ascii_of_string s in num_scan (S (List.length l)) false l.

(** [extractSectionKeys(sectionPath)] *)
Definition extractSectionKeys (sectionPath : string) : list string :=
  if String.eqb sectionPath EmptyString then []
  else
    let s := JS.toLowerCase sectionPath in
    let keys0 := JS.set_add [] (JS.trim s) in
    let segments :=
      filter (fun seg => negb (String.eqb seg EmptyString))
             (map JS.trim (JS.split "|"%char s)) in
    let keys1 := fold_left JS.set_add segments keys0 in
    fold_left JS.set_add (numMatches s) keys1.

(** ** Table normalisation and subtype detection *)

Definition row_index (r : rawrow) : option string := Obj.get r "row_index".

(** The column test of [normalizeTableRows]: in the source pattern the
    anchors bind to the first and last alternative only. *)
Definition columnPattern (lower : string) : bool :=
  JS.startsWith lower "columna" ||
  anyIncludes lower
    ["columnb"; "columnc"; "columnd"; "columne"; "columnf"; "columng"; "columnh";
     "columni"; "columnj"; "columnk"; "columnl"; "columnm"; "columnn"; "columno";
     "columnp"; "columnq"; "columnr"; "columns"; "columnt"; "columnu"; "columnv";
     "columnw"; "columnx"; "columny"] ||
  JS.endsWith lower "columnz".

Record normalized : Type := mkNormalized {
  headerRow : option rawrow;
  logicalRows : list lrow
}.

(** [normalizeTableRows(rawRows)] *)
Definition normalizeTableRows (rawRows : list rawrow) : normalized :=
  match rawRows with
  | [] => mkNormalized None []
  | first :: _ =>
      let hdr :=
        match find (fun r => String.eqb (JS.to_String (row_index r)) "1") rawRows with
        | Some r => r
        | None => first
        end in
      let dataRows :=
        filter (fun r => negb (String.eqb (JS.to_String (row_index r))
                                          (JS.to_String (row_index hdr))))
               rawRows in
      let contentCols :=
        filter (fun k =>
                  if negb (columnPattern (JS.toLowerCase k)) then false
                  else
                    let headerVal := Obj.get hdr k in
                    JS.truthy headerVal &&
                    negb (String.eqb (JS.trim (JS.to_String headerVal)) EmptyString))
               (Obj.keys hdr) in
      let logicalOf (row : rawrow) : lrow :=
        let logical :=
          fold_left
            (fun (acc : lrow) col =>
               let headerLabel := JS.trim (JS.or_empty (Obj.get hdr col)) in
               if String.eqb headerLabel EmptyString then acc
               else Obj.set acc headerLabel (Obj.get row col))
            contentCols [] in
        Obj.set logical "_row_index" (row_index row) in
      mkNormalized (Some hdr) (map logicalOf dataRows)
  end.

(** the remainder of [s] after the first occurrence of [pat] *)
Fixpoint after_first (pat s : string) : option string :=
  if prefix pat s
  then Some (substring (String.length pat) (String.length s - String.length pat) s)
  else match s with
       | EmptyString => None
       | String _ s' => after_first pat s'
       end.

(** [/if.*then/.test(s)]: the dot does not cross a line terminator *)
Definition re_if_then (s : string) : bool :=
  existsb
    (fun line => match after_first "if" line with
                 | Some r => JS.includes r "then"
                 | None => false
                 end)
    (flat_map (JS.split (ascii_of_nat 13)) (JS.split (ascii_of_nat 10) s)).

(** [detectTableSubtype(chunk, logicalRows, headerRow)] *)
Definition detectTableSubtype (c : chunk) (rows : list lrow) (hdr : option rawrow)
  : string :=
  let caption := lc (caption c) in
  let section := lc (section_path c) in
  let headers :=
    match rows with
    | [] => []
    | r :: _ => map JS.toLowerCase (Obj.keys r)
    end in
  let hasHeader pats := existsb (fun h => anyIncludes h pats) headers in
  if anyIncludes caption ["dose"; "dosage"; "dosing"; "mg/kg"; "mg/ day"; "mg per kg";
                          "weight band"; "weight-band"] ||
     hasHeader ["kg"; "dose"; "weight band"; "weight-band"]
  then
    if anyIncludes caption ["child"; "paediatric"; "pediatric"; "infant"; "neonate"] ||
       JS.includes section "child"
    then "peds_dosing" else "dosing"
  else if anyIncludes caption ["eligib"; "criteria"] || re_if_then caption ||
          anyIncludes caption ["decision"; "indication"; "when to"; "option"] ||
          hasHeader ["criteria"; "recommendation"; "option"; "action"]
  then "decision"
  else if JS.includes caption "regimen" ||
          (hasHeader ["regimen"] &&
           hasHeader ["drug"; "component"; "medicine"; "combination"])
  then "regimen"
  else if anyIncludes caption ["monitoring"; "follow-up"; "follow up"; "timeline";
                               "schedule"] ||
          hasHeader ["baseline"; "month"; "week"; "visit"; "timepoint"]
  then "timeline"
  else if anyIncludes caption ["interaction"; "drug-drug"; "drug drug"; "ddi"; "qt";
                               "contraindication"] ||
          hasHeader ["interaction"; "effect"; "recommendation"; "ddi"]
  then "interaction"
  else if anyIncludes caption ["toxicity"; "adverse event"; "side effect"; "hepatotox";
                               "neuropathy"; "ae management"] ||
          hasHeader ["grade"; "toxicity"; "ctcae"]
  then "toxicity"
  else "generic".

(** ** Renderers *)

(** [nonEmpty(val)] *)
Definition nonEmpty (val : option string) : bool :=
  match val with
  | Some s => negb (String.eqb (JS.trim s) EmptyString)
  | None => false
  end.

(** [row[h]] on a logical row *)
Definition cell (row : lrow) (h : string) : option string :=
  match Obj.get row h with
  | Some v => v
  | None => None
  end.

(** [getTableHeaders(logicalRows)] *)
Definition getTableHeaders (rows : list lrow) : list string :=
  match rows with
  | [] => []
  | r :: _ => filter (fun h => negb (String.eqb h "_row_index")) (Obj.keys r)
  end.

(** [x || d] on a possibly missing string *)
Definition or_default (x : option string) (d : string) : string :=
  if JS.truthy x then JS.or_empty x else d.

Definition nat_to_string (n : nat) : string :=
  NilEmpty.string_of_uint (Nat.to_uint n).

Definition newline : string := String (ascii_of_nat 10) EmptyString.

(** What a renderer returns: [{ text, debug }]. *)
Record rendered : Type := mkRendered {
  r_text : string;
  r_debug : debug
}.

(** [lines.push(`Row ${idx + 1}: ...`)] over the rows, [idx] counting from [i] *)
Fixpoint genericRowLines (headers : list string) (i : nat) (rows : list lrow)
  : list string :=
  match rows with
  | [] => []
  | row :: rest =>
      let cells :=
        JS.join "; " (map (fun h => h ^^ ": " ^^ JS.or_empty (cell row h)) headers) in
      ("Row " ^^ nat_to_string (i + 1) ^^ ": " ^^ cells)
        :: genericRowLines headers (i + 1) rest
  end.

(** [renderGenericTable(chunk, logicalRows, headerRow)] *)
Definition renderGenericTable (c : chunk) (rows : list lrow) (hdr : option rawrow)
  : rendered :=
  let caption := or_default (caption c) "Table" in
  let headers := getTableHeaders rows in
  let dbg : debug :=
    [("renderer", DStr "generic"); ("header_keys", DStrs headers);
     ("row_count", DNum (List.length rows))] in
  match rows, headers with
  | [], _ | _, [] => mkRendered (caption ^^ ". (No rows found.)") dbg
  | _, _ =>
      let lines :=
        (caption ^^ ". Columns: " ^^ JS.join ", " headers)
          :: genericRowLines headers 0 rows in
      mkRendered (JS.join newline lines) dbg
  end.

(** the [weightBandKeys] test of [renderDosingTable], case-insensitive *)
Definition weightBandLike (h : string) : bool :=
  anyIncludes (JS.toLowerCase h)
    ["kg"; "weight band"; "weight-band"; "weight range"; " to <"; "<="; ">="].

(** the lines pushed by the row loop of [renderDosingTable] *)
Definition dosingRowLine (headers weightBandKeys : list string) (medKey : string)
           (row : lrow) : list string :=
  let med := cell row medKey in
  if negb (nonEmpty med) then []
  else
    let part k :=
      let val := cell row k in
      if negb (nonEmpty val) then [] else [k ^^ ": " ^^ JS.trim (JS.or_empty val)] in
    let bandParts := flat_map part weightBandKeys in
    match bandParts with
    | [] =>
        match flat_map part headers with
        | [] => []
        | cells => [JS.or_empty med ^^ ": " ^^ JS.join "; " cells]
        end
    | _ => [JS.or_empty med ^^ ": " ^^ JS.join "; " bandParts]
    end.

(** [renderDosingTable(chunk, logicalRows, headerRow)] *)
Definition renderDosingTable (c : chunk) (rows : list lrow) (hdr : option rawrow)
  : rendered :=
  let caption := or_default (caption c) "Dosing table" in
  let headers := getTableHeaders rows in
  match rows, headers with
  | [], _ | _, [] =>
      mkRendered (caption ^^ ". (No rows found.)")
                 [("renderer", DStr "dosing"); ("header_keys", DStrs headers);
                  ("row_count", DNum (List.length rows))]
  | _, h0 :: _ =>
      let medKey :=
        match find (fun h => anyIncludes (JS.toLowerCase h)
                               ["medicine"; "drug"; "product"; "regimen"; "group";
                                "tb drug"]) headers with
        | Some h => if String.eqb h EmptyString then h0 else h
        | None => h0
        end in
      let weightBandKeys := filter weightBandLike headers in
      match weightBandKeys with
      | [] =>
          let generic := renderGenericTable c rows hdr in
          mkRendered (r_text generic)
                     (Obj.spread (r_debug generic)
                        [("renderer", DStr "dosing");
                         ("note", DStr "fallback_generic_no_weight_bands")])
      | _ =>
          let lines :=
            (caption ^^ ". Weight-band dosing summary:")
              :: flat_map (dosingRowLine headers weightBandKeys medKey) rows in
          mkRendered (JS.join newline lines)
                     [("renderer", DStr "dosing"); ("header_keys", DStrs headers);
                      ("row_count", DNum (List.length rows)); ("med_key", DStr medKey);
                      ("weight_band_keys", DStrs weightBandKeys)]
      end
  end.

(** ** Table enrichment *)

(** The result of a call that may throw. *)
Inductive outcome (A : Type) : Type :=
| Returned (a : A)
| Thrown (message : string).

Arguments Returned {A} a.
Arguments Thrown {A} message.

(** What [renderTable] returns: [{ subtype, tableText, debug }]. *)
Record tableRender : Type := mkTableRender {
  subtype : string;
  tableText : string;
  tr_debug : debug
}.

(** [options] of [enrichChunkWithTable] *)
Record enrichOptions : Type := mkEnrichOptions {
  includeTableRows : bool;
  tableRowLimit : option Z
}.

Section Enrichment.

(** [loadTableRows(attachmentPath)]: path resolution, [fs.readFileSync] and
    [Papa.parse]; throws when the file cannot be read. *)
Variable loadTableRows : string -> outcome (list rawrow).

(** The dedicated renderers of the subtypes other than dosing, by subtype
    name ([renderPedsDosingTable], [renderRegimenTable], ...); a renderer may
    throw on rows it does not expect. *)
Variable renderSubtype :
  string -> chunk -> list lrow -> option rawrow -> outcome rendered.

(** [renderTable(chunk, rawRows)] *)
Definition renderTable (c : chunk) (rawRows : list rawrow) : outcome tableRender :=
  let n := normalizeTableRows rawRows in
  let rows := logicalRows n in
  let hdr := headerRow n in
  let detected := detectTableSubtype c rows hdr in
  let subtype := if String.eqb detected EmptyString then "generic" else detected in
  let baseDebug : debug :=
    [("subtype_guess", DStr subtype); ("row_count", DNum (List.length rows));
     ("has_header_row", DBool (match hdr with Some _ => true | None => false end))] in
  let finish (st : string) (r : rendered) : outcome tableRender :=
    Returned (mkTableRender st (r_text r) (Obj.spread baseDebug (r_debug r))) in
  if String.eqb subtype "dosing" then finish subtype (renderDosingTable c rows hdr)
  else if JS.arr_includes
            ["peds_dosing"; "regimen"; "decision"; "timeline"; "interaction";
             "toxicity"] subtype
  then match renderSubtype subtype c rows hdr with
       | Returned r => finish subtype r
       | Thrown m => Thrown m
       end
  else finish "generic" (renderGenericTable c rows hdr).

(** [enrichChunkWithTable(chunk, options)] *)
Definition enrichChunkWithTable (c : chunk) (options : enrichOptions) : chunk :=
  let limit :=
    match tableRowLimit options with
    | Some l => Z.max 1 l
    | None => 0%Z
    end in
  let ct := lc (content_type c) in
  if negb (String.eqb ct "table") || negb (JS.truthy (attachment_path c)) then c
  else
    match loadTableRows (JS.or_empty (attachment_path c)) with
    | Thrown _ => c
    | Returned rawRows =>
        let limitedRows :=
          if (limit =? 0)%Z then rawRows else firstn (Z.to_nat limit) rawRows in
        match renderTable c rawRows with
        | Thrown _ => c
        | Returned t =>
            {| chunk_id := chunk_id c;
               doc_id := doc_id c;
               guideline_title := guideline_title c;
               year := year c;
               section_path := section_path c;
               scope := scope c;
               content_type := content_type c;
               text := text c;
               caption := caption c;
               attachment_id := attachment_id c;
               attachment_path := attachment_path c;
               table_subtype := Some (subtype t);
               table_text := Some (tableText t);
               table_rows :=
                 if includeTableRows options then Some limitedRows else table_rows c;
               table_row_count := Some (List.length rawRows);
               table_debug := Some (tr_debug t) |}
        end
    end.

End Enrichment.

(** ** Similarity ranking *)

(** A scored candidate [{ index, score }]. *)
Record entry : Type := mkEntry {
  index : nat;
  score : Q
}.

Fixpoint dot_from (acc : Q) (a b : list Q) : Q :=
  match a, b with
  | x :: a', y :: b' => dot_from (acc + x * y)%Q a' b'
  | _, _ => acc
  end.

(** [cosineSim(a, b)]: the dot product over the common prefix *)
Definition cosineSim (a b : list Q) : Q := dot_from 0%Q a b.

(** [list.sort((a, b) => b.score - a.score)]: stable, descending by score *)
Fixpoint insert_desc (e : entry) (l : list entry) : list entry :=
  match l with
  | [] => [e]
  | y :: l' =>
      if Qle_bool (score y) (score e) then e :: y :: l'
      else y :: insert_desc e l'
  end.

Fixpoint sort_desc (l : list entry) : list entry :=
  match l with
  | [] => []
  | x :: l' => insert_desc x (sort_desc l')
  end.

(** [Math.max(a, b)] *)
Definition Math_max (a b : Q) : Q := if Qle_bool a b then b else a.

(** ** Boost and penalty cascade *)

(** The intent and scope switches the handler derives per query. *)
Record intent : Type := mkIntent {
  isPediatric : bool;
  hasDrugResistanceIntent : bool;
  hasTptIntent : bool;
  isDiagnosisScope : bool;
  isTreatmentScope : bool;
  isPreventionScope : bool
}.

Definition timesIf (b : bool) (factor s : Q) : Q := if b then (s * factor)%Q else s.

Definition dsPenaltyFactor : Q := 0.6%Q.

(** One iteration of the module-aware boost loops.  [prose] selects the loop
    over [scoredText], whose pediatric test also accepts the section title. *)
Definition boostScore (it : intent) (prose : bool) (c : chunk) (s : Q) : Q :=
  let doc := lc (doc_id c) in
  let section := lc (section_path c) in
  let s1 :=
    if isTreatmentScope it then
      let s' :=
        timesIf (JS.includes doc "module4" && JS.includes doc "treatment" &&
                 JS.includes doc "2025") 1.03%Q s in
      timesIf (isPediatric it && negb (hasDrugResistanceIntent it) &&
               JS.includes doc "module5" && JS.includes doc "pediatr" &&
               (JS.includes section "5.2." ||
                (prose &&
                 JS.includes section "treatment of drug-susceptible tb in children")))
              1.03%Q s'
    else s in
  let s2 :=
    timesIf (isDiagnosisScope it && isPediatric it &&
             JS.includes doc "module3" &&
             (JS.includes doc "diag" || JS.includes section "diagnosis"))
            1.03%Q s1 in
  let s3 :=
    timesIf (isPreventionScope it &&
             JS.includes doc "module1" && JS.includes doc "tpt" &&
             JS.includes doc "2024") 1.03%Q s2 in
  timesIf (hasDrugResistanceIntent it && isDrugSusceptibleChunk c) dsPenaltyFactor s3.

Definition boostAll (it : intent) (prose : bool) (chunks : list chunk)
           (l : list entry) : list entry :=
  map (fun e => mkEntry (index e)
                        (boostScore it prose (chunkAt chunks (index e)) (score e))) l.

(** An anchor: a top prose candidate with its document and section keys. *)
Record anchor : Type := mkAnchor {
  a_index : nat;
  a_score : Q;
  a_doc_id : option string;
  a_section_path : string;
  a_content_type : string;
  a_sectionKeys : list string
}.

(** [x || null] *)
Definition or_null (x : option string) : option string :=
  if JS.truthy x then x else None.

Definition anchorOf (chunks : list chunk) (e : entry) : anchor :=
  let c := chunkAt chunks (index e) in
  mkAnchor (index e) (score e) (or_null (doc_id c)) (JS.or_empty (section_path c))
           (lc (content_type c)) (extractSectionKeys (JS.or_empty (section_path c))).

(** [anchorDocSectionMap]: the anchors of the ten best prose candidates that
    carry a document id *)
Definition anchorDocSectionMap (chunks : list chunk) (scoredText : list entry)
  : list anchor :=
  filter (fun a => JS.truthy (a_doc_id a))
         (map (anchorOf chunks) (firstn (Nat.min 10 (List.length scoredText)) scoredText)).

Definition isModule4DrAnchor (a : anchor) : bool :=
  let docId := lc (a_doc_id a) in
  let sectionPath := JS.toLowerCase (a_section_path a) in
  JS.includes docId "module4" && JS.includes docId "treatment" &&
  JS.includes sectionPath "chapter 2 : drug-resistant tb treatment".

Definition isModule1TptAnchor (a : anchor) : bool :=
  let docId := lc (a_doc_id a) in
  let sectionPath := JS.toLowerCase (a_section_path a) in
  JS.includes docId "module1" && JS.includes docId "tpt" &&
  JS.includes sectionPath "tb preventive treatment".

(** [maxTextScore] *)
Definition maxTextScore (scoredText : list entry) : Q :=
  match scoredText with
  | e :: _ => score e
  | [] => 1.0%Q
  end.

(** The [isNeighbor] flag computed for a table chunk. *)
Definition isNeighbor (anchors : list anchor) (c : chunk) : bool :=
  match or_null (doc_id c) with
  | None => false
  | Some tableDoc =>
      let tableKeys := extractSectionKeys (JS.or_empty (section_path c)) in
      existsb
        (fun a =>
           match a_doc_id a with
           | Some d =>
               String.eqb d tableDoc &&
               existsb (fun key => JS.arr_includes tableKeys key) (a_sectionKeys a)
           | None => false
           end)
        anchors
  end.

(** The section-proximity loop over [scoredTables]. *)
Definition proximityBoost (chunks : list chunk) (anchors : list anchor) (maxText : Q)
           (l : list entry) : list entry :=
  map (fun e =>
         if isNeighbor anchors (chunkAt chunks (index e))
         then mkEntry (index e) (Math_max (score e) (maxText * 0.98)%Q)
         else e) l.

Definition isRegimenOrDecision (c : chunk) : bool :=
  let subtype := lc (table_subtype c) in
  String.eqb subtype "regimen" || String.eqb subtype "decision".

(** The test guarding [entry.score *= 0.97] in the Module 5 penalty loop. *)
Definition stalePedsTable (c : chunk) : bool :=
  let doc := lc (doc_id c) in
  let ct := lc (content_type c) in
  JS.includes doc "module5" && JS.includes doc "pediatr" &&
  String.eqb ct "table" && isRegimenOrDecision c.

(** The test guarding [entry.score *= 0.97] in the TPT penalty loop. *)
Definition stalePedsTptTable (c : chunk) : bool :=
  let section := lc (section_path c) in
  stalePedsTable c &&
  (JS.includes section "3.3.5" || JS.includes section "3.3.6" ||
   JS.includes section "preventive treatment").

Definition penalize (test : chunk -> bool) (chunks : list chunk) (l : list entry)
  : list entry :=
  map (fun e => if test (chunkAt chunks (index e))
                then mkEntry (index e) (score e * 0.97)%Q else e) l.

(** ** Channel merge, guarantee and de-duplication *)

Definition TEXT_LIMIT : nat := 20.
Definition TABLE_LIMIT : nat := 8.

Definition isModule4DrCandidate (chunks : list chunk) (e : entry) : bool :=
  let c := chunkAt chunks (index e) in
  let doc := lc (doc_id c) in
  let section := lc (section_path c) in
  JS.includes doc "module4" && JS.includes doc "treatment" &&
  JS.includes section "chapter 2 : drug-resistant tb treatment".

Definition isModule1TptCandidate (chunks : list chunk) (e : entry) : bool :=
  let c := chunkAt chunks (index e) in
  let doc := lc (doc_id c) in
  let section := lc (section_path c) in
  JS.includes doc "module1" && JS.includes doc "tpt" && JS.includes doc "2024" &&
  (JS.includes section "tb preventive treatment" || JS.includes section "tb infection").

(** The guarantee loop: push candidates missing from [combined] while
    [needed] is positive. *)
Fixpoint forceInclude (needed : nat) (cands combined : list entry) : list entry :=
  match cands with
  | [] => combined
  | cand :: rest =>
      if (needed <=? 0)%nat then combined
      else if existsb (fun e => (index e =? index cand)%nat) combined
           then forceInclude needed rest combined
           else forceInclude (needed - 1) rest (combined ++ [cand])
  end.

(** The de-duplication loop; [seen] is the set of chunk ids kept so far. *)
Fixpoint dedup (chunks : list chunk) (seen : list string) (l : list entry)
  : list entry :=
  match l with
  | [] => []
  | e :: rest =>
      let id := chunk_id (chunkAt chunks (index e)) in
      if negb (JS.truthy id) || JS.arr_includes seen (JS.or_empty id)
      then dedup chunks seen rest
      else e :: dedup chunks (JS.set_add seen (JS.or_empty id)) rest
  end.

(** ** The query handler *)

(** The lists the handler builds on its way from the corpus to the selected
    candidates, named after the source variables. *)
Record stages : Type := mkStages {
  st_indices : list nat;            (* [indices] *)
  st_scoredText : list entry;       (* [scoredText] after the boosts and re-sort *)
  st_tablesBoosted : list entry;    (* [scoredTables] after the boosts and re-sort *)
  st_anchors : list anchor;         (* [anchorDocSectionMap] *)
  st_tablesNear : list entry;       (* [scoredTables] after the proximity stage *)
  st_scoredTables : list entry;     (* [scoredTables] after the stale penalties *)
  st_merged : list entry;           (* [combined] before the guarantees *)
  st_combined : list entry;         (* [combined] after the guarantees *)
  st_deduped : list entry;          (* [deduped] *)
  st_top : list entry               (* [top] *)
}.

Definition isTable (chunks : list chunk) (i : nat) : bool :=
  String.eqb (lc (content_type (chunkAt chunks i))) "table".

Definition scoreAll (qEmbedding : list Q) (embeddings : list (list Q))
           (idxs : list nat) : list entry :=
  map (fun idx => mkEntry idx (cosineSim qEmbedding (nth idx embeddings []))) idxs.

(** [indices]: the scope-filtered indices, or all of them when the filter
    leaves none. *)
Definition scopedOrFull (chunks : list chunk) (embeddings : list (list Q))
           (scope : option string) : list nat :=
  let fullIndices := seq 0 (List.length embeddings) in
  let scopedIndices := filterIndicesByScope fullIndices chunks scope in
  match scopedIndices with
  | [] => fullIndices
  | _ :: _ => scopedIndices
  end.

(** The body of the handler from [fullIndices] to [top]. *)
Definition rank (it : intent) (chunks : list chunk) (embeddings : list (list Q))
           (qEmbedding : list Q) (scope : option string) (finalTopK : Z) : stages :=
  let indices := scopedOrFull chunks embeddings scope in
  let textIndices := filter (fun i => negb (isTable chunks i)) indices in
  let tableIndices := filter (isTable chunks) indices in
  let scoredText0 := sort_desc (scoreAll qEmbedding embeddings textIndices) in
  let scoredTables0 := sort_desc (scoreAll qEmbedding embeddings tableIndices) in
  let scoredText := sort_desc (boostAll it true chunks scoredText0) in
  let scoredTables1 := sort_desc (boostAll it false chunks scoredTables0) in
  let anchors := anchorDocSectionMap chunks scoredText in
  let hasModule4DrAnchor := existsb isModule4DrAnchor anchors in
  let hasModule1TptAnchor := existsb isModule1TptAnchor anchors in
  let scoredTables2 :=
    sort_desc (proximityBoost chunks anchors (maxTextScore scoredText) scoredTables1) in
  let scoredTables3 :=
    if isTreatmentScope it && isPediatric it && hasDrugResistanceIntent it &&
       hasModule4DrAnchor
    then sort_desc (penalize stalePedsTable chunks scoredTables2)
    else scoredTables2 in
  let scoredTables :=
    if isPreventionScope it && hasTptIntent it && hasModule1TptAnchor
    then sort_desc (penalize stalePedsTptTable chunks scoredTables3)
    else scoredTables3 in
  let topText := firstn (Nat.min TEXT_LIMIT (List.length scoredText)) scoredText in
  let topTables := firstn (Nat.min TABLE_LIMIT (List.length scoredTables)) scoredTables in
  let combined0 := sort_desc (topText ++ topTables) in
  let combined1 :=
    if isTreatmentScope it && isPediatric it && hasDrugResistanceIntent it
    then sort_desc (forceInclude 2 (filter (isModule4DrCandidate chunks) scoredText)
                                 combined0)
    else combined0 in
  let combined :=
    if isPreventionScope it && hasTptIntent it
    then sort_desc (forceInclude 2 (filter (isModule1TptCandidate chunks) scoredText)
                                 combined1)
    else combined1 in
  let deduped := dedup chunks [] combined in
  let top := firstn (Z.to_nat finalTopK) deduped in
  mkStages indices scoredText scoredTables1 anchors scoredTables2 scoredTables
           combined0 combined deduped top.

(** The JSON body of a request; [None] is a missing property. *)
Record request : Type := mkRequest {
  method : string;
  question : option string;
  top_k : option Z;
  req_scope : option string;
  include_table_rows : bool;
  table_row_limit : option Z
}.

(** One element of [results]. *)
Record result : Type := mkResult {
  res_doc_id : option string;
  res_guideline_title : option string;
  res_year : option string;
  res_chunk_id : option string;
  res_section_path : option string;
  res_text : option string;
  res_content_type : option string;
  res_attachment_id : option string;
  res_attachment_path : option string;
  res_table_subtype : option string;
  res_table_text : option string;
  res_table_rows : option (list rawrow);
  res_table_row_count : option nat;
  res_score : Q
}.

Inductive response : Type :=
| Failure (status : nat) (error : string)
| Success (question : string) (top_k : Z) (scope : option string)
          (results : list result).

Definition intentOf (intentFlags : list string) (scope : option string) : intent :=
  let hasFlag := JS.arr_includes intentFlags in
  let scopeIs s := match scope with Some x => String.eqb x s | None => false end in
  mkIntent (hasFlag "special_populations") (hasFlag "drug_resistance") (hasFlag "tpt")
           (scopeIs "diagnosis") (scopeIs "treatment") (scopeIs "prevention").

(** The scope the handler works with: the caller's, else the inferred one. *)
Definition resolveScope (req : request) : option string :=
  if JS.truthy (req_scope req) then req_scope req
  else inferScopeFromQuestion (question req)
                              (inferIntentFlags (JS.or_empty (question req))).

(** [finalTopK] after both clamps *)
Definition clampTopK (req : request) (embeddingCount : nat) : Z :=
  let k := match top_k req with Some k => k | None => 8%Z end in
  Z.min (Z.max 1 (Z.min k 8)) (Z.of_nat embeddingCount).

Section Handler.

(** [loadRagStore()]: the cached corpus, or the error of a failed load. *)
Variable loadRagStore : outcome (list chunk * list (list Q)).

(** [embedQuestion(question)]: the embedding provider. *)
Variable embedQuestion : string -> outcome (list Q).

Variable loadTableRows : string -> outcome (list rawrow).
Variable renderSubtype :
  string -> chunk -> list lrow -> option rawrow -> outcome rendered.

Definition resultOf (chunks : list chunk) (options : enrichOptions) (e : entry)
  : result :=
  let baseChunk := chunkAt chunks (index e) in
  let c := enrichChunkWithTable loadTableRows renderSubtype baseChunk options in
  mkResult (doc_id c) (guideline_title c) (year c) (chunk_id c) (section_path c)
           (text c) (content_type c) (attachment_id c) (attachment_path c)
           (table_subtype c) (table_text c)
           (if includeTableRows options then table_rows c else None)
           (table_row_count c) (score e).

(** The stages of a query that got past validation, store and embedding. *)
Definition stagesOf (req : request) (chunks : list chunk)
           (embeddings : list (list Q)) (qEmbedding : list Q) : stages :=
  let scope := resolveScope req in
  let intentFlags := inferIntentFlags (JS.or_empty (question req)) in
  rank (intentOf intentFlags scope) chunks embeddings qEmbedding scope
       (clampTopK req (List.length embeddings)).

(** The exported request handler. *)
Definition handler (req : request) : response :=
  if negb (String.eqb (method req) "POST")
  then Failure 405 "Use POST to query the TB RAG store."
  else
    let tableRowLimit :=
      match table_row_limit req with
      | Some l => Z.max 1 (Z.min 500 l)
      | None => 150%Z
      end in
    if negb (JS.truthy (question req)) ||
       String.eqb (JS.trim (JS.or_empty (question req))) EmptyString
    then Failure 400 "Missing or empty 'question' string in request body."
    else
      match loadRagStore with
      | Thrown m => Failure 500 m
      | Returned (chunks, embeddings) =>
          match embeddings, chunks with
          | [], _ | _, [] => Failure 500 "RAG store is empty or failed to load."
          | _, _ =>
              match embedQuestion (JS.or_empty (question req)) with
              | Thrown m => Failure 500 m
              | Returned qEmbedding =>
                  let st := stagesOf req chunks embeddings qEmbedding in
                  (* [chunks[i].content_type] throws on a missing chunk *)
                  if existsb (fun i => (List.length chunks <=? i)%nat) (st_indices st)
                  then Failure 500
                         "Cannot read properties of undefined (reading 'content_type')"
                  else
                    let options :=
                      mkEnrichOptions (include_table_rows req) (Some tableRowLimit) in
                    Success (JS.or_empty (question req))
                            (clampTopK req (List.length embeddings))
                            (resolveScope req)
                            (map (resultOf chunks options) (st_top st))
              end
          end
      end.

End Handler.

(** ** Corpus store: unit normalisation of embedding vectors *)

(** The arithmetic [normalize] runs on.  The source runs on binary64
    numbers; the same text is also read over exact arithmetic, to tell what
    is due to rounding. *)
Class JSNumber (N : Type) : Type := {
  num_zero : N;
  (** [x + y], [x * y], [x / y], [Math.sqrt(x)] *)
  num_add : N -> N -> N;
  num_mul : N -> N -> N;
  num_div : N -> N -> N;
  num_sqrt : N -> N;
  (** [!x]: zero and NaN are falsy *)
  num_falsy : N -> bool;
  (** [Number.isFinite(x)] *)
  num_isFinite : N -> bool
}.

Section Normalize.
Context {N : Type} {number : JSNumber N}.

(** The value of [norm] after the loop and the square root. *)
Definition euclideanNorm (vec : list N) : N :=
  num_sqrt (fold_left (fun norm v => num_add norm (num_mul v v)) vec num_zero).

(** [normalize(vec)] *)
Definition normalize (vec : list N) : list N :=
  let norm := euclideanNorm vec in
  if num_falsy norm || negb (num_isFinite norm) then map (fun _ => num_zero) vec
  else map (fun v => num_div v norm) vec.

End Normalize.

(** *** Binary64 numbers, as JavaScript has them *)

Module Binary64.
Import Floats.

#[global] Instance binary64 : JSNumber float := {|
  num_zero := 0%float;
  num_add := PrimFloat.add;
  num_mul := PrimFloat.mul;
  num_div := PrimFloat.div;
  num_sqrt := PrimFloat.sqrt;
  num_falsy := fun x => PrimFloat.is_zero x || PrimFloat.is_nan x;
  num_isFinite := PrimFloat.is_finite
|}.

(** The number is NaN or an infinity. *)
Definition isSpecial (x : float) : bool :=
  match Prim2SF x with
  | S754_nan | S754_infinity _ => true
  | _ => false
  end.

(** The number is +0 or -0. *)
Definition isZero (x : float) : bool :=
  match Prim2SF x with
  | S754_zero _ => true
  | _ => false
  end.

(** The exact value of a number that is neither NaN nor an infinity. *)
Definition valueOf (x : float) : option Q :=
  match Prim2SF x with
  | S754_zero _ => Some 0%Q
  | S754_finite s m e =>
      let v := (inject_Z (Zpos m) * Qpower 2 e)%Q in
      Some (if s then Qopp v else v)
  | _ => None
  end.

(** The exact sum of the squares of the components, when all are finite:
    the square of the Euclidean norm. *)
Fixpoint sumOfSquares (l : list float) : option Q :=
  match l with
  | [] => Some 0%Q
  | x :: l' =>
      match valueOf x, sumOfSquares l' with
      | Some v, Some s => Some (v * v + s)%Q
      | _, _ => None
      end
  end.

(** The vector has Euclidean norm 1, in exact terms. *)
Definition unitNorm (out : list float) : Prop :=
  exists q, sumOfSquares out = Some q /\ (q == 1)%Q.

(** The all-zero vector of the length of [vec]. *)
Definition zeros (vec : list float) : list float := map (fun _ => 0%float) vec.

(** The input is degenerate or not finite: its components are all zero, or
    one of them is NaN or an infinity. *)
Definition degenerate (vec : list float) : Prop :=
  forallb isZero vec = true \/ existsb isSpecial vec = true.

(** Sample vectors: (3, 4) and its normalisation (0.6, 0.8) as binary64
    numbers; (1, 1); (2^700, 2^700), whose squares overflow;
    (2^-700, 2^-700), whose squares underflow; and a vector with a NaN. *)
Definition threeFour : list float := [3%float; 4%float].
Definition threeFourUnit : list float :=
  [0x1.3333333333333p-1%float; 0x1.999999999999ap-1%float].
Definition ones : list float := [1%float; 1%float].
Definition huge : list float := [0x1p700%float; 0x1p700%float].
Definition tiny : list float := [0x1p-700%float; 0x1p-700%float].
Definition withNaN : list float := [nan; 1%float].

End Binary64.

(** *** Exact numbers *)

Module Num.

(** A number whose finite values are exact reals: rounding and overflow of
    binary64 are left out, NaN and the infinities are kept. *)
Inductive num : Type :=
| Fin (r : R)
| PosInf
| NegInf
| NaN.

Definition Rzerob (r : R) : bool := if Req_dec_T r 0%R then true else false.
Definition Rnegb (r : R) : bool := if Rlt_dec r 0%R then true else false.

(** an infinity of the given sign *)
Definition inf (negative : bool) : num := if negative then NegInf else PosInf.

Definition mul (x y : num) : num :=
  match x, y with
  | NaN, _ | _, NaN => NaN
  | Fin a, Fin b => Fin (a * b)
  | Fin a, PosInf | PosInf, Fin a => if Rzerob a then NaN else inf (Rnegb a)
  | Fin a, NegInf | NegInf, Fin a => if Rzerob a then NaN else inf (negb (Rnegb a))
  | PosInf, PosInf | NegInf, NegInf => PosInf
  | PosInf, NegInf | NegInf, PosInf => NegInf
  end.

Definition add (x y : num) : num :=
  match x, y with
  | NaN, _ | _, NaN => NaN
  | Fin a, Fin b => Fin (a + b)
  | PosInf, NegInf | NegInf, PosInf => NaN
  | PosInf, _ | _, PosInf => PosInf
  | NegInf, _ | _, NegInf => NegInf
  end.

Definition div (x y : num) : num :=
  match x, y with
  | NaN, _ | _, NaN => NaN
  | Fin a, Fin b =>
      if Rzerob b then (if Rzerob a then NaN else inf (Rnegb a)) else Fin (a / b)
  | Fin _, PosInf | Fin _, NegInf => Fin 0
  | PosInf, Fin b => inf (Rnegb b)
  | NegInf, Fin b => inf (negb (Rnegb b))
  | _, _ => NaN
  end.

(** [Math.sqrt(x)] *)
Definition Math_sqrt (x : num) : num :=
  match x with
  | Fin a => if Rnegb a then NaN else Fin (sqrt a)
  | PosInf => PosInf
  | NegInf | NaN => NaN
  end.

(** [Number.isFinite(x)] *)
Definition isFinite (x : num) : bool :=
  match x with
  | Fin _ => true
  | _ => false
  end.

(** [!x]: zero and NaN are falsy *)
Definition falsy (x : num) : bool :=
  match x with
  | Fin a => Rzerob a
  | NaN => true
  | _ => false
  end.

#[global] Instance exact : JSNumber num := {|
  num_zero := Fin 0;
  num_add := add;
  num_mul := mul;
  num_div := div;
  num_sqrt := Math_sqrt;
  num_falsy := falsy;
  num_isFinite := isFinite
|}.

(** The accumulator of the loop of [normalize], started at [acc]. *)
Definition sumSquares (acc : num) (vec : list num) : num :=
  fold_left (fun norm v => add norm (mul v v)) vec acc.

(** The sum of the squares of a list of reals. *)
Fixpoint sq_sum (rs : list R) : R :=
  match rs with
  | [] => 0%R
  | r :: rs' => (r * r + sq_sum rs')%R
  end.

(** The all-zero vector of the length of [vec]. *)
Definition zeroVector (vec : list num) : list num := map (fun _ => Fin 0) vec.

(** The input is degenerate or not finite: its components are all zero, or
    one of them is NaN or an infinity. *)
Definition degenerateInput (vec : list num) : Prop :=
  Forall (fun v => v = Fin 0) vec \/ exists v, In v vec /\ forall r, v <> Fin r.

End Num.

(** ** Notions used to state the properties *)

(** Position of a scope in a priority list (its length when absent). *)
Fixpoint position (t : string) (l : list string) : nat :=
  match l with
  | [] => 0
  | x :: l' => if String.eqb x t then 0 else S (position t l')
  end.

(** The candidate set as a function of the four guards of the source. *)
Definition candidatesOf (prevention screening diagnosis treatment : bool)
  : list string :=
  let c1 := if prevention then JS.set_add [] "prevention" else [] in
  let c2 := if screening then JS.set_add c1 "screening" else c1 in
  let c3 := if diagnosis then JS.set_add c2 "diagnosis" else c2 in
  if treatment then JS.set_add c3 "treatment" else c3.

(** Descending order: every later element scores at most the earlier one. *)
Definition descending (l : list entry) : Prop :=
  StronglySorted (fun a b => (score b <= score a)%Q) l.

(** The corpus indices of a list of candidates. *)
Definition indices_of (l : list entry) : list nat := map index l.

(** [!alreadyIn] for a candidate against the current [combined] *)
Definition absentFrom (combined : list entry) (cand : entry) : bool :=
  negb (existsb (fun e => (index e =? index cand)%nat) combined).

(** The [chunk_id] the de-duplication loop reads for a candidate. *)
Definition idOf (chunks : list chunk) (e : entry) : option string :=
  chunk_id (chunkAt chunks (index e)).

(** The table-row limit the handler passes to the enrichment. *)
Definition rowLimitOf (req : request) : Z :=
  match table_row_limit req with
  | Some l => Z.max 1 (Z.min 500 l)
  | None => 150%Z
  end.

(** [enrichmentOptions] *)
Definition optionsOf (req : request) : enrichOptions :=
  mkEnrichOptions (include_table_rows req) (Some (rowLimitOf req)).

(** [body.top_k], or the default 8 when it is not a number *)
Definition requestedTopK (req : request) : Z :=
  match top_k req with
  | Some n => n
  | None => 8%Z
  end.

(** The chunk carries a non-empty [chunk_id]. *)
Definition hasId (c : chunk) : Prop := JS.truthy (chunk_id c) = true.

(** *** Section keys, as the specification words them

    The section keys of a path are the full lower-cased path, each
    pipe-delimited segment, and each embedded numeric heading like 3.2.
    The notions below spell this out without the scanner of
    [extractSectionKeys]. *)

(** A dotted number: one or more runs of digits joined by single dots. *)
Inductive dotted : list ascii -> Prop :=
| dotted_digits (ds : list ascii) :
    ds <> [] -> Forall (fun c => is_digit c = true) ds -> dotted ds
| dotted_group (ds k : list ascii) :
    ds <> [] -> Forall (fun c => is_digit c = true) ds -> dotted k ->
    dotted (ds ++ "."%char :: k).

(** No word character stands at the end of [pre]. *)
Definition boundaryBefore (pre : list ascii) : Prop :=
  match rev pre with
  | [] => True
  | c :: _ => is_word c = false
  end.

(** No word character stands at the start of [post]. *)
Definition boundaryAfter (post : list ascii) : Prop :=
  match post with
  | [] => True
  | c :: _ => is_word c = false
  end.

(** [k] is a dotted number that stands in [s] between [pre] and [post], with
    no word character right before it or right after it. *)
Definition numberAt (s pre k post : list ascii) : Prop :=
  s = pre ++ k ++ post /\ dotted k /\ boundaryBefore pre /\ boundaryAfter post.

(** [k] is a numeric heading embedded in [s]: a dotted number of [s] that is
    not part of a longer one. *)
Definition numericHeading (s k : list ascii) : Prop :=
  exists pre post,
    numberAt s pre k post /\
    forall before a b after,
      pre = before ++ a -> post = b ++ after ->
      numberAt s before (a ++ k ++ b) after ->
      a = [] /\ b = [].

(** *** Notions used to relate the scanner to the numeric headings *)

(** The next character, if any, is no digit. *)
Definition digitsEnd (l : list ascii) : Prop :=
  match l with
  | [] => True
  | c :: _ => is_digit c = false
  end.

(** Zero or more groups of a dot and a run of digits: what follows the
    first run of digits of a dotted number. *)
Inductive groups : list ascii -> Prop :=
| groups_nil : groups []
| groups_cons (ds m : list ascii) :
    ds <> [] -> Forall (fun c => is_digit c = true) ds -> groups m ->
    groups ("."%char :: ds ++ m).

(** A word character stands at the end of [pre]. *)
Definition wordBefore (pre : list ascii) : bool :=
  match rev pre with
  | [] => false
  | c :: _ => is_word c
  end.

(** No dotted number of [pre ++ l] between word boundaries begins in [pre]
    and ends in [l]: the scanner has left none behind when it stands
    between [pre] and [l]. *)
Definition nothingPending (pre l : list ascii) : Prop :=
  forall before k after,
    numberAt (pre ++ l) before k after ->
    List.length before < List.length pre ->
    List.length before + List.length k <= List.length pre.

(** [key] is a section key of a non-empty section path: the lower-cased
    path or one of its pipe-delimited segments, without the white space
    around them (an empty segment is none), or a numeric heading embedded
    in the lower-cased path. *)
Definition sectionKey (sectionPath key : string) : Prop :=
  sectionPath <> EmptyString /\
  let s := JS.toLowerCase sectionPath in
  (key = JS.trim s \/
   (key <> EmptyString /\
    exists segment, In segment (JS.split "|"%char s) /\ key = JS.trim segment) \/
   numericHeading (list_ascii_of_string s) (list_ascii_of_string key)).

(** A table chunk [t] shares a document id and a section key with one of
    the (up to ten) best prose candidates.  A missing or empty [doc_id] is
    no document id. *)
Definition sharesAnchor (chunks : list chunk) (scoredText : list entry) (t : chunk)
  : Prop :=
  exists p,
    In p (firstn 10 scoredText) /\
    JS.truthy (doc_id (chunkAt chunks (index p))) = true /\
    doc_id (chunkAt chunks (index p)) = doc_id t /\
    exists key,
      sectionKey (JS.or_empty (section_path (chunkAt chunks (index p)))) key /\
      sectionKey (JS.or_empty (section_path t)) key.

(** How the proximity stage relates a table candidate before ([e0]) and
    after ([e]) it. *)
Definition proximityOutcome (chunks : list chunk) (scoredText : list entry)
           (best : Q) (e0 e : entry) : Prop :=
  index e = index e0 /\
  (sharesAnchor chunks scoredText (chunkAt chunks (index e0)) ->
   (best * 0.98 <= score e)%Q) /\
  (~ sharesAnchor chunks scoredText (chunkAt chunks (index e0)) ->
   score e = score e0).

(** The two guarantee blocks of the merge step. *)
Inductive guarantee : Type :=
| Module4Dr    (* drug-resistant treatment chapter of Module 4 *)
| Module1Tpt.  (* preventive treatment sections of Module 1, 2024 edition *)

(** The guard of a guarantee block, in terms of the scope and intent flags. *)
Definition guaranteeActive (g : guarantee) (flags : list string)
           (scope : option string) : Prop :=
  match g with
  | Module4Dr =>
      scope = Some "treatment" /\
      JS.arr_includes flags "special_populations" = true /\
      JS.arr_includes flags "drug_resistance" = true
  | Module1Tpt =>
      scope = Some "prevention" /\ JS.arr_includes flags "tpt" = true
  end.

(** The candidate filter of a guarantee block. *)
Definition guaranteeCandidate (g : guarantee) (chunks : list chunk) (e : entry)
  : bool :=
  match g with
  | Module4Dr => isModule4DrCandidate chunks e
  | Module1Tpt => isModule1TptCandidate chunks e
  end.

(** A Module 4 drug-resistant-treatment candidate of the current edition,
    recognised by the year in the document id as in the authority boost. *)
Definition isCurrentModule4DrCandidate (chunks : list chunk) (e : entry) : bool :=
  isModule4DrCandidate chunks e &&
  JS.includes (lc (doc_id (chunkAt chunks (index e)))) "2025".

(** The caption and header cues of the dosing test of [detectTableSubtype]. *)
Definition dosingCaptionCues : list string :=
  ["dose"; "dosage"; "dosing"; "mg/kg"; "mg/ day"; "mg per kg"; "weight band";
   "weight-band"].

Definition dosingHeaderCues : list string :=
  ["kg"; "dose"; "weight band"; "weight-band"].

(** The note [renderDosingTable] adds when it falls back. *)
Definition fallbackNote : dval := DStr "fallback_generic_no_weight_bands".

(** The result built from a chunk that the enrichment returned as it was. *)
Definition plainResult (c : chunk) (includeRows : bool) (s : Q) : result :=
  mkResult (doc_id c) (guideline_title c) (year c) (chunk_id c) (section_path c)
           (text c) (content_type c) (attachment_id c) (attachment_path c)
           (table_subtype c) (table_text c)
           (if includeRows then table_rows c else None)
           (table_row_count c) s.

(** Loading the attachment of the table chunk [c], or rendering it, throws. *)
Definition enrichmentFails
           (loadTableRows : string -> outcome (list rawrow))
           (renderSubtype :
              string -> chunk -> list lrow -> option rawrow -> outcome rendered)
           (c : chunk) : Prop :=
  lc (content_type c) = "table" /\
  JS.truthy (attachment_path c) = true /\
  ((exists m, loadTableRows (JS.or_empty (attachment_path c)) = Thrown m) \/
   (exists rawRows m,
       loadTableRows (JS.or_empty (attachment_path c)) = Returned rawRows /\
       renderTable renderSubtype c rawRows = Thrown m)).

(** ** Sample corpora *)

Module Sample.

(** A chunk with the given identity, document, section, scope tag and type. *)
Definition chunkOf (id doc sec scp ct : option string) : chunk :=
  {| chunk_id := id; doc_id := doc; guideline_title := None; year := None;
     section_path := sec; scope := scp; content_type := ct;
     text := Some "guidance"; caption := None; attachment_id := None;
     attachment_path := None; table_subtype := None; table_text := None;
     table_rows := None; table_row_count := None; table_debug := None |}.

Definition noEmbedding : string -> outcome (list Q) :=
  fun _ => Returned [1%Q; 0%Q].

Definition noTables : string -> outcome (list rawrow) :=
  fun _ => Thrown "ENOENT: no such file or directory".

Definition noRenderer
  : string -> chunk -> list lrow -> option rawrow -> outcome rendered :=
  fun _ _ _ _ => Thrown "renderer failed".

Definition post (q : string) (k : option Z) (scp : option string) : request :=
  mkRequest "POST" (Some q) k scp false None.

(** Two prose chunks tagged for diagnosis, one of them without a chunk_id. *)
Definition tagged : list chunk :=
  [ chunkOf (Some "m3-1") (Some "who_module3_diagnosis_2024")
            (Some "Chapter 1 | 1.2 Initial tests") (Some "diagnosis") (Some "prose");
    chunkOf None (Some "who_module3_diagnosis_2024")
            (Some "Chapter 1 | 1.3 Follow-on tests") (Some "diagnosis") (Some "prose") ].

Definition taggedEmbeddings : list (list Q) := [[1%Q; 0%Q]; [0%Q; 1%Q]].

(** A manifest whose only chunk has no chunk_id. *)
Definition anonymous : list chunk :=
  [ chunkOf None (Some "who_module4_treatment_2025")
            (Some "Chapter 1 | 1.1 Regimens") None (Some "prose") ].

Definition anonymousEmbeddings : list (list Q) := [[1%Q; 0%Q]].

End Sample.

(** A corpus for a pediatric drug-resistant treatment query: the current
    Module 4 chapter on drug-resistant treatment, a Module 5 pediatric table,
    a Module 4 table of the same section, twenty other Module 4 prose chunks
    and the same chapter in an older edition. *)
Module SampleDr.

Definition tableChunk (id doc sec path : string) : chunk :=
  {| chunk_id := Some id; doc_id := Some doc; guideline_title := None; year := None;
     section_path := Some sec; scope := None; content_type := Some "table";
     text := None; caption := None; attachment_id := None;
     attachment_path := Some path; table_subtype := None; table_text := None;
     table_rows := None; table_row_count := None; table_debug := None |}.

Definition filler (i : nat) : chunk :=
  Sample.chunkOf (Some ("m4-c3-" ^^ nat_to_string i))
                 (Some "who_module4_treatment_2025")
                 (Some "Chapter 3 | 3.1 Treatment monitoring") None (Some "prose").

Definition corpus : list chunk :=
  [ Sample.chunkOf (Some "m4-dr") (Some "who_module4_treatment_2025")
                   (Some "Chapter 2 : Drug-resistant TB treatment | 2.1 Regimens")
                   None (Some "prose");
    tableChunk "m5-t" "who_module5_pediatric_2022"
               "Chapter 5 | 5.3 MDR-TB in children" "tables/module5/Table_5_3.csv";
    tableChunk "m4-t" "who_module4_treatment_2025"
               "Chapter 2 : Drug-resistant TB treatment | 2.1 Regimens"
               "tables/module4/Table_2_1.csv" ]
  ++ map filler (seq 0 20)
  ++ [ Sample.chunkOf (Some "m4-dr-2022") (Some "who_module4_treatment_2022")
                      (Some "Chapter 2 : Drug-resistant TB treatment | 2.3 Longer regimens")
                      None (Some "prose") ].

Definition embeddings : list (list Q) :=
  [ [1%Q; 0%Q]; [0.95%Q; 0%Q]; [0.5%Q; 0%Q] ]
  ++ repeat [0.9%Q; 0%Q] 20
  ++ [ [0.1%Q; 0%Q] ].

Definition flags : list string := ["special_populations"; "drug_resistance"].

Definition query : request :=
  Sample.post "mdr-tb child which regimen" (Some 8%Z) None.

Definition regimenRows : list rawrow :=
  [ [("row_index", "1"); ("ColumnA", "Regimen"); ("ColumnB", "Drugs")];
    [("row_index", "2"); ("ColumnA", "Longer regimen"); ("ColumnB", "Bdq-Lzd-Lfx-Cfz")] ].

Definition tables (path : string) : outcome (list rawrow) :=
  if String.eqb path "tables/module5/Table_5_3.csv" then Returned regimenRows
  else Thrown "ENOENT: no such file or directory".

Definition renderers
  : string -> chunk -> list lrow -> option rawrow -> outcome rendered :=
  fun name _ rows _ =>
    Returned (mkRendered "Regimen summary"
                         [("renderer", DStr name);
                          ("row_count", DNum (List.length rows))]).

Definition stagesOfQuery : stages :=
  stagesOf query corpus embeddings [1%Q; 0%Q].

End SampleDr.

(** ** Further notions: similarity *)

(** The sum of the products of the components two vectors have in common. *)
Definition sumOfProducts (a b : list Q) : Q :=
  fold_right Qplus 0%Q (map (fun p => (fst p * snd p)%Q) (combine a b)).

(** ** Further notions: intent flags *)

(** The flag names [inferIntentFlags] can emit. *)
Definition knownFlags : list string :=
  flat_map snd intentGroups.

(** The flags that describe the population, which the scope resolver skips. *)
Definition populationFlags : list string :=
  ["special_populations"; "comorbidities"].

(** The scopes [inferScopeFromQuestion] can answer. *)
Definition inferableScopes : list string :=
  ["prevention"; "screening"; "diagnosis"; "treatment"].

(** The flags pushed for the lower-cased question [q], before [new Set]. *)
Definition pushedFlags (q : string) : list string :=
  fold_left (fun acc g => if existsb (JS.includes q) (fst g) then acc ++ snd g else acc)
            intentGroups [].

(** ** Further notions: tables *)

(** [String(r.row_index)] *)
Definition rowIndexText (r : rawrow) : string := JS.to_String (row_index r).

(** The property names of an object, in insertion order. *)
Definition propertyNames {V : Type} (o : Obj.t V) : list string := map fst o.

(** ** Further notions: responses *)

(** Results listed by descending score. *)
Definition byScoreDescending (results : list result) : Prop :=
  StronglySorted (fun r1 r2 => (res_score r2 <= res_score r1)%Q) results.

(** The result [r] reports the manifest chunk [c] with its own metadata. *)
Definition reportsChunk (r : result) (c : chunk) : Prop :=
  res_chunk_id r = chunk_id c /\ res_doc_id r = doc_id c /\
  res_guideline_title r = guideline_title c /\ res_year r = year c /\
  res_section_path r = section_path c /\ res_text r = text c /\
  res_content_type r = content_type c /\ res_attachment_id r = attachment_id c /\
  res_attachment_path r = attachment_path c.

(** No scope switch and no drug-resistance flag: nothing for the boosts to act on. *)
Definition noBoostTrigger (it : intent) : Prop :=
  isTreatmentScope it = false /\ isDiagnosisScope it = false /\
  isPreventionScope it = false /\ hasDrugResistanceIntent it = false.

(** A question the handler rejects: missing, empty or blank. *)
Definition blankQuestion (req : request) : bool :=
  negb (JS.truthy (question req)) ||
  String.eqb (JS.trim (JS.or_empty (question req))) EmptyString.


(** ** The dedicated renderers *)

(** [!arr.length] *)
Definition noLength {A : Type} (l : list A) : bool :=
  match l with [] => true | _ => false end.

(** [keys.map((k) => nonEmpty(row[k]) ? `${k}: ${String(row[k]).trim()}` : null)
    .filter(Boolean)] *)
Definition labelledCells (row : lrow) (keys : list string) : list string :=
  flat_map (fun k =>
              let v := cell row k in
              if negb (nonEmpty v) then [] else [k ^^ ": " ^^ JS.trim (JS.to_String v)])
           keys.

(** [headers.find((h) => /p1|p2|.../i.test(h.toLowerCase())) || null] *)
Definition findHeader (pats : list string) (headers : list string) : option string :=
  match find (fun h => anyIncludes (JS.toLowerCase h) pats) headers with
  | Some h => if JS.truthy (Some h) then Some h else None
  | None => None
  end.

(** [key ? row[key] : null] *)
Definition cellAt (row : lrow) (key : option string) : option string :=
  if JS.truthy key then cell row (JS.or_empty key) else None.

(** an optional header name inside a debug record *)
Definition dkey (key : option string) : dval :=
  match key with Some k => DStr k | None => DNull end.

(** the early return of every renderer for a table without rows or headers *)
Definition noRowsFound (renderer caption : string) (headers : list string)
           (rows : list lrow) : rendered :=
  mkRendered (caption ^^ ". (No rows found.)")
             [("renderer", DStr renderer); ("header_keys", DStrs headers);
              ("row_count", DNum (List.length rows))].

(** [{ text: generic.text, debug: { ...generic.debug, renderer, note } }] *)
Definition genericFallback (renderer note : string) (c : chunk) (rows : list lrow)
           (hdr : option rawrow) : rendered :=
  let generic := renderGenericTable c rows hdr in
  mkRendered (r_text generic)
             (Obj.spread (r_debug generic)
                         [("renderer", DStr renderer); ("note", DStr note)]).

(** [rows.forEach((row, idx) => ...)] acting on the loop's variables [s],
    [idx] counting from [i] *)
Fixpoint forEachFrom {S : Type} (body : S -> lrow -> nat -> S) (i : nat)
         (rows : list lrow) (s : S) : S :=
  match rows with
  | [] => s
  | row :: rest => forEachFrom body (i + 1) rest (body s row i)
  end.

Definition forEach {S : Type} (body : S -> lrow -> nat -> S) (rows : list lrow)
           (s : S) : S :=
  forEachFrom body 0 rows s.

(** [`Row ${idx + 1}: ${cells.join("; ")}`] *)
Definition rowLine (idx : nat) (cells : list string) : string :=
  "Row " ^^ nat_to_string (idx + 1) ^^ ": " ^^ JS.join "; " cells.

(** *** [renderPedsDosingTable] *)

Definition medicinePatterns : list string :=
  ["medicine"; "drug"; "product"; "regimen"; "group"; "tb drug"].

(** the body of the row loop of [renderPedsDosingTable] *)
Definition pedsDosingRow (headers weightBandKeys otherKeys extraWeightKeys : list string)
           (medKey : string) (formKey : option string) (medIsWeight : bool)
           (lines : list string) (row : lrow) (idx : nat) : list string :=
  let med := cell row medKey in
  if negb (nonEmpty med) then lines
  else
    let form := cellAt row formKey in
    let bandParts := labelledCells row weightBandKeys in
    let doseParts := labelledCells row (otherKeys ++ extraWeightKeys) in
    let line0 := JS.to_String med in
    let line1 :=
      if JS.truthy form then line0 ^^ " (" ^^ JS.to_String form ^^ ")" else line0 in
    if noLength bandParts && noLength doseParts then
      let cells := labelledCells row headers in
      if noLength cells then lines
      else lines ++ [line1 ^^ " -> " ^^ JS.join "; " cells]
    else
      let parts :=
        (if medIsWeight then [medKey ^^ ": " ^^ JS.trim (JS.to_String med)]
         else bandParts) ++ doseParts in
      lines ++ [line1 ^^ " -> " ^^ JS.join "; " parts].

(** [renderPedsDosingTable(chunk, logicalRows, headerRow)] *)
Definition renderPedsDosingTable (c : chunk) (rows : list lrow) (hdr : option rawrow)
  : rendered :=
  let caption := or_default (caption c) "Paediatric dosing table" in
  let headers := getTableHeaders rows in
  match rows, headers with
  | [], _ | _, [] => noRowsFound "peds_dosing" caption headers rows
  | _, h0 :: _ =>
      let medKey :=
        match findHeader medicinePatterns headers with
        | Some h => h
        | None => h0
        end in
      let formKey :=
        findHeader ["formulation"; "form"; "dispersible"; "fdc"] headers in
      let weightBandKeys := filter weightBandLike headers in
      let otherKeys :=
        filter (fun h => negb (String.eqb h medKey) &&
                         negb (match formKey with
                               | Some f => String.eqb h f
                               | None => false
                               end) &&
                         negb (JS.arr_includes weightBandKeys h))
               headers in
      let medIsWeight := JS.arr_includes weightBandKeys medKey in
      let extraWeightKeys :=
        if medIsWeight
        then filter (fun k => negb (String.eqb k medKey)) weightBandKeys
        else [] in
      if noLength weightBandKeys then
        genericFallback "peds_dosing" "fallback_generic_no_weight_bands" c rows hdr
      else
        let lines :=
          forEach (pedsDosingRow headers weightBandKeys otherKeys extraWeightKeys
                                 medKey formKey medIsWeight)
                  rows [caption ^^ ". Paediatric weight-band dosing summary:"] in
        mkRendered (JS.join newline lines)
                   [("renderer", DStr "peds_dosing"); ("header_keys", DStrs headers);
                    ("row_count", DNum (List.length rows)); ("med_key", DStr medKey);
                    ("form_key", dkey formKey);
                    ("weight_band_keys", DStrs weightBandKeys)]
  end.

(** *** [renderRegimenTable] *)

(** the body of the row loop of [renderRegimenTable] *)
Definition regimenRow (headers : list string) (regimenKey : string)
           (drugsKey durationKey : option string)
           (lines : list string) (row : lrow) (idx : nat) : list string :=
  let regimen := cell row regimenKey in
  if negb (nonEmpty regimen) then
    let cells := labelledCells row headers in
    if noLength cells then lines else lines ++ [rowLine idx cells]
  else
    let parts :=
      (if JS.truthy drugsKey && nonEmpty (cellAt row drugsKey)
       then [JS.trim (JS.to_String (cellAt row drugsKey))] else []) ++
      (if JS.truthy durationKey && nonEmpty (cellAt row durationKey)
       then ["duration: " ^^ JS.trim (JS.to_String (cellAt row durationKey))]
       else []) in
    if noLength parts then
      lines ++ [JS.to_String regimen ^^ ": " ^^ JS.join "; " (labelledCells row headers)]
    else
      lines ++ [JS.to_String regimen ^^ " - " ^^ JS.join "; " parts].

(** [renderRegimenTable(chunk, logicalRows, headerRow)] *)
Definition renderRegimenTable (c : chunk) (rows : list lrow) (hdr : option rawrow)
  : rendered :=
  let caption := or_default (caption c) "Regimen composition table" in
  let headers := getTableHeaders rows in
  match rows, headers with
  | [], _ | _, [] => noRowsFound "regimen" caption headers rows
  | _, h0 :: _ =>
      let regimenKey :=
        match findHeader ["regimen"; "name"; "strategy"; "option"] headers with
        | Some h => h
        | None => h0
        end in
      let drugsKey :=
        findHeader ["drug"; "component"; "medicine"; "composition"] headers in
      let durationKey :=
        findHeader ["duration"; "months"; "weeks"; "days"; "length of treatment"]
                   headers in
      let lines :=
        forEach (regimenRow headers regimenKey drugsKey durationKey)
                rows [caption ^^ ". Regimen components and options:"] in
      mkRendered (JS.join newline lines)
                 [("renderer", DStr "regimen"); ("header_keys", DStrs headers);
                  ("row_count", DNum (List.length rows));
                  ("regimen_key", DStr regimenKey); ("drugs_key", dkey drugsKey);
                  ("duration_key", dkey durationKey)]
  end.

(** *** [renderDecisionTable] *)

Definition isConditionHeader (h : string) : bool :=
  anyIncludes (JS.toLowerCase h)
    ["if"; "criteria"; "condition"; "situation"; "scenario"; "finding"; "result";
     "status"; "baseline"; "risk"].

Definition isActionHeader (h : string) : bool :=
  anyIncludes (JS.toLowerCase h)
    ["then"; "recommendation"; "action"; "management"; "treatment"; "decision";
     "next step"; "regimen"].

(** [conditionParts], [actionParts] and [otherParts] of a row *)
Record decisionParts : Type := mkDecisionParts {
  conditionParts : list string;
  actionParts : list string;
  otherParts : list string
}.

(** the inner loop [headers.forEach((h) => ...)] of [renderDecisionTable] *)
Definition decisionPartsOf (headers : list string) (row : lrow) : decisionParts :=
  fold_left
    (fun p h =>
       let v := cell row h in
       if negb (nonEmpty v) then p
       else
         let label := h ^^ ": " ^^ JS.trim (JS.to_String v) in
         if isActionHeader h
         then mkDecisionParts (conditionParts p) (actionParts p ++ [label]) (otherParts p)
         else if isConditionHeader h
         then mkDecisionParts (conditionParts p ++ [label]) (actionParts p) (otherParts p)
         else mkDecisionParts (conditionParts p) (actionParts p) (otherParts p ++ [label]))
    headers (mkDecisionParts [] [] []).

(** the loop variables of the renderers that count rows: [lines] and the
    counter *)
Definition counted : Type := (list string * nat)%type.

(** the body of the row loop of [renderDecisionTable] *)
Definition decisionRow (headers : list string) (s : counted) (row : lrow) (idx : nat)
  : counted :=
  let (lines, rowsWithIfThen) := s in
  let p := decisionPartsOf headers row in
  if noLength (conditionParts p) && noLength (actionParts p) then
    if noLength (otherParts p) then s
    else (lines ++ [rowLine idx (otherParts p)], rowsWithIfThen)
  else
    let p' :=
      if noLength (conditionParts p) && negb (noLength (otherParts p))
      then mkDecisionParts (conditionParts p ++ otherParts p) (actionParts p)
                           (otherParts p)
      else if noLength (actionParts p) && negb (noLength (otherParts p))
      then mkDecisionParts (conditionParts p) (actionParts p ++ otherParts p)
                           (otherParts p)
      else p in
    let condText :=
      if negb (noLength (conditionParts p')) then JS.join "; " (conditionParts p')
      else "the criteria in this row are met" in
    let actionText :=
      if negb (noLength (actionParts p')) then JS.join "; " (actionParts p')
      else "see other columns in this row for recommended action" in
    (lines ++ ["IF " ^^ condText ^^ " THEN " ^^ actionText], rowsWithIfThen + 1).

(** [renderDecisionTable(chunk, logicalRows, headerRow)] *)
Definition renderDecisionTable (c : chunk) (rows : list lrow) (hdr : option rawrow)
  : rendered :=
  let caption := or_default (caption c) "Decision table" in
  let headers := getTableHeaders rows in
  if noLength rows || noLength headers then noRowsFound "decision" caption headers rows
  else
    let (lines, rowsWithIfThen) :=
      forEach (decisionRow headers) rows ([caption ^^ ". IF-THEN decision rules:"], 0) in
    if (rowsWithIfThen =? 0)%nat then
      genericFallback "decision" "fallback_generic_no_if_then_rows" c rows hdr
    else
      mkRendered (JS.join newline lines)
                 [("renderer", DStr "decision"); ("header_keys", DStrs headers);
                  ("row_count", DNum (List.length rows));
                  ("rows_with_if_then", DNum rowsWithIfThen)].

(** *** [renderTimelineTable] and its helpers *)

(** [/(month|week|day)\s*\d+/.test(s)] *)
Fixpoint re_unit_number (s : string) : bool :=
  existsb
    (fun unit =>
       prefix unit s &&
       match JS.trimStart (substring (String.length unit)
                                     (String.length s - String.length unit) s) with
       | String d _ => is_digit d
       | EmptyString => false
       end)
    ["month"; "week"; "day"] ||
  match s with
  | EmptyString => false
  | String _ s' => re_unit_number s'
  end.

Definition timeWords : list string :=
  ["baseline"; "month"; "week"; "day"; "visit"; "timepoint"; "end of treatment";
   "posttreatment"; "followup"; "follow-up"; "follow up"].

(** [looksTimeLike(value)] *)
Definition looksTimeLike (value : option string) : bool :=
  if negb (JS.truthy value) then false
  else
    let s := JS.toLowerCase (JS.to_String value) in
    if anyIncludes s timeWords then true
    else if re_unit_number s then true
    else false.

(** What [guessTimelineOrientation] returns. *)
Inductive orientationInfo : Type :=
| OrientationCols (entityHeader : string) (timeHeaders : list string)
| OrientationRows (timeKey : string) (entityHeaders : list string)
| OrientationUnknown.

(** [guessTimelineOrientation(logicalRows)] *)
Definition guessTimelineOrientation (rows : list lrow) : orientationInfo :=
  let headers := getTableHeaders rows in
  match headers with
  | [] => OrientationUnknown
  | h0 :: _ =>
      let timeHeaders := filter (fun h => looksTimeLike (Some h)) headers in
      if (2 <=? List.length timeHeaders)%nat then
        let entityHeader :=
          match find (fun h => negb (JS.arr_includes timeHeaders h)) headers with
          | Some h => if JS.truthy (Some h) then h else h0
          | None => h0
          end in
        OrientationCols entityHeader timeHeaders
      else
        let firstCol := h0 in
        let sampleRows := firstn 6 rows in
        let timeLikeCount :=
          List.length (filter (fun r => looksTimeLike (cell r firstCol)) sampleRows) in
        if (2 <=? timeLikeCount)%nat then OrientationRows firstCol (tl headers)
        else OrientationUnknown
  end.

(** the row loops of [renderTimelineTable]: [label] is ["For"] or ["At"] *)
Definition timelineRow (label nameKey : string) (partKeys : list string)
           (lines : list string) (row : lrow) (idx : nat) : list string :=
  let name := cell row nameKey in
  if negb (nonEmpty name) then lines
  else
    let parts := labelledCells row partKeys in
    if noLength parts then lines
    else lines ++ [label ^^ " " ^^ JS.to_String name ^^ ": " ^^ JS.join "; " parts].

(** [renderTimelineTable(chunk, logicalRows, headerRow)] *)
Definition renderTimelineTable (c : chunk) (rows : list lrow) (hdr : option rawrow)
  : rendered :=
  let caption := or_default (caption c) "Monitoring schedule" in
  let headers := getTableHeaders rows in
  if noLength rows || noLength headers then noRowsFound "timeline" caption headers rows
  else
    let lines0 := [caption ^^ ". Follow-up schedule over time:"] in
    let fallback :=
      genericFallback "timeline" "fallback_generic_unknown_orientation" c rows hdr in
    match guessTimelineOrientation rows with
    | OrientationCols entityHeader timeHeaders =>
        let lines := forEach (timelineRow "For" entityHeader timeHeaders) rows lines0 in
        if (1 <? List.length lines)%nat then
          mkRendered (JS.join newline lines)
                     [("renderer", DStr "timeline"); ("header_keys", DStrs headers);
                      ("row_count", DNum (List.length rows));
                      ("orientation", DStr "cols");
                      ("entity_header", DStr entityHeader);
                      ("time_headers", DStrs timeHeaders)]
        else fallback
    | OrientationRows timeKey entityHeaders =>
        let lines := forEach (timelineRow "At" timeKey entityHeaders) rows lines0 in
        if (1 <? List.length lines)%nat then
          mkRendered (JS.join newline lines)
                     [("renderer", DStr "timeline"); ("header_keys", DStrs headers);
                      ("row_count", DNum (List.length rows));
                      ("orientation", DStr "rows");
                      ("time_key", DStr timeKey);
                      ("entity_headers", DStrs entityHeaders)]
        else fallback
    | OrientationUnknown => fallback
    end.

(** *** [renderInteractionTable] *)

Definition isDrugHeader (h : string) : bool :=
  anyIncludes (JS.toLowerCase h)
    ["drug1"; "drug 1"; "drug2"; "drug 2"; "drug a"; "drug b"; "medicine 1";
     "medicine 2"; "comedication"; "arv"; "antiretroviral"; "tb drug"; "rifampin";
     "rifampicin"; "rifapentine"] ||
  anyIncludes (JS.toLowerCase h) ["drug"; "medicine"; "regimen"].

(** [key && nonEmpty(row[key]) ? String(row[key]).trim() : null] *)
Definition trimmedAt (row : lrow) (key : option string) : option string :=
  if JS.truthy key && nonEmpty (cell row (JS.or_empty key))
  then Some (JS.trim (JS.to_String (cell row (JS.or_empty key))))
  else None.

(** the body of the row loop of [renderInteractionTable] *)
Definition interactionRow (headers drugHeaders : list string)
           (effectKey recKey : option string)
           (s : counted) (row : lrow) (idx : nat) : counted :=
  let (lines, rowsWithCombos) := s in
  let drugs :=
    map (fun v => JS.trim (JS.to_String v))
        (filter nonEmpty (map (cell row) drugHeaders)) in
  let effect := trimmedAt row effectKey in
  let rec := trimmedAt row recKey in
  if noLength drugs && negb (JS.truthy effect) && negb (JS.truthy rec) then
    let cells := labelledCells row headers in
    if noLength cells then s else (lines ++ [rowLine idx cells], rowsWithCombos)
  else
    let line0 := EmptyString in
    let line1 :=
      if negb (noLength drugs) then line0 ^^ "Combination " ^^ JS.join " + " drugs
      else line0 in
    let line2 :=
      if JS.truthy effect
      then line1 ^^ (if JS.truthy (Some line1) then " - " else "") ^^
           "effect: " ^^ JS.to_String effect
      else line1 in
    let line3 :=
      if JS.truthy rec
      then line2 ^^ (if JS.truthy (Some line2) then "; " else "") ^^
           "recommendation: " ^^ JS.to_String rec
      else line2 in
    (lines ++ [if JS.truthy (Some line3) then line3
               else "Row " ^^ nat_to_string (idx + 1) ^^ ": (see table)"],
     if negb (noLength drugs) then rowsWithCombos + 1 else rowsWithCombos).

(** [renderInteractionTable(chunk, logicalRows, headerRow)] *)
Definition renderInteractionTable (c : chunk) (rows : list lrow) (hdr : option rawrow)
  : rendered :=
  let caption := or_default (caption c) "Drug-drug interaction table" in
  let headers := getTableHeaders rows in
  if noLength rows || noLength headers
  then noRowsFound "interaction" caption headers rows
  else
    let effectKey :=
      findHeader ["interaction"; "effect"; "impact"; "change in level"] headers in
    let recKey :=
      findHeader ["recommendation"; "management"; "action"; "dose adjustment"; "avoid"]
                 headers in
    let drugHeaders := filter isDrugHeader headers in
    if noLength drugHeaders then
      genericFallback "interaction" "fallback_generic_no_drug_headers" c rows hdr
    else
      let (lines, rowsWithCombos) :=
        forEach (interactionRow headers drugHeaders effectKey recKey) rows
                ([caption ^^ ". Drug combinations and recommendations:"], 0) in
      if (rowsWithCombos =? 0)%nat then
        genericFallback "interaction" "fallback_generic_no_combos" c rows hdr
      else
        mkRendered (JS.join newline lines)
                   [("renderer", DStr "interaction"); ("header_keys", DStrs headers);
                    ("row_count", DNum (List.length rows));
                    ("drug_headers", DStrs drugHeaders);
                    ("effect_key", dkey effectKey);
                    ("recommendation_key", dkey recKey);
                    ("rows_with_combos", DNum rowsWithCombos)].

(** *** [renderToxicityTable] *)

(** the body of the row loop of [renderToxicityTable] *)
Definition toxicityRow (headers : list string) (gradeKey : string)
           (descKey mgmtKey : option string)
           (s : counted) (row : lrow) (idx : nat) : counted :=
  let (lines, rowsWithGrades) := s in
  let grade := cell row gradeKey in
  let desc := cellAt row descKey in
  let mgmt := cellAt row mgmtKey in
  if negb (nonEmpty grade) && negb (nonEmpty desc) && negb (nonEmpty mgmt) then
    let cells := labelledCells row headers in
    if noLength cells then s else (lines ++ [rowLine idx cells], rowsWithGrades)
  else
    let parts :=
      (if nonEmpty desc then [JS.trim (JS.to_String desc)] else []) ++
      (if nonEmpty mgmt then ["management: " ^^ JS.trim (JS.to_String mgmt)] else []) in
    let line :=
      if noLength parts
      then "Grade " ^^ JS.to_String grade ^^ ": see table row " ^^ nat_to_string (idx + 1)
      else "Grade " ^^ JS.to_String grade ^^ ": " ^^ JS.join " - " parts in
    (lines ++ [line], if nonEmpty grade then rowsWithGrades + 1 else rowsWithGrades).

(** [renderToxicityTable(chunk, logicalRows, headerRow)] *)
Definition renderToxicityTable (c : chunk) (rows : list lrow) (hdr : option rawrow)
  : rendered :=
  let caption := or_default (caption c) "Toxicity / adverse event table" in
  let headers := getTableHeaders rows in
  match rows, headers with
  | [], _ | _, [] => noRowsFound "toxicity" caption headers rows
  | _, h0 :: _ =>
      let gradeKey :=
        match findHeader ["grade"; "severity"; "ctcae"] headers with
        | Some h => h
        | None => h0
        end in
      let descKey :=
        findHeader ["description"; "finding"; "toxicity"; "event"; "symptom"] headers in
      let mgmtKey :=
        findHeader ["management"; "action"; "recommendation"; "dose adjustment"; "stop"]
                   headers in
      let (lines, rowsWithGrades) :=
        forEach (toxicityRow headers gradeKey descKey mgmtKey) rows
                ([caption ^^ ". Toxicity grades and management:"], 0) in
      if (rowsWithGrades =? 0)%nat then
        genericFallback "toxicity" "fallback_generic_no_grades" c rows hdr
      else
        mkRendered (JS.join newline lines)
                   [("renderer", DStr "toxicity"); ("header_keys", DStrs headers);
                    ("row_count", DNum (List.length rows));
                    ("grade_key", DStr gradeKey); ("description_key", dkey descKey);
                    ("management_key", dkey mgmtKey);
                    ("rows_with_grades", DNum rowsWithGrades)]
  end.

(** *** The [switch] of [renderTable] *)

(** The dedicated renderer of each subtype other than dosing; none of them
    throws. *)
Definition dedicatedRenderer (subtype : string) (c : chunk) (rows : list lrow)
           (hdr : option rawrow) : outcome rendered :=
  Returned
    (if String.eqb subtype "peds_dosing" then renderPedsDosingTable c rows hdr
     else if String.eqb subtype "regimen" then renderRegimenTable c rows hdr
     else if String.eqb subtype "decision" then renderDecisionTable c rows hdr
     else if String.eqb subtype "timeline" then renderTimelineTable c rows hdr
     else if String.eqb subtype "interaction" then renderInteractionTable c rows hdr
     else if String.eqb subtype "toxicity" then renderToxicityTable c rows hdr
     else renderGenericTable c rows hdr).

(** [renderTable(chunk, rawRows)] with the renderers of the source *)
Definition renderTableOf (c : chunk) (rawRows : list rawrow) : outcome tableRender :=
  renderTable dedicatedRenderer c rawRows.

(** The subtype names [renderTable] reports. *)
Definition subtypeNames : list string :=
  ["dosing"; "peds_dosing"; "regimen"; "decision"; "timeline"; "interaction";
   "toxicity"; "generic"].

(** The title a renderer uses for a chunk without caption. *)
Definition defaultTitle (subtype : string) : string :=
  if String.eqb subtype "dosing" then "Dosing table"
  else if String.eqb subtype "peds_dosing" then "Paediatric dosing table"
  else if String.eqb subtype "regimen" then "Regimen composition table"
  else if String.eqb subtype "decision" then "Decision table"
  else if String.eqb subtype "timeline" then "Monitoring schedule"
  else if String.eqb subtype "interaction" then "Drug-drug interaction table"
  else if String.eqb subtype "toxicity" then "Toxicity / adverse event table"
  else "Table".

(** ** Notions used to state the properties of the renderers *)

(** The debug record [d] names the renderer, repeats the guessed subtype and
    counts [n] logical rows. *)
Definition debugNames (d : debug) (renderer : string) (n : nat) (hasHeader : bool)
  : Prop :=
  Obj.get d "renderer" = Some (DStr renderer) /\
  Obj.get d "subtype_guess" = Some (DStr renderer) /\
  Obj.get d "row_count" = Some (DNum n) /\
  Obj.get d "has_header_row" = Some (DBool hasHeader).

(** The text opens with the chunk's caption, or with [title] when the chunk
    has none, followed by a full stop. *)
Definition opensWith (c : chunk) (title text : string) : Prop :=
  JS.startsWith text (or_default (caption c) title ^^ ".") = true.

(** the debug record of a renderer under the base record of [renderTable] *)
Definition underBase (b1 b2 b3 : dval) (d : debug) : debug :=
  Obj.spread [("subtype_guess", b1); ("row_count", b2); ("has_header_row", b3)] d.

Definition debugShape (renderer : string) (n : nat) (d : debug) : Prop :=
  forall b1 b2 b3,
    Obj.get (underBase b1 b2 b3 d) "renderer" = Some (DStr renderer) /\
    Obj.get (underBase b1 b2 b3 d) "subtype_guess" = Some b1 /\
    Obj.get (underBase b1 b2 b3 d) "row_count" = Some (DNum n) /\
    Obj.get (underBase b1 b2 b3 d) "has_header_row" = Some b3.

(** The row fills a cell under one of [keys]. *)
Definition fillsAny (keys : list string) (row : lrow) : bool :=
  existsb (fun h => nonEmpty (cell row h)) keys.

(** The row fills a cell under a condition or an action column. *)
Definition statesRule (headers : list string) (row : lrow) : bool :=
  existsb (fun h => nonEmpty (cell row h) && (isActionHeader h || isConditionHeader h))
          headers.

(** The column [renderToxicityTable] reads the grade from. *)
Definition gradeColumn (headers : list string) : string :=
  match findHeader ["grade"; "severity"; "ctcae"] headers with
  | Some h => h
  | None => hd EmptyString headers
  end.

(** The row gives a line of a timeline: a name and at least one part. *)
Definition yieldsLine (nameKey : string) (partKeys : list string) (row : lrow) : bool :=
  nonEmpty (cell row nameKey) && fillsAny partKeys row.

(** ** Sample tables *)

Module SampleTables.

(** A table chunk with the caption [cap]. *)
Definition captioned (cap : string) : chunk :=
  mkChunk (Some "t1") (Some "who_module4_treatment_2025") None None None None
          (Some "table") None (Some cap) None (Some "tables/t1.csv") None None None
          None None.

(** A logical row as [normalizeTableRows] builds it. *)
Definition logical (cells : list (string * string)) (rowIndex : string) : lrow :=
  map (fun kv => (fst kv, Some (snd kv))) cells ++ [("_row_index", Some rowIndex)].

Definition decisionRows : list lrow :=
  [ logical [("Criteria", "age under 5 years"); ("Recommendation", "start TPT");
             ("Notes", "after ruling out TB disease")] "2";
    logical [("Criteria", ""); ("Recommendation", ""); ("Notes", "see chapter 3")] "3" ].

Definition toxicityRows : list lrow :=
  [ logical [("Grade", "2"); ("Description", "ALT 3-5 x ULN");
             ("Management", "monitor weekly")] "2";
    logical [("Grade", ""); ("Description", "jaundice");
             ("Management", "stop hepatotoxic drugs")] "3" ].

Definition interactionRows : list lrow :=
  [ logical [("Drug 1", "Rifampicin"); ("Drug 2", "Dolutegravir");
             ("Effect", "lower dolutegravir level");
             ("Recommendation", "dolutegravir twice daily")] "2" ].

Definition timelineByColumn : list lrow :=
  [ logical [("Test", "ECG"); ("Baseline", "yes"); ("Month 1", "yes");
             ("Month 6", "if indicated")] "2";
    logical [("Test", ""); ("Baseline", "yes"); ("Month 1", ""); ("Month 6", "")] "3" ].

Definition timelineByRow : list lrow :=
  [ logical [("When", "Week 2"); ("ECG", "yes"); ("Liver enzymes", "")] "2";
    logical [("When", "Month 3"); ("ECG", ""); ("Liver enzymes", "yes")] "3" ].

Definition regimenRows : list lrow :=
  [ logical [("Regimen", "BPaLM"); ("Drugs", "bedaquiline, pretomanid, linezolid, moxifloxacin");
             ("Duration", "6 months")] "2";
    logical [("Regimen", ""); ("Drugs", ""); ("Duration", "")] "3";
    logical [("Regimen", ""); ("Drugs", "levofloxacin"); ("Duration", "")] "4" ].

Definition pedsDosingRows : list lrow :=
  [ logical [("Medicine", "Isoniazid"); ("Formulation", "100 mg tablet");
             ("4-7 kg", "1"); ("8-11 kg", "2")] "2";
    logical [("Medicine", ""); ("Formulation", ""); ("4-7 kg", "0.5"); ("8-11 kg", "1")]
            "3" ].

End SampleTables.

(** ** Loading the embeddings *)

(** [arr.slice(start, end)] *)
Definition slice {A : Type} (l : list A) (start stop : nat) : list A :=
  firstn (stop - start) (skipn start l).

(** The loop of [loadEmbeddings] over the rows of the [.npy] array. *)
Definition npyRows {A : Type} (data : list A) (rows cols : nat) : list (list A) :=
  map (fun i =>
         let start := i * cols in
         let stop := start + cols in
         slice data start stop)
      (seq 0 rows).

(** [trimmed.startsWith("version https://git-lfs.github.com/spec/v1")] *)
Definition isLfsPointer (raw : string) : bool :=
  JS.startsWith (JS.trimStart raw) "version https://git-lfs.github.com/spec/v1".

Section Embeddings.

(** The paths [path.join(ragDir, "embeddings.json")] and
    [path.join(ragDir, "embeddings.npy")]. *)
Variable embeddingsJsonPath embeddingsNpyPath : string.

(** The text of [embeddings.json], when the file exists. *)
Variable embeddingsJson : option string.

(** [JSON.parse] of that text. *)
Variable parseJson : string -> outcome (list (list Q)).

(** What [npy.load] makes of [embeddings.npy], when the file exists: the
    shape and the flat data. *)
Variable embeddingsNpy : option (outcome (list nat * list Q)).

(** the [.npy] branch and the final [throw] of [loadEmbeddings]; a missing
    dimension is [undefined] and as falsy as 0 *)
Definition loadNpy : outcome (list (list Q)) :=
  match embeddingsNpy with
  | Some (Thrown m) => Thrown m
  | Some (Returned (shape, data)) =>
      let rows := nth 0 shape 0 in
      let cols := nth 1 shape 0 in
      if (rows =? 0)%nat || (cols =? 0)%nat
      then Thrown "Invalid shape from embeddings.npy"
      else Returned (npyRows data rows cols)
  | None =>
      Thrown ("No embeddings found. Expected at " ^^ embeddingsJsonPath ^^
              " (JSON) or " ^^ embeddingsNpyPath ^^ " (.npy).")
  end.

(** [loadEmbeddings(ragDir)] *)
Definition loadEmbeddings : outcome (list (list Q)) :=
  match embeddingsJson with
  | Some raw =>
      if negb (isLfsPointer raw) then
        match parseJson raw with
        | Returned parsed => Returned parsed
        | Thrown _ => loadNpy
        end
      else loadNpy
  | None => loadNpy
  end.

End Embeddings.

(** * The paediatric TB decision-algorithm calculator (api/tb_peds_tda.js)

    The input of [computePediatricTbTdaScore] is typed as the tool schema of
    the mentor declares it: [algorithm] and [age_band] are strings,
    [symptoms] and [cxr] objects whose members may hold any JSON value, [hr]
    and [rr] numbers; every one of them may be missing.  The handler is
    transcribed on the body as received, whatever JSON value it is.  Numbers
    are exact rationals. *)

(** A JSON value. *)
#[warnings="-register-all"]
Inductive json : Type :=
| JNull
| JBool (b : bool)
| JNum (n : Q)
| JStr (s : string)
| JArr (items : list json)
| JObj (members : list (string * json)).

(** truthiness of a JSON value *)
Definition json_truthy (v : json) : bool :=
  match v with
  | JNull => false
  | JBool b => b
  | JNum n => negb (Qeq_bool n 0)
  | JStr s => negb (String.eqb s EmptyString)
  | JArr _ => true
  | JObj _ => true
  end.

(** The characters of a string under their indices, as own members. *)
Fixpoint charsFrom (i : nat) (s : string) : Obj.t json :=
  match s with
  | EmptyString => []
  | String c s' => (nat_to_string i, JStr (String c EmptyString)) :: charsFrom (i + 1) s'
  end.

(** The elements of an array under their indices, as own members. *)
Fixpoint itemsFrom (i : nat) (l : list json) : Obj.t json :=
  match l with
  | [] => []
  | v :: l' => (nat_to_string i, v) :: itemsFrom (i + 1) l'
  end.

(** The own enumerable members of a JSON value other than [null], which
    [{ ...v }] and [Object.entries(v)] list: those of an object, the
    elements of an array, the characters of a string; a number or a boolean
    has none. *)
Definition membersOf (v : json) : Obj.t json :=
  match v with
  | JObj o => o
  | JArr l => itemsFrom 0 l
  | JStr s => charsFrom 0 s
  | _ => []
  end.

(** [v.name] on a JSON value other than [null], for the names the handlers
    read ([question], [algorithm], [age_band], [symptoms], [vitals], [cxr],
    [tachycardia], [tachypnoea], [hr], [rr]): none of them is inherited
    from a prototype. *)
Definition property (v : json) (name : string) : option json :=
  Obj.get (membersOf v) name.

(** [x || {}] *)
Definition orEmptyObject (x : option json) : json :=
  match x with
  | Some v => if json_truthy v then v else JObj []
  | None => JObj []
  end.

(** truthiness of a member that may be missing *)
Definition present (x : option json) : bool :=
  match x with
  | Some v => json_truthy v
  | None => false
  end.

(** ** The retrieval handler on the body as received *)

(** The request as the retrieval handler receives it: [body] is [req.body],
    a JSON value or [None] for [undefined]. *)
Record received : Type := mkReceived {
  rc_method : string;
  rc_body : option json
}.

(** What the handler has done when it turns to the store: it has answered,
    or it goes on with the question and the body. *)
Inductive screening : Type :=
| Answered (status : nat) (error : string)
| Proceeds (question : string) (body : json).

Section Screening.

(** [JSON.parse(text)]; the message is [String(err.message || err)]. *)
Variable parseJson : string -> outcome json.

(** The messages of the TypeErrors of the engine for [body.question] on
    [null] and for [(question || "").toLowerCase()] on a value that is
    not a string. *)
Variable nullBodyError notAFunctionError : string.

(** [typeof req.body === "string" ? JSON.parse(req.body) : req.body || {}] *)
Definition bodyValue (req : received) : outcome json :=
  match rc_body req with
  | Some (JStr text) => parseJson text
  | x => Returned (orEmptyObject x)
  end.

(** The handler up to the validation of the question.  A question that is
    truthy but not a string makes [inferIntentFlags] throw before the
    validation is reached. *)
Definition screenRequest (req : received) : screening :=
  if negb (String.eqb (rc_method req) "POST")
  then Answered 405 "Use POST to query the TB RAG store."
  else
    match bodyValue req with
    | Thrown m => Answered 500 m
    | Returned JNull => Answered 500 nullBodyError
    | Returned body =>
        match property body "question" with
        | Some (JStr question) =>
            if negb (JS.truthy (Some question)) ||
               String.eqb (JS.trim question) EmptyString
            then Answered 400 "Missing or empty 'question' string in request body."
            else Proceeds question body
        | Some v =>
            if json_truthy v then Answered 500 notAFunctionError
            else Answered 400 "Missing or empty 'question' string in request body."
        | None => Answered 400 "Missing or empty 'question' string in request body."
        end
    end.

End Screening.

(** A JSON member that may be missing, written as [null] when it is. *)
Definition orNull {A : Type} (f : A -> json) (x : option A) : json :=
  match x with
  | Some a => f a
  | None => JNull
  end.

(** The request that carries the members of a typed request. *)
Definition receive (req : request) : received :=
  mkReceived (method req)
             (Some (JObj [("question", orNull JStr (question req));
                          ("top_k", orNull (fun k => JNum (inject_Z k)) (top_k req));
                          ("scope", orNull JStr (req_scope req));
                          ("include_table_rows", JBool (include_table_rows req));
                          ("table_row_limit",
                           orNull (fun l => JNum (inject_Z l)) (table_row_limit req))])).

(** Every character of the text is an ASCII character, on which the
    [trim] and [toLowerCase] of this development are those of JavaScript. *)
Definition asciiOnly (s : string) : bool :=
  forallb (fun c => (nat_of_ascii c <? 128)%nat) (list_ascii_of_string s).

Module Tda.

Definition B_POINTS : Obj.t Z :=
  [("cough_gt_2w", 5); ("fever_gt_2w", 10); ("lethargy", 4);
   ("weight_loss_or_ftt", 5); ("haemoptysis", 9); ("night_sweats", 6);
   ("swollen_nodes", 7); ("tachycardia", 4); ("tachypnoea", 2)]%Z.

Definition A_SYMPTOMS : Obj.t Z :=
  [("cough_gt_2w", 2); ("fever_gt_2w", 5); ("lethargy", 3);
   ("weight_loss_or_ftt", 3); ("haemoptysis", 4); ("night_sweats", 2);
   ("swollen_nodes", 4); ("tachycardia", 2); ("tachypnoea", -1)]%Z.

Definition A_CXR : Obj.t Z :=
  [("cavities", 6); ("enlarged_nodes", 17); ("opacities", 5); ("miliary", 15);
   ("effusion", 8)]%Z.

Definition TREAT_THRESHOLD : Z := 11.

(** The property names every object literal inherits from
    [Object.prototype]. *)
Definition inheritedNames : list string :=
  ["constructor"; "__defineGetter__"; "__defineSetter__"; "hasOwnProperty";
   "__lookupGetter__"; "__lookupSetter__"; "isPrototypeOf"; "propertyIsEnumerable";
   "toString"; "valueOf"; "__proto__"; "toLocaleString"].

(** What [table[k]] finds: a number of the table, a member inherited from
    [Object.prototype], which is not [null] either, or [undefined]. *)
Inductive found : Type :=
| Points (n : Z)
| Inherited
| Undefined.

Definition lookup (table : Obj.t Z) (k : string) : found :=
  match Obj.get table k with
  | Some n => Points n
  | None => if JS.arr_includes inheritedNames k then Inherited else Undefined
  end.

(** [Object.entries(o)] *)
Definition entries {V : Type} (o : Obj.t V) : list (string * V) :=
  flat_map (fun k => match Obj.get o k with
                     | Some v => [(k, v)]
                     | None => []
                     end)
           (Obj.keys o).

(** [isTachypnoeic(age, rr)] *)
Definition isTachypnoeic (age : string) (rr : option Q) : bool :=
  match rr with
  | None => false
  | Some rr =>
      if String.eqb age "<2m" then Qle_bool 60 rr
      else if String.eqb age "2-12m" then Qle_bool 50 rr
      else if String.eqb age "1-5y" then Qle_bool 40 rr
      else Qle_bool 30 rr
  end.

(** [isTachycardic(age, hr)] *)
Definition isTachycardic (age : string) (hr : option Q) : bool :=
  match hr with
  | None => false
  | Some hr =>
      if String.eqb age "<2m" then Qle_bool 170 hr
      else if String.eqb age "2-12m" then Qle_bool 160 hr
      else if String.eqb age "1-5y" then Qle_bool 140 hr
      else Qle_bool 120 hr
  end.

(** [s.replace(/_/g, " ")] *)
Fixpoint underscoresToSpaces (s : string) : string :=
  match s with
  | EmptyString => EmptyString
  | String c s' =>
      String (if Ascii.eqb c "_"%char then " "%char else c) (underscoresToSpaces s')
  end.

(** [s.replace(pat, rep)] for a non-empty string pattern: the first
    occurrence only *)
Fixpoint replaceFirst (pat rep s : string) : string :=
  if prefix pat s
  then rep ^^ substring (String.length pat) (String.length s - String.length pat) s
  else match s with
       | EmptyString => EmptyString
       | String c s' => String c (replaceFirst pat rep s')
       end.

Definition upper_ascii (c : ascii) : ascii :=
  let n := nat_of_ascii c in
  if (97 <=? n)%nat && (n <=? 122)%nat then ascii_of_nat (n - 32) else c.

(** [s.replace(/\b([a-z])/g, (_, c) => c.toUpperCase())]; [prevWord] tells
    whether the character before is a word character *)
Fixpoint capitalizeWords (prevWord : bool) (s : string) : string :=
  match s with
  | EmptyString => EmptyString
  | String c s' =>
      String (if negb prevWord then upper_ascii c else c) (capitalizeWords (is_word c) s')
  end.

(** [human(k)] *)
Definition human (k : string) : string :=
  capitalizeWords false
    (replaceFirst "ftt" "FTT" (replaceFirst "gt" ">" (underscoresToSpaces k))).

(** [`${n}`] for an integer *)
Definition Z_to_string (n : Z) : string :=
  if (n <? 0)%Z then "-" ^^ nat_to_string (Z.to_nat (- n))
  else nat_to_string (Z.to_nat n).

(** [formatPoints(n)] *)
Definition formatPoints (n : Z) : string :=
  if (0 <=? n)%Z then "+" ^^ Z_to_string n else Z_to_string n.

(** The input of [computePediatricTbTdaScore]. *)
Record input : Type := mkInput {
  algorithm : option string;
  age_band : option string;
  symptoms : Obj.t json;
  hr : option Q;
  rr : option Q;
  cxr : Obj.t json
}.

(** [derived] *)
Record derivedFlags : Type := mkDerived {
  tachycardia : bool;
  tachypnoea : bool
}.

(** The object [computePediatricTbTdaScore] returns while the score is a
    number. *)
Record scored : Type := mkScored {
  sc_algorithm : string;
  sc_score : Z;
  sc_meets_threshold : bool;
  sc_explanation : list string;
  sc_derived : derivedFlags
}.

(** What [computePediatricTbTdaScore] returns.  Once a ticked member is
    named like an inherited property, [score += table[k]] appends the text
    of a function or an object to the score, which from then on is a string
    that is not a number; that text depends on the engine and is not
    modelled. *)
Inductive computed : Type :=
| Score (r : scored)
| NotANumber (d : derivedFlags).

(** the loop variables [score] and [explanation]; [None] once the score is
    no number any more *)
Definition tally : Type := option (Z * list string).

(** the body of the loops [for (const [k, v] of Object.entries(...))] *)
Definition addPoints (label : string) (table : Obj.t Z) (t : tally)
           (kv : string * json) : tally :=
  match t with
  | None => None
  | Some (score, explanation) =>
      if json_truthy (snd kv) then
        match lookup table (fst kv) with
        | Points n =>
            Some ((score + n)%Z,
                  explanation ++
                  [label ^^ human (fst kv) ^^ " (" ^^ formatPoints n ^^ ")"])
        | Inherited => None
        | Undefined => t
        end
      else t
  end.

(** [symptoms.tachycardia] when it is a boolean, else the flag derived from
    the vital sign *)
Definition flagOr (member : option json) (fromVitals : bool) : bool :=
  match member with
  | Some (JBool b) => b
  | _ => fromVitals
  end.

(** [{ ...symptoms, tachycardia, tachypnoea }] *)
Definition flagsOf (i : input) (d : derivedFlags) : Obj.t json :=
  Obj.set (Obj.set (Obj.spread [] (symptoms i)) "tachycardia" (JBool (tachycardia d)))
          "tachypnoea" (JBool (tachypnoea d)).

(** [computePediatricTbTdaScore(input)] *)
Definition computePediatricTbTdaScore (i : input) : outcome computed :=
  if negb (JS.truthy (algorithm i)) || negb (JS.truthy (age_band i))
  then Thrown "Missing algorithm or age_band"
  else
    let alg := JS.or_empty (algorithm i) in
    let age := JS.or_empty (age_band i) in
    if negb (String.eqb alg "A") && negb (String.eqb alg "B")
    then Thrown "Algorithm must be 'A' or 'B'"
    else
      let d :=
        mkDerived (flagOr (Obj.get (symptoms i) "tachycardia") (isTachycardic age (hr i)))
                  (flagOr (Obj.get (symptoms i) "tachypnoea") (isTachypnoeic age (rr i)))
      in
      let start : tally := Some (0%Z, []) in
      let final :=
        if String.eqb alg "B"
        then fold_left (addPoints EmptyString B_POINTS) (entries (flagsOf i d)) start
        else
          fold_left (addPoints "CXR " A_CXR) (entries (Obj.spread [] (cxr i)))
            (fold_left (addPoints EmptyString A_SYMPTOMS) (entries (flagsOf i d)) start)
      in
      Returned
        match final with
        | Some (score, explanation) =>
            Score (mkScored alg score (TREAT_THRESHOLD <=? score)%Z explanation d)
        | None => NotANumber d
        end.

(** *** The handler on the body as received *)

(** [age === band] *)
Definition ageIs (age : json) (band : string) : bool :=
  match age with
  | JStr s => String.eqb s band
  | _ => false
  end.

(** The request as the handler receives it: [body] is [req.body], a JSON
    value the platform has parsed or [None] for [undefined]; [sent] is the
    text [readBody(req)] collects from the stream. *)
Record request : Type := mkRequest {
  method : string;
  authorization : option string;
  body : option json;
  sent : string
}.

(** [const { derived, ...result } = ...]: the result without [derived] *)
Inductive result : Type :=
| Result (algorithm : string) (score : Z) (meets_threshold : bool)
         (explanation : list string)
| ResultNotANumber.

Definition withoutDerived (c : computed) : result :=
  match c with
  | Score r =>
      Result (sc_algorithm r) (sc_score r) (sc_meets_threshold r) (sc_explanation r)
  | NotANumber _ => ResultNotANumber
  end.

(** What the handler does: [res.status(code).json(...)], or it throws and
    sends no response. *)
Inductive response : Type :=
| Error (status : nat) (error : string)
| Ok (result : result)
| Uncaught.

Section Calculator.

(** [JSON.parse(text)] *)
Variable parseJson : string -> outcome json.

(** [v >= n] for a string, an array or an object [v], which JavaScript
    first converts to a number. *)
Variable coercedAtLeast : json -> Q -> bool.

(** [v >= n] for a JSON value [v] *)
Definition atLeast (v : json) (n : Q) : bool :=
  match v with
  | JNum x => Qle_bool n x
  | JBool b => Qle_bool n (if b then 1 else 0)
  | JNull => Qle_bool n 0
  | _ => coercedAtLeast v n
  end.

(** [isTachypnoeic(age, rr)] on JSON values *)
Definition isTachypnoeic_json (age : json) (rr : option json) : bool :=
  match rr with
  | None | Some JNull => false
  | Some rr =>
      if ageIs age "<2m" then atLeast rr 60
      else if ageIs age "2-12m" then atLeast rr 50
      else if ageIs age "1-5y" then atLeast rr 40
      else atLeast rr 30
  end.

(** [isTachycardic(age, hr)] on JSON values *)
Definition isTachycardic_json (age : json) (hr : option json) : bool :=
  match hr with
  | None | Some JNull => false
  | Some hr =>
      if ageIs age "<2m" then atLeast hr 170
      else if ageIs age "2-12m" then atLeast hr 160
      else if ageIs age "1-5y" then atLeast hr 140
      else atLeast hr 120
  end.

(** [computePediatricTbTdaScore({ algorithm, age_band, symptoms, vitals,
    cxr })] as the handler calls it: the first two members are whatever the
    body holds, the other three are truthy JSON values. *)
Definition computePediatricTbTdaScore_json (algorithm age_band : option json)
           (symptoms vitals cxr : json) : outcome computed :=
  if negb (present algorithm) || negb (present age_band)
  then Thrown "Missing algorithm or age_band"
  else
    match algorithm, age_band with
    | Some (JStr alg), Some age =>
        if negb (String.eqb alg "A") && negb (String.eqb alg "B")
        then Thrown "Algorithm must be 'A' or 'B'"
        else
          let d :=
            mkDerived (flagOr (property symptoms "tachycardia")
                              (isTachycardic_json age (property vitals "hr")))
                      (flagOr (property symptoms "tachypnoea")
                              (isTachypnoeic_json age (property vitals "rr"))) in
          let flags :=
            Obj.set (Obj.set (Obj.spread [] (membersOf symptoms))
                             "tachycardia" (JBool (tachycardia d)))
                    "tachypnoea" (JBool (tachypnoea d)) in
          let start : tally := Some (0%Z, []) in
          let final :=
            if String.eqb alg "B"
            then fold_left (addPoints EmptyString B_POINTS) (entries flags) start
            else
              fold_left (addPoints "CXR " A_CXR)
                        (entries (Obj.spread [] (membersOf cxr)))
                (fold_left (addPoints EmptyString A_SYMPTOMS) (entries flags) start)
          in
          Returned
            match final with
            | Some (score, explanation) =>
                Score (mkScored alg score (TREAT_THRESHOLD <=? score)%Z explanation d)
            | None => NotANumber d
            end
    | _, _ => Thrown "Algorithm must be 'A' or 'B'"
    end.

(** [typeof req.body === "object" && req.body ? req.body
     : JSON.parse(await readBody(req))], where [readBody] resolves to
    [d || "{}"] *)
Definition parsedBody (req : request) : outcome json :=
  match body req with
  | Some (JObj o) => Returned (JObj o)
  | Some (JArr l) => Returned (JArr l)
  | _ => parseJson (if String.eqb (sent req) EmptyString then "{}" else sent req)
  end.

(** [handler(req, res)]; [apiKey] is [process.env.TB_PEDS_TDA_API_KEY].
    Reading [body.algorithm] of a body that parsed to [null] throws outside
    both [try] blocks. *)
Definition handler (apiKey : option string) (req : request) : response :=
  let API_KEY := JS.or_empty apiKey in
  if negb (String.eqb (method req) "POST") then Error 405 "Method not allowed"
  else if negb (JS.truthy (Some API_KEY))
  then Error 500 "Server misconfigured: missing API key"
  else if negb (String.eqb (JS.or_empty (authorization req)) ("Bearer " ^^ API_KEY))
  then Error 401 "Unauthorized"
  else
    match parsedBody req with
    | Thrown _ => Error 400 "Invalid JSON"
    | Returned JNull => Uncaught
    | Returned b =>
        let algorithm := property b "algorithm" in
        let age_band := property b "age_band" in
        let symptoms := orEmptyObject (property b "symptoms") in
        let vitals := orEmptyObject (property b "vitals") in
        let cxr := orEmptyObject (property b "cxr") in
        match computePediatricTbTdaScore_json algorithm age_band symptoms vitals cxr with
        | Returned computed => Ok (withoutDerived computed)
        | Thrown message =>
            Error 400 (if JS.truthy (Some message) then message else "Invalid request")
        end
    end.

End Calculator.

(** ** Notions used to state the properties of the calculator *)

(** The member [k] of [o] is ticked: present and truthy. *)
Definition ticked (o : Obj.t json) (k : string) : bool :=
  match Obj.get o k with
  | Some v => json_truthy v
  | None => false
  end.

(** The points of the rows of [table] that are ticked in [o]. *)
Definition pointsOf (table : Obj.t Z) (o : Obj.t json) : Z :=
  fold_right (fun kn acc => if ticked o (fst kn) then (snd kn + acc)%Z else acc) 0%Z table.

(** The number of rows of [table] that are ticked in [o]. *)
Definition tickedRows (table : Obj.t Z) (o : Obj.t json) : nat :=
  List.length (filter (fun kn => ticked o (fst kn)) table).

(** A ticked member of [o] bears a name inherited from [Object.prototype]. *)
Definition tickedInherited (o : Obj.t json) : bool :=
  existsb (ticked o) inheritedNames.

(** The points the loop adds for one member. *)
Definition gain (table : Obj.t Z) (kv : string * json) : Z :=
  if json_truthy (snd kv)
  then match lookup table (fst kv) with Points n => n | _ => 0%Z end
  else 0%Z.

(** The member gets a line of the explanation. *)
Definition scores (table : Obj.t Z) (kv : string * json) : bool :=
  json_truthy (snd kv) &&
  match lookup table (fst kv) with Points _ => true | _ => false end.

(** The member turns the score into a string. *)
Definition garbles (table : Obj.t Z) (kv : string * json) : bool :=
  json_truthy (snd kv) &&
  match lookup table (fst kv) with Inherited => true | _ => false end.

Definition sumZ (l : list Z) : Z := fold_right Z.add 0%Z l.

(** [derived]: the explicit boolean, else the vital sign against the
    threshold of the age band. *)
Definition derivedOf (i : input) : derivedFlags :=
  let age := JS.or_empty (age_band i) in
  mkDerived (flagOr (Obj.get (symptoms i) "tachycardia") (isTachycardic age (hr i)))
            (flagOr (Obj.get (symptoms i) "tachypnoea") (isTachypnoeic age (rr i))).

(** [{ ...symptoms, tachycardia, tachypnoea }] of an input. *)
Definition flags (i : input) : Obj.t json := flagsOf i (derivedOf i).

(** [{ ...cxr }]: the members [Object.entries(cxr)] lists. *)
Definition findings (i : input) : Obj.t json := Obj.spread [] (cxr i).

(** The input with other chest X-ray findings. *)
Definition withCxr (i : input) (c : Obj.t json) : input :=
  mkInput (algorithm i) (age_band i) (symptoms i) (hr i) (rr i) c.

(** The input with other vital signs. *)
Definition withVitals (i : input) (h r : option Q) : input :=
  mkInput (algorithm i) (age_band i) (symptoms i) h r (cxr i).

(** The input with another age band. *)
Definition withAge (i : input) (age : string) : input :=
  mkInput (algorithm i) (Some age) (symptoms i) (hr i) (rr i) (cxr i).

(** The age bands from the youngest to the oldest; any other text counts as
    the oldest band. *)
Definition bandRank (age : string) : nat :=
  if String.eqb age "<2m" then 0
  else if String.eqb age "2-12m" then 1
  else if String.eqb age "1-5y" then 2
  else 3.

(** The body that carries an input of the calculator. *)
Definition bodyOf (i : input) : json :=
  JObj [("algorithm", orNull JStr (algorithm i));
        ("age_band", orNull JStr (age_band i));
        ("symptoms", JObj (symptoms i));
        ("vitals", JObj [("hr", orNull JNum (hr i)); ("rr", orNull JNum (rr i))]);
        ("cxr", JObj (cxr i))].

(** A request whose body the platform has parsed and that carries [i]. *)
Definition post (auth : option string) (i : input) : request :=
  mkRequest "POST" auth (Some (bodyOf i)) EmptyString.

(** A child of 1 to 5 years with cough, fever and a fast heart rate. *)
Definition sampleInput (alg : string) : input :=
  mkInput (Some alg) (Some "1-5y")
          [("cough_gt_2w", JBool true); ("fever_gt_2w", JBool true);
           ("lethargy", JBool false)]
          (Some 150%Q) (Some 32%Q)
          [("miliary", JBool true); ("effusion", JBool false)].

End Tda.

(** * The mentor chat route (pages/api/tb-mentor.js): request validation and
    conversation history

    The route validates the request, sanitises the history it is given and
    opens the conversation with the system prompt; the exchange with the
    language model that follows is not modelled. *)

Module Mentor.

(** [v.name] for the member names the route reads: only an object has
    them. *)
Definition member (v : json) (name : string) : option json :=
  match v with
  | JObj members => Obj.get members name
  | _ => None
  end.

(** [typeof v === "object"] of a JSON value that is not [null] *)
Definition isObject (v : json) : bool :=
  match v with
  | JObj _ | JArr _ => true
  | _ => false
  end.

(** the text of a member that is a string *)
Definition textOf (v : option json) : option string :=
  match v with
  | Some (JStr s) => Some s
  | _ => None
  end.

(** the predicate of [history.filter(...)] *)
Definition validEntry (h : json) : bool :=
  json_truthy h && isObject h &&
  match member h "role" with
  | Some (JStr r) => String.eqb r "user" || String.eqb r "assistant"
  | _ => false
  end &&
  match textOf (member h "content") with
  | Some c => JS.truthy (Some (JS.trim c))
  | None => false
  end.

(** A message of the conversation: [{ role, content }]. *)
Record message : Type := mkMessage {
  role : string;
  content : string
}.

(** [(h) => ({ role: h.role, content: h.content.trim() })] on an entry that
    passed the filter *)
Definition entryOf (h : json) : message :=
  mkMessage (JS.or_empty (textOf (member h "role")))
            (JS.trim (JS.or_empty (textOf (member h "content")))).

(** [arr.slice(-n)] *)
Definition lastN {A : Type} (n : nat) (l : list A) : list A :=
  skipn (List.length l - n) l.

(** [sanitizedHistory] *)
Definition sanitizedHistory (history : option json) : list message :=
  let items :=
    match history with
    | Some (JArr l) => l
    | _ => []
    end in
  map entryOf (lastN 12 (filter validEntry items)).

(** The request: the method and the parsed body, if any. *)
Record request : Type := mkRequest {
  method : string;
  body : option json
}.

(** What the route does before it turns to the language model: it rejects
    the request or opens the conversation. *)
Inductive opening : Type :=
| Rejected (status : nat) (error : string)
| Conversation (messages : list message).

(** the first part of [handler(req, res)]; [systemPrompt] is the text of
    prompts/mentor-system.txt *)
Definition openConversation (systemPrompt : string) (req : request) : opening :=
  if negb (String.eqb (method req) "POST") then Rejected 405 "Method not allowed"
  else
    let b :=
      match body req with
      | Some v => if json_truthy v then v else JObj []
      | None => JObj []
      end in
    let message := member b "message" in
    let history := member b "history" in
    match message with
    | Some (JStr text) =>
        if negb (JS.truthy (Some text))
        then Rejected 400 "Missing 'message' in request body"
        else
          if match history with
             | Some (JArr _) => false
             | Some v => json_truthy v
             | None => false
             end
          then Rejected 400 "'history' must be an array"
          else
            Conversation
              ([mkMessage "system" systemPrompt] ++ sanitizedHistory history ++
               [mkMessage "user" text])
    | _ => Rejected 400 "Missing 'message' in request body"
    end.

(** The member [name] of the body as sent: a body that is missing or is not
    an object has none. *)
Definition sent (req : request) (name : string) : option json :=
  match body req with
  | Some v => member v name
  | None => None
  end.

(** [Array.isArray(v)] *)
Definition isArray (v : json) : bool :=
  match v with
  | JArr _ => true
  | _ => false
  end.

(** The entry of a history that repeats a message of the conversation. *)
Definition toJson (m : message) : json :=
  JObj [("role", JStr (role m)); ("content", JStr (content m))].

(** A request with a message and a history. *)
Definition chat (text : string) (history : list json) : request :=
  mkRequest "POST" (Some (JObj [("message", JStr text); ("history", JArr history)])).

End Mentor.

(** The column [renderDosingTable] and [renderPedsDosingTable] read the
    medicine from. *)
Definition medicineColumn (headers : list string) : string :=
  match findHeader medicinePatterns headers with
  | Some h => h
  | None => hd EmptyString headers
  end.

(** The column [renderRegimenTable] reads the regimen from. *)
Definition regimenColumn (headers : list string) : string :=
  match findHeader ["regimen"; "name"; "strategy"; "option"] headers with
  | Some h => h
  | None => hd EmptyString headers
  end.

(** ** Further notions: the lines of a rendering *)

(** The line feed. *)
Definition lineFeed : ascii := ascii_of_nat 10.

(** The text holds no line break. *)
Fixpoint singleLine (s : string) : bool :=
  match s with
  | EmptyString => true
  | String c s' => negb (Ascii.eqb c lineFeed) && singleLine s'
  end.

(** Neither a property name nor a cell of the row holds a line break. *)
Definition singleLineRow (row : lrow) : bool :=
  forallb (fun kv => singleLine (fst kv) && singleLine (JS.or_empty (snd kv))) row.

(** Neither the caption nor any property name or cell of the rows holds a
    line break. *)
Definition singleLineTable (c : chunk) (rows : list lrow) : bool :=
  singleLine (JS.or_empty (caption c)) && forallb singleLineRow rows.

(** The lines of a text: [text.split("\n")]. *)
Definition linesOf (text : string) : list string := JS.split lineFeed text.

(** The rows with the positions [forEach] passes along with them. *)
Definition indexed (rows : list lrow) : list (nat * lrow) :=
  combine (seq 0 (List.length rows)) rows.

(** How the entry of a row of a regimen table begins: with the regimen when
    the row names one, else with the position of the row in the table. *)
Definition regimenEntryOpening (regimenKey : string) (ir : nat * lrow) : string :=
  if nonEmpty (cell (snd ir) regimenKey)
  then JS.to_String (cell (snd ir) regimenKey)
  else "Row " ^^ nat_to_string (fst ir + 1) ^^ ": ".

(** * Properties *)

(** ** The primitives on examples *)

Example includes_is_substring :
  JS.includes "household contact of mdr-tb" "contact of mdr" = true /\
  JS.includes "household contact" "contacts" = false.
Proof. split; reflexivity. Qed.

Example keys_array_indices_first :
  Obj.keys [("b", 1); ("10", 2); ("2", 3); ("01", 4); ("a", 5)]
  = ["2"; "10"; "b"; "01"; "a"].
Proof. reflexivity. Qed.

Example section_keys_of_path :
  extractSectionKeys "Chapter 3 | 3.2.5a Dosing | x12 7."
  = ["chapter 3 | 3.2.5a dosing | x12 7."; "chapter 3"; "3.2.5a dosing"; "x12 7.";
     "3"; "3.2"; "7"].
Proof. vm_compute. reflexivity. Qed.

Example scope_of_regimen_adjustment :
  let q := "How should I adjust a 4-month regimen for an HIV-positive pregnant patient with renal impairment?" in
  inferIntentFlags q = ["special_populations"; "comorbidities"] /\
  inferScopeFromQuestion (Some q) (inferIntentFlags q) = Some "treatment".
Proof. split; vm_compute; reflexivity. Qed.

Example logical_rows_of_dosing_sheet :
  logicalRows
    (normalizeTableRows
       [ [("row_index", "1"); ("ColumnA", "Weight band"); ("ColumnB", "Isoniazid (mg)")];
         [("row_index", "2"); ("ColumnA", "4-7 kg"); ("ColumnB", "50")] ])
  = [ [("Weight band", Some "4-7 kg"); ("Isoniazid (mg)", Some "50");
       ("_row_index", Some "2")] ].
Proof. vm_compute. reflexivity. Qed.

(** ** The section-key scanner does not depend on its fuel *)

Lemma take_digits_length (l : list ascii) :
  List.length (snd (take_digits l)) <= List.length l.
Proof.
  induction l as [| c l IH]; simpl; [lia |].
  destruct (is_digit c); [| simpl; lia].
  destruct (take_digits l) as [ds r]. simpl in *. lia.
Qed.

Lemma num_tail_rest (fuel : nat) :
  forall l m rest,
    num_tail fuel l = Some (m, rest) -> List.length rest <= List.length l.
Proof.
  induction fuel as [| f IH]; intros l m rest H; simpl in H; [discriminate |].
  assert (Hhere : (if boundary_after l then Some ([], l) else None) = Some (m, rest) ->
                  List.length rest <= List.length l).
  { destruct (boundary_after l); [| discriminate].
    intros E. injection E as _ <-. lia. }
  destruct l as [| c l1]; [apply Hhere; exact H |].
  destruct (Ascii.eqb c "."%char); [| apply Hhere; exact H].
  pose proof (take_digits_length l1) as Hd.
  destruct (take_digits l1) as [ds l2]. simpl in Hd.
  destruct ds as [| d ds]; [apply Hhere; exact H |].
  destruct (num_tail f l2) as [[m' rest'] |] eqn:E; [| apply Hhere; exact H].
  injection H as _ <-. apply IH in E. simpl. lia.
Qed.

Lemma num_tail_fuel (f1 : nat) :
  forall f2 l,
    List.length l < f1 -> List.length l < f2 -> num_tail f1 l = num_tail f2 l.
Proof.
  induction f1 as [| f1 IH]; intros f2 l H1 H2; [lia |].
  destruct f2 as [| f2]; [lia |]. simpl.
  destruct l as [| c l1]; [reflexivity |].
  destruct (Ascii.eqb c "."%char); [| reflexivity].
  pose proof (take_digits_length l1) as Hd.
  destruct (take_digits l1) as [ds l2]. simpl in Hd, H1, H2.
  destruct ds as [| d ds]; [reflexivity |].
  rewrite (IH f2 l2) by lia. reflexivity.
Qed.

(** Any fuel above the length of the input gives the same matches. *)
Lemma num_scan_fuel (f1 : nat) :
  forall f2 prev_word l,
    List.length l < f1 -> List.length l < f2 ->
    num_scan f1 prev_word l = num_scan f2 prev_word l.
Proof.
  induction f1 as [| f1 IH]; intros f2 prev_word l H1 H2; [lia |].
  destruct f2 as [| f2]; [lia |].
  destruct l as [| c l']; [reflexivity |].
  simpl in H1, H2. cbn [num_scan].
  destruct (is_digit c && negb prev_word) eqn:Eg;
    [| apply IH; lia].
  pose proof (take_digits_length l') as Hd.
  cbn [take_digits]. apply andb_true_iff in Eg. destruct Eg as [Ec _]. rewrite Ec.
  destruct (take_digits l') as [ds l1]. cbn [snd] in Hd. cbv beta iota.
  destruct (num_tail (S (List.length l1)) l1) as [[m rest] |] eqn:Et.
  - apply num_tail_rest in Et. f_equal. apply IH; lia.
  - apply IH; lia.
Qed.

(** ** Scope priority *)

Lemma topicCandidates_guards (flags : list string) :
  exists p s d t, topicCandidates flags = candidatesOf p s d t.
Proof.
  unfold topicCandidates.
  eexists _, _, _, _.
  unfold candidatesOf. reflexivity.
Qed.

Lemma inferScope_first_candidate (question : option string) (flags : list string) :
  topicCandidates flags <> [] ->
  exists t,
    inferScopeFromQuestion question flags = Some t /\
    In t (topicCandidates flags) /\
    forall t', In t' (topicCandidates flags) ->
               position t topicPriority <= position t' topicPriority.
Proof.
  intros Hne. unfold inferScopeFromQuestion.
  destruct (topicCandidates_guards flags) as (p & s & d & t & E).
  rewrite E in *. clear E.
  destruct p, s, d, t; vm_compute in Hne; try congruence;
    match goal with
    | |- context [find ?f ?l] =>
        let r := eval vm_compute in (find f l) in
        change (find f l) with r
    end;
    cbv beta iota;
    (eexists; split; [reflexivity | split; [vm_compute; tauto |]]);
    intros t' Ht'; vm_compute in Ht';
    repeat (destruct Ht' as [<- | Ht']; [vm_compute; lia |]); contradiction.
Qed.

(** C6.  When the intent flags yield more than one scope candidate, the
    scope inferred from the question is the candidate that comes first in
    the order treatment, diagnosis, prevention, screening; flags that imply
    both treatment and diagnosis resolve to treatment. *)
Theorem inferScope_priority (question : option string) (flags : list string) :
  1 < List.length (topicCandidates flags) ->
  (exists t,
      inferScopeFromQuestion question flags = Some t /\
      In t (topicCandidates flags) /\
      forall t', In t' (topicCandidates flags) ->
                 position t topicPriority <= position t' topicPriority) /\
  (In "treatment" (topicCandidates flags) ->
   In "diagnosis" (topicCandidates flags) ->
   inferScopeFromQuestion question flags = Some "treatment").
Proof.
  intros Hlen. split.
  - apply inferScope_first_candidate.
    intro E. rewrite E in Hlen. simpl in Hlen. lia.
  - intros Ht _.
    destruct (inferScope_first_candidate question flags) as (t & Hi & _ & Hmin).
    { intro E. rewrite E in Ht. contradiction. }
    rewrite Hi. specialize (Hmin "treatment" Ht).
    destruct (topicCandidates_guards flags) as (p & s & d & tr & E).
    unfold inferScopeFromQuestion in Hi. rewrite E in Hi, Ht.
    destruct p, s, d, tr; vm_compute in Ht;
      try (exfalso; intuition congruence);
      vm_compute in Hi; congruence.
Qed.

Lemma inferScope_priority_witness :
  1 < List.length (topicCandidates ["diagnostic_workup"; "regimen_selection"]) /\
  inferScopeFromQuestion (Some "xpert positive, which regimen")
                         ["diagnostic_workup"; "regimen_selection"]
  = Some "treatment".
Proof.
  split.
  - vm_compute. lia.
  - apply (inferScope_priority (Some "xpert positive, which regimen")
                               ["diagnostic_workup"; "regimen_selection"]).
    + vm_compute. lia.
    + vm_compute. tauto.
    + vm_compute. tauto.
Defined.

(** ** Sorting and the shape of the score stages *)

Lemma insert_desc_perm (e : entry) (l : list entry) :
  Permutation (insert_desc e l) (e :: l).
Proof.
  induction l as [| y l IH]; simpl.
  - apply Permutation_refl.
  - destruct (Qle_bool (score y) (score e)).
    + apply Permutation_refl.
    + eapply Permutation_trans.
      * apply perm_skip. exact IH.
      * apply perm_swap.
Qed.

Lemma sort_desc_perm (l : list entry) : Permutation (sort_desc l) l.
Proof.
  induction l as [| x l IH]; simpl.
  - apply perm_nil.
  - eapply Permutation_trans.
    + apply insert_desc_perm.
    + apply perm_skip. exact IH.
Qed.

Lemma sort_desc_In (l : list entry) (e : entry) : In e (sort_desc l) <-> In e l.
Proof.
  split; apply Permutation_in.
  - apply sort_desc_perm.
  - apply Permutation_sym, sort_desc_perm.
Qed.

Lemma sort_desc_length (l : list entry) :
  List.length (sort_desc l) = List.length l.
Proof. apply Permutation_length, sort_desc_perm. Qed.

Lemma sort_desc_nonempty (l : list entry) : l <> [] -> sort_desc l <> [].
Proof.
  intros Hne E. apply Hne.
  apply length_zero_iff_nil. rewrite <- sort_desc_length, E. reflexivity.
Qed.

Lemma Qle_bool_false_lt (x y : Q) : Qle_bool x y = false -> (y <= x)%Q.
Proof.
  intros H. destruct (Qlt_le_dec x y) as [Hlt | Hle].
  - apply Qlt_le_weak in Hlt. apply Qle_bool_iff in Hlt. congruence.
  - exact Hle.
Qed.

Lemma insert_desc_sorted (e : entry) (l : list entry) :
  descending l -> descending (insert_desc e l).
Proof.
  unfold descending. intros Hs.
  induction Hs as [| y l Hs IH Hy]; simpl.
  - constructor; constructor.
  - destruct (Qle_bool (score y) (score e)) eqn:E.
    + apply Qle_bool_iff in E.
      constructor.
      * constructor; assumption.
      * constructor; [exact E |].
        rewrite Forall_forall in *. intros z Hz.
        eapply Qle_trans; [apply Hy; exact Hz | exact E].
    + apply Qle_bool_false_lt in E.
      constructor; [exact IH |].
      rewrite Forall_forall in *. intros z Hz.
      apply (Permutation_in _ (insert_desc_perm e l)) in Hz.
      destruct Hz as [<- | Hz]; [exact E | apply Hy; exact Hz].
Qed.

Lemma sort_desc_sorted (l : list entry) : descending (sort_desc l).
Proof.
  induction l as [| x l IH]; simpl.
  - constructor.
  - apply insert_desc_sorted. exact IH.
Qed.

(** The first element of a sorted list carries the highest score. *)
Lemma sort_desc_head_max (l : list entry) (p : entry) :
  In p (sort_desc l) -> (score p <= maxTextScore (sort_desc l))%Q.
Proof.
  intros Hp. pose proof (sort_desc_sorted l) as Hs.
  destruct (sort_desc l) as [| h t]; [contradiction |].
  simpl. inversion Hs as [| ? ? _ Hh]; subst.
  destruct Hp as [<- | Hp].
  - apply Qle_refl.
  - rewrite Forall_forall in Hh. apply Hh. exact Hp.
Qed.

Lemma indices_sort (l : list entry) :
  Permutation (indices_of (sort_desc l)) (indices_of l).
Proof. apply Permutation_map, sort_desc_perm. Qed.

Lemma indices_scoreAll (q : list Q) (embs : list (list Q)) (idxs : list nat) :
  indices_of (scoreAll q embs idxs) = idxs.
Proof.
  unfold indices_of, scoreAll. rewrite map_map. simpl. apply map_id.
Qed.

Lemma indices_boostAll it prose chunks l :
  indices_of (boostAll it prose chunks l) = indices_of l.
Proof.
  unfold indices_of, boostAll. rewrite map_map. reflexivity.
Qed.

Lemma indices_proximityBoost chunks anchors m l :
  indices_of (proximityBoost chunks anchors m l) = indices_of l.
Proof.
  unfold indices_of, proximityBoost. rewrite map_map.
  apply map_ext. intros e. destruct (isNeighbor _ _); reflexivity.
Qed.

Lemma indices_penalize test chunks l :
  indices_of (penalize test chunks l) = indices_of l.
Proof.
  unfold indices_of, penalize. rewrite map_map.
  apply map_ext. intros e. destruct (test _); reflexivity.
Qed.

Lemma firstn_min_length {A : Type} (n : nat) (l : list A) :
  firstn (Nat.min n (List.length l)) l = firstn n l.
Proof.
  destruct (Nat.le_ge_cases n (List.length l)) as [H | H].
  - rewrite Nat.min_l by exact H. reflexivity.
  - rewrite Nat.min_r by exact H. rewrite firstn_all, firstn_all2 by exact H.
    reflexivity.
Qed.

Lemma firstn_In {A : Type} (n : nat) (l : list A) (x : A) :
  In x (firstn n l) -> In x l.
Proof.
  intros H. rewrite <- (firstn_skipn n l). apply in_or_app. left. exact H.
Qed.

Lemma firstn_NoDup {A : Type} (n : nat) (l : list A) :
  NoDup l -> NoDup (firstn n l).
Proof.
  intros H. rewrite <- (firstn_skipn n l) in H.
  apply NoDup_app_remove_r in H. exact H.
Qed.

Lemma firstn_nonempty {A : Type} (n : nat) (l : list A) :
  0 < n -> l <> [] -> firstn n l <> [].
Proof.
  intros Hn Hl. destruct n; [lia |]. destruct l; [congruence |].
  simpl. discriminate.
Qed.

(** ** The guarantee loop and the de-duplication loop *)

Lemma absentFrom_snoc combined c x :
  index x <> index c ->
  absentFrom (combined ++ [c]) x = absentFrom combined x.
Proof.
  intros Hne. unfold absentFrom. rewrite existsb_app. simpl.
  apply Nat.eqb_neq in Hne. rewrite Nat.eqb_sym in Hne. rewrite Hne.
  rewrite !orb_false_r. reflexivity.
Qed.

(** With pairwise distinct candidates the loop appends the first [needed]
    candidates that are absent from the list it started with. *)
Lemma forceInclude_app (cands : list entry) :
  forall needed combined,
    NoDup (indices_of cands) ->
    forceInclude needed cands combined =
    combined ++ firstn needed (filter (absentFrom combined) cands).
Proof.
  induction cands as [| cand rest IH]; intros needed combined Hnd; simpl.
  - rewrite firstn_nil, app_nil_r. reflexivity.
  - inversion Hnd as [| ? ? Hnotin Hnd']; subst.
    destruct needed as [| m]; simpl.
    + rewrite app_nil_r. reflexivity.
    + unfold absentFrom at 1.
      destruct (existsb (fun e => (index e =? index cand)%nat) combined) eqn:E; simpl.
      * apply IH. exact Hnd'.
      * rewrite Nat.sub_0_r, IH by exact Hnd'.
        rewrite <- app_assoc. simpl. do 3 f_equal.
        apply filter_ext_in. intros x Hx.
        apply absentFrom_snoc. intro Heq. apply Hnotin.
        rewrite <- Heq. apply in_map. exact Hx.
Qed.

Lemma arr_includes_In (l : list string) (x : string) :
  JS.arr_includes l x = true <-> In x l.
Proof.
  unfold JS.arr_includes. rewrite existsb_exists. split.
  - intros (y & Hy & E). apply String.eqb_eq in E. subst. exact Hy.
  - intros H. exists x. split; [exact H | apply String.eqb_refl].
Qed.

Lemma set_add_In (l : list string) (k x : string) :
  In x (JS.set_add l k) <-> In x l \/ x = k.
Proof.
  unfold JS.set_add. destruct (JS.arr_includes l k) eqn:E.
  - apply arr_includes_In in E. split; [tauto |].
    intros [H | ->]; assumption.
  - rewrite in_app_iff. simpl. intuition.
Qed.

Lemma dedup_spec (chunks : list chunk) (l : list entry) :
  forall seen,
    NoDup (map (fun e => JS.or_empty (idOf chunks e)) (dedup chunks seen l)) /\
    forall e, In e (dedup chunks seen l) ->
              In e l /\ JS.truthy (idOf chunks e) = true /\
              ~ In (JS.or_empty (idOf chunks e)) seen.
Proof.
  induction l as [| x l IH]; intros seen; simpl.
  - split; [constructor | contradiction].
  - fold (idOf chunks x).
    destruct (JS.truthy (idOf chunks x)) eqn:Ht; simpl.
    + destruct (JS.arr_includes seen (JS.or_empty (idOf chunks x))) eqn:Hs.
      * destruct (IH seen) as [Hnd Hin]. split; [exact Hnd |].
        intros e He. destruct (Hin e He) as (H1 & H2 & H3). auto.
      * destruct (IH (JS.set_add seen (JS.or_empty (idOf chunks x)))) as [Hnd Hin].
        split.
        -- simpl. constructor; [| exact Hnd].
           intros Hx. apply in_map_iff in Hx. destruct Hx as (e & Ee & He).
           destruct (Hin e He) as (_ & _ & Hns). apply Hns.
           apply set_add_In. right. exact Ee.
        -- intros e [<- | He].
           ++ split; [left; reflexivity | split; [exact Ht |]].
              intros Hc. apply arr_includes_In in Hc. congruence.
           ++ destruct (Hin e He) as (H1 & H2 & H3).
              split; [right; exact H1 | split; [exact H2 |]].
              intros Hc. apply H3. apply set_add_In. left. exact Hc.
    + destruct (IH seen) as [Hnd Hin]. split; [exact Hnd |].
      intros e He. destruct (Hin e He) as (H1 & H2 & H3). auto.
Qed.

Lemma dedup_ids_NoDup (chunks : list chunk) (l : list entry) :
  NoDup (map (idOf chunks) (dedup chunks [] l)).
Proof.
  destruct (dedup_spec chunks l []) as [Hnd _].
  rewrite <- map_map in Hnd. apply NoDup_map_inv in Hnd. exact Hnd.
Qed.

(** Nothing survives de-duplication exactly when no candidate has an id. *)
Lemma dedup_nil_iff (chunks : list chunk) (l : list entry) :
  dedup chunks [] l = [] <->
  Forall (fun e => JS.truthy (idOf chunks e) = false) l.
Proof.
  induction l as [| x l IH]; simpl.
  - split; [constructor | reflexivity].
  - fold (idOf chunks x). destruct (JS.truthy (idOf chunks x)) eqn:Ht; simpl.
    + split; [discriminate |].
      intros H. inversion H; subst. congruence.
    + rewrite IH. split.
      * intros H. constructor; assumption.
      * intros H. inversion H; assumption.
Qed.

(** ** Facts about the stages of a query *)

Section Stages.

Variables (it : intent) (chunks : list chunk) (embeddings : list (list Q)).
Variables (qEmbedding : list Q) (scope : option string) (finalTopK : Z).

Let st := rank it chunks embeddings qEmbedding scope finalTopK.
Let fullIndices := seq 0 (List.length embeddings).

Lemma rank_indices :
  st_indices st =
  match filterIndicesByScope fullIndices chunks scope with
  | [] => fullIndices
  | i :: l => i :: l
  end.
Proof.
  unfold st, rank, scopedOrFull, fullIndices. cbn [st_indices].
  destruct (filterIndicesByScope _ chunks scope); reflexivity.
Qed.

Lemma filterIndicesByScope_incl (idxs : list nat) :
  incl (filterIndicesByScope idxs chunks scope) idxs.
Proof.
  unfold filterIndicesByScope. intros i Hi.
  destruct (negb (JS.truthy scope)); [exact Hi |].
  apply filter_In in Hi. tauto.
Qed.

Lemma filterIndicesByScope_NoDup (idxs : list nat) :
  NoDup idxs -> NoDup (filterIndicesByScope idxs chunks scope).
Proof.
  unfold filterIndicesByScope. intros H.
  destruct (negb (JS.truthy scope)); [exact H |].
  apply NoDup_filter. exact H.
Qed.

Lemma rank_indices_incl : incl (st_indices st) fullIndices.
Proof.
  rewrite rank_indices.
  pose proof (filterIndicesByScope_incl fullIndices) as H.
  destruct (filterIndicesByScope fullIndices chunks scope); [apply incl_refl | exact H].
Qed.

Lemma rank_indices_NoDup : NoDup (st_indices st).
Proof.
  rewrite rank_indices.
  pose proof (filterIndicesByScope_NoDup fullIndices (seq_NoDup _ _)) as H.
  destruct (filterIndicesByScope fullIndices chunks scope);
    [apply seq_NoDup | exact H].
Qed.

Lemma rank_indices_nonempty : embeddings <> [] -> st_indices st <> [].
Proof.
  intros Hne. rewrite rank_indices.
  destruct (filterIndicesByScope fullIndices chunks scope); [| discriminate].
  unfold fullIndices. destruct embeddings; [congruence |]. simpl. discriminate.
Qed.

Lemma rank_text_indices :
  Permutation (indices_of (st_scoredText st))
              (filter (fun i => negb (isTable chunks i)) (st_indices st)).
Proof.
  unfold st, rank. cbn [st_scoredText st_indices].
  eapply Permutation_trans; [apply indices_sort |].
  rewrite indices_boostAll.
  eapply Permutation_trans; [apply indices_sort |].
  rewrite indices_scoreAll. apply Permutation_refl.
Qed.

Lemma rank_tablesBoosted_indices :
  Permutation (indices_of (st_tablesBoosted st))
              (filter (isTable chunks) (st_indices st)).
Proof.
  unfold st, rank. cbn [st_tablesBoosted st_indices].
  eapply Permutation_trans; [apply indices_sort |].
  rewrite indices_boostAll.
  eapply Permutation_trans; [apply indices_sort |].
  rewrite indices_scoreAll. apply Permutation_refl.
Qed.

Lemma rank_tablesNear :
  st_tablesNear st =
  sort_desc (proximityBoost chunks (st_anchors st)
                            (maxTextScore (st_scoredText st))
                            (st_tablesBoosted st)).
Proof. reflexivity. Qed.

Lemma rank_anchors :
  st_anchors st = anchorDocSectionMap chunks (st_scoredText st).
Proof. reflexivity. Qed.

Lemma rank_tablesNear_indices :
  Permutation (indices_of (st_tablesNear st)) (indices_of (st_tablesBoosted st)).
Proof.
  rewrite rank_tablesNear.
  eapply Permutation_trans; [apply indices_sort |].
  rewrite indices_proximityBoost. apply Permutation_refl.
Qed.

(** The stale-content penalties, as the handler applies them in turn. *)
Lemma rank_scoredTables :
  st_scoredTables st =
  let t3 :=
    if isTreatmentScope it && isPediatric it && hasDrugResistanceIntent it &&
       existsb isModule4DrAnchor (st_anchors st)
    then sort_desc (penalize stalePedsTable chunks (st_tablesNear st))
    else st_tablesNear st in
  if isPreventionScope it && hasTptIntent it &&
     existsb isModule1TptAnchor (st_anchors st)
  then sort_desc (penalize stalePedsTptTable chunks t3)
  else t3.
Proof. reflexivity. Qed.

Lemma rank_scoredTables_indices :
  Permutation (indices_of (st_scoredTables st)) (indices_of (st_tablesNear st)).
Proof.
  rewrite rank_scoredTables. cbv zeta.
  destruct (isPreventionScope it && hasTptIntent it &&
            existsb isModule1TptAnchor (st_anchors st));
    destruct (isTreatmentScope it && isPediatric it &&
              hasDrugResistanceIntent it &&
              existsb isModule4DrAnchor (st_anchors st));
    repeat first
      [ apply Permutation_refl
      | rewrite indices_penalize
      | (eapply Permutation_trans; [apply indices_sort |]) ].
Qed.

Lemma rank_merged :
  st_merged st =
  sort_desc (firstn TEXT_LIMIT (st_scoredText st) ++
             firstn TABLE_LIMIT (st_scoredTables st)).
Proof.
  unfold st, rank. cbn [st_merged st_scoredText st_scoredTables].
  rewrite !firstn_min_length. reflexivity.
Qed.

(** The two guarantee blocks, as the handler applies them in turn. *)
Lemma rank_combined :
  st_combined st =
  let c1 :=
    if isTreatmentScope it && isPediatric it && hasDrugResistanceIntent it
    then sort_desc (forceInclude 2 (filter (isModule4DrCandidate chunks)
                                           (st_scoredText st)) (st_merged st))
    else st_merged st in
  if isPreventionScope it && hasTptIntent it
  then sort_desc (forceInclude 2 (filter (isModule1TptCandidate chunks)
                                         (st_scoredText st)) c1)
  else c1.
Proof. reflexivity. Qed.

Lemma rank_deduped : st_deduped st = dedup chunks [] (st_combined st).
Proof. reflexivity. Qed.

Lemma rank_top : st_top st = firstn (Z.to_nat finalTopK) (st_deduped st).
Proof. reflexivity. Qed.

Lemma rank_text_NoDup : NoDup (indices_of (st_scoredText st)).
Proof.
  eapply Permutation_NoDup; [apply Permutation_sym, rank_text_indices |].
  apply NoDup_filter, rank_indices_NoDup.
Qed.

Lemma forceInclude_In needed cands combined e :
  In e (forceInclude needed cands combined) -> In e combined \/ In e cands.
Proof.
  revert needed combined.
  induction cands as [| c rest IH]; intros needed combined H; simpl in H.
  - left. exact H.
  - destruct (needed <=? 0)%nat; [left; exact H |].
    destruct (existsb _ combined).
    + destruct (IH _ _ H); [left | right; right]; assumption.
    + destruct (IH _ _ H) as [H1 | H1].
      * apply in_app_or in H1. destruct H1 as [H1 | [<- | []]];
          [left; exact H1 | right; left; reflexivity].
      * right; right; exact H1.
Qed.

Lemma forceInclude_keeps needed cands combined e :
  In e combined -> In e (forceInclude needed cands combined).
Proof.
  revert needed combined.
  induction cands as [| c rest IH]; intros needed combined H; simpl.
  - exact H.
  - destruct (needed <=? 0)%nat; [exact H |].
    destruct (existsb _ combined).
    + apply IH. exact H.
    + apply IH. apply in_or_app. left. exact H.
Qed.

Lemma rank_merged_In e :
  In e (st_merged st) -> In e (st_scoredText st) \/ In e (st_scoredTables st).
Proof.
  rewrite rank_merged, sort_desc_In, in_app_iff.
  intros [H | H]; [left | right]; eapply firstn_In; exact H.
Qed.

Lemma rank_combined_In e :
  In e (st_combined st) -> In e (st_merged st) \/ In e (st_scoredText st).
Proof.
  rewrite rank_combined. cbv zeta.
  destruct (isPreventionScope it && hasTptIntent it);
    destruct (isTreatmentScope it && isPediatric it && hasDrugResistanceIntent it);
    rewrite ?sort_desc_In; intros H;
    repeat match goal with
           | H : In _ (forceInclude _ _ _) |- _ =>
               apply forceInclude_In in H; destruct H as [H | H]
           | H : In _ (sort_desc _) |- _ => rewrite sort_desc_In in H
           | H : In _ (filter _ _) |- _ => apply filter_In in H; destruct H as [H _]
           end; auto.
Qed.

Lemma rank_merged_kept e : In e (st_merged st) -> In e (st_combined st).
Proof.
  rewrite rank_combined. cbv zeta. intros H.
  destruct (isPreventionScope it && hasTptIntent it);
    destruct (isTreatmentScope it && isPediatric it && hasDrugResistanceIntent it);
    repeat first [ exact H
                 | rewrite sort_desc_In
                 | apply forceInclude_keeps ].
Qed.

(** Every merged candidate is one of the indices the query ranks. *)
Lemma rank_combined_index e :
  In e (st_combined st) -> In (index e) (st_indices st).
Proof.
  intros H.
  assert (Ht : forall x, In x (st_scoredText st) -> In (index x) (st_indices st)).
  { intros x Hx.
    apply (in_map index) in Hx.
    apply (Permutation_in _ rank_text_indices) in Hx.
    apply filter_In in Hx. tauto. }
  apply rank_combined_In in H. destruct H as [H | H]; [| auto].
  apply rank_merged_In in H. destruct H as [H | H]; [auto |].
  apply (in_map index) in H.
  apply (Permutation_in _ rank_scoredTables_indices) in H.
  apply (Permutation_in _ rank_tablesNear_indices) in H.
  apply (Permutation_in _ rank_tablesBoosted_indices) in H.
  apply filter_In in H. tauto.
Qed.

(** A non-empty corpus always leaves candidates to merge. *)
Lemma rank_combined_nonempty : embeddings <> [] -> st_combined st <> [].
Proof.
  intros Hne.
  assert (Hm : st_merged st <> []).
  { rewrite rank_merged. apply sort_desc_nonempty.
    pose proof (rank_indices_nonempty Hne) as Hi.
    pose proof (filter_length (isTable chunks) (st_indices st)) as Hl.
    pose proof (Permutation_length rank_text_indices) as Ht.
    pose proof (Permutation_length rank_scoredTables_indices) as H1.
    pose proof (Permutation_length rank_tablesNear_indices) as H2.
    pose proof (Permutation_length rank_tablesBoosted_indices) as H3.
    unfold indices_of in *. rewrite !length_map in *.
    assert (0 < List.length (st_indices st)).
    { destruct (st_indices st); [congruence | simpl; lia]. }
    intro E. apply app_eq_nil in E. destruct E as [E1 E2].
    apply (f_equal (@List.length entry)) in E1, E2.
    rewrite length_firstn in E1, E2. unfold TEXT_LIMIT, TABLE_LIMIT in *.
    cbn [List.length] in E1, E2. lia. }
  destruct (st_merged st) as [| e m] eqn:E; [congruence |].
  intro Hc. pose proof (rank_merged_kept e) as Hk.
  rewrite E, Hc in Hk. apply Hk. left. reflexivity.
Qed.

End Stages.

(** ** The handler: what a successful response is made of *)

Section HandlerFacts.

Variables (chunks : list chunk) (embeddings : list (list Q)).
Variable embedQuestion : string -> outcome (list Q).
Variable loadTableRows : string -> outcome (list rawrow).
Variable renderSubtype :
  string -> chunk -> list lrow -> option rawrow -> outcome rendered.

Let handle :=
  handler (Returned (chunks, embeddings)) embedQuestion loadTableRows renderSubtype.

(** A success response comes from a POST with a non-blank question, a
    non-empty store, an embedding, indices within the manifest, and lists
    the selected candidates in order. *)
Lemma handler_success (req : request) q k sc results :
  handle req = Success q k sc results ->
  exists qEmbedding,
    embedQuestion (JS.or_empty (question req)) = Returned qEmbedding /\
    embeddings <> [] /\ chunks <> [] /\
    (forall i, In i (st_indices (stagesOf req chunks embeddings qEmbedding)) ->
               i < List.length chunks) /\
    k = clampTopK req (List.length embeddings) /\
    sc = resolveScope req /\
    results =
    map (resultOf loadTableRows renderSubtype chunks (optionsOf req))
        (st_top (stagesOf req chunks embeddings qEmbedding)).
Proof.
  unfold handle, handler. intros H.
  destruct (negb (String.eqb (method req) "POST")); [discriminate |].
  destruct (negb (JS.truthy (question req)) ||
            String.eqb (JS.trim (JS.or_empty (question req))) EmptyString);
    [discriminate |].
  destruct embeddings as [| v vs] eqn:Ee; [discriminate |].
  destruct chunks as [| c cs] eqn:Ec; [discriminate |].
  destruct (embedQuestion (JS.or_empty (question req))) as [qEmb | m];
    [| discriminate].
  destruct (existsb _ _) eqn:Ex; [discriminate |].
  injection H as <- <- <- <-.
  exists qEmb. repeat split; try discriminate.
  intros i Hi.
  destruct (Nat.lt_ge_cases i (List.length (c :: cs))) as [Hlt | Hge];
    [exact Hlt |].
  exfalso.
  assert (Ht : existsb (fun i => (List.length (c :: cs) <=? i)%nat)
                       (st_indices (stagesOf req (c :: cs) (v :: vs) qEmb)) = true).
  { apply existsb_exists. exists i. split; [exact Hi |].
    apply Nat.leb_le. exact Hge. }
  congruence.
Qed.

(** Enrichment never touches the identity of a chunk. *)
Lemma enrich_chunk_id (c : chunk) (options : enrichOptions) :
  chunk_id (enrichChunkWithTable loadTableRows renderSubtype c options) = chunk_id c.
Proof.
  unfold enrichChunkWithTable.
  destruct (negb (String.eqb (lc (content_type c)) "table") ||
            negb (JS.truthy (attachment_path c))); [reflexivity |].
  destruct (loadTableRows _); [| reflexivity].
  destruct (renderTable _ _ _); reflexivity.
Qed.

Lemma result_ids (options : enrichOptions) (l : list entry) :
  map res_chunk_id (map (resultOf loadTableRows renderSubtype chunks options) l) =
  map (idOf chunks) l.
Proof.
  rewrite map_map. apply map_ext. intros e.
  unfold resultOf, idOf. cbn [res_chunk_id]. apply enrich_chunk_id.
Qed.

End HandlerFacts.

(** ** Result count, identity and the scope fallback *)

Lemma clampTopK_bounds (req : request) (n : nat) :
  0 < n ->
  (1 <= clampTopK req n)%Z /\
  clampTopK req n =
  Z.min (Z.max 1 (Z.min (requestedTopK req) 8)) (Z.of_nat n).
Proof.
  intros Hn. unfold clampTopK, requestedTopK.
  destruct (top_k req); split; try reflexivity; lia.
Qed.

Lemma chunkAt_In (chunks : list chunk) (i : nat) :
  i < List.length chunks -> In (chunkAt chunks i) chunks.
Proof. intros H. unfold chunkAt. apply nth_In. exact H. Qed.

Section Results.

Variables (chunks : list chunk) (embeddings : list (list Q)).
Variable embedQuestion : string -> outcome (list Q).
Variable loadTableRows : string -> outcome (list rawrow).
Variable renderSubtype :
  string -> chunk -> list lrow -> option rawrow -> outcome rendered.

Let handle :=
  handler (Returned (chunks, embeddings)) embedQuestion loadTableRows renderSubtype.

(** C1, as amended.  A successful response returns at most
    min(max(1, min(top_k, 8)), corpus size) results, which is
    min(top_k, 8, corpus size) whenever top_k is at least 1; no two results
    share a chunk_id; and the response has at least one result exactly when
    some merged candidate carries a non-empty chunk_id, in particular
    whenever every chunk of the manifest does. *)
Theorem results_bounded_and_distinct (req : request) q k sc results qEmbedding :
  handle req = Success q k sc results ->
  embedQuestion (JS.or_empty (question req)) = Returned qEmbedding ->
  (Z.of_nat (List.length results)
   <= Z.min (Z.max 1 (Z.min (requestedTopK req) 8))
            (Z.of_nat (List.length embeddings)))%Z /\
  ((1 <= requestedTopK req)%Z ->
   (Z.of_nat (List.length results)
    <= Z.min (requestedTopK req) (Z.min 8 (Z.of_nat (List.length embeddings))))%Z) /\
  NoDup (map res_chunk_id results) /\
  (0 < List.length results <->
   Exists (fun e => JS.truthy (idOf chunks e) = true)
          (st_combined (stagesOf req chunks embeddings qEmbedding))) /\
  (Forall hasId chunks -> 0 < List.length results).
Proof.
  intros H Hq0.
  destruct (handler_success _ _ _ _ _ _ _ _ _ _ H)
    as (qEmb & Hq & Hne & Hc & Hrange & Hk & Hsc & Hres).
  rewrite Hq0 in Hq. injection Hq as <-.
  assert (Hn : 0 < List.length embeddings).
  { destruct embeddings; [congruence | simpl; lia]. }
  destruct (clampTopK_bounds req _ Hn) as [Hk1 Hk2].
  set (st := stagesOf req chunks embeddings qEmbedding) in *.
  assert (Hlen : List.length results =
                 Nat.min (Z.to_nat (clampTopK req (List.length embeddings)))
                         (List.length (st_deduped st))).
  { rewrite Hres, length_map. unfold st, stagesOf.
    rewrite rank_top, length_firstn. reflexivity. }
  assert (Hded : st_deduped st = dedup chunks [] (st_combined st)).
  { unfold st, stagesOf. apply rank_deduped. }
  assert (Hpos : 0 < List.length results <->
                 Exists (fun e => JS.truthy (idOf chunks e) = true) (st_combined st)).
  { rewrite Hlen, Hded. split.
    - intros Hp.
      destruct (dedup chunks [] (st_combined st)) as [| e l] eqn:Ed;
        [simpl in Hp; lia |].
      destruct (dedup_spec chunks (st_combined st) []) as [_ Hin].
      destruct (Hin e) as (Hc' & Ht & _); [rewrite Ed; left; reflexivity |].
      apply Exists_exists. exists e. split; assumption.
    - intros Hex. apply Exists_exists in Hex. destruct Hex as (e & He & Ht).
      destruct (dedup chunks [] (st_combined st)) as [| e' l] eqn:Ed; [| simpl; lia].
      apply dedup_nil_iff in Ed. rewrite Forall_forall in Ed.
      specialize (Ed e He). congruence. }
  split; [rewrite Hlen, <- Hk2; lia |].
  split; [intros H1; rewrite Hlen, Hk2; lia |].
  split.
  { rewrite Hres, result_ids. unfold st, stagesOf.
    rewrite rank_top, <- firstn_map. apply firstn_NoDup.
    rewrite rank_deduped. apply dedup_ids_NoDup. }
  split; [exact Hpos |].
  intros Hall. apply Hpos.
  pose proof (rank_combined_nonempty
                (intentOf (inferIntentFlags (JS.or_empty (question req)))
                          (resolveScope req))
                chunks embeddings qEmbedding (resolveScope req)
                (clampTopK req (List.length embeddings)) Hne) as Hcne.
  fold (stagesOf req chunks embeddings qEmbedding) in Hcne. fold st in Hcne.
  destruct (st_combined st) as [| e l] eqn:Ec; [congruence |].
  apply Exists_cons_hd.
  assert (Hin : In e (st_combined st)) by (rewrite Ec; left; reflexivity).
  apply rank_combined_index in Hin. apply Hrange in Hin.
  apply chunkAt_In in Hin.
  rewrite Forall_forall in Hall. exact (Hall _ Hin).
Qed.

(** C10.  A merged candidate whose chunk has a missing or empty chunk_id is
    dropped by the de-duplication loop, whatever its rank or origin, and is
    not among the selected candidates; every returned result carries a
    non-empty chunk_id; and when no merged candidate has a chunk_id the
    results array is empty. *)
Theorem missing_chunk_id_discarded (req : request) q k sc results qEmbedding :
  handle req = Success q k sc results ->
  embedQuestion (JS.or_empty (question req)) = Returned qEmbedding ->
  let st := stagesOf req chunks embeddings qEmbedding in
  (forall e, In e (st_combined st) ->
             JS.truthy (idOf chunks e) = false ->
             ~ In e (st_deduped st) /\ ~ In e (st_top st)) /\
  (forall r, In r results -> JS.truthy (res_chunk_id r) = true) /\
  (Forall (fun e => JS.truthy (idOf chunks e) = false) (st_combined st) ->
   results = []).
Proof.
  intros H Hq st.
  destruct (handler_success _ _ _ _ _ _ _ _ _ _ H)
    as (qEmb & Hq' & Hne & Hc & Hrange & Hk & Hsc & Hres).
  rewrite Hq in Hq'. injection Hq' as <-. fold st in Hres, Hrange.
  assert (Hded : forall e, In e (st_deduped st) -> JS.truthy (idOf chunks e) = true).
  { intros e He. unfold st, stagesOf in He. rewrite rank_deduped in He.
    match type of He with
    | In _ (dedup _ _ ?l) => destruct (dedup_spec chunks l []) as [_ Hin]
    end.
    destruct (Hin e He) as (_ & Ht & _). exact Ht. }
  assert (Htop : forall e, In e (st_top st) -> In e (st_deduped st)).
  { intros e He. unfold st, stagesOf in He. rewrite rank_top in He.
    apply firstn_In in He. exact He. }
  repeat split.
  - intros Hd. apply Hded in Hd. congruence.
  - intros Ht. apply Htop, Hded in Ht. congruence.
  - intros r Hr. rewrite Hres in Hr. apply in_map_iff in Hr.
    destruct Hr as (e & <- & He).
    unfold resultOf. cbn [res_chunk_id]. rewrite enrich_chunk_id.
    apply Htop, Hded in He. exact He.
  - intros Hall. rewrite Hres.
    assert (E : st_deduped st = []).
    { unfold st, stagesOf. rewrite rank_deduped. apply dedup_nil_iff. exact Hall. }
    unfold st, stagesOf. rewrite rank_top.
    fold (stagesOf req chunks embeddings qEmbedding). fold st.
    rewrite E, firstn_nil. reflexivity.
Qed.

End Results.

(** C3.  When the scope filter leaves no index, the query ranks the whole
    corpus: its stages are those of the same query without a scope filter,
    and a non-empty corpus leaves a non-empty list of merged candidates. *)
Theorem scope_fallback (it : intent) (chunks : list chunk)
        (embeddings : list (list Q)) (qEmbedding : list Q)
        (scope : option string) (finalTopK : Z) :
  embeddings <> [] ->
  filterIndicesByScope (seq 0 (List.length embeddings)) chunks scope = [] ->
  let st := rank it chunks embeddings qEmbedding scope finalTopK in
  st_indices st = seq 0 (List.length embeddings) /\
  st = rank it chunks embeddings qEmbedding None finalTopK /\
  st_indices st <> [] /\
  st_combined st <> [].
Proof.
  intros Hne Hempty st.
  assert (E : scopedOrFull chunks embeddings scope = seq 0 (List.length embeddings)).
  { unfold scopedOrFull. rewrite Hempty. reflexivity. }
  assert (E0 : scopedOrFull chunks embeddings None = seq 0 (List.length embeddings)).
  { unfold scopedOrFull, filterIndicesByScope. simpl.
    destruct (seq 0 (List.length embeddings)); reflexivity. }
  repeat split.
  - exact E.
  - unfold st, rank. rewrite E, E0. reflexivity.
  - apply rank_indices_nonempty. exact Hne.
  - apply rank_combined_nonempty. exact Hne.
Qed.

(** ** Result count and identity on the sample corpora *)

Lemma results_bounded_and_distinct_witness :
  exists results,
    handler (Returned (Sample.tagged, Sample.taggedEmbeddings)) Sample.noEmbedding
            Sample.noTables Sample.noRenderer
            (Sample.post "which regimen for tb" (Some 5%Z) None)
    = Success "which regimen for tb" 2 (Some "treatment") results /\
    (Z.of_nat (List.length results) <= Z.min 5 (Z.min 8 2))%Z /\
    NoDup (map res_chunk_id results).
Proof.
  eexists. split; [vm_compute; reflexivity |].
  destruct (results_bounded_and_distinct
              Sample.tagged Sample.taggedEmbeddings Sample.noEmbedding
              Sample.noTables Sample.noRenderer
              (Sample.post "which regimen for tb" (Some 5%Z) None)
              "which regimen for tb" 2%Z (Some "treatment") _ [1%Q; 0%Q]
              ltac:(vm_compute; reflexivity) ltac:(vm_compute; reflexivity))
    as (_ & Hb & Hd & _).
  split; [apply Hb; vm_compute; discriminate | exact Hd].
Defined.

(** C1 as stated fails: a successful response may hold no result at all. *)
Lemma results_count_claim_fails :
  ~ (forall chunks embeddings embedQuestion loadTableRows renderSubtype req
            q k sc results,
        handler (Returned (chunks, embeddings)) embedQuestion loadTableRows
                renderSubtype req = Success q k sc results ->
        (0 < Z.of_nat (List.length results)
         <= Z.min (requestedTopK req) (Z.min 8 (Z.of_nat (List.length embeddings))))%Z /\
        NoDup (map res_chunk_id results)).
Proof.
  intros H.
  assert (E : handler (Returned (Sample.anonymous, Sample.anonymousEmbeddings))
                      Sample.noEmbedding Sample.noTables Sample.noRenderer
                      (Sample.post "which regimen for tb" (Some 8%Z) None)
              = Success "which regimen for tb" 1 (Some "treatment") [])
    by (vm_compute; reflexivity).
  apply H in E. simpl in E. lia.
Qed.

(** A requested count below one is raised to one, above the requested count. *)
Lemma results_exceed_requested_zero :
  exists results,
    handler (Returned (Sample.tagged, Sample.taggedEmbeddings)) Sample.noEmbedding
            Sample.noTables Sample.noRenderer
            (Sample.post "which regimen for tb" (Some 0%Z) None)
    = Success "which regimen for tb" 1 (Some "treatment") results /\
    List.length results = 1.
Proof. eexists. split; vm_compute; reflexivity. Qed.

Lemma missing_chunk_id_discarded_witness :
  let req := Sample.post "which regimen for tb" (Some 5%Z) None in
  let st := stagesOf req Sample.tagged Sample.taggedEmbeddings [1%Q; 0%Q] in
  In (mkEntry 1 0%Q) (st_combined st) /\
  JS.truthy (idOf Sample.tagged (mkEntry 1 0%Q)) = false /\
  ~ In (mkEntry 1 0%Q) (st_deduped st) /\
  ~ In (mkEntry 1 0%Q) (st_top st).
Proof.
  intros req st.
  assert (Hin : In (mkEntry 1 0%Q) (st_combined st))
    by (vm_compute; right; left; reflexivity).
  assert (Hid : JS.truthy (idOf Sample.tagged (mkEntry 1 0%Q)) = false)
    by (vm_compute; reflexivity).
  split; [exact Hin |]. split; [exact Hid |].
  destruct (missing_chunk_id_discarded
              Sample.tagged Sample.taggedEmbeddings Sample.noEmbedding
              Sample.noTables Sample.noRenderer req
              "which regimen for tb" 2%Z (Some "treatment") _ [1%Q; 0%Q]
              ltac:(vm_compute; reflexivity) ltac:(vm_compute; reflexivity))
    as (Hdrop & _).
  exact (Hdrop _ Hin Hid).
Defined.

Lemma scope_fallback_witness :
  let it := intentOf [] (Some "treatment") in
  filterIndicesByScope (seq 0 2) Sample.tagged (Some "treatment") = [] /\
  st_indices (rank it Sample.tagged Sample.taggedEmbeddings [1%Q; 0%Q]
                   (Some "treatment") 8)
  = [0; 1].
Proof.
  split; [vm_compute; reflexivity |].
  apply (scope_fallback (intentOf [] (Some "treatment")) Sample.tagged
                        Sample.taggedEmbeddings [1%Q; 0%Q] (Some "treatment") 8%Z).
  - vm_compute. discriminate.
  - vm_compute. reflexivity.
Defined.

(** ** Section keys: the scanner finds the numeric headings *)

Lemma digit_word (c : ascii) : is_digit c = true -> is_word c = true.
Proof. intros H. unfold is_word. rewrite H. reflexivity. Qed.

Lemma nonword_nondigit (c : ascii) : is_word c = false -> is_digit c = false.
Proof.
  intros H. destruct (is_digit c) eqn:E; [| reflexivity].
  rewrite (digit_word c E) in H. discriminate H.
Qed.

Lemma boundaryAfter_digitsEnd (l : list ascii) : boundaryAfter l -> digitsEnd l.
Proof. destruct l as [| c l]; [trivial |]. apply nonword_nondigit. Qed.

Lemma boundary_after_iff (l : list ascii) : boundary_after l = true <-> boundaryAfter l.
Proof.
  destruct l as [| c l]; simpl; [tauto |].
  rewrite negb_true_iff. tauto.
Qed.

Lemma take_digits_spec (l : list ascii) :
  l = fst (take_digits l) ++ snd (take_digits l) /\
  Forall (fun c => is_digit c = true) (fst (take_digits l)) /\
  digitsEnd (snd (take_digits l)).
Proof.
  induction l as [| c l IH]; [repeat split; constructor |].
  cbn [take_digits]. destruct (is_digit c) eqn:E.
  - destruct (take_digits l) as [ds r]. cbn [fst snd] in *.
    destruct IH as (E1 & E2 & E3).
    split; [cbn; f_equal; exact E1 |]. split; [constructor; assumption | exact E3].
  - cbn [fst snd]. split; [reflexivity |]. split; [constructor | exact E].
Qed.

Lemma take_digits_app (ds x : list ascii) :
  Forall (fun c => is_digit c = true) ds -> digitsEnd x ->
  take_digits (ds ++ x) = (ds, x).
Proof.
  intros Hds Hx. induction Hds as [| c ds Hc Hds IH].
  - destruct x as [| c x]; [reflexivity |]. cbn in *. rewrite Hx. reflexivity.
  - cbn [app take_digits]. rewrite Hc, IH. reflexivity.
Qed.

Lemma groups_digitsEnd (m : list ascii) : groups m -> digitsEnd m.
Proof. intros H. destruct H; [exact I | reflexivity]. Qed.

Lemma groups_app (m m2 : list ascii) : groups m -> groups m2 -> groups (m ++ m2).
Proof.
  intros H H2. induction H as [| ds m Hne Hds Hm IH]; [exact H2 |].
  cbn [app]. rewrite <- app_assoc. constructor; assumption.
Qed.

Lemma dotted_groups (k : list ascii) :
  dotted k <->
  exists ds m, k = ds ++ m /\ ds <> [] /\ Forall (fun c => is_digit c = true) ds /\
               groups m.
Proof.
  split.
  - intros H. induction H as [ds Hne Hds | ds k Hne Hds Hk IH].
    + exists ds, []. rewrite app_nil_r. repeat split; try assumption. constructor.
    + destruct IH as (ds' & m' & -> & Hne' & Hds' & Hm').
      exists ds, ("."%char :: ds' ++ m'). repeat split; try assumption.
      constructor; assumption.
  - intros (ds & m & -> & Hne & Hds & Hm). revert ds Hne Hds.
    induction Hm as [| ds' m Hne' Hds' Hm IH]; intros ds Hne Hds.
    + rewrite app_nil_r. constructor; assumption.
    + apply dotted_group; [assumption | assumption |]. apply IH; assumption.
Qed.

Lemma dotted_nonempty (k : list ascii) : dotted k -> k <> [].
Proof.
  intros H. destruct H as [ds Hne _ | ds k Hne _ _]; [exact Hne |].
  destruct ds; [contradiction Hne; reflexivity | discriminate].
Qed.

(** Two ways to split a text after a maximal run of digits agree. *)
Lemma digits_prefix_unique (ds ds' x x' : list ascii) :
  ds ++ x = ds' ++ x' ->
  Forall (fun c => is_digit c = true) ds -> Forall (fun c => is_digit c = true) ds' ->
  digitsEnd x -> digitsEnd x' ->
  ds = ds' /\ x = x'.
Proof.
  intros E Hds Hds' Hx Hx'.
  pose proof (take_digits_app ds x Hds Hx) as E1.
  pose proof (take_digits_app ds' x' Hds' Hx') as E2.
  rewrite E in E1. rewrite E1 in E2. injection E2 as -> ->. split; reflexivity.
Qed.

Lemma dotted_after_digits (ds x : list ascii) :
  dotted (ds ++ x) -> Forall (fun c => is_digit c = true) ds -> digitsEnd x ->
  groups x.
Proof.
  intros H Hds Hx. apply dotted_groups in H.
  destruct H as (ds' & m & E & _ & Hds' & Hm).
  destruct (digits_prefix_unique ds ds' x m E Hds Hds' Hx (groups_digitsEnd m Hm))
    as [_ ->].
  exact Hm.
Qed.

Lemma app_split_le {A : Type} (x y u v : list A) :
  x ++ y = u ++ v -> List.length x <= List.length u ->
  exists w, u = x ++ w /\ y = w ++ v.
Proof.
  revert u. induction x as [| a x IH]; intros u E Hle.
  - exists u. split; [reflexivity | exact E].
  - destruct u as [| b u]; [cbn in Hle; lia |].
    cbn in E. injection E as -> E. cbn in Hle.
    destruct (IH u E ltac:(lia)) as (w & -> & ->).
    exists w. split; reflexivity.
Qed.

(** Inside the groups a character that is no digit is a dot that opens a
    group. *)
Lemma groups_split (m x y : list ascii) (c : ascii) :
  groups m -> m = x ++ c :: y -> is_digit c = false ->
  c = "."%char /\ groups x /\
  exists ds m', y = ds ++ m' /\ ds <> [] /\
                Forall (fun c => is_digit c = true) ds /\ groups m'.
Proof.
  intros Hm. revert x. induction Hm as [| ds m Hne Hds Hm IH]; intros x E Hc.
  - destruct x; discriminate E.
  - destruct x as [| d x].
    + cbn in E. injection E as <- <-.
      split; [reflexivity |]. split; [constructor |].
      exists ds, m. repeat split; assumption.
    + cbn in E. injection E as <- E.
      assert (Hx : exists x', x = ds ++ x' /\ m = x' ++ c :: y).
      { clear IH Hne Hm. revert x E. induction Hds as [| e ds He Hds IHd]; intros x E.
        - exists x. split; [reflexivity | exact E].
        - destruct x as [| e' x].
          + cbn in E. injection E as E _. rewrite E in He. congruence.
          + cbn in E. injection E as -> E.
            destruct (IHd x E) as (x' & -> & ->). exists x'. split; reflexivity. }
      destruct Hx as (x' & -> & E').
      destruct (IH x' E' Hc) as (Hdot & Hgx & Hy).
      split; [exact Hdot |]. split; [| exact Hy].
      constructor; assumption.
Qed.

(** What [num_tail] returns is a sequence of groups followed by a word
    boundary. *)
Lemma num_tail_sound (fuel : nat) :
  forall l m rest,
    num_tail fuel l = Some (m, rest) ->
    l = m ++ rest /\ groups m /\ boundaryAfter rest.
Proof.
  induction fuel as [| f IH]; intros l m rest H; [discriminate H |].
  cbn [num_tail] in H.
  assert (Hhere : (if boundary_after l then Some ([], l) else None) = Some (m, rest) ->
                  l = m ++ rest /\ groups m /\ boundaryAfter rest).
  { destruct (boundary_after l) eqn:Eb; [| discriminate].
    intros E. injection E as <- <-. split; [reflexivity |].
    split; [constructor | apply boundary_after_iff; exact Eb]. }
  destruct l as [| c l1]; [exact (Hhere H) |].
  destruct (Ascii.eqb c ".") eqn:Ec; [| exact (Hhere H)].
  apply Ascii.eqb_eq in Ec. subst c.
  pose proof (take_digits_spec l1) as (E1 & Hds & _).
  destruct (take_digits l1) as [ds l2]. cbn [fst snd] in *.
  destruct ds as [| d ds]; [exact (Hhere H) |].
  destruct (num_tail f l2) as [[m2 rest2] |] eqn:E2; [| exact (Hhere H)].
  injection H as <- <-.
  destruct (IH l2 m2 rest2 E2) as (-> & Hm2 & Hb).
  split; [rewrite E1; cbn; rewrite <- app_assoc; reflexivity |].
  split; [| exact Hb].
  apply (groups_cons (d :: ds) m2); [discriminate | exact Hds | exact Hm2].
Qed.

(** With enough fuel [num_tail] finds the longest sequence of groups that
    ends at a word boundary. *)
Lemma num_tail_longest (fuel : nat) :
  forall l m' rest',
    List.length l < fuel ->
    l = m' ++ rest' -> groups m' -> boundaryAfter rest' ->
    exists m rest,
      num_tail fuel l = Some (m, rest) /\ List.length m' <= List.length m.
Proof.
  induction fuel as [| f IH]; intros l m' rest' Hf E Hm Hb; [lia |].
  cbn [num_tail].
  destruct Hm as [| ds' m'' Hne Hds Hm''].
  - (* no group: the boundary is here *)
    cbn [app] in E. subst rest'.
    apply boundary_after_iff in Hb. rewrite Hb.
    destruct l as [| c l1]; [exists [], []; split; [reflexivity | cbn; lia] |].
    destruct (Ascii.eqb c "."); [| exists [], (c :: l1); split; [reflexivity | cbn; lia]].
    destruct (take_digits l1) as [ds l2].
    destruct ds as [| d ds]; [exists [], (c :: l1); split; [reflexivity | cbn; lia] |].
    destruct (num_tail f l2) as [[m2 rest2] |];
      eexists; eexists; (split; [reflexivity | cbn; lia]).
  - subst l. cbn [app]. rewrite Ascii.eqb_refl.
    rewrite <- app_assoc.
    assert (Hend : digitsEnd (m'' ++ rest')).
    { destruct Hm'' as [| ds2 m2 _ _ _]; [| reflexivity].
      cbn [app]. apply boundaryAfter_digitsEnd. exact Hb. }
    rewrite (take_digits_app ds' (m'' ++ rest') Hds Hend).
    destruct ds' as [| d ds']; [contradiction Hne; reflexivity |].
    destruct (IH (m'' ++ rest') m'' rest') as (m & rest & E2 & Hle);
      [ cbn [List.length app] in Hf; rewrite !length_app in Hf; cbn in Hf;
        rewrite length_app in *; lia
      | reflexivity | exact Hm'' | exact Hb |].
    rewrite E2. eexists. eexists. split; [reflexivity |].
    cbn [List.length]. rewrite !length_app. cbn [List.length]. lia.
Qed.

Lemma boundaryBefore_wordBefore (pre : list ascii) :
  boundaryBefore pre <-> wordBefore pre = false.
Proof.
  unfold boundaryBefore, wordBefore. destruct (rev pre); [| tauto].
  split; auto.
Qed.

Lemma wordBefore_snoc (pre : list ascii) (c : ascii) :
  wordBefore (pre ++ [c]) = is_word c.
Proof. unfold wordBefore. rewrite rev_app_distr. reflexivity. Qed.

(** A dotted number ends with a digit. *)
Lemma dotted_ends_with_digit (k : list ascii) :
  dotted k -> exists k' d, k = k' ++ [d] /\ is_digit d = true.
Proof.
  assert (Hd : forall ds, ds <> [] -> Forall (fun c => is_digit c = true) ds ->
                          exists k' d, ds = k' ++ [d] /\ is_digit d = true).
  { intros ds Hne Hds. destruct (exists_last Hne) as (k' & d & ->).
    exists k', d. split; [reflexivity |].
    rewrite Forall_forall in Hds. apply Hds. apply in_or_app. right. left. reflexivity. }
  intros H. induction H as [ds Hne Hds | ds k Hne Hds Hk IH]; [apply Hd; assumption |].
  destruct IH as (k' & d & -> & Hdig).
  exists (ds ++ "."%char :: k'), d. split; [| exact Hdig].
  rewrite <- app_assoc. reflexivity.
Qed.

Lemma wordBefore_dotted (pre k : list ascii) : dotted k -> wordBefore (pre ++ k) = true.
Proof.
  intros H. destruct (dotted_ends_with_digit k H) as (k' & d & -> & Hd).
  rewrite app_assoc, wordBefore_snoc. apply digit_word. exact Hd.
Qed.

Lemma num_scan_step (f : nat) (pw : bool) (c : ascii) (l' : list ascii) :
  num_scan (S f) pw (c :: l') =
  if is_digit c && negb pw then
    match num_tail (S (List.length (snd (take_digits (c :: l')))))
                   (snd (take_digits (c :: l'))) with
    | Some (m, rest) =>
        string_of_list_ascii (fst (take_digits (c :: l')) ++ m) :: num_scan f true rest
    | None => num_scan f (is_word c) l'
    end
  else num_scan f (is_word c) l'.
Proof. cbn [num_scan]. destruct (take_digits (c :: l')). reflexivity. Qed.

Lemma digits_prefix_split (ds m a z : list ascii) (e : ascii) :
  Forall (fun c => is_digit c = true) ds -> is_digit e = false ->
  ds ++ m = a ++ e :: z ->
  exists x, a = ds ++ x /\ m = x ++ e :: z.
Proof.
  intros Hds He. revert a. induction Hds as [| d ds Hd Hds IH]; intros a E.
  - exists a. split; [reflexivity | exact E].
  - destruct a as [| d' a].
    + cbn in E. injection E as E _. rewrite E in Hd. congruence.
    + cbn in E. injection E as -> E.
      destruct (IH a E) as (x & -> & ->). exists x. split; reflexivity.
Qed.

(** A dotted number that begins inside a match, after a dot, continues the
    part of the match before it. *)
Lemma no_start_inside (pre ds m a z k : list ascii) :
  Forall (fun c => is_digit c = true) ds -> ds <> [] -> groups m ->
  ds ++ m = a ++ z -> a <> [] -> boundaryBefore (pre ++ a) -> dotted k ->
  dotted (a ++ k).
Proof.
  intros Hds Hne Hm E Ha Hb Hk.
  destruct (exists_last Ha) as (a' & e & ->).
  assert (He : is_word e = false).
  { unfold boundaryBefore in Hb. rewrite app_assoc, rev_app_distr in Hb. exact Hb. }
  rewrite <- app_assoc in E. cbn [app] in E.
  destruct (digits_prefix_split ds m a' z e Hds (nonword_nondigit e He) E)
    as (x & -> & Em).
  destruct (groups_split m x z e Hm Em (nonword_nondigit e He)) as (-> & Hx & _).
  apply dotted_groups in Hk. destruct Hk as (ds' & m' & -> & Hne' & Hds' & Hm').
  apply dotted_groups. exists ds, (x ++ "."%char :: ds' ++ m').
  split; [rewrite <- !app_assoc; reflexivity |].
  split; [exact Hne |]. split; [exact Hds |].
  apply groups_app; [exact Hx | constructor; assumption].
Qed.

(** Where a dotted number between word boundaries begins, the scanner
    matches, and what it matches is at least as long. *)
Lemma start_at_cut (pre l k after : list ascii) :
  l = k ++ after -> dotted k -> boundaryBefore pre -> boundaryAfter after ->
  exists c l' m rest,
    l = c :: l' /\ is_digit c && negb (wordBefore pre) = true /\
    num_tail (S (List.length (snd (take_digits l)))) (snd (take_digits l))
    = Some (m, rest) /\
    List.length k <= List.length (fst (take_digits l) ++ m).
Proof.
  intros E Hk Hb Ha.
  apply dotted_groups in Hk. destruct Hk as (ds & m' & -> & Hne & Hds & Hm').
  assert (Hend : digitsEnd (m' ++ after)).
  { destruct Hm' as [| ? ? _ _ _]; [| reflexivity].
    apply boundaryAfter_digitsEnd. exact Ha. }
  rewrite <- app_assoc in E.
  assert (Et : take_digits l = (ds, m' ++ after))
    by (rewrite E; apply take_digits_app; assumption).
  rewrite Et. cbn [fst snd].
  destruct (num_tail_longest (S (List.length (m' ++ after))) (m' ++ after) m' after)
    as (m & rest & En & Hle); [lia | reflexivity | exact Hm' | exact Ha |].
  destruct ds as [| c ds']; [contradiction Hne; reflexivity |].
  exists c, (ds' ++ m' ++ after), m, rest.
  split; [exact E |]. split.
  - inversion Hds as [| ? ? Hc _]; subst. rewrite Hc.
    apply boundaryBefore_wordBefore in Hb. rewrite Hb. reflexivity.
  - split; [exact En |]. rewrite !length_app. lia.
Qed.

(** What the scanner matches is a dotted number between word boundaries. *)
Lemma match_at_cut (pre : list ascii) (c : ascii) (l' m rest : list ascii) :
  is_digit c && negb (wordBefore pre) = true ->
  num_tail (S (List.length (snd (take_digits (c :: l')))))
           (snd (take_digits (c :: l'))) = Some (m, rest) ->
  let ds := fst (take_digits (c :: l')) in
  c :: l' = (ds ++ m) ++ rest /\
  ds <> [] /\ Forall (fun c => is_digit c = true) ds /\ groups m /\
  dotted (ds ++ m) /\ boundaryBefore pre /\ boundaryAfter rest.
Proof.
  intros Ht En. cbv zeta.
  apply andb_true_iff in Ht. destruct Ht as [Hc Hw].
  apply negb_true_iff in Hw.
  pose proof (take_digits_spec (c :: l')) as (E & Hds & _).
  destruct (num_tail_sound _ _ _ _ En) as (E1 & Hm & Hb).
  assert (Hne : fst (take_digits (c :: l')) <> []).
  { cbn [take_digits]. rewrite Hc. destruct (take_digits l'). discriminate. }
  split; [rewrite <- app_assoc, <- E1; exact E |].
  split; [exact Hne |]. split; [exact Hds |]. split; [exact Hm |].
  split; [| split; [apply boundaryBefore_wordBefore; exact Hw | exact Hb]].
  apply dotted_groups. eexists. eexists. repeat split; eassumption.
Qed.

Lemma length_lt_nonempty {A : Type} (a : list A) : a <> [] -> 0 < List.length a.
Proof. destruct a; [congruence | cbn; lia]. Qed.

(** Every match of the scanner is a numeric heading. *)
Lemma num_scan_sound (s : list ascii) (fuel : nat) :
  forall l pre,
    s = pre ++ l -> List.length l < fuel -> nothingPending pre l ->
    forall key, In key (num_scan fuel (wordBefore pre) l) ->
                exists k, key = string_of_list_ascii k /\ numericHeading s k.
Proof.
  induction fuel as [| f IH]; intros l pre Es Hf Hinv key Hkey; [lia |].
  destruct l as [| c l']; [destruct Hkey |].
  rewrite num_scan_step in Hkey.
  (* moving one character on leaves nothing pending when nothing begins here *)
  assert (Hskip : (forall k after, c :: l' = k ++ after -> dotted k ->
                                   boundaryBefore pre -> boundaryAfter after -> False) ->
                  In key (num_scan f (is_word c) l') ->
                  exists k, key = string_of_list_ascii k /\ numericHeading s k).
  { intros Hnone Hin. rewrite <- (wordBefore_snoc pre c) in Hin.
    apply (IH l' (pre ++ [c])); [rewrite <- app_assoc; exact Es | cbn in Hf; lia | | exact Hin].
    intros before k after Hn Hlt. rewrite <- app_assoc in Hn. cbn [app] in Hn.
    rewrite length_app in *. cbn [List.length] in *.
    destruct (Nat.eq_dec (List.length before) (List.length pre)) as [Heq | Hneq].
    - exfalso. destruct Hn as (E & Hk & Hb & Ha).
      destruct (app_split_le pre (c :: l') before (k ++ after) E ltac:(lia))
        as (w & Ew & El).
      assert (w = []).
      { apply (f_equal (@List.length ascii)) in Ew. rewrite length_app in Ew.
        destruct w; [reflexivity | cbn in Ew; lia]. }
      subst w. rewrite app_nil_r in Ew. subst before. cbn [app] in El.
      exact (Hnone k after El Hk Hb Ha).
    - specialize (Hinv before k after Hn ltac:(lia)). lia. }
  destruct (is_digit c && negb (wordBefore pre)) eqn:Et.
  - destruct (num_tail _ _) as [[m rest] |] eqn:En.
    + destruct (match_at_cut pre c l' m rest Et En)
        as (El & Hne & Hds & Hm & HK & Hb & Ha).
      set (ds := fst (take_digits (c :: l'))) in *.
      (* nothing that begins at the cut is longer than the match *)
      assert (Hlong : forall k after, c :: l' = k ++ after -> dotted k ->
                                      boundaryAfter after ->
                                      List.length k <= List.length (ds ++ m)).
      { intros k after E Hk Hak.
        destruct (start_at_cut pre (c :: l') k after E Hk Hb Hak)
          as (c0 & l0 & m0 & rest0 & _ & _ & En0 & Hle).
        rewrite En in En0. injection En0 as <- <-. exact Hle. }
      destruct Hkey as [<- | Hin].
      * exists (ds ++ m). split; [reflexivity |].
        exists pre, rest. split.
        { split; [rewrite Es, El; reflexivity |]. repeat split; assumption. }
        intros before a b after -> -> (E & Hk & Hbb & Haa).
        assert (Ha0 : a = []).
        { destruct a as [| x a]; [reflexivity |]. exfalso.
          assert (Hn : numberAt ((before ++ x :: a) ++ c :: l') before
                                ((x :: a) ++ (ds ++ m) ++ b) after).
          { split; [rewrite <- Es; exact E |]. repeat split; assumption. }
          specialize (Hinv before _ after Hn).
          rewrite !length_app in Hinv. cbn [List.length] in Hinv.
          pose proof (length_lt_nonempty ds Hne). lia. }
        subst a. split; [reflexivity |].
        cbn [app] in Hk.
        assert (Hle : List.length ((ds ++ m) ++ b) <= List.length (ds ++ m)).
        { apply (Hlong _ after); [rewrite El, <- !app_assoc; reflexivity | exact Hk
                                  | exact Haa]. }
        rewrite length_app in Hle. destruct b; [reflexivity | cbn in Hle; lia].
      * rewrite <- (wordBefore_dotted pre (ds ++ m) HK) in Hin.
        apply (IH rest (pre ++ ds ++ m));
          [rewrite Es, El, <- !app_assoc; reflexivity | | | exact Hin].
        { apply (f_equal (@List.length ascii)) in El.
          rewrite !length_app in El. cbn [List.length] in El, Hf.
          pose proof (length_lt_nonempty ds Hne). lia. }
        intros before k after Hn Hlt.
        assert (Es2 : (pre ++ ds ++ m) ++ rest = pre ++ c :: l')
          by (rewrite El, <- !app_assoc; reflexivity).
        rewrite Es2 in Hn.
        destruct (Nat.lt_ge_cases (List.length before) (List.length pre)) as [Hl | Hge].
        { specialize (Hinv before k after Hn Hl). rewrite length_app. lia. }
        destruct Hn as (E & Hk & Hbb & Haa).
        destruct (app_split_le pre (c :: l') before (k ++ after) E Hge)
          as (a & -> & Ea).
        rewrite !length_app in *.
        destruct a as [| x a].
        -- cbn [app] in Ea. pose proof (Hlong k after Ea Hk Haa) as Hle.
           rewrite ?length_app in Hle. cbn [List.length]. lia.
        -- assert (Hz : exists z, ds ++ m = (x :: a) ++ z).
           { rewrite El in Ea.
             destruct (app_split_le (x :: a) (k ++ after) (ds ++ m) rest
                                    (eq_sym Ea) ltac:(rewrite !length_app; lia))
               as (z & Ez & _).
             exists z. exact Ez. }
           destruct Hz as (z & Ez).
           pose proof (no_start_inside pre ds m (x :: a) z k Hds Hne Hm Ez
                                       ltac:(discriminate) Hbb Hk) as Hd.
           pose proof (Hlong ((x :: a) ++ k) after
                             ltac:(rewrite <- app_assoc; exact Ea) Hd Haa) as Hle.
           rewrite ?length_app in Hle. lia.
    + apply Hskip; [| exact Hkey].
      intros k after E Hk Hb Ha.
      destruct (start_at_cut pre (c :: l') k after E Hk Hb Ha)
        as (c0 & l0 & m0 & rest0 & _ & _ & En0 & _).
      rewrite En in En0. discriminate En0.
  - apply Hskip; [| exact Hkey].
    intros k after E Hk Hb Ha.
    destruct (start_at_cut pre (c :: l') k after E Hk Hb Ha)
      as (c0 & l0 & m0 & rest0 & E0 & Ht0 & _).
    injection E0 as <- <-. congruence.
Qed.

(** Every numeric heading that begins at or after the scanner is matched. *)
Lemma num_scan_complete (s : list ascii) (fuel : nat) :
  forall l pre,
    s = pre ++ l -> List.length l < fuel ->
    forall before k after,
      numberAt s before k after ->
      (forall before' a b after',
          before = before' ++ a -> after = b ++ after' ->
          numberAt s before' (a ++ k ++ b) after' -> a = [] /\ b = []) ->
      List.length pre <= List.length before ->
      In (string_of_list_ascii k) (num_scan fuel (wordBefore pre) l).
Proof.
  induction fuel as [| f IH]; intros l pre Es Hf before k after Hn Hmax Hge; [lia |].
  pose proof Hn as (E & Hk & Hb & Ha).
  rewrite Es in E.
  destruct (app_split_le pre l before (k ++ after) E Hge) as (a & Eb & El).
  destruct l as [| c l'].
  { exfalso. destruct a; [| discriminate El]. cbn [app] in El.
    apply (dotted_nonempty k Hk). destruct k; [reflexivity | discriminate El]. }
  rewrite num_scan_step.
  destruct a as [| x a].
  - (* the heading begins here *)
    rewrite app_nil_r in Eb. subst before. cbn [app] in El.
    destruct (start_at_cut pre (c :: l') k after El Hk Hb Ha)
      as (c0 & l0 & m & rest & E0 & Ht & En & Hle).
    injection E0 as <- <-. rewrite Ht, En.
    destruct (match_at_cut pre c l' m rest Ht En)
      as (EK & Hne & Hds & Hm & HK & _ & Har).
    set (ds := fst (take_digits (c :: l'))) in *.
    left. f_equal.
    rewrite El in EK.
    destruct (app_split_le k after (ds ++ m) rest EK Hle) as (b & EKb & Eab).
    assert (Hnb : numberAt s pre ([] ++ k ++ b) rest).
    { cbn [app]. rewrite <- EKb. split; [| repeat split; assumption].
      rewrite Es, El, EK. reflexivity. }
    destruct (Hmax pre [] b rest (eq_sym (app_nil_r pre)) Eab Hnb) as [_ ->].
    rewrite app_nil_r in EKb. exact EKb.
  - (* the heading begins further on *)
    cbn [app] in El. injection El as Ec El. subst x.
    assert (Hnext : In (string_of_list_ascii k) (num_scan f (is_word c) l')).
    { rewrite <- (wordBefore_snoc pre c).
      apply (IH l' (pre ++ [c]) ltac:(rewrite <- app_assoc; exact Es)
                ltac:(cbn in Hf; lia) before k after Hn Hmax).
      rewrite Eb, !length_app. cbn. lia. }
    destruct (is_digit c && negb (wordBefore pre)) eqn:Et; [| exact Hnext].
    destruct (num_tail _ _) as [[m rest] |] eqn:En; [| exact Hnext].
    destruct (match_at_cut pre c l' m rest Et En)
      as (EK & Hne & Hds & Hm & HK & Hbp & Har).
    set (ds := fst (take_digits (c :: l'))) in *.
    right.
    assert (Ex : c :: l' = (c :: a) ++ k ++ after) by (cbn; rewrite El; reflexivity).
    destruct (Nat.lt_ge_cases (List.length (c :: a)) (List.length (ds ++ m)))
      as [Hlt | Hge2].
    + (* it cannot begin inside the match *)
      exfalso.
      rewrite EK in Ex.
      destruct (app_split_le (c :: a) (k ++ after) (ds ++ m) rest (eq_sym Ex)
                             ltac:(lia)) as (z & Ez & _).
      assert (Hbx : boundaryBefore (pre ++ c :: a)) by (rewrite <- Eb; exact Hb).
      pose proof (no_start_inside pre ds m (c :: a) z k Hds Hne Hm Ez
                                  ltac:(discriminate) Hbx Hk) as Hd.
      assert (Hnl : numberAt s pre ((c :: a) ++ k ++ []) after).
      { rewrite app_nil_r. split; [| repeat split; assumption].
        rewrite Es, EK, Ex, <- !app_assoc. reflexivity. }
      destruct (Hmax pre (c :: a) [] after Eb eq_refl Hnl) as [Hx _].
      discriminate Hx.
    + rewrite EK in Ex.
      destruct (app_split_le (ds ++ m) rest (c :: a) (k ++ after) Ex Hge2)
        as (w & Ew & Er).
      rewrite <- (wordBefore_dotted pre (ds ++ m) HK).
      apply (IH rest (pre ++ ds ++ m)
                ltac:(rewrite Es, EK, <- !app_assoc; reflexivity)) with (2 := Hn).
      * apply (f_equal (@List.length ascii)) in EK.
        rewrite !length_app in EK. cbn [List.length] in EK, Hf.
        pose proof (length_lt_nonempty ds Hne). lia.
      * exact Hmax.
      * rewrite Eb, Ew, !length_app. lia.
Qed.

(** The matches of the heading pattern are the numeric headings of the
    text. *)
Lemma numMatches_numericHeading (s key : string) :
  In key (numMatches s) <->
  numericHeading (list_ascii_of_string s) (list_ascii_of_string key).
Proof.
  unfold numMatches. cbv zeta. split.
  - intros H.
    destruct (num_scan_sound (list_ascii_of_string s)
                             (S (List.length (list_ascii_of_string s)))
                             (list_ascii_of_string s) [] eq_refl
                             (Nat.lt_succ_diag_r _)) with (key := key)
      as (k & -> & Hk).
    + intros before k after _ Hlt. cbn in Hlt. lia.
    + exact H.
    + rewrite list_ascii_of_string_of_list_ascii. exact Hk.
  - intros (before & after & Hn & Hmax).
    rewrite <- (string_of_list_ascii_of_string key).
    apply (num_scan_complete (list_ascii_of_string s)
                             (S (List.length (list_ascii_of_string s)))
                             (list_ascii_of_string s) [] eq_refl
                             (Nat.lt_succ_diag_r _) before _ after Hn Hmax).
    cbn. lia.
Qed.

Lemma fold_set_add_In (l : list string) :
  forall acc x, In x (fold_left JS.set_add l acc) <-> In x acc \/ In x l.
Proof.
  induction l as [| k l IH]; intros acc x; cbn [fold_left].
  - cbn. tauto.
  - rewrite IH, set_add_In. cbn. intuition congruence.
Qed.

(** The keys [extractSectionKeys] returns are the section keys of the
    path. *)
Lemma extractSectionKeys_sectionKey (sectionPath key : string) :
  In key (extractSectionKeys sectionPath) <-> sectionKey sectionPath key.
Proof.
  unfold extractSectionKeys, sectionKey. cbv zeta.
  destruct (String.eqb sectionPath EmptyString) eqn:E.
  - apply String.eqb_eq in E. split; [intros [] | intros [H _]; contradiction].
  - apply String.eqb_neq in E.
    rewrite !fold_set_add_In, set_add_In, filter_In, in_map_iff, negb_true_iff,
      String.eqb_neq, numMatches_numericHeading.
    split.
    + intros [[[[] | H] | ((seg & Ht & Hs) & Hne)] | H]; (split; [exact E |]).
      * left. exact H.
      * right. left. split; [exact Hne |]. exists seg. split; [exact Hs | congruence].
      * right. right. exact H.
    + intros (_ & [H | [(Hne & seg & Hs & Ht) | H]]).
      * left. left. right. exact H.
      * left. right. split; [| exact Hne]. exists seg. split; [congruence | exact Hs].
      * right. exact H.
Qed.

(** ** Section proximity *)

Lemma or_null_Some (x : option string) (s : string) :
  or_null x = Some s <-> JS.truthy x = true /\ x = Some s.
Proof.
  unfold or_null. destruct (JS.truthy x) eqn:E.
  - split; [intros H; split; [reflexivity | exact H] | tauto].
  - split; [discriminate | intros [H _]; discriminate].
Qed.

Lemma isNeighbor_sharesAnchor (chunks : list chunk) (scoredText : list entry)
      (t : chunk) :
  isNeighbor (anchorDocSectionMap chunks scoredText) t = true <->
  sharesAnchor chunks scoredText t.
Proof.
  unfold isNeighbor, sharesAnchor, anchorDocSectionMap.
  rewrite firstn_min_length. split.
  - destruct (or_null (doc_id t)) as [tableDoc |] eqn:Et; [| discriminate].
    apply or_null_Some in Et. destruct Et as [_ Et].
    rewrite existsb_exists. intros (a & Ha & Hm).
    apply filter_In in Ha. destruct Ha as [Ha _].
    apply in_map_iff in Ha. destruct Ha as (p & <- & Hp).
    cbn [anchorOf a_doc_id a_sectionKeys] in Hm.
    destruct (or_null (doc_id (chunkAt chunks (index p)))) as [d |] eqn:Ed;
      [| discriminate].
    apply or_null_Some in Ed. destruct Ed as [Htr Ed].
    apply andb_true_iff in Hm. destruct Hm as [Hd Hk].
    apply String.eqb_eq in Hd. subst d.
    apply existsb_exists in Hk. destruct Hk as (key & Hk1 & Hk2).
    apply arr_includes_In in Hk2.
    apply extractSectionKeys_sectionKey in Hk1, Hk2.
    exists p. repeat split; try assumption; [congruence |].
    exists key. split; assumption.
  - intros (p & Hp & Htr & Hdoc & key & Hk1 & Hk2).
    apply extractSectionKeys_sectionKey in Hk1, Hk2.
    assert (Et : or_null (doc_id t) = doc_id t).
    { unfold or_null. rewrite <- Hdoc, Htr. reflexivity. }
    rewrite Et. destruct (doc_id t) as [tableDoc |] eqn:Edt.
    + apply existsb_exists. exists (anchorOf chunks p). split.
      * apply filter_In. split; [apply in_map; exact Hp |].
        cbn [anchorOf a_doc_id]. unfold or_null. rewrite Htr. exact Htr.
      * cbn [anchorOf a_doc_id a_sectionKeys]. unfold or_null. rewrite Htr, Hdoc.
        rewrite String.eqb_refl. simpl.
        apply existsb_exists. exists key. split; [exact Hk1 |].
        apply arr_includes_In. exact Hk2.
    + rewrite Hdoc in Htr. discriminate.
Qed.

Lemma Math_max_ge_r (a b : Q) : (b <= Math_max a b)%Q.
Proof.
  unfold Math_max. destruct (Qle_bool a b) eqn:E.
  - apply Qle_refl.
  - apply Qle_bool_false_lt. exact E.
Qed.

Lemma proximityBoost_outcome (chunks : list chunk) (scoredText : list entry)
      (e0 : entry) :
  let best := maxTextScore scoredText in
  let e := if isNeighbor (anchorDocSectionMap chunks scoredText)
                         (chunkAt chunks (index e0))
           then mkEntry (index e0) (Math_max (score e0) (best * 0.98)%Q)
           else e0 in
  proximityOutcome chunks scoredText best e0 e.
Proof.
  cbv zeta. unfold proximityOutcome.
  destruct (isNeighbor _ _) eqn:E.
  - cbn [index score]. split; [reflexivity | split].
    + intros _. apply Math_max_ge_r.
    + intros Hn. exfalso. apply Hn. apply isNeighbor_sharesAnchor. exact E.
  - split; [reflexivity | split].
    + intros Hs. apply isNeighbor_sharesAnchor in Hs. congruence.
    + reflexivity.
Qed.

(** C4.  After the section-proximity stage every table candidate that shares
    a document id and a section key with one of the (up to ten) best prose
    candidates scores at least 0.98 times the highest prose score, and every
    other table candidate keeps the score it had before the stage.  The
    section keys are those of the specification: the lower-cased path, its
    pipe-delimited segments and its embedded numeric headings. *)
Theorem section_proximity_floor (it : intent) (chunks : list chunk)
        (embeddings : list (list Q)) (qEmbedding : list Q)
        (scope : option string) (finalTopK : Z) :
  let st := rank it chunks embeddings qEmbedding scope finalTopK in
  let best := maxTextScore (st_scoredText st) in
  (forall p, In p (st_scoredText st) -> (score p <= best)%Q) /\
  (forall e0, In e0 (st_tablesBoosted st) ->
              exists e, In e (st_tablesNear st) /\
                        proximityOutcome chunks (st_scoredText st) best e0 e) /\
  (forall e, In e (st_tablesNear st) ->
             exists e0, In e0 (st_tablesBoosted st) /\
                        proximityOutcome chunks (st_scoredText st) best e0 e).
Proof.
  intros st best. split; [| split].
  - intros p Hp. unfold best, st, rank in *. cbn [st_scoredText] in *.
    apply sort_desc_head_max. exact Hp.
  - intros e0 He0.
    eexists. split.
    + unfold st. rewrite rank_tablesNear, sort_desc_In.
      unfold proximityBoost. apply in_map_iff. exists e0. split; [reflexivity |].
      exact He0.
    + unfold st. rewrite rank_anchors. apply proximityBoost_outcome.
  - intros e He. unfold st in He. rewrite rank_tablesNear in He.
    rewrite sort_desc_In in He. unfold proximityBoost in He.
    apply in_map_iff in He. destruct He as (e0 & <- & He0).
    exists e0. split; [exact He0 |].
    rewrite rank_anchors. apply proximityBoost_outcome.
Qed.

(** ** Guaranteed inclusion *)

Lemma NoDup_indices_filter (f : entry -> bool) (l : list entry) :
  NoDup (indices_of l) -> NoDup (indices_of (filter f l)).
Proof.
  unfold indices_of. induction l as [| x l IH]; simpl; intros H.
  - constructor.
  - inversion H as [| ? ? Hx Hl]; subst.
    destruct (f x); simpl.
    + constructor; [| apply IH; exact Hl].
      intros Hin. apply Hx. apply in_map_iff in Hin.
      destruct Hin as (y & Ey & Hy). apply filter_In in Hy.
      apply in_map_iff. exists y. tauto.
    + apply IH. exact Hl.
Qed.

Lemma absentFrom_not_In (combined : list entry) (e : entry) :
  absentFrom combined e = true -> ~ In (index e) (indices_of combined).
Proof.
  unfold absentFrom, indices_of. intros H Hin.
  apply negb_true_iff in H.
  apply in_map_iff in Hin. destruct Hin as (x & Ex & Hx).
  assert (Ht : existsb (fun e0 => (index e0 =? index e)%nat) combined = true).
  { apply existsb_exists. exists x. split; [exact Hx |]. apply Nat.eqb_eq. exact Ex. }
  congruence.
Qed.

(** C5, as amended.  When a guarantee block is active (scope treatment with
    the pediatric and drug-resistance flags, or scope prevention with the TPT
    flag), the merge step appends to the merged list the first two prose
    candidates, in score order, that pass the block's filter and are not yet
    in the list: Module 4 drug-resistant-treatment chapter chunks of any
    edition, or 2024 Module 1 TPT chunks.  Each added candidate lies outside
    the prose cap. *)
Theorem guarantee_force_includes (g : guarantee) (flags : list string)
        (scope : option string) (chunks : list chunk)
        (embeddings : list (list Q)) (qEmbedding : list Q) (finalTopK : Z) :
  guaranteeActive g flags scope ->
  let st := rank (intentOf flags scope) chunks embeddings qEmbedding scope finalTopK in
  let added :=
    firstn 2 (filter (absentFrom (st_merged st))
                     (filter (guaranteeCandidate g chunks) (st_scoredText st))) in
  Permutation (st_combined st) (st_merged st ++ added) /\
  List.length added <= 2 /\
  forall e, In e added ->
            In e (st_scoredText st) /\
            guaranteeCandidate g chunks e = true /\
            ~ In (index e) (indices_of (st_merged st)) /\
            ~ In e (firstn TEXT_LIMIT (st_scoredText st)).
Proof.
  intros Hact st added.
  assert (Hnd : NoDup (indices_of (filter (guaranteeCandidate g chunks)
                                          (st_scoredText st)))).
  { apply NoDup_indices_filter. apply rank_text_NoDup. }
  split; [| split].
  - unfold st at 1. rewrite rank_combined. cbv zeta. fold st.
    destruct g; cbn [guaranteeActive] in Hact.
    + destruct Hact as (-> & Hp & Hd).
      cbn [intentOf isTreatmentScope isPediatric hasDrugResistanceIntent
           isPreventionScope hasTptIntent].
      rewrite Hp, Hd.
      change (String.eqb "treatment" "treatment") with true.
      change (String.eqb "treatment" "prevention") with false.
      cbn [andb].
      eapply Permutation_trans; [apply sort_desc_perm |].
      rewrite forceInclude_app by exact Hnd. apply Permutation_refl.
    + destruct Hact as (-> & Ht).
      cbn [intentOf isTreatmentScope isPediatric hasDrugResistanceIntent
           isPreventionScope hasTptIntent].
      rewrite Ht.
      change (String.eqb "prevention" "treatment") with false.
      change (String.eqb "prevention" "prevention") with true.
      cbn [andb].
      eapply Permutation_trans; [apply sort_desc_perm |].
      rewrite forceInclude_app by exact Hnd. apply Permutation_refl.
  - unfold added. apply firstn_le_length.
  - intros e He. unfold added in He. apply firstn_In in He.
    apply filter_In in He. destruct He as [He Habs].
    apply filter_In in He. destruct He as [He Hc].
    apply absentFrom_not_In in Habs.
    repeat split; try assumption.
    intros Hcap. apply Habs. apply in_map.
    unfold st. rewrite rank_merged, sort_desc_In. apply in_or_app. left. exact Hcap.
Qed.

Lemma guarantee_force_includes_witness :
  guaranteeActive Module4Dr SampleDr.flags (Some "treatment") /\
  let st := rank (intentOf SampleDr.flags (Some "treatment")) SampleDr.corpus
                 SampleDr.embeddings [1%Q; 0%Q] (Some "treatment") 8 in
  Permutation (st_combined st) (st_merged st ++ [mkEntry 23 0.1%Q]).
Proof.
  assert (Hact : guaranteeActive Module4Dr SampleDr.flags (Some "treatment")).
  { vm_compute. repeat split. }
  split; [exact Hact |].
  destruct (guarantee_force_includes
              Module4Dr SampleDr.flags (Some "treatment") SampleDr.corpus
              SampleDr.embeddings [1%Q; 0%Q] 8%Z Hact) as (Hp & _).
  vm_compute in Hp. vm_compute. exact Hp.
Defined.

(** C5 as stated fails: the Module 4 guarantee also adds a chunk of an
    older edition. *)
Lemma guarantee_adds_older_edition :
  ~ (forall flags scope chunks embeddings qEmbedding finalTopK,
        guaranteeActive Module4Dr flags scope ->
        let st := rank (intentOf flags scope) chunks embeddings qEmbedding
                       scope finalTopK in
        forall e, In e (st_combined st) -> ~ In e (st_merged st) ->
                  isCurrentModule4DrCandidate chunks e = true).
Proof.
  intros H.
  specialize (H SampleDr.flags (Some "treatment") SampleDr.corpus
                SampleDr.embeddings [1%Q; 0%Q] 8%Z).
  assert (Hact : guaranteeActive Module4Dr SampleDr.flags (Some "treatment")).
  { vm_compute. repeat split. }
  specialize (H Hact (mkEntry 23 0.1%Q)).
  assert (Hin : In (mkEntry 23 0.1%Q)
                   (st_combined (rank (intentOf SampleDr.flags (Some "treatment"))
                                      SampleDr.corpus SampleDr.embeddings
                                      [1%Q; 0%Q] (Some "treatment") 8))).
  { vm_compute. repeat (first [left; reflexivity | right]). }
  assert (Hout : ~ In (mkEntry 23 0.1%Q)
                      (st_merged (rank (intentOf SampleDr.flags (Some "treatment"))
                                       SampleDr.corpus SampleDr.embeddings
                                       [1%Q; 0%Q] (Some "treatment") 8))).
  { vm_compute. intros Hc.
    repeat (destruct Hc as [Hc | Hc]; [discriminate Hc |]). exact Hc. }
  specialize (H Hin Hout). vm_compute in H. discriminate H.
Qed.

(** In the sample corpus the table of section 2.1 of the treatment module
    shares the numeric heading 2.1 with the best prose candidate of the same
    document: its score goes from 0.515 to 0.98 times the best prose score
    1.03, that is 1.0094. *)
Lemma section_proximity_floor_witness :
  let st := rank (intentOf SampleDr.flags (Some "treatment")) SampleDr.corpus
                 SampleDr.embeddings [1%Q; 0%Q] (Some "treatment") 8 in
  let best := maxTextScore (st_scoredText st) in
  sharesAnchor SampleDr.corpus (st_scoredText st) (chunkAt SampleDr.corpus 2) /\
  (best == 1.03)%Q /\
  In (mkEntry 2 0.515%Q) (st_tablesBoosted st) /\
  exists e, In e (st_tablesNear st) /\ index e = 2 /\
            (best * 0.98 <= score e)%Q /\ (score e == 1.0094)%Q.
Proof.
  intros st best.
  assert (Hshare : sharesAnchor SampleDr.corpus (st_scoredText st)
                                (chunkAt SampleDr.corpus 2)).
  { exists (mkEntry 0 1.03%Q).
    split; [vm_compute; left; reflexivity |].
    split; [reflexivity |]. split; [reflexivity |].
    exists "2.1". split; apply extractSectionKeys_sectionKey; vm_compute; tauto. }
  assert (Hin : In (mkEntry 2 0.515%Q) (st_tablesBoosted st)).
  { vm_compute. right. left. reflexivity. }
  split; [exact Hshare |].
  split; [vm_compute; reflexivity |].
  split; [exact Hin |].
  destruct (section_proximity_floor
              (intentOf SampleDr.flags (Some "treatment")) SampleDr.corpus
              SampleDr.embeddings [1%Q; 0%Q] (Some "treatment") 8%Z)
    as (_ & H & _).
  destruct (H _ Hin) as (e & He & Hidx & Hraise & _).
  exists e. split; [exact He |]. split; [exact Hidx |].
  split; [exact (Hraise Hshare) |].
  cbn [index] in Hidx.
  assert (Hall : forall x, In x (st_tablesNear st) -> index x = 2 ->
                           (score x == 1.0094)%Q).
  { intros x Hx Hi. vm_compute in Hx.
    repeat (destruct Hx as [<- | Hx]; [first [discriminate Hi | reflexivity] |]).
    destruct Hx. }
  exact (Hall e He Hidx).
Defined.

(** ** Stale-content penalty *)

(** The penalty test reads the [table_subtype] stored with the chunk: a
    chunk without that property is never penalised. *)
Lemma stalePedsTable_reads_stored_subtype (c : chunk) :
  table_subtype c = None ->
  stalePedsTable c = false /\ stalePedsTptTable c = false.
Proof.
  intros H. unfold stalePedsTptTable, stalePedsTable, isRegimenOrDecision, lc.
  rewrite H. simpl. rewrite !andb_false_r. split; reflexivity.
Qed.

(** Whatever the penalty guards decide, candidates whose chunks store no
    [table_subtype] leave the penalty stage as they entered it. *)
Lemma penalize_without_stored_subtype (test : chunk -> bool) (chunks : list chunk)
      (l : list entry) :
  (forall c, table_subtype c = None -> test c = false) ->
  Forall (fun e => table_subtype (chunkAt chunks (index e)) = None) l ->
  penalize test chunks l = l.
Proof.
  intros Htest Hall. unfold penalize.
  induction Hall as [| e l He _ IH]; simpl; [reflexivity |].
  rewrite (Htest _ He), IH. reflexivity.
Qed.

(** C2, the code at a failing input.  A query with scope treatment, the
    pediatric and drug-resistance flags and a current Module 4
    drug-resistant-treatment anchor enters the penalty block; the Module 5
    pediatric table of the corpus is reported as a regimen table by the
    enrichment of the same response; yet its score after the penalty stage
    is the score it had before, not 0.97 times that score. *)
Theorem stale_penalty_misses_detected_regimen_table :
  let st := SampleDr.stagesOfQuery in
  let it := intentOf (inferIntentFlags "mdr-tb child which regimen")
                     (resolveScope SampleDr.query) in
  let c := chunkAt SampleDr.corpus 1 in
  (isTreatmentScope it && isPediatric it && hasDrugResistanceIntent it &&
   existsb isModule4DrAnchor (st_anchors st) = true) /\
  (JS.includes (lc (doc_id c)) "module5" && JS.includes (lc (doc_id c)) "pediatr" &&
   String.eqb (lc (content_type c)) "table" = true) /\
  table_subtype (enrichChunkWithTable SampleDr.tables SampleDr.renderers c
                                      (optionsOf SampleDr.query))
  = Some "regimen" /\
  In (mkEntry 1 0.95%Q) (st_tablesNear st) /\
  (forall e, In e (st_scoredTables st) -> index e = 1 ->
             (score e == 0.95)%Q /\ ~ (score e == 0.95 * 0.97)%Q) /\
  exists results,
    handler (Returned (SampleDr.corpus, SampleDr.embeddings))
            (fun _ => Returned [1%Q; 0%Q]) SampleDr.tables SampleDr.renderers
            SampleDr.query
    = Success "mdr-tb child which regimen" 8 (Some "treatment") results /\
    exists r, In r results /\ res_chunk_id r = Some "m5-t" /\
              res_table_subtype r = Some "regimen" /\ res_score r = 0.95%Q.
Proof.
  cbv zeta.
  split; [vm_compute; reflexivity |].
  split; [vm_compute; reflexivity |].
  split; [vm_compute; reflexivity |].
  split; [vm_compute; right; left; reflexivity |].
  split.
  - intros e He Hi. vm_compute in He.
    destruct He as [<- | [<- | []]]; [discriminate Hi |].
    split; [vm_compute; reflexivity | vm_compute; discriminate].
  - eexists. split; [vm_compute; reflexivity |].
    eexists. split; [right; right; left; reflexivity |].
    cbn [res_chunk_id res_table_subtype res_score].
    split; [reflexivity | split; reflexivity].
Qed.

(** ** Dosing tables without weight bands *)

(** Only the first test of [detectTableSubtype] answers "dosing". *)
Lemma detect_dosing_cause (c : chunk) (rows : list lrow) (hdr : option rawrow) :
  detectTableSubtype c rows hdr = "dosing" ->
  anyIncludes (lc (caption c)) dosingCaptionCues ||
  existsb (fun h => anyIncludes h dosingHeaderCues)
          (match rows with
           | [] => []
           | r :: _ => map JS.toLowerCase (Obj.keys r)
           end) = true.
Proof.
  unfold detectTableSubtype. cbv zeta.
  fold dosingCaptionCues. fold dosingHeaderCues.
  destruct (anyIncludes (lc (caption c)) dosingCaptionCues ||
            existsb (fun h => anyIncludes h dosingHeaderCues) _) eqn:E1;
    [reflexivity |].
  intros H.
  repeat match type of H with
         | (if ?b then _ else _) = _ => destruct b
         end; discriminate H.
Qed.

Lemma cue_in_caption_truthy (x : option string) :
  anyIncludes (lc x) dosingCaptionCues = true -> JS.truthy x = true.
Proof.
  destruct x as [[| a s] |]; intros H;
    [vm_compute in H; discriminate H | reflexivity | vm_compute in H; discriminate H].
Qed.

Lemma filter_nil_all_false {A : Type} (f : A -> bool) (l : list A) :
  filter f l = [] -> forall x, In x l -> f x = false.
Proof.
  induction l as [| y l IH]; simpl; intros H x Hx; [contradiction |].
  destruct (f y) eqn:E; [discriminate |].
  destruct Hx as [<- | Hx]; [exact E | apply IH; assumption].
Qed.

(** A table classified as dosing that has no row, or no header besides the
    row index, owes its class to the caption, so it has one. *)
Lemma dosing_empty_table_has_caption (c : chunk) (rows : list lrow)
      (hdr : option rawrow) :
  detectTableSubtype c rows hdr = "dosing" ->
  rows = [] \/ getTableHeaders rows = [] ->
  JS.truthy (caption c) = true.
Proof.
  intros Hd Hempty. apply detect_dosing_cause in Hd.
  apply orb_true_iff in Hd. destruct Hd as [Hd | Hd];
    [apply cue_in_caption_truthy; exact Hd |].
  exfalso. destruct rows as [| r rest]; [discriminate Hd |].
  destruct Hempty as [Hempty | Hempty]; [discriminate Hempty |].
  apply existsb_exists in Hd. destruct Hd as (h & Hh & Hcue).
  apply in_map_iff in Hh. destruct Hh as (key & <- & Hkey).
  unfold getTableHeaders in Hempty.
  pose proof (filter_nil_all_false _ _ Hempty key Hkey) as Hk.
  apply negb_false_iff, String.eqb_eq in Hk. subst key.
  vm_compute in Hcue. discriminate Hcue.
Qed.

(** C9, as amended.  For a table classified as dosing with no
    weight-band-like header, the dosing renderer returns the text of the
    generic renderer; when the table has at least one logical row and one
    header, the debug record is the generic one with the renderer renamed
    and the fallback note added; a table without rows or without headers
    has a caption and is rendered as that caption followed by
    ". (No rows found.)", with a debug record that carries no note. *)
Theorem dosing_without_weight_bands_renders_generic
        (c : chunk) (rows : list lrow) (hdr : option rawrow) :
  detectTableSubtype c rows hdr = "dosing" ->
  filter weightBandLike (getTableHeaders rows) = [] ->
  r_text (renderDosingTable c rows hdr) = r_text (renderGenericTable c rows hdr) /\
  (rows <> [] -> getTableHeaders rows <> [] ->
   r_debug (renderDosingTable c rows hdr) =
   [("renderer", DStr "dosing"); ("header_keys", DStrs (getTableHeaders rows));
    ("row_count", DNum (List.length rows)); ("note", fallbackNote)]) /\
  (rows = [] \/ getTableHeaders rows = [] ->
   exists title,
     caption c = Some title /\ title <> EmptyString /\
     r_text (renderDosingTable c rows hdr) = title ^^ ". (No rows found.)" /\
     r_debug (renderDosingTable c rows hdr) =
     [("renderer", DStr "dosing"); ("header_keys", DStrs (getTableHeaders rows));
      ("row_count", DNum (List.length rows))] /\
     Obj.get (r_debug (renderDosingTable c rows hdr)) "note" = None).
Proof.
  intros Hd Hw.
  pose proof (dosing_empty_table_has_caption c rows hdr Hd) as Hcap.
  assert (Htitle : rows = [] \/ getTableHeaders rows = [] ->
                   exists title, caption c = Some title /\ title <> EmptyString /\
                                 or_default (caption c) "Dosing table" = title).
  { intros He. specialize (Hcap He). unfold or_default. rewrite Hcap.
    destruct (caption c) as [title |]; [| discriminate Hcap].
    exists title. split; [reflexivity |]. split; [| reflexivity].
    intros ->. discriminate Hcap. }
  unfold renderDosingTable, renderGenericTable. cbv zeta.
  destruct rows as [| r rest].
  - split; [| split; [intros Hne; congruence |]].
    + cbn [r_text]. unfold or_default. rewrite Hcap by (left; reflexivity).
      reflexivity.
    + intros He. destruct (Htitle He) as (title & Hc & Hne & Ht).
      exists title. cbn [r_text r_debug]. rewrite Ht.
      split; [exact Hc |]. split; [exact Hne |].
      split; [reflexivity |]. split; reflexivity.
  - destruct (getTableHeaders (r :: rest)) as [| h0 hs] eqn:Eh.
    + split; [| split; [intros _ Hne; congruence |]].
      * cbn [r_text]. unfold or_default. rewrite Hcap by (right; reflexivity).
        reflexivity.
      * intros He. destruct (Htitle He) as (title & Hc & Hne & Ht).
        exists title. cbn [r_text r_debug]. rewrite Ht.
        split; [exact Hc |]. split; [exact Hne |].
        split; [reflexivity |]. split; reflexivity.
    + rewrite Hw. split; [reflexivity |].
      split; [intros _ _; reflexivity |].
      intros [He | He]; discriminate He.
Qed.

Lemma dosing_without_weight_bands_renders_generic_witness :
  let c := SampleDr.tableChunk "t" "who_module4_treatment_2025" "Annex" "a.csv" in
  let rows : list lrow :=
    [ [("Medicine", Some "Isoniazid"); ("Daily dose", Some "300 mg");
       ("_row_index", Some "2")] ] in
  detectTableSubtype c rows None = "dosing" /\
  r_text (renderDosingTable c rows None) = r_text (renderGenericTable c rows None) /\
  Obj.get (r_debug (renderDosingTable c rows None)) "note" = Some fallbackNote.
Proof.
  split; [vm_compute; reflexivity |].
  destruct (dosing_without_weight_bands_renders_generic
              (SampleDr.tableChunk "t" "who_module4_treatment_2025" "Annex" "a.csv")
              [ [("Medicine", Some "Isoniazid"); ("Daily dose", Some "300 mg");
                 ("_row_index", Some "2")] ] None) as (Ht & Hdbg & _);
    [vm_compute; reflexivity | vm_compute; reflexivity |].
  split; [exact Ht |].
  rewrite Hdbg; [reflexivity | discriminate | vm_compute; discriminate].
Defined.

(** C9 as stated fails: a dosing table without rows is rendered without
    the fallback note. *)
Lemma dosing_fallback_note_missing_without_rows :
  ~ (forall c rows hdr,
        detectTableSubtype c rows hdr = "dosing" ->
        filter weightBandLike (getTableHeaders rows) = [] ->
        r_text (renderDosingTable c rows hdr) = r_text (renderGenericTable c rows hdr) /\
        Obj.get (r_debug (renderDosingTable c rows hdr)) "note" = Some fallbackNote).
Proof.
  intros H.
  destruct (H {| chunk_id := Some "t"; doc_id := Some "who_module4_treatment_2025";
                 guideline_title := None; year := None; section_path := Some "Annex";
                 scope := None; content_type := Some "table"; text := None;
                 caption := Some "Dosing of first-line medicines";
                 attachment_id := None; attachment_path := Some "a.csv";
                 table_subtype := None; table_text := None; table_rows := None;
                 table_row_count := None; table_debug := None |}
              [] None) as [_ Hnote];
    [vm_compute; reflexivity | vm_compute; reflexivity |].
  vm_compute in Hnote. discriminate Hnote.
Qed.

(** ** Enrichment failures *)

Section EnrichmentFailure.

Variable loadTableRows : string -> outcome (list rawrow).
Variable renderSubtype :
  string -> chunk -> list lrow -> option rawrow -> outcome rendered.

Lemma enrich_failure_unchanged (c : chunk) (options : enrichOptions) :
  enrichmentFails loadTableRows renderSubtype c ->
  enrichChunkWithTable loadTableRows renderSubtype c options = c.
Proof.
  intros (Hct & Hpath & Hfail). unfold enrichChunkWithTable.
  rewrite Hct, Hpath. simpl.
  destruct Hfail as [(m & ->) | (rawRows & m & -> & ->)]; reflexivity.
Qed.

(** Whether the handler answers, and with which status, scope and count,
    does not depend on the table loader or the renderers. *)
Lemma handler_any_loader store embedQuestion loadTableRows0 renderSubtype0
      (req : request) q k sc results0 :
  handler store embedQuestion loadTableRows0 renderSubtype0 req
  = Success q k sc results0 ->
  exists results,
    handler store embedQuestion loadTableRows renderSubtype req
    = Success q k sc results.
Proof.
  unfold handler. intros H.
  destruct (negb (String.eqb (method req) "POST")); [discriminate |].
  destruct (negb (JS.truthy (question req)) ||
            String.eqb (JS.trim (JS.or_empty (question req))) EmptyString);
    [discriminate |].
  destruct store as [[chunks embeddings] | m]; [| discriminate].
  destruct embeddings as [| v vs]; [discriminate |].
  destruct chunks as [| c cs]; [discriminate |].
  destruct (embedQuestion (JS.or_empty (question req))) as [qEmb | m];
    [| discriminate].
  destruct (existsb _ _); [discriminate |].
  injection H as <- <- <- _.
  eexists. reflexivity.
Qed.

(** C8.  When loading or rendering the attachment of a table chunk
    throws, the enrichment returns the chunk as it was, and the query is
    answered as it would be with any other loader: same status, same
    selection, and the failing chunk reported with the table properties it
    already had. *)
Theorem enrichment_failure_is_contained
        (chunks : list chunk) (embeddings : list (list Q))
        (embedQuestion : string -> outcome (list Q))
        loadTableRows0 renderSubtype0 (req : request) q k sc results0 :
  handler (Returned (chunks, embeddings)) embedQuestion loadTableRows0
          renderSubtype0 req = Success q k sc results0 ->
  (forall c options,
      enrichmentFails loadTableRows renderSubtype c ->
      enrichChunkWithTable loadTableRows renderSubtype c options = c) /\
  exists results qEmbedding,
    handler (Returned (chunks, embeddings)) embedQuestion loadTableRows
            renderSubtype req = Success q k sc results /\
    embedQuestion (JS.or_empty (question req)) = Returned qEmbedding /\
    List.length results = List.length results0 /\
    map res_chunk_id results = map res_chunk_id results0 /\
    let top := st_top (stagesOf req chunks embeddings qEmbedding) in
    results = map (resultOf loadTableRows renderSubtype chunks (optionsOf req)) top /\
    forall e, In e top ->
              enrichmentFails loadTableRows renderSubtype (chunkAt chunks (index e)) ->
              resultOf loadTableRows renderSubtype chunks (optionsOf req) e =
              plainResult (chunkAt chunks (index e)) (include_table_rows req)
                          (score e).
Proof.
  intros H0. split; [intros c options; apply enrich_failure_unchanged |].
  destruct (handler_any_loader _ _ _ _ _ _ _ _ _ H0) as (results & H).
  destruct (handler_success _ _ _ _ _ _ _ _ _ _ H0)
    as (qEmb0 & Hq0 & _ & _ & _ & _ & _ & Hres0).
  destruct (handler_success _ _ _ _ _ _ _ _ _ _ H)
    as (qEmb & Hq & _ & _ & _ & _ & _ & Hres).
  rewrite Hq0 in Hq. injection Hq as <-.
  exists results, qEmb0.
  split; [exact H |]. split; [exact Hq0 |].
  split; [rewrite Hres, Hres0, !length_map; reflexivity |].
  split; [rewrite Hres, Hres0, !result_ids; reflexivity |].
  cbv zeta. split; [exact Hres |].
  intros e He Hfail. unfold resultOf, plainResult.
  rewrite (enrich_failure_unchanged _ _ Hfail). reflexivity.
Qed.

End EnrichmentFailure.

Lemma enrichment_failure_is_contained_witness :
  enrichmentFails Sample.noTables Sample.noRenderer (chunkAt SampleDr.corpus 1) /\
  exists results,
    handler (Returned (SampleDr.corpus, SampleDr.embeddings))
            (fun _ => Returned [1%Q; 0%Q]) Sample.noTables Sample.noRenderer
            SampleDr.query
    = Success "mdr-tb child which regimen" 8 (Some "treatment") results /\
    List.length results = 8.
Proof.
  split.
  - split; [vm_compute; reflexivity |].
    split; [vm_compute; reflexivity |].
    left. eexists. vm_compute. reflexivity.
  - destruct (enrichment_failure_is_contained
                Sample.noTables Sample.noRenderer SampleDr.corpus SampleDr.embeddings
                (fun _ => Returned [1%Q; 0%Q]) SampleDr.tables SampleDr.renderers
                SampleDr.query "mdr-tb child which regimen" 8%Z (Some "treatment") _
                ltac:(vm_compute; reflexivity))
      as (_ & results & qEmb & H & _ & Hlen & _).
    exists results. split; [exact H |].
    rewrite Hlen. vm_compute. reflexivity.
Defined.

(** ** Unit normalisation *)

Module Binary64Facts.
Import Floats Binary64.

Local Open Scope float_scope.

Lemma special_cases (x : float) :
  isSpecial x = true -> x = nan \/ x = infinity \/ x = neg_infinity.
Proof.
  unfold isSpecial. destruct (Prim2SF x) as [s | s | | s m e] eqn:E; try discriminate.
  - intros _. right. destruct s; [right | left]; apply Prim2SF_inj; rewrite E; reflexivity.
  - intros _. left. apply Prim2SF_inj. rewrite E. reflexivity.
Qed.

Lemma zero_cases (x : float) : isZero x = true -> x = 0 \/ x = neg_zero.
Proof.
  unfold isZero. destruct (Prim2SF x) as [s | s | | s m e] eqn:E; try discriminate.
  intros _. destruct s; [right | left]; apply Prim2SF_inj; rewrite E; reflexivity.
Qed.

Lemma special_square (x : float) : isSpecial x = true -> isSpecial (x * x) = true.
Proof.
  intros H. destruct (special_cases x H) as [-> | [-> | ->]]; reflexivity.
Qed.

Lemma special_add_l (a y : float) : isSpecial a = true -> isSpecial (a + y) = true.
Proof.
  unfold isSpecial. rewrite add_spec. unfold SF64add, SFadd.
  destruct (Prim2SF a) as [s | s | | s m e]; try discriminate; intros _;
    destruct (Prim2SF y) as [s' | s' | | s' m' e']; try reflexivity;
    destruct s, s'; reflexivity.
Qed.

Lemma special_add_r (a y : float) : isSpecial y = true -> isSpecial (a + y) = true.
Proof.
  unfold isSpecial. rewrite add_spec. unfold SF64add, SFadd.
  destruct (Prim2SF y) as [s' | s' | | s' m' e']; try discriminate; intros _;
    destruct (Prim2SF a) as [s | s | | s m e]; try reflexivity;
    destruct s, s'; reflexivity.
Qed.

Lemma special_sqrt (x : float) : isSpecial x = true -> isSpecial (sqrt x) = true.
Proof.
  intros H. destruct (special_cases x H) as [-> | [-> | ->]]; reflexivity.
Qed.

(** A norm that is NaN or an infinity fails the test of [normalize]. *)
Lemma special_test (x : float) :
  isSpecial x = true -> (is_zero x || is_nan x) || negb (is_finite x) = true.
Proof.
  intros H. destruct (special_cases x H) as [-> | [-> | ->]]; reflexivity.
Qed.

Lemma sum_special (vec : list float) :
  forall acc, isSpecial acc = true ->
              isSpecial (fold_left (fun norm v => norm + v * v) vec acc) = true.
Proof.
  induction vec as [| v vec IH]; intros acc H; [exact H |].
  cbn [fold_left]. apply IH, special_add_l, H.
Qed.

Lemma sum_special_component (vec : list float) :
  existsb isSpecial vec = true ->
  forall acc, isSpecial (fold_left (fun norm v => norm + v * v) vec acc) = true.
Proof.
  induction vec as [| v vec IH]; intros H acc; [discriminate H |].
  cbn [existsb] in H. cbn [fold_left].
  destruct (isSpecial v) eqn:Ev.
  - apply sum_special, special_add_r, special_square, Ev.
  - apply IH. exact H.
Qed.

Lemma sum_zeros (vec : list float) :
  forallb isZero vec = true ->
  fold_left (fun norm v => norm + v * v) vec 0 = 0.
Proof.
  induction vec as [| v vec IH]; intros H; [reflexivity |].
  cbn [forallb] in H. apply andb_true_iff in H. destruct H as [Hv H].
  cbn [fold_left].
  destruct (zero_cases v Hv) as [-> | ->].
  - change (0 + 0 * 0) with 0. apply IH, H.
  - change (0 + neg_zero * neg_zero) with 0. apply IH, H.
Qed.

Lemma normalize_degenerate (vec : list float) :
  degenerate vec -> normalize vec = zeros vec.
Proof.
  intros H. unfold normalize, euclideanNorm.
  cbn [num_falsy num_isFinite num_sqrt num_add num_mul num_zero num_div binary64].
  destruct H as [H | H].
  - rewrite (sum_zeros vec H). reflexivity.
  - rewrite (special_test _ (special_sqrt _ (sum_special_component vec H 0))).
    reflexivity.
Qed.

Lemma SFeqb_refl_finite (s : bool) (m : positive) (e : Z) :
  SFeqb (S754_finite s m e) (S754_finite s m e) = true.
Proof.
  unfold SFeqb, SFcompare.
  change (IntDef.Z.compare e e) with (Z.compare e e).
  rewrite Z.compare_refl.
  change (PosDef.Pos.compare_cont Eq m m) with (Pos.compare m m).
  rewrite Pos.compare_refl. destruct s; reflexivity.
Qed.

(** The test [!norm || !Number.isFinite(norm)] holds exactly of the zeros,
    NaN and the infinities. *)
Lemma test_classified (x : float) :
  (is_zero x || is_nan x) || negb (is_finite x) = isZero x || isSpecial x.
Proof.
  unfold is_zero, is_nan, is_finite, is_nan, is_infinity, isZero, isSpecial.
  rewrite !eqb_spec, abs_spec.
  change (Prim2SF zero) with (S754_zero false).
  change (Prim2SF infinity) with (S754_infinity false).
  destruct (Prim2SF x) as [s | s | | s m e].
  - reflexivity.
  - destruct s; reflexivity.
  - reflexivity.
  - rewrite SFeqb_refl_finite. cbn. destruct s; reflexivity.
Qed.

Lemma normalize_by_norm (vec : list float) :
  (isZero (euclideanNorm vec) || isSpecial (euclideanNorm vec) = true ->
   normalize vec = zeros vec) /\
  (isZero (euclideanNorm vec) || isSpecial (euclideanNorm vec) = false ->
   normalize vec = map (fun v => v / euclideanNorm vec) vec).
Proof.
  unfold normalize. cbn [num_falsy num_isFinite binary64].
  rewrite test_classified.
  split; intros ->; reflexivity.
Qed.

Lemma normalize_cases (vec : list float) :
  List.length (normalize vec) = List.length vec /\
  (normalize vec = zeros vec \/
   normalize vec = map (fun v => v / euclideanNorm vec) vec).
Proof.
  unfold normalize.
  destruct (num_falsy (euclideanNorm vec) || negb (num_isFinite (euclideanNorm vec))).
  - split; [apply length_map | left; reflexivity].
  - split; [apply length_map | right; reflexivity].
Qed.

End Binary64Facts.

Module NumFacts.
Import Num.

Local Open Scope R_scope.

Lemma Rzerob_true (r : R) : Rzerob r = true <-> r = 0.
Proof. unfold Rzerob. destruct (Req_dec_T r 0); split; congruence. Qed.

Lemma Rzerob_false (r : R) : Rzerob r = false <-> r <> 0.
Proof. unfold Rzerob. destruct (Req_dec_T r 0); split; congruence. Qed.

Lemma Rnegb_false (r : R) : 0 <= r -> Rnegb r = false.
Proof. intros H. unfold Rnegb. destruct (Rlt_dec r 0); [lra | reflexivity]. Qed.

Lemma add_nonfinite (x y : num) : isFinite x = false -> isFinite (add x y) = false.
Proof. destruct x, y; simpl; congruence. Qed.

Lemma add_nonfinite_r (x y : num) : isFinite y = false -> isFinite (add x y) = false.
Proof. destruct x, y; simpl; congruence. Qed.

Lemma square_nonfinite (x : num) : isFinite x = false -> isFinite (mul x x) = false.
Proof. destruct x; simpl; congruence. Qed.

Lemma sqrt_nonfinite (x : num) : isFinite x = false -> isFinite (Math_sqrt x) = false.
Proof. destruct x; simpl; congruence. Qed.

Lemma sumSquares_nonfinite (vec : list num) :
  forall x, isFinite x = false -> isFinite (sumSquares x vec) = false.
Proof.
  induction vec as [| v vec IH]; intros x Hx; simpl; [exact Hx |].
  apply IH. apply add_nonfinite. exact Hx.
Qed.

Lemma sumSquares_nonfinite_component (vec : list num) (v : num) :
  In v vec -> (forall r, v <> Fin r) ->
  forall acc, isFinite (sumSquares acc vec) = false.
Proof.
  intros Hin Hv. induction vec as [| w vec IH]; [destruct Hin |].
  intros acc. destruct Hin as [-> | Hin].
  - change (isFinite (sumSquares (add acc (mul v v)) vec) = false).
    apply sumSquares_nonfinite, add_nonfinite_r, square_nonfinite.
    destruct v as [r | | |]; [contradiction (Hv r); reflexivity | | |]; reflexivity.
  - change (isFinite (sumSquares (add acc (mul w w)) vec) = false).
    apply IH. exact Hin.
Qed.

Lemma sumSquares_reals (rs : list R) :
  forall a, sumSquares (Fin a) (map Fin rs) = Fin (a + sq_sum rs).
Proof.
  induction rs as [| r rs IH]; intros a.
  - simpl. f_equal. lra.
  - change (sumSquares (Fin (a + r * r)) (map Fin rs) = Fin (a + sq_sum (r :: rs))).
    rewrite IH. simpl. f_equal. lra.
Qed.

Lemma sq_sum_nonneg (rs : list R) : 0 <= sq_sum rs.
Proof.
  induction rs as [| r rs IH]; simpl; [lra |].
  pose proof (Rle_0_sqr r) as Hr. unfold Rsqr in Hr. lra.
Qed.

Lemma sq_sum_zero (rs : list R) : sq_sum rs = 0 <-> Forall (fun r => r = 0) rs.
Proof.
  induction rs as [| r rs IH]; simpl.
  - split; [constructor | reflexivity].
  - pose proof (sq_sum_nonneg rs) as Hs.
    pose proof (Rle_0_sqr r) as Hr. unfold Rsqr in Hr.
    split.
    + intros H. assert (Hr0 : r * r = 0) by lra.
      constructor; [| apply IH; lra].
      destruct (Rmult_integral _ _ Hr0); assumption.
    + intros H. inversion H as [| ? ? -> Hrs]; subst.
      apply IH in Hrs. lra.
Qed.

Lemma sq_sum_scaled (n : R) (rs : list R) :
  n <> 0 -> sq_sum (map (fun r => r / n) rs) = sq_sum rs / (n * n).
Proof.
  intros Hn. induction rs as [| r rs IH]; simpl.
  - unfold Rdiv. lra.
  - rewrite IH. field. exact Hn.
Qed.

(** A vector holds finite components only, or one that is not finite. *)
Lemma finite_or_not (vec : list num) :
  (exists rs, vec = map Fin rs) \/ (exists v, In v vec /\ forall r, v <> Fin r).
Proof.
  induction vec as [| v vec IH]; [left; exists (@nil R); reflexivity |].
  destruct v as [r | | |].
  - destruct IH as [[rs ->] | (w & Hin & Hw)].
    + left. exists (r :: rs). reflexivity.
    + right. exists w. split; [right; exact Hin | exact Hw].
  - right. exists PosInf. split; [left; reflexivity | discriminate].
  - right. exists NegInf. split; [left; reflexivity | discriminate].
  - right. exists NaN. split; [left; reflexivity | discriminate].
Qed.

(** The norm of a vector of reals, as [normalize] computes it over exact
    arithmetic. *)
Lemma norm_reals (rs : list R) :
  euclideanNorm (map Fin rs) = Fin (sqrt (sq_sum rs)).
Proof.
  unfold euclideanNorm.
  change (fold_left (fun norm v => num_add norm (num_mul v v)) (map Fin rs) num_zero)
    with (sumSquares (Fin 0) (map Fin rs)).
  rewrite sumSquares_reals. cbn [num_sqrt exact Math_sqrt].
  rewrite Rplus_0_l, (Rnegb_false _ (sq_sum_nonneg rs)). reflexivity.
Qed.

Lemma normalize_nonfinite (vec : list num) (v : num) :
  In v vec -> (forall r, v <> Fin r) -> normalize vec = zeroVector vec.
Proof.
  intros Hin Hv. unfold normalize.
  assert (Hn : isFinite (euclideanNorm vec) = false).
  { unfold euclideanNorm. apply sqrt_nonfinite.
    apply (sumSquares_nonfinite_component vec v Hin Hv (Fin 0)). }
  cbn [num_falsy num_isFinite exact]. rewrite Hn, orb_true_r. reflexivity.
Qed.

Lemma normalize_zero_reals (rs : list R) :
  sq_sum rs = 0 -> normalize (map Fin rs) = zeroVector (map Fin rs).
Proof.
  intros Hs. unfold normalize. rewrite norm_reals, Hs, sqrt_0.
  cbn [num_falsy num_isFinite exact falsy].
  rewrite (proj2 (Rzerob_true 0) eq_refl). reflexivity.
Qed.

Lemma normalize_reals (rs : list R) :
  sq_sum rs <> 0 ->
  normalize (map Fin rs) = map Fin (map (fun r => r / sqrt (sq_sum rs)) rs) /\
  sqrt (sq_sum (map (fun r => r / sqrt (sq_sum rs)) rs)) = 1.
Proof.
  intros Hs.
  pose proof (sq_sum_nonneg rs) as Hpos.
  assert (Hn : sqrt (sq_sum rs) <> 0).
  { intros Hz. apply Hs. apply sqrt_eq_0; assumption. }
  split.
  - unfold normalize. rewrite norm_reals.
    cbn [num_falsy num_isFinite exact falsy isFinite negb].
    rewrite (proj2 (Rzerob_false _) Hn). cbn [orb].
    rewrite !map_map. apply map_ext. intros r.
    cbn [num_div exact div]. rewrite (proj2 (Rzerob_false _) Hn). reflexivity.
  - rewrite (sq_sum_scaled _ rs Hn), sqrt_sqrt by exact Hpos.
    replace (sq_sum rs / sq_sum rs) with 1 by (field; exact Hs).
    apply sqrt_1.
Qed.

Lemma zero_reals (rs : list R) :
  Forall (fun v => v = Fin 0) (map Fin rs) <-> sq_sum rs = 0.
Proof.
  rewrite sq_sum_zero. rewrite Forall_map. split; intros H.
  - eapply Forall_impl; [| exact H]. intros r E. injection E as ->. reflexivity.
  - eapply Forall_impl; [| exact H]. intros r ->. reflexivity.
Qed.

End NumFacts.




(** Overflow and underflow: a finite vector that is not zero is sent to the
    all-zero vector when the sum of its squares is no binary64 number other
    than 0. *)
Lemma normalize_binary64_overflow :
  normalize Binary64.huge = Binary64.zeros Binary64.huge /\
  normalize Binary64.tiny = Binary64.zeros Binary64.tiny /\
  map Binary64.valueOf Binary64.huge = [Some (Qpower 2 700); Some (Qpower 2 700)] /\
  ~ Binary64.degenerate Binary64.huge /\
  ~ Binary64.degenerate Binary64.tiny.
Proof.
  split; [vm_compute; reflexivity |].
  split; [vm_compute; reflexivity |].
  split; [vm_compute; reflexivity |].
  split; intros [H | H]; vm_compute in H; discriminate H.
Qed.

(** * Further properties of the retrieval endpoint *)

(** ** Cosine similarity *)

Lemma dot_from_acc (a b : list Q) :
  forall acc acc', (acc == acc')%Q -> (dot_from acc a b == dot_from acc' b a)%Q.
Proof.
  revert b. induction a as [| x a IH]; intros b acc acc' H.
  - destruct b; simpl; exact H.
  - destruct b as [| y b]; simpl; [exact H |].
    apply IH. rewrite H. ring.
Qed.

Lemma dot_from_prefix (a b : list Q) :
  forall acc,
    dot_from acc a b =
    dot_from acc (firstn (Nat.min (List.length a) (List.length b)) a)
                 (firstn (Nat.min (List.length a) (List.length b)) b).
Proof.
  revert b. induction a as [| x a IH]; intros b acc.
  - destruct b; reflexivity.
  - destruct b as [| y b]; [reflexivity |].
    simpl. apply IH.
Qed.

Lemma dot_from_sum (a b : list Q) :
  forall acc, (dot_from acc a b == acc + sumOfProducts a b)%Q.
Proof.
  revert b. induction a as [| x a IH]; intros b acc.
  - destruct b; unfold sumOfProducts; simpl; ring.
  - destruct b as [| y b]; [unfold sumOfProducts; simpl; ring |].
    simpl. rewrite IH. unfold sumOfProducts. simpl. ring.
Qed.

(** X1.  [cosineSim] is the dot product over the common prefix of its arguments:
    its value is the sum of the products a[i] * b[i] over the positions both
    vectors have, accumulated from the left starting at 0; components beyond
    the shorter vector are ignored, an empty vector gives 0, and the order
    of the arguments does not change the value. *)
Theorem cosineSim_common_prefix (a b : list Q) :
  (cosineSim a b == sumOfProducts a b)%Q /\
  cosineSim a b =
  fold_left (fun dot p => (dot + fst p * snd p)%Q) (combine a b) 0%Q /\
  cosineSim a b =
  cosineSim (firstn (Nat.min (List.length a) (List.length b)) a)
            (firstn (Nat.min (List.length a) (List.length b)) b) /\
  (forall extra, List.length a <= List.length b ->
                 cosineSim a (b ++ extra) = cosineSim a b) /\
  cosineSim [] b = 0%Q /\
  (cosineSim a b == cosineSim b a)%Q.
Proof.
  unfold cosineSim.
  split; [rewrite dot_from_sum; ring |].
  split.
  { generalize 0%Q as acc. revert b.
    induction a as [| x a IH]; intros b acc.
    - destruct b; reflexivity.
    - destruct b as [| y b]; [reflexivity |]. simpl. apply IH. }
  split; [apply dot_from_prefix |]. split; [| split].
  - intros extra Hle.
    rewrite (dot_from_prefix a (b ++ extra)), (dot_from_prefix a b).
    rewrite length_app.
    rewrite !Nat.min_l by lia.
    rewrite firstn_app.
    replace (List.length a - List.length b) with 0 by lia.
    rewrite firstn_O, app_nil_r. reflexivity.
  - reflexivity.
  - apply dot_from_acc. reflexivity.
Qed.

(** ** Intent flags *)

Lemma set_add_NoDup (l : list string) (k : string) :
  NoDup l -> NoDup (JS.set_add l k).
Proof.
  intros H. unfold JS.set_add. destruct (JS.arr_includes l k) eqn:E; [exact H |].
  apply NoDup_app; [exact H | constructor; [intros [] | constructor] |].
  intros x Hx [<- | []].
  apply arr_includes_In in Hx. congruence.
Qed.

Lemma fold_set_add_spec (l : list string) :
  forall acc,
    NoDup acc ->
    NoDup (fold_left JS.set_add l acc) /\
    (forall x, In x (fold_left JS.set_add l acc) <-> In x acc \/ In x l) /\
    exists more, fold_left JS.set_add l acc = acc ++ more.
Proof.
  induction l as [| k l IH]; intros acc Hnd; simpl.
  - split; [exact Hnd |]. split; [intros x; tauto |].
    exists []. rewrite app_nil_r. reflexivity.
  - destruct (IH (JS.set_add acc k) (set_add_NoDup acc k Hnd)) as (H1 & H2 & more & H3).
    split; [exact H1 |]. split.
    + intros x. rewrite H2, set_add_In. intuition congruence.
    + rewrite H3. unfold JS.set_add. destruct (JS.arr_includes acc k).
      * exists more. reflexivity.
      * exists ([k] ++ more). rewrite app_assoc. reflexivity.
Qed.

Lemma set_of_NoDup (l : list string) : NoDup (JS.set_of l).
Proof.
  unfold JS.set_of.
  destruct (fold_set_add_spec l [] (NoDup_nil _)) as (H1 & _). exact H1.
Qed.

Lemma set_of_In (l : list string) (x : string) : In x (JS.set_of l) <-> In x l.
Proof.
  unfold JS.set_of.
  destruct (fold_set_add_spec l [] (NoDup_nil _)) as (_ & H2 & _).
  rewrite H2. simpl. tauto.
Qed.

Lemma pushed_In (q : string) (groups : list (list string * list string)) :
  forall acc x,
    In x (fold_left (fun acc g => if existsb (JS.includes q) (fst g)
                                  then acc ++ snd g else acc) groups acc) <->
    In x acc \/
    exists g, In g groups /\ existsb (JS.includes q) (fst g) = true /\ In x (snd g).
Proof.
  induction groups as [| g groups IH]; intros acc x; simpl.
  - split; [tauto | intros [H | (g & [] & _)]; exact H].
  - rewrite IH. destruct (existsb (JS.includes q) (fst g)) eqn:E.
    + rewrite in_app_iff. split.
      * intros [[H | H] | (g' & Hg & Hh & Hx)].
        -- left; exact H.
        -- right. exists g. auto.
        -- right. exists g'. auto.
      * intros [H | (g' & [<- | Hg] & Hh & Hx)].
        -- left; left; exact H.
        -- left; right; exact Hx.
        -- right. exists g'. auto.
    + split.
      * intros [H | (g' & Hg & Hh & Hx)]; [left; exact H |].
        right. exists g'. auto.
      * intros [H | (g' & [<- | Hg] & Hh & Hx)];
          [left; exact H | congruence | right; exists g'; auto].
Qed.

Lemma lower_ascii_idem (c : ascii) : JS.lower_ascii (JS.lower_ascii c) = JS.lower_ascii c.
Proof. destruct c as [[] [] [] [] [] [] [] []]; reflexivity. Qed.

Lemma toLowerCase_idem (s : string) :
  JS.toLowerCase (JS.toLowerCase s) = JS.toLowerCase s.
Proof.
  induction s as [| c s IH]; simpl; [reflexivity |].
  rewrite lower_ascii_idem, IH. reflexivity.
Qed.

(** X2.  The flags of a question carry no repetition, are all among the known
    flag names, include [tpt] whenever they include [dr_tpt], and depend on
    the question only up to letter case; an empty question has no flag. *)
Theorem inferIntentFlags_invariants (question : string) :
  NoDup (inferIntentFlags question) /\
  (forall f, In f (inferIntentFlags question) -> In f knownFlags) /\
  (In "dr_tpt" (inferIntentFlags question) -> In "tpt" (inferIntentFlags question)) /\
  inferIntentFlags (JS.toLowerCase question) = inferIntentFlags question /\
  inferIntentFlags "" = [].
Proof.
  assert (E : inferIntentFlags question =
              if String.eqb (JS.toLowerCase question) EmptyString then []
              else JS.set_of (pushedFlags (JS.toLowerCase question)))
    by reflexivity.
  split; [| split; [| split; [| split]]].
  - rewrite E. destruct (String.eqb _ _); [constructor | apply set_of_NoDup].
  - intros f Hf. rewrite E in Hf. destruct (String.eqb _ _); [contradiction |].
    rewrite set_of_In in Hf. unfold pushedFlags in Hf. rewrite pushed_In in Hf.
    destruct Hf as [[] | (g & Hg & _ & Hx)].
    unfold knownFlags. apply in_flat_map. exists g. split; assumption.
  - rewrite E. destruct (String.eqb _ _); [contradiction |].
    rewrite !set_of_In. unfold pushedFlags. rewrite !pushed_In.
    intros [[] | (g & Hg & Hh & Hx)].
    right. exists g. split; [exact Hg |]. split; [exact Hh |].
    unfold intentGroups in Hg. simpl in Hg.
    repeat (destruct Hg as [<- | Hg];
            [simpl in Hx |- *;
             repeat (destruct Hx as [Hx | Hx]; [try discriminate Hx |]);
             try contradiction; auto |]).
    contradiction.
  - unfold inferIntentFlags. rewrite toLowerCase_idem. reflexivity.
  - reflexivity.
Qed.

(** ** Scope inference *)

Lemma arr_includes_ext (l l' : list string) (x : string) :
  (In x l <-> In x l') -> JS.arr_includes l x = JS.arr_includes l' x.
Proof.
  intros H.
  destruct (JS.arr_includes l x) eqn:E1, (JS.arr_includes l' x) eqn:E2;
    try reflexivity.
  - rewrite arr_includes_In in E1. rewrite H, <- arr_includes_In in E1. congruence.
  - rewrite arr_includes_In in E2. rewrite <- H, <- arr_includes_In in E2. congruence.
Qed.

Lemma topicCandidates_ext (flags flags' : list string) :
  (forall f, ~ In f populationFlags -> (In f flags <-> In f flags')) ->
  topicCandidates flags = topicCandidates flags'.
Proof.
  intros H. unfold topicCandidates.
  assert (Hn : forall name, ~ In name populationFlags ->
                            JS.arr_includes flags name = JS.arr_includes flags' name).
  { intros name Hname. apply arr_includes_ext. apply H. exact Hname. }
  rewrite !(Hn _) by (simpl; intuition discriminate).
  reflexivity.
Qed.

(** X3.  The scope inferred from a question depends on the intent flags only
    through the topic flags: adding or removing the population flags
    (special_populations, comorbidities), reordering or repeating flags
    changes nothing; and the answer is one of prevention, screening,
    diagnosis, treatment, or none. *)
Theorem inferScope_ignores_population_flags
        (question : option string) (flags flags' : list string) :
  (forall f, ~ In f populationFlags -> (In f flags <-> In f flags')) ->
  inferScopeFromQuestion question flags = inferScopeFromQuestion question flags' /\
  (forall s, inferScopeFromQuestion question flags = Some s -> In s inferableScopes).
Proof.
  intros H. split.
  - unfold inferScopeFromQuestion. rewrite (topicCandidates_ext flags flags' H).
    reflexivity.
  - intros s. unfold inferScopeFromQuestion.
    destruct (find _ topicPriority) as [t |] eqn:Ef.
    + intros E. injection E as <-. apply find_some in Ef. destruct Ef as [Ht _].
      simpl in Ht. simpl. intuition.
    + cbv zeta.
      repeat match goal with
             | |- (if ?b then _ else _) = _ -> _ => destruct b
             end;
        intros E; try discriminate E; injection E as <-; simpl; auto.
Qed.

Lemma inferScope_ignores_population_flags_witness :
  inferScopeFromQuestion (Some "pregnant woman with HIV, which regimen")
                         ["regimen_selection"]
  = inferScopeFromQuestion (Some "pregnant woman with HIV, which regimen")
                           ["special_populations"; "regimen_selection"; "comorbidities"].
Proof.
  apply (inferScope_ignores_population_flags
           (Some "pregnant woman with HIV, which regimen")
           ["regimen_selection"]
           ["special_populations"; "regimen_selection"; "comorbidities"]).
  intros f Hf. simpl in *. intuition.
Defined.

(** ** Scope filter *)

Lemma filter_idem {A : Type} (f : A -> bool) (l : list A) :
  filter f (filter f l) = filter f l.
Proof.
  induction l as [| x l IH]; simpl; [reflexivity |].
  destruct (f x) eqn:E; simpl; [rewrite E, IH; reflexivity | exact IH].
Qed.

(** X4.  With a scope requested, [filterIndicesByScope] keeps a chunk that
    carries a scope tag exactly when the tag equals the requested scope up
    to letter case, whatever its document id and section say; it selects
    from the given indices without reordering them, and filtering twice
    changes nothing. *)
Theorem filterIndicesByScope_tag_authoritative
        (indices : list nat) (chunks : list chunk) (requested : option string) :
  JS.truthy requested = true ->
  let kept := filterIndicesByScope indices chunks requested in
  (exists keep, kept = filter keep indices) /\
  (forall i, In i indices ->
             lc (scope (chunkAt chunks i)) <> EmptyString ->
             (In i kept <->
              lc (scope (chunkAt chunks i)) = JS.toLowerCase (JS.or_empty requested))) /\
  filterIndicesByScope kept chunks requested = kept.
Proof.
  intros Ht kept. unfold kept, filterIndicesByScope. rewrite Ht. simpl.
  split; [eexists; reflexivity |]. split.
  - intros i Hi Htag. rewrite filter_In. unfold scopeMatches.
    apply String.eqb_neq in Htag. rewrite Htag. simpl.
    rewrite String.eqb_eq. tauto.
  - apply filter_idem.
Qed.

Lemma filterIndicesByScope_tag_authoritative_witness :
  JS.truthy (Some "Treatment") = true /\
  (In 0 (filterIndicesByScope [0; 1] Sample.tagged (Some "Treatment")) <->
   lc (scope (chunkAt Sample.tagged 0)) = "treatment").
Proof.
  split; [reflexivity |].
  destruct (filterIndicesByScope_tag_authoritative
              [0; 1] Sample.tagged (Some "Treatment") eq_refl) as (_ & H & _).
  apply (H 0); [left; reflexivity | vm_compute; discriminate].
Defined.

(** ** Section keys *)

(** X5.  The section keys of a non-empty path are pairwise distinct, start with
    the trimmed lower-cased path, and are exactly that path, its non-empty
    trimmed pipe-delimited segments and its dotted numeric headings; an empty
    path has no key. *)
Theorem extractSectionKeys_shape (sectionPath : string) :
  extractSectionKeys "" = [] /\
  (sectionPath <> EmptyString ->
   let s := JS.toLowerCase sectionPath in
   let keys := extractSectionKeys sectionPath in
   NoDup keys /\
   (exists rest, keys = JS.trim s :: rest) /\
   forall k, In k keys <->
             k = JS.trim s \/
             (k <> EmptyString /\
              exists seg, In seg (JS.split "|"%char s) /\ JS.trim seg = k) \/
             In k (numMatches s)).
Proof.
  split; [reflexivity |].
  intros Hne s keys. unfold keys, extractSectionKeys.
  apply String.eqb_neq in Hne. rewrite Hne. fold s. cbv zeta.
  set (segments := filter (fun seg => negb (String.eqb seg EmptyString))
                          (map JS.trim (JS.split "|"%char s))).
  assert (H0 : JS.set_add [] (JS.trim s) = [JS.trim s]) by reflexivity.
  rewrite H0.
  assert (Hnd0 : NoDup [JS.trim s]) by (constructor; [intros [] | constructor]).
  destruct (fold_set_add_spec segments [JS.trim s] Hnd0) as (Hnd1 & Hin1 & more1 & E1).
  destruct (fold_set_add_spec (numMatches s) _ Hnd1) as (Hnd2 & Hin2 & more2 & E2).
  split; [exact Hnd2 |]. split.
  - exists (more1 ++ more2). rewrite E2, E1. rewrite <- app_assoc. reflexivity.
  - intros k. rewrite Hin2, Hin1. unfold segments. rewrite filter_In, in_map_iff.
    rewrite negb_true_iff, String.eqb_neq. simpl. split.
    + intros [[[E | []] | ((seg & Es & Hs) & Hk)] | Hm].
      * left. symmetry. exact E.
      * right. left. split; [exact Hk | exists seg; auto].
      * right. right. exact Hm.
    + intros [E | [(Hk & seg & Hs & Es) | Hm]].
      * left. left. left. symmetry. exact E.
      * left. right. split; [exists seg; auto | exact Hk].
      * right. exact Hm.
Qed.

(** ** Objects *)

Lemma obj_get_set_same {V : Type} (o : Obj.t V) (k : string) (v : V) :
  Obj.get (Obj.set o k v) k = Some v.
Proof.
  induction o as [| [k' v'] o IH]; simpl.
  - rewrite String.eqb_refl. reflexivity.
  - destruct (String.eqb k' k) eqn:E; simpl; rewrite E; [reflexivity | exact IH].
Qed.

Lemma obj_get_set_other {V : Type} (o : Obj.t V) (k k0 : string) (v : V) :
  k <> k0 -> Obj.get (Obj.set o k v) k0 = Obj.get o k0.
Proof.
  intros Hne. induction o as [| [k' v'] o IH]; simpl.
  - apply String.eqb_neq in Hne. rewrite Hne. reflexivity.
  - destruct (String.eqb k' k) eqn:E; simpl.
    + apply String.eqb_eq in E. subst k'.
      apply String.eqb_neq in Hne. rewrite Hne. reflexivity.
    + destruct (String.eqb k' k0); [reflexivity | exact IH].
Qed.

Lemma obj_set_names {V W : Type} (o : Obj.t V) (o' : Obj.t W) (k : string)
      (v : V) (w : W) :
  propertyNames o = propertyNames o' ->
  propertyNames (Obj.set o k v) = propertyNames (Obj.set o' k w).
Proof.
  unfold propertyNames. revert o'.
  induction o as [| [k1 v1] o IH]; intros [| [k2 v2] o'] H; simpl in *;
    try discriminate; [reflexivity |].
  injection H as <- H.
  destruct (String.eqb k1 k); simpl; f_equal; auto.
Qed.

(** ** Table normalisation *)

Lemma filter_length_lt {A : Type} (f : A -> bool) (l : list A) (x : A) :
  In x l -> f x = false -> List.length (filter f l) < List.length l.
Proof.
  induction l as [| y l IH]; simpl; [contradiction |].
  intros [<- | Hx] Hf.
  - rewrite Hf. pose proof (filter_length_le f l). lia.
  - specialize (IH Hx Hf). destruct (f y); simpl; lia.
Qed.

Lemma logical_fold_names (hdr : rawrow) (row row' : rawrow) (cols : list string) :
  forall acc acc' : lrow,
    propertyNames acc = propertyNames acc' ->
    propertyNames
      (fold_left
         (fun (a : lrow) col =>
            let headerLabel := JS.trim (JS.or_empty (Obj.get hdr col)) in
            if String.eqb headerLabel EmptyString then a
            else Obj.set a headerLabel (Obj.get row col)) cols acc) =
    propertyNames
      (fold_left
         (fun (a : lrow) col =>
            let headerLabel := JS.trim (JS.or_empty (Obj.get hdr col)) in
            if String.eqb headerLabel EmptyString then a
            else Obj.set a headerLabel (Obj.get row' col)) cols acc').
Proof.
  induction cols as [| col cols IH]; intros acc acc' H; simpl; [exact H |].
  apply IH. destruct (String.eqb _ EmptyString); [exact H |].
  apply obj_set_names. exact H.
Qed.

Lemma filter_all_false_nil {A : Type} (f : A -> bool) (l : list A) :
  (forall x, In x l -> f x = false) -> filter f l = [].
Proof.
  induction l as [| x l IH]; intros H; simpl; [reflexivity |].
  rewrite (H x) by (left; reflexivity). apply IH.
  intros y Hy. apply H. right. exact Hy.
Qed.

Lemma header_choice (first : rawrow) (rest : list rawrow) :
  let rows := first :: rest in
  let hdr := match find (fun r => String.eqb (JS.to_String (row_index r)) "1") rows with
             | Some r => r
             | None => first
             end in
  In hdr rows /\
  (rowIndexText hdr = "1" \/
   (hd_error rows = Some hdr /\ forall r, In r rows -> rowIndexText r <> "1")).
Proof.
  intros rows hdr. unfold hdr.
  destruct (find (fun r => String.eqb (JS.to_String (row_index r)) "1") rows)
    as [r |] eqn:Ef.
  - apply find_some in Ef. destruct Ef as [Hin Er].
    apply String.eqb_eq in Er. split; [exact Hin | left; exact Er].
  - split; [left; reflexivity |]. right. split; [reflexivity |].
    intros r Hr E. pose proof (find_none _ _ Ef r Hr) as Hf.
    simpl in Hf. unfold rowIndexText in E. rewrite E in Hf. discriminate Hf.
Qed.

(** X6.  For a non-empty sheet, [normalizeTableRows] takes as header the first
    row whose row index reads "1", else the first row; the logical rows are
    made from the rows whose row index differs from the header's, so there
    are fewer of them than raw rows; all logical rows carry the same property
    names in the same order, and each keeps its row index under
    [_row_index]. *)
Theorem normalizeTableRows_shape (rawRows : list rawrow) :
  rawRows <> [] ->
  let n := normalizeTableRows rawRows in
  exists hdr,
    headerRow n = Some hdr /\
    In hdr rawRows /\
    (rowIndexText hdr = "1" \/
     (hd_error rawRows = Some hdr /\
      forall r, In r rawRows -> rowIndexText r <> "1")) /\
    List.length (logicalRows n) =
    List.length (filter (fun r => negb (String.eqb (rowIndexText r) (rowIndexText hdr)))
                        rawRows) /\
    List.length (logicalRows n) < List.length rawRows /\
    (forall r1 r2, In r1 (logicalRows n) -> In r2 (logicalRows n) ->
                   propertyNames r1 = propertyNames r2) /\
    (forall l, In l (logicalRows n) ->
               exists r, In r rawRows /\ rowIndexText r <> rowIndexText hdr /\
                         Obj.get l "_row_index" = Some (row_index r)).
Proof.
  intros Hne n. unfold n, normalizeTableRows.
  destruct rawRows as [| first rest]; [congruence |].
  fold (rowIndexText).
  set (rows := first :: rest).
  set (hdr := match find (fun r => String.eqb (JS.to_String (row_index r)) "1") rows with
              | Some r => r
              | None => first
              end).
  pose proof (header_choice first rest) as Hhdr. cbv zeta in Hhdr.
  fold rows in Hhdr. fold hdr in Hhdr.
  destruct Hhdr as [Hin Hwhich].
  exists hdr. cbn [headerRow logicalRows].
  split; [reflexivity |]. split; [exact Hin |]. split; [exact Hwhich |].
  rewrite length_map.
  split; [reflexivity |]. split.
  - eapply filter_length_lt; [exact Hin |].
    unfold rowIndexText. simpl. rewrite String.eqb_refl. reflexivity.
  - split.
    + intros r1 r2 H1 H2.
      apply in_map_iff in H1, H2.
      destruct H1 as (x1 & <- & _). destruct H2 as (x2 & <- & _).
      apply obj_set_names. apply logical_fold_names. reflexivity.
    + intros l Hl. apply in_map_iff in Hl. destruct Hl as (r & <- & Hr).
      apply filter_In in Hr. destruct Hr as [Hr Hd].
      exists r. split; [exact Hr |]. split.
      * apply negb_true_iff, String.eqb_neq in Hd. exact Hd.
      * apply obj_get_set_same.
Qed.

Lemma normalizeTableRows_shape_witness :
  SampleDr.regimenRows <> [] /\
  exists hdr,
    headerRow (normalizeTableRows SampleDr.regimenRows) = Some hdr /\
    In hdr SampleDr.regimenRows.
Proof.
  assert (Hne : SampleDr.regimenRows <> []) by (vm_compute; discriminate).
  split; [exact Hne |].
  destruct (normalizeTableRows_shape SampleDr.regimenRows Hne)
    as (hdr & H1 & H2 & _).
  exists hdr. split; assumption.
Defined.

(** X7.  A sheet whose rows all read the same row index, as when the CSV has no
    [row_index] column, yields no logical row at all: every row is taken for
    the header. *)
Theorem normalizeTableRows_same_index (rawRows : list rawrow) :
  (forall r1 r2, In r1 rawRows -> In r2 rawRows -> rowIndexText r1 = rowIndexText r2) ->
  logicalRows (normalizeTableRows rawRows) = [] /\
  getTableHeaders (logicalRows (normalizeTableRows rawRows)) = [].
Proof.
  intros Hsame.
  assert (E : logicalRows (normalizeTableRows rawRows) = []).
  { destruct rawRows as [| first rest]; [reflexivity |].
    destruct (header_choice first rest) as [Hin _].
    unfold normalizeTableRows. cbn [logicalRows].
    match goal with
    | |- map ?f (filter ?p ?l) = [] =>
        assert (Ef : filter p l = []); [| rewrite Ef; reflexivity]
    end.
    apply filter_all_false_nil. intros r Hr.
    pose proof (Hsame r _ Hr Hin) as Er. unfold rowIndexText in Er.
    rewrite Er. apply negb_false_iff, String.eqb_refl. }
  rewrite E. split; reflexivity.
Qed.

Lemma normalizeTableRows_same_index_witness :
  logicalRows
    (normalizeTableRows
       [ [("ColumnA", "Medicine"); ("ColumnB", "Dose")];
         [("ColumnA", "Isoniazid"); ("ColumnB", "300 mg")] ]) = [].
Proof.
  apply (normalizeTableRows_same_index
           [ [("ColumnA", "Medicine"); ("ColumnB", "Dose")];
             [("ColumnA", "Isoniazid"); ("ColumnB", "300 mg")] ]).
  intros r1 r2 H1 H2. simpl in H1, H2.
  destruct H1 as [<- | [<- | []]]; destruct H2 as [<- | [<- | []]]; reflexivity.
Defined.

(** ** Order and origin of the results *)

Lemma descending_In_le (l : list entry) (x e : entry) :
  descending (x :: l) -> In e l -> (score e <= score x)%Q.
Proof.
  unfold descending. intros H He. inversion H as [| ? ? _ Hx]; subst.
  rewrite Forall_forall in Hx. apply Hx. exact He.
Qed.

Lemma descending_tail (l : list entry) (x : entry) :
  descending (x :: l) -> descending l.
Proof. unfold descending. intros H. inversion H; assumption. Qed.

Lemma dedup_descending (chunks : list chunk) (l : list entry) :
  forall seen, descending l -> descending (dedup chunks seen l).
Proof.
  induction l as [| x l IH]; intros seen H; simpl; [constructor |].
  pose proof (descending_tail _ _ H) as Ht.
  destruct (negb (JS.truthy (chunk_id (chunkAt chunks (index x)))) ||
            JS.arr_includes seen (JS.or_empty (chunk_id (chunkAt chunks (index x)))));
    [apply IH; exact Ht |].
  constructor; [apply IH; exact Ht |].
  apply Forall_forall. intros e He.
  destruct (dedup_spec chunks l (JS.set_add seen
              (JS.or_empty (chunk_id (chunkAt chunks (index x)))))) as [_ Hin].
  destruct (Hin e He) as (Hel & _).
  exact (descending_In_le l x e H Hel).
Qed.

Lemma firstn_descending (n : nat) (l : list entry) :
  descending l -> descending (firstn n l).
Proof.
  revert l. induction n as [| n IH]; intros l H; [constructor |].
  destruct l as [| x l]; [constructor |]. simpl.
  constructor; [apply IH; exact (descending_tail _ _ H) |].
  apply Forall_forall. intros e He. apply firstn_In in He.
  exact (descending_In_le l x e H He).
Qed.

Lemma rank_combined_descending it chunks embeddings qEmbedding scope finalTopK :
  descending (st_combined (rank it chunks embeddings qEmbedding scope finalTopK)).
Proof.
  rewrite rank_combined. cbv zeta. rewrite rank_merged.
  destruct (isPreventionScope it && hasTptIntent it);
    destruct (isTreatmentScope it && isPediatric it && hasDrugResistanceIntent it);
    apply sort_desc_sorted.
Qed.

Lemma rank_top_descending it chunks embeddings qEmbedding scope finalTopK :
  descending (st_top (rank it chunks embeddings qEmbedding scope finalTopK)).
Proof.
  rewrite rank_top, rank_deduped.
  apply firstn_descending, dedup_descending, rank_combined_descending.
Qed.

Lemma results_sorted_of_entries (f : entry -> result) (l : list entry) :
  (forall e, res_score (f e) = score e) ->
  descending l -> byScoreDescending (map f l).
Proof.
  intros Hf H. unfold byScoreDescending, descending in *.
  induction H as [| x l Hs IH Hx]; simpl; constructor; [exact IH |].
  rewrite Forall_forall in *. intros r Hr.
  apply in_map_iff in Hr. destruct Hr as (e & <- & He).
  rewrite !Hf. apply Hx. exact He.
Qed.

(** X8.  The results of a successful response are listed by descending score:
    the score of each result is at least that of every result after it. *)
Theorem results_sorted_by_score
        (chunks : list chunk) (embeddings : list (list Q))
        (embedQuestion : string -> outcome (list Q))
        (loadTableRows : string -> outcome (list rawrow))
        (renderSubtype :
           string -> chunk -> list lrow -> option rawrow -> outcome rendered)
        (req : request) q k sc results :
  handler (Returned (chunks, embeddings)) embedQuestion loadTableRows renderSubtype req
  = Success q k sc results ->
  byScoreDescending results.
Proof.
  intros H.
  destruct (handler_success _ _ _ _ _ _ _ _ _ _ H)
    as (qEmb & _ & _ & _ & _ & _ & _ & Hres).
  rewrite Hres. apply results_sorted_of_entries; [reflexivity |].
  unfold stagesOf. apply rank_top_descending.
Qed.

Lemma results_sorted_by_score_witness :
  exists results,
    handler (Returned (SampleDr.corpus, SampleDr.embeddings))
            (fun _ => Returned [1%Q; 0%Q]) SampleDr.tables SampleDr.renderers
            SampleDr.query
    = Success "mdr-tb child which regimen" 8 (Some "treatment") results /\
    byScoreDescending results.
Proof.
  eexists. split; [vm_compute; reflexivity |].
  apply (results_sorted_by_score
           SampleDr.corpus SampleDr.embeddings (fun _ => Returned [1%Q; 0%Q])
           SampleDr.tables SampleDr.renderers SampleDr.query
           "mdr-tb child which regimen" 8%Z (Some "treatment")).
  vm_compute. reflexivity.
Defined.

Lemma enrich_keeps_metadata
      (loadTableRows : string -> outcome (list rawrow))
      (renderSubtype :
         string -> chunk -> list lrow -> option rawrow -> outcome rendered)
      (c : chunk) (options : enrichOptions) :
  let c' := enrichChunkWithTable loadTableRows renderSubtype c options in
  chunk_id c' = chunk_id c /\ doc_id c' = doc_id c /\
  guideline_title c' = guideline_title c /\ year c' = year c /\
  section_path c' = section_path c /\ text c' = text c /\
  content_type c' = content_type c /\ attachment_id c' = attachment_id c /\
  attachment_path c' = attachment_path c.
Proof.
  cbv zeta. unfold enrichChunkWithTable.
  destruct (negb (String.eqb (lc (content_type c)) "table") ||
            negb (JS.truthy (attachment_path c))); [repeat split |].
  destruct (loadTableRows _); [| repeat split].
  destruct (renderTable _ _ _); repeat split.
Qed.

(** X9.  Every result of a successful response reports one chunk of the
    manifest, at an index that also has an embedding, with that chunk's own
    identity, document, section, text and attachment metadata: enrichment
    only adds table properties. *)
Theorem results_report_manifest_chunks
        (chunks : list chunk) (embeddings : list (list Q))
        (embedQuestion : string -> outcome (list Q))
        (loadTableRows : string -> outcome (list rawrow))
        (renderSubtype :
           string -> chunk -> list lrow -> option rawrow -> outcome rendered)
        (req : request) q k sc results :
  handler (Returned (chunks, embeddings)) embedQuestion loadTableRows renderSubtype req
  = Success q k sc results ->
  forall r, In r results ->
            exists i c,
              nth_error chunks i = Some c /\
              i < List.length embeddings /\
              reportsChunk r c.
Proof.
  intros H r Hr.
  destruct (handler_success _ _ _ _ _ _ _ _ _ _ H)
    as (qEmb & _ & _ & _ & Hrange & _ & _ & Hres).
  rewrite Hres in Hr. apply in_map_iff in Hr. destruct Hr as (e & <- & He).
  assert (Hidx : In (index e) (st_indices (stagesOf req chunks embeddings qEmb))).
  { unfold stagesOf in *. apply rank_combined_index.
    rewrite rank_top in He. apply firstn_In in He. rewrite rank_deduped in He.
    match type of He with
    | In _ (dedup _ _ ?l) => destruct (dedup_spec chunks l []) as [_ Hin]
    end.
    destruct (Hin e He) as (Hc & _). exact Hc. }
  exists (index e), (chunkAt chunks (index e)).
  split; [| split].
  - unfold chunkAt. apply nth_error_nth'. apply Hrange. exact Hidx.
  - unfold stagesOf in Hidx. apply rank_indices_incl in Hidx.
    apply in_seq in Hidx. lia.
  - unfold reportsChunk, resultOf.
    cbn [res_chunk_id res_doc_id res_guideline_title res_year res_section_path
         res_text res_content_type res_attachment_id res_attachment_path].
    apply enrich_keeps_metadata.
Qed.

Lemma results_report_manifest_chunks_witness :
  exists results,
    handler (Returned (Sample.tagged, Sample.taggedEmbeddings)) Sample.noEmbedding
            Sample.noTables Sample.noRenderer
            (Sample.post "which regimen for tb" (Some 5%Z) None)
    = Success "which regimen for tb" 2 (Some "treatment") results /\
    forall r, In r results ->
              exists i c, nth_error Sample.tagged i = Some c /\
                          i < List.length Sample.taggedEmbeddings /\
                          reportsChunk r c.
Proof.
  eexists. split; [vm_compute; reflexivity |].
  apply (results_report_manifest_chunks
           Sample.tagged Sample.taggedEmbeddings Sample.noEmbedding
           Sample.noTables Sample.noRenderer
           (Sample.post "which regimen for tb" (Some 5%Z) None)
           "which regimen for tb" 2%Z (Some "treatment")).
  vm_compute. reflexivity.
Defined.

(** ** Channel caps *)

Lemma forceInclude_length (cands : list entry) :
  forall needed combined,
    List.length (forceInclude needed cands combined) <= List.length combined + needed.
Proof.
  induction cands as [| c rest IH]; intros needed combined; simpl; [lia |].
  destruct needed as [| m]; simpl; [lia |].
  destruct (existsb _ combined).
  - specialize (IH (S m) combined). lia.
  - rewrite Nat.sub_0_r. specialize (IH m (combined ++ [c])).
    rewrite length_app in IH. simpl in IH. lia.
Qed.

Lemma intentOf_exclusive (flags : list string) (scope : option string) :
  isTreatmentScope (intentOf flags scope) && isPreventionScope (intentOf flags scope)
  = false.
Proof.
  unfold intentOf. cbn [isTreatmentScope isPreventionScope].
  destruct scope as [x |]; [| reflexivity].
  destruct (String.eqb x "treatment") eqn:E; [| reflexivity].
  apply String.eqb_eq in E. subst x. reflexivity.
Qed.

(** X10.  Before the guarantees the merged list holds at most 20 prose and 8
    table candidates, however large the corpus; after them the list a query
    de-duplicates holds at most 30 candidates. *)
Theorem merged_candidates_capped
        (flags : list string) (scope : option string) (chunks : list chunk)
        (embeddings : list (list Q)) (qEmbedding : list Q) (finalTopK : Z) :
  let st := rank (intentOf flags scope) chunks embeddings qEmbedding scope finalTopK in
  (exists prose tables,
      Permutation (st_merged st) (prose ++ tables) /\
      List.length prose <= 20 /\ List.length tables <= 8 /\
      (forall e, In e prose -> isTable chunks (index e) = false) /\
      (forall e, In e tables -> isTable chunks (index e) = true)) /\
  List.length (st_merged st) <= 28 /\
  List.length (st_combined st) <= 30.
Proof.
  intros st.
  assert (Hm : List.length (st_merged st) <= 28).
  { unfold st. rewrite rank_merged, sort_desc_length, length_app, !length_firstn.
    unfold TEXT_LIMIT, TABLE_LIMIT. lia. }
  split; [| split; [exact Hm |]].
  - exists (firstn TEXT_LIMIT (st_scoredText st)),
           (firstn TABLE_LIMIT (st_scoredTables st)).
    split; [unfold st; rewrite rank_merged; apply sort_desc_perm |].
    split; [rewrite length_firstn; unfold TEXT_LIMIT; lia |].
    split; [rewrite length_firstn; unfold TABLE_LIMIT; lia |].
    split.
    + intros e He. apply firstn_In in He. apply (in_map index) in He.
      apply (Permutation_in _ (rank_text_indices _ _ _ _ _ _)) in He.
      apply filter_In in He. destruct He as [_ He].
      apply negb_true_iff in He. exact He.
    + intros e He. apply firstn_In in He. apply (in_map index) in He.
      apply (Permutation_in _ (rank_scoredTables_indices _ _ _ _ _ _)) in He.
      apply (Permutation_in _ (rank_tablesNear_indices _ _ _ _ _ _)) in He.
      apply (Permutation_in _ (rank_tablesBoosted_indices _ _ _ _ _ _)) in He.
      apply filter_In in He. tauto.
  - unfold st at 1. rewrite rank_combined. cbv zeta. fold st.
    pose proof (intentOf_exclusive flags scope) as Hex.
    destruct (isTreatmentScope (intentOf flags scope)) eqn:Et;
      destruct (isPreventionScope (intentOf flags scope)) eqn:Ep;
      try discriminate Hex; cbn [andb];
      repeat match goal with
             | |- context [if ?b then _ else _] => destruct b
             end;
      rewrite ?sort_desc_length;
      try (match goal with
           | |- List.length (forceInclude ?n ?c ?l) <= _ =>
               pose proof (forceInclude_length c n l)
           end);
      lia.
Qed.

(** ** Boosts without a trigger *)

Lemma boostAll_no_trigger (it : intent) (prose : bool) (chunks : list chunk)
      (l : list entry) :
  noBoostTrigger it -> boostAll it prose chunks l = l.
Proof.
  intros (Ht & Hd & Hp & Hr). unfold boostAll, boostScore.
  rewrite Ht, Hd, Hp, Hr. cbn [andb timesIf].
  induction l as [| [i s] l IH]; simpl; [reflexivity |].
  rewrite IH. reflexivity.
Qed.

(** X11.  When the scope is none of treatment, diagnosis and prevention and the
    question carries no drug-resistance flag, no boost or penalty applies:
    every prose candidate, and every table candidate before the proximity
    stage, scores exactly its cosine similarity with the query, and the
    stale-content penalties leave the table channel as it was. *)
Theorem no_trigger_keeps_similarity
        (it : intent) (chunks : list chunk) (embeddings : list (list Q))
        (qEmbedding : list Q) (scope : option string) (finalTopK : Z) :
  noBoostTrigger it ->
  let st := rank it chunks embeddings qEmbedding scope finalTopK in
  (forall e, In e (st_scoredText st) ->
             score e = cosineSim qEmbedding (nth (index e) embeddings [])) /\
  (forall e, In e (st_tablesBoosted st) ->
             score e = cosineSim qEmbedding (nth (index e) embeddings [])) /\
  st_scoredTables st = st_tablesNear st.
Proof.
  intros Hno st.
  assert (Hscore : forall idxs e,
             In e (sort_desc (boostAll it true chunks
                                (sort_desc (scoreAll qEmbedding embeddings idxs))))
             \/ In e (sort_desc (boostAll it false chunks
                                   (sort_desc (scoreAll qEmbedding embeddings idxs)))) ->
             score e = cosineSim qEmbedding (nth (index e) embeddings [])).
  { intros idxs e He.
    rewrite !(boostAll_no_trigger it _ chunks _ Hno) in He.
    rewrite !sort_desc_In in He.
    assert (Hin : In e (scoreAll qEmbedding embeddings idxs)) by tauto.
    unfold scoreAll in Hin. apply in_map_iff in Hin.
    destruct Hin as (i & <- & _). reflexivity. }
  split; [| split].
  - intros e He. unfold st, rank in He. cbn [st_scoredText] in He.
    eapply Hscore. left. exact He.
  - intros e He. unfold st, rank in He. cbn [st_tablesBoosted] in He.
    eapply Hscore. right. exact He.
  - unfold st. rewrite rank_scoredTables. cbv zeta.
    destruct Hno as (Ht & _ & Hp & _). rewrite Ht, Hp. reflexivity.
Qed.

Lemma no_trigger_keeps_similarity_witness :
  noBoostTrigger (intentOf ["special_populations"] (Some "pediatrics")) /\
  st_scoredTables (rank (intentOf ["special_populations"] (Some "pediatrics"))
                        SampleDr.corpus SampleDr.embeddings [1%Q; 0%Q]
                        (Some "pediatrics") 8)
  = st_tablesNear (rank (intentOf ["special_populations"] (Some "pediatrics"))
                        SampleDr.corpus SampleDr.embeddings [1%Q; 0%Q]
                        (Some "pediatrics") 8).
Proof.
  assert (Hno : noBoostTrigger (intentOf ["special_populations"] (Some "pediatrics")))
    by (vm_compute; repeat split).
  split; [exact Hno |].
  apply (no_trigger_keeps_similarity
           (intentOf ["special_populations"] (Some "pediatrics"))
           SampleDr.corpus SampleDr.embeddings [1%Q; 0%Q] (Some "pediatrics") 8%Z Hno).
Defined.

(** ** Every outcome of the handler *)

(** X12.  Up to the validation of the question, on the body as received:
    the handler answers 405 to any method but POST; 500 when a body sent as
    text does not parse, when it parses to null, and when the question is
    truthy but not a string (the intent classifier throws before the
    validation); 400 when the question is missing, falsy or a blank string;
    and it goes on with a question that is a string of ASCII characters
    with a character other than white space.  A body that is not text is
    taken as it is, a falsy or missing one as an empty object.  On a request
    whose members have the types of the tool schema the typed handler
    agrees with this, and with such a request that is a POST with a question
    of ASCII characters that is not blank it answers 500 when the store
    fails to load or is empty, when the embedding provider fails, or when a
    ranked index has no chunk in the manifest, and 200 in every other case,
    echoing the question, the clamped count and the scope used.  The
    answers 405 and 400 do not consult the store or the embedding
    provider. *)
Theorem handler_outcomes
        (parseJson : string -> outcome json)
        (nullBodyError notAFunctionError : string)
        (store : outcome (list chunk * list (list Q)))
        (embedQuestion : string -> outcome (list Q))
        (loadTableRows : string -> outcome (list rawrow))
        (renderSubtype :
           string -> chunk -> list lrow -> option rawrow -> outcome rendered)
        (rc : received) (req : request) :
  let screen := screenRequest parseJson nullBodyError notAFunctionError in
  let sent := bodyValue parseJson rc in
  let answer := handler store embedQuestion loadTableRows renderSubtype req in
  let missing := "Missing or empty 'question' string in request body." in
  (rc_method rc <> "POST" ->
   screen rc = Answered 405 "Use POST to query the TB RAG store.") /\
  ((forall text, rc_body rc = Some (JStr text) -> sent = parseJson text) /\
   (forall v, rc_body rc = Some v -> (forall text, v <> JStr text) ->
              sent = Returned (if json_truthy v then v else JObj [])) /\
   (rc_body rc = None -> sent = Returned (JObj []))) /\
  (rc_method rc = "POST" ->
   (forall m, sent = Thrown m -> screen rc = Answered 500 m) /\
   (sent = Returned JNull -> screen rc = Answered 500 nullBodyError) /\
   (forall body, sent = Returned body -> body <> JNull ->
      (forall v, property body "question" = Some v -> json_truthy v = true ->
                 (forall s, v <> JStr s) ->
                 screen rc = Answered 500 notAFunctionError) /\
      (present (property body "question") = false -> screen rc = Answered 400 missing) /\
      (forall s, property body "question" = Some (JStr s) ->
                 JS.trim s = EmptyString -> screen rc = Answered 400 missing) /\
      (forall s, property body "question" = Some (JStr s) ->
                 asciiOnly s = true -> JS.trim s <> EmptyString ->
                 screen rc = Proceeds s body))) /\
  (asciiOnly (JS.or_empty (question req)) = true ->
   exists body,
     rc_body (receive req) = Some body /\
     screen (receive req) =
     if negb (String.eqb (method req) "POST")
     then Answered 405 "Use POST to query the TB RAG store."
     else if blankQuestion req then Answered 400 missing
          else Proceeds (JS.or_empty (question req)) body) /\
  (method req <> "POST" ->
   answer = Failure 405 "Use POST to query the TB RAG store.") /\
  (method req = "POST" -> blankQuestion req = true -> answer = Failure 400 missing) /\
  (method req = "POST" -> blankQuestion req = false ->
   asciiOnly (JS.or_empty (question req)) = true ->
   (forall m, store = Thrown m -> answer = Failure 500 m) /\
   (forall chunks embeddings,
       store = Returned (chunks, embeddings) ->
       (chunks = [] \/ embeddings = [] ->
        answer = Failure 500 "RAG store is empty or failed to load.") /\
       (chunks <> [] -> embeddings <> [] ->
        (forall m, embedQuestion (JS.or_empty (question req)) = Thrown m ->
                   answer = Failure 500 m) /\
        (forall qEmbedding,
            embedQuestion (JS.or_empty (question req)) = Returned qEmbedding ->
            let st := stagesOf req chunks embeddings qEmbedding in
            ((exists i, In i (st_indices st) /\ List.length chunks <= i) ->
             exists m, answer = Failure 500 m) /\
            ((forall i, In i (st_indices st) -> i < List.length chunks) ->
             answer =
             Success (JS.or_empty (question req))
                     (clampTopK req (List.length embeddings)) (resolveScope req)
                     (map (resultOf loadTableRows renderSubtype chunks (optionsOf req))
                          (st_top st))))))).
Proof.
  cbv zeta.
  assert (Hnonnull : forall (X : Type) (b : json) (x y : X),
             b <> JNull -> match b with JNull => x | _ => y end = y).
  { intros X b x y Hb. destruct b; try reflexivity. contradiction Hb. reflexivity. }
  split; [| split; [| split; [| split]]].
  - intros Hm. unfold screenRequest. apply String.eqb_neq in Hm. rewrite Hm. reflexivity.
  - unfold bodyValue. split; [intros text ->; reflexivity |].
    split; [| intros ->; reflexivity].
    intros v -> Hv. destruct v; try reflexivity. contradiction (Hv s). reflexivity.
  - intros Hm. unfold screenRequest. apply String.eqb_eq in Hm. rewrite Hm. cbn [negb].
    split; [intros m ->; reflexivity |].
    split; [intros ->; reflexivity |].
    intros body -> Hb. rewrite (Hnonnull _ body _ _ Hb).
    split; [| split; [| split]].
    + intros v -> Ht Hs. destruct v; try (rewrite Ht; reflexivity).
      contradiction (Hs s). reflexivity.
    + unfold present.
      destruct (property body "question") as [v |]; [| reflexivity].
      intros Hf. destruct v; try (rewrite Hf; reflexivity).
      cbn [json_truthy] in Hf. cbn [JS.truthy]. rewrite Hf. reflexivity.
    + intros s -> Hs. rewrite Hs, orb_true_r. reflexivity.
    + intros s -> _ Hs. apply String.eqb_neq in Hs. rewrite Hs.
      destruct s as [| c s]; [discriminate Hs |]. reflexivity.
  - intros _. eexists. split; [reflexivity |].
    unfold screenRequest, receive, bodyValue, blankQuestion.
    cbn [rc_method rc_body orEmptyObject json_truthy].
    destruct (negb (String.eqb (method req) "POST")); [reflexivity |].
    cbv iota.
    change (property (JObj ?o) "question") with (Obj.get o "question").
    change (Obj.get
              ((("question", orNull JStr (question req)) : string * json) :: ?rest)
              "question")
      with (Some (orNull JStr (question req))).
    destruct (question req) as [q |]; [| reflexivity].
    cbn [orNull JS.or_empty]. reflexivity.
  - pose (answer := handler store embedQuestion loadTableRows renderSubtype req).
    change (handler store embedQuestion loadTableRows renderSubtype req) with answer.
    unfold answer, handler, blankQuestion.
    split; [| split].
    + intros Hm. apply String.eqb_neq in Hm. rewrite Hm. reflexivity.
    + intros Hm Hb. rewrite Hm, Hb. reflexivity.
    + intros Hm Hb _. split; [intros m ->; rewrite Hm, Hb; reflexivity |].
      intros chunks embeddings ->. rewrite Hm, Hb.
      change (negb ("POST" =? "POST")%string) with false. cbv iota.
      split.
      * intros [-> | ->]; [destruct embeddings; reflexivity | reflexivity].
      * intros Hc He.
        destruct embeddings as [| v vs]; [congruence |].
        destruct chunks as [| c cs]; [congruence |].
        split.
        -- intros m ->. reflexivity.
        -- intros qEmbedding ->. cbv zeta. split.
          ++ intros (i & Hi & Hge).
             assert (Ex : existsb (fun i => (List.length (c :: cs) <=? i)%nat)
                            (st_indices (stagesOf req (c :: cs) (v :: vs) qEmbedding))
                          = true).
             { apply existsb_exists. exists i. split; [exact Hi |].
               apply Nat.leb_le. exact Hge. }
             rewrite Ex. eexists. reflexivity.
          ++ intros Hall.
             assert (Ex : existsb (fun i => (List.length (c :: cs) <=? i)%nat)
                            (st_indices (stagesOf req (c :: cs) (v :: vs) qEmbedding))
                          = false).
             { destruct (existsb _ _) eqn:E; [| reflexivity].
               apply existsb_exists in E. destruct E as (i & Hi & Hle).
               apply Nat.leb_le in Hle. specialize (Hall i Hi). lia. }
             rewrite Ex. reflexivity.
Qed.

(** A question that is a number: the classifier throws and the answer is
    500, not 400. *)
Lemma handler_outcomes_witness :
  screenRequest (fun _ => Thrown "Unexpected token") "null has no properties"
                "toLowerCase is not a function"
                (mkReceived "POST" (Some (JObj [("question", JNum 5)])))
  = Answered 500 "toLowerCase is not a function".
Proof.
  refine (proj1 (proj2 (proj2 (proj1 (proj2 (proj2
            (handler_outcomes
               (fun _ => Thrown "Unexpected token") "null has no properties"
               "toLowerCase is not a function"
               (Thrown "no store") (fun _ => Thrown "no provider")
               (fun _ => Thrown "no file") (fun _ _ _ _ => Thrown "no renderer")
               (mkReceived "POST" (Some (JObj [("question", JNum 5)])))
               (mkRequest "POST" None None None false None)))) eq_refl))
            (JObj [("question", JNum 5)]) eq_refl _) (JNum 5) eq_refl eq_refl _);
    discriminate.
Defined.

(** ** What the enrichment adds *)

(** X13.  A chunk that is not a table, or has no attachment path, is returned as
    it is without touching the file system.  For a table whose rows load and
    render, the enrichment sets the detected subtype and the rendered text,
    reports the full number of rows in [table_row_count], and, when rows are
    requested, returns the first max(1, limit) of them, otherwise leaves
    [table_rows] alone.  With the options the handler builds from a request,
    a chunk comes back with rows only when the request asked for them, and
    then with at most 500, and at most 150 when the request names no limit. *)
Theorem enrichment_adds_table_properties
        (loadTableRows : string -> outcome (list rawrow))
        (renderSubtype :
           string -> chunk -> list lrow -> option rawrow -> outcome rendered)
        (c : chunk) (options : enrichOptions) :
  let c' := enrichChunkWithTable loadTableRows renderSubtype c options in
  (lc (content_type c) <> "table" \/ JS.truthy (attachment_path c) = false ->
   forall otherLoader,
     enrichChunkWithTable otherLoader renderSubtype c options = c /\ c' = c) /\
  (forall rawRows t limit,
      lc (content_type c) = "table" ->
      JS.truthy (attachment_path c) = true ->
      loadTableRows (JS.or_empty (attachment_path c)) = Returned rawRows ->
      renderTable renderSubtype c rawRows = Returned t ->
      tableRowLimit options = Some limit ->
      table_subtype c' = Some (subtype t) /\
      table_text c' = Some (tableText t) /\
      table_row_count c' = Some (List.length rawRows) /\
      (includeTableRows options = true ->
       table_rows c' = Some (firstn (Z.to_nat (Z.max 1 limit)) rawRows) /\
       (Z.of_nat (List.length (firstn (Z.to_nat (Z.max 1 limit)) rawRows))
        <= Z.max 1 limit)%Z) /\
      (includeTableRows options = false -> table_rows c' = table_rows c)) /\
  (forall req rows,
      table_rows c = None ->
      table_rows (enrichChunkWithTable loadTableRows renderSubtype c (optionsOf req))
      = Some rows ->
      include_table_rows req = true /\
      (Z.of_nat (List.length rows) <= rowLimitOf req <= 500)%Z /\
      (table_row_limit req = None -> List.length rows <= 150)).
Proof.
  cbv zeta. split; [| split].
  - intros Hskip otherLoader. unfold enrichChunkWithTable.
    assert (E : negb (String.eqb (lc (content_type c)) "table") ||
                negb (JS.truthy (attachment_path c)) = true).
    { destruct Hskip as [Hct | Hp].
      - apply String.eqb_neq in Hct. rewrite Hct. reflexivity.
      - rewrite Hp. apply orb_true_r. }
    rewrite E. split; reflexivity.
  - intros rawRows t limit Hct Hp Hload Hrender Hlimit.
    unfold enrichChunkWithTable. rewrite Hct, Hp, Hload, Hrender, Hlimit.
    cbn [String.eqb negb orb].
    change (negb ("table" =? "table")%string || false) with false. cbv iota.
    cbn [table_subtype table_text table_row_count table_rows].
    assert (Hz : (Z.max 1 limit =? 0)%Z = false) by (apply Z.eqb_neq; lia).
    rewrite Hz.
    repeat (split; [reflexivity |]). split.
    + intros ->. split; [reflexivity |].
      pose proof (firstn_le_length (Z.to_nat (Z.max 1 limit)) rawRows). lia.
    + intros ->. reflexivity.
  - intros req rows Hnone. unfold enrichChunkWithTable, optionsOf.
    cbn [tableRowLimit includeTableRows].
    destruct (negb (String.eqb (lc (content_type c)) "table") ||
              negb (JS.truthy (attachment_path c))); [congruence |].
    destruct (loadTableRows (JS.or_empty (attachment_path c))) as [rawRows | m];
      [| congruence].
    destruct (renderTable renderSubtype c rawRows) as [t | m]; [| congruence].
    cbn [table_rows].
    destruct (include_table_rows req); [| congruence].
    assert (Hb : (1 <= rowLimitOf req <= 500)%Z).
    { unfold rowLimitOf. destruct (table_row_limit req); lia. }
    assert (Hz : (Z.max 1 (rowLimitOf req) =? 0)%Z = false) by (apply Z.eqb_neq; lia).
    rewrite Hz. intros E. injection E as <-. split; [reflexivity |].
    pose proof (firstn_le_length (Z.to_nat (Z.max 1 (rowLimitOf req))) rawRows) as Hl.
    split; [lia |].
    intros Hdef. unfold rowLimitOf in Hl |- *. rewrite Hdef in Hl |- *.
    exact Hl.
Qed.

(** * Properties of the table renderers *)

(** ** Strings and loops *)

Lemma prefix_append (p s : string) : prefix p (p ^^ s) = true.
Proof.
  induction p as [| a p IH]; simpl.
  - destruct s; reflexivity.
  - destruct (ascii_dec a a) as [_ | N]; [exact IH | contradiction].
Qed.

Lemma append_assoc (a b c : string) : (a ^^ b) ^^ c = a ^^ (b ^^ c).
Proof. induction a as [| x a IH]; simpl; [reflexivity | rewrite IH; reflexivity]. Qed.

Lemma join_cons_head (sep a : string) (rest : list string) :
  exists tail, JS.join sep (a :: rest) = a ^^ tail.
Proof.
  destruct rest as [| b rest].
  - exists EmptyString. simpl. induction a; simpl; [reflexivity | f_equal; exact IHa].
  - exists (sep ^^ JS.join sep (b :: rest)). reflexivity.
Qed.

Lemma title_line_opens (cap more : string) (rest : list string) :
  JS.startsWith (JS.join newline ((cap ^^ String "." more) :: rest)) (cap ^^ ".") = true.
Proof.
  unfold JS.startsWith.
  destruct (join_cons_head newline (cap ^^ String "." more) rest) as [tail ->].
  change (String "." more) with ("." ^^ more).
  rewrite <- append_assoc, append_assoc. apply prefix_append.
Qed.

Lemma no_rows_opens (cap : string) :
  JS.startsWith (cap ^^ ". (No rows found.)") (cap ^^ ".") = true.
Proof.
  unfold JS.startsWith.
  change ". (No rows found.)" with ("." ^^ " (No rows found.)").
  rewrite <- append_assoc. apply prefix_append.
Qed.

(** A loop whose body only pushes lines keeps the lines it started with. *)
Lemma forEachFrom_extends {S : Type} (lines : S -> list string)
      (body : S -> lrow -> nat -> S) :
  (forall s row i, exists more, lines (body s row i) = lines s ++ more) ->
  forall rows i s, exists more, lines (forEachFrom body i rows s) = lines s ++ more.
Proof.
  intros Hbody rows. induction rows as [| row rows IH]; intros i s; simpl.
  - exists []. rewrite app_nil_r. reflexivity.
  - destruct (IH (i + 1) (body s row i)) as [more1 E1].
    destruct (Hbody s row i) as [more0 E0].
    exists (more0 ++ more1). rewrite E1, E0, app_assoc. reflexivity.
Qed.

Ltac pushes_only :=
  repeat match goal with
         | |- context [if ?b then _ else _] => destruct b
         end;
  first [ exists []; rewrite app_nil_r; reflexivity | eexists; reflexivity ].

Lemma pedsDosingRow_extends headers wk ok ek medKey formKey medIsWeight lines row i :
  exists more,
    pedsDosingRow headers wk ok ek medKey formKey medIsWeight lines row i = lines ++ more.
Proof. unfold pedsDosingRow. pushes_only. Qed.

Lemma regimenRow_extends headers regimenKey drugsKey durationKey lines row i :
  exists more,
    regimenRow headers regimenKey drugsKey durationKey lines row i = lines ++ more.
Proof. unfold regimenRow. pushes_only. Qed.

Lemma timelineRow_extends label nameKey partKeys lines row i :
  exists more, timelineRow label nameKey partKeys lines row i = lines ++ more.
Proof. unfold timelineRow. pushes_only. Qed.

Lemma decisionRow_extends headers (s : counted) row i :
  exists more, fst (decisionRow headers s row i) = fst s ++ more.
Proof. destruct s as [lines n]. unfold decisionRow. cbn [fst]. pushes_only. Qed.

Lemma interactionRow_extends headers drugHeaders effectKey recKey (s : counted) row i :
  exists more,
    fst (interactionRow headers drugHeaders effectKey recKey s row i) = fst s ++ more.
Proof. destruct s as [lines n]. unfold interactionRow. cbn [fst]. pushes_only. Qed.

Lemma toxicityRow_extends headers gradeKey descKey mgmtKey (s : counted) row i :
  exists more, fst (toxicityRow headers gradeKey descKey mgmtKey s row i) = fst s ++ more.
Proof. destruct s as [lines n]. unfold toxicityRow. cbn [fst]. pushes_only. Qed.

(** ** Every rendered text opens with a title *)

Lemma generic_opens (c : chunk) (rows : list lrow) (hdr : option rawrow) :
  opensWith c "Table" (r_text (renderGenericTable c rows hdr)).
Proof.
  unfold opensWith, renderGenericTable.
  destruct rows as [| row rows]; [apply no_rows_opens |].
  destruct (getTableHeaders (row :: rows)) as [| h0 hs]; [apply no_rows_opens |].
  cbn [r_text]. apply title_line_opens.
Qed.

Lemma loop_opens {S : Type} (lines : S -> list string) (body : S -> lrow -> nat -> S)
      (cap more : string) (rows : list lrow) (s : S) :
  (forall s row i, exists ext, lines (body s row i) = lines s ++ ext) ->
  lines s = [cap ^^ String "." more] ->
  JS.startsWith (JS.join newline (lines (forEach body rows s))) (cap ^^ ".") = true.
Proof.
  intros Hbody Hs. unfold forEach.
  destruct (forEachFrom_extends lines body Hbody rows 0 s) as [ext ->].
  rewrite Hs. cbn [app]. apply title_line_opens.
Qed.

Lemma dosing_opens (c : chunk) (rows : list lrow) (hdr : option rawrow) :
  opensWith c "Dosing table" (r_text (renderDosingTable c rows hdr)) \/
  opensWith c "Table" (r_text (renderDosingTable c rows hdr)).
Proof.
  unfold renderDosingTable.
  destruct rows as [| row rows]; [left; apply no_rows_opens |].
  destruct (getTableHeaders (row :: rows)) as [| h0 hs] eqn:Eh;
    [left; apply no_rows_opens |].
  destruct (filter weightBandLike (h0 :: hs)) as [| w ws].
  - right. cbn [r_text]. apply generic_opens.
  - left. cbn [r_text]. apply title_line_opens.
Qed.

Lemma pedsDosing_opens (c : chunk) (rows : list lrow) (hdr : option rawrow) :
  opensWith c "Paediatric dosing table" (r_text (renderPedsDosingTable c rows hdr)) \/
  opensWith c "Table" (r_text (renderPedsDosingTable c rows hdr)).
Proof.
  unfold renderPedsDosingTable.
  destruct rows as [| row rows]; [left; apply no_rows_opens |].
  destruct (getTableHeaders (row :: rows)) as [| h0 hs] eqn:Eh;
    [left; apply no_rows_opens |].
  destruct (noLength (filter weightBandLike (h0 :: hs))).
  - right. apply generic_opens.
  - left. cbn [r_text].
    unfold opensWith.
    eapply (loop_opens (fun l => l));
      [intros; apply pedsDosingRow_extends | reflexivity].
Qed.

Lemma regimen_opens (c : chunk) (rows : list lrow) (hdr : option rawrow) :
  opensWith c "Regimen composition table" (r_text (renderRegimenTable c rows hdr)).
Proof.
  unfold renderRegimenTable.
  destruct rows as [| row rows]; [apply no_rows_opens |].
  destruct (getTableHeaders (row :: rows)) as [| h0 hs] eqn:Eh; [apply no_rows_opens |].
  cbn [r_text].
  unfold opensWith.
  eapply (loop_opens (fun l => l));
    [intros; apply regimenRow_extends | reflexivity].
Qed.

Lemma decision_opens (c : chunk) (rows : list lrow) (hdr : option rawrow) :
  opensWith c "Decision table" (r_text (renderDecisionTable c rows hdr)) \/
  opensWith c "Table" (r_text (renderDecisionTable c rows hdr)).
Proof.
  unfold renderDecisionTable.
  destruct (noLength rows || noLength (getTableHeaders rows));
    [left; apply no_rows_opens |].
  destruct (forEach _ rows _) as [lines n] eqn:El.
  destruct (n =? 0)%nat; [right; apply generic_opens | left].
  cbn [r_text]. change lines with (fst (lines, n)). rewrite <- El.
  unfold opensWith. eapply (loop_opens fst); [intros; apply decisionRow_extends | reflexivity].
Qed.

Lemma timeline_opens (c : chunk) (rows : list lrow) (hdr : option rawrow) :
  opensWith c "Monitoring schedule" (r_text (renderTimelineTable c rows hdr)) \/
  opensWith c "Table" (r_text (renderTimelineTable c rows hdr)).
Proof.
  unfold renderTimelineTable.
  destruct (noLength rows || noLength (getTableHeaders rows));
    [left; apply no_rows_opens |].
  destruct (guessTimelineOrientation rows) as [e ths | k ehs |];
    [| | right; apply generic_opens].
  - destruct (1 <? _)%nat; [left | right; apply generic_opens].
    cbn [r_text].
    unfold opensWith.
    eapply (loop_opens (fun l => l));
      [intros; apply timelineRow_extends | reflexivity].
  - destruct (1 <? _)%nat; [left | right; apply generic_opens].
    cbn [r_text].
    unfold opensWith.
    eapply (loop_opens (fun l => l));
      [intros; apply timelineRow_extends | reflexivity].
Qed.

Lemma interaction_opens (c : chunk) (rows : list lrow) (hdr : option rawrow) :
  opensWith c "Drug-drug interaction table" (r_text (renderInteractionTable c rows hdr)) \/
  opensWith c "Table" (r_text (renderInteractionTable c rows hdr)).
Proof.
  unfold renderInteractionTable.
  destruct (noLength rows || noLength (getTableHeaders rows));
    [left; apply no_rows_opens |].
  destruct (noLength (filter isDrugHeader _)); [right; apply generic_opens |].
  destruct (forEach _ rows _) as [lines n] eqn:El.
  destruct (n =? 0)%nat; [right; apply generic_opens | left].
  cbn [r_text]. change lines with (fst (lines, n)). rewrite <- El.
  unfold opensWith. eapply (loop_opens fst); [intros; apply interactionRow_extends | reflexivity].
Qed.

Lemma toxicity_opens (c : chunk) (rows : list lrow) (hdr : option rawrow) :
  opensWith c "Toxicity / adverse event table" (r_text (renderToxicityTable c rows hdr)) \/
  opensWith c "Table" (r_text (renderToxicityTable c rows hdr)).
Proof.
  unfold renderToxicityTable.
  destruct rows as [| row rows]; [left; apply no_rows_opens |].
  destruct (getTableHeaders (row :: rows)) as [| h0 hs] eqn:Eh;
    [left; apply no_rows_opens |].
  destruct (forEach _ (row :: rows) _) as [lines n] eqn:El.
  destruct (n =? 0)%nat; [right; apply generic_opens | left].
  cbn [r_text]. change lines with (fst (lines, n)). rewrite <- El.
  unfold opensWith. eapply (loop_opens fst); [intros; apply toxicityRow_extends | reflexivity].
Qed.

(** ** The subtype and the debug record *)

Lemma detectTableSubtype_names (c : chunk) (rows : list lrow) (hdr : option rawrow) :
  In (detectTableSubtype c rows hdr)
     ["dosing"; "peds_dosing"; "regimen"; "decision"; "timeline"; "interaction";
      "toxicity"; "generic"].
Proof.
  unfold detectTableSubtype.
  repeat match goal with
         | |- context [if ?b then _ else _] => destruct b
         end;
    cbn [In]; tauto.
Qed.

Ltac shape := intros b1 b2 b3; repeat split; reflexivity.

Lemma noRowsFound_shape renderer cap headers rows :
  debugShape renderer (List.length rows) (r_debug (noRowsFound renderer cap headers rows)).
Proof. shape. Qed.

Lemma genericFallback_shape renderer note c rows hdr :
  debugShape renderer (List.length rows) (r_debug (genericFallback renderer note c rows hdr)).
Proof.
  unfold genericFallback, renderGenericTable.
  destruct rows as [| row rows]; [shape |].
  destruct (getTableHeaders (row :: rows)); shape.
Qed.

Lemma generic_shape c rows hdr :
  debugShape "generic" (List.length rows) (r_debug (renderGenericTable c rows hdr)).
Proof.
  unfold renderGenericTable.
  destruct rows as [| row rows]; [shape |].
  destruct (getTableHeaders (row :: rows)); shape.
Qed.

Lemma dosing_shape c rows hdr :
  debugShape "dosing" (List.length rows) (r_debug (renderDosingTable c rows hdr)).
Proof.
  unfold renderDosingTable.
  destruct rows as [| row rows]; [shape |].
  destruct (getTableHeaders (row :: rows)) as [| h0 hs]; [shape |].
  destruct (filter weightBandLike (h0 :: hs)); [| shape].
  apply (genericFallback_shape "dosing" "fallback_generic_no_weight_bands").
Qed.

Lemma pedsDosing_shape c rows hdr :
  debugShape "peds_dosing" (List.length rows) (r_debug (renderPedsDosingTable c rows hdr)).
Proof.
  unfold renderPedsDosingTable.
  destruct rows as [| row rows]; [shape |].
  destruct (getTableHeaders (row :: rows)) as [| h0 hs]; [shape |].
  destruct (noLength (filter weightBandLike (h0 :: hs)));
    [apply genericFallback_shape | shape].
Qed.

Lemma regimen_shape c rows hdr :
  debugShape "regimen" (List.length rows) (r_debug (renderRegimenTable c rows hdr)).
Proof.
  unfold renderRegimenTable.
  destruct rows as [| row rows]; [shape |].
  destruct (getTableHeaders (row :: rows)) as [| h0 hs]; shape.
Qed.

Lemma decision_shape c rows hdr :
  debugShape "decision" (List.length rows) (r_debug (renderDecisionTable c rows hdr)).
Proof.
  unfold renderDecisionTable.
  destruct (noLength rows || noLength (getTableHeaders rows));
    [apply noRowsFound_shape |].
  destruct (forEach _ rows _) as [lines n].
  destruct (n =? 0)%nat; [apply genericFallback_shape | shape].
Qed.

Lemma timeline_shape c rows hdr :
  debugShape "timeline" (List.length rows) (r_debug (renderTimelineTable c rows hdr)).
Proof.
  unfold renderTimelineTable.
  destruct (noLength rows || noLength (getTableHeaders rows));
    [apply noRowsFound_shape |].
  destruct (guessTimelineOrientation rows) as [e ths | k ehs |];
    [| | apply genericFallback_shape];
    (destruct (1 <? _)%nat; [shape | apply genericFallback_shape]).
Qed.

Lemma interaction_shape c rows hdr :
  debugShape "interaction" (List.length rows)
             (r_debug (renderInteractionTable c rows hdr)).
Proof.
  unfold renderInteractionTable.
  destruct (noLength rows || noLength (getTableHeaders rows));
    [apply noRowsFound_shape |].
  destruct (noLength (filter isDrugHeader _)); [apply genericFallback_shape |].
  destruct (forEach _ rows _) as [lines n].
  destruct (n =? 0)%nat; [apply genericFallback_shape | shape].
Qed.

Lemma toxicity_shape c rows hdr :
  debugShape "toxicity" (List.length rows) (r_debug (renderToxicityTable c rows hdr)).
Proof.
  unfold renderToxicityTable.
  destruct rows as [| row rows]; [shape |].
  destruct (getTableHeaders (row :: rows)) as [| h0 hs]; [shape |].
  destruct (forEach _ (row :: rows) _) as [lines n].
  destruct (n =? 0)%nat; [apply genericFallback_shape | shape].
Qed.

Lemma renderTableOf_cases (c : chunk) (rawRows : list rawrow) :
  let n := normalizeTableRows rawRows in
  exists (name : string) (r : rendered),
    name = detectTableSubtype c (logicalRows n) (headerRow n) /\
    In name subtypeNames /\
    renderTableOf c rawRows =
      Returned
        (mkTableRender name (r_text r)
           (underBase (DStr name) (DNum (List.length (logicalRows n)))
                      (DBool (match headerRow n with Some _ => true | None => false end))
                      (r_debug r))) /\
    debugShape name (List.length (logicalRows n)) (r_debug r) /\
    (opensWith c (defaultTitle name) (r_text r) \/ opensWith c "Table" (r_text r)).
Proof.
  cbv zeta. unfold renderTableOf, renderTable, dedicatedRenderer, underBase.
  set (n := normalizeTableRows rawRows).
  pose proof (detectTableSubtype_names c (logicalRows n) (headerRow n)) as Hn.
  set (d := detectTableSubtype c (logicalRows n) (headerRow n)) in *.
  cbn [In] in Hn.
  destruct Hn as [E | [E | [E | [E | [E | [E | [E | [E | []]]]]]]]]; rewrite <- E.
  - exists "dosing", (renderDosingTable c (logicalRows n) (headerRow n)).
    split; [reflexivity | split; [cbn; tauto | split; [reflexivity |
      split; [apply dosing_shape | apply dosing_opens]]]].
  - exists "peds_dosing", (renderPedsDosingTable c (logicalRows n) (headerRow n)).
    split; [reflexivity | split; [cbn; tauto | split; [reflexivity |
      split; [apply pedsDosing_shape | apply pedsDosing_opens]]]].
  - exists "regimen", (renderRegimenTable c (logicalRows n) (headerRow n)).
    split; [reflexivity | split; [cbn; tauto | split; [reflexivity |
      split; [apply regimen_shape | left; apply regimen_opens]]]].
  - exists "decision", (renderDecisionTable c (logicalRows n) (headerRow n)).
    split; [reflexivity | split; [cbn; tauto | split; [reflexivity |
      split; [apply decision_shape | apply decision_opens]]]].
  - exists "timeline", (renderTimelineTable c (logicalRows n) (headerRow n)).
    split; [reflexivity | split; [cbn; tauto | split; [reflexivity |
      split; [apply timeline_shape | apply timeline_opens]]]].
  - exists "interaction", (renderInteractionTable c (logicalRows n) (headerRow n)).
    split; [reflexivity | split; [cbn; tauto | split; [reflexivity |
      split; [apply interaction_shape | apply interaction_opens]]]].
  - exists "toxicity", (renderToxicityTable c (logicalRows n) (headerRow n)).
    split; [reflexivity | split; [cbn; tauto | split; [reflexivity |
      split; [apply toxicity_shape | apply toxicity_opens]]]].
  - exists "generic", (renderGenericTable c (logicalRows n) (headerRow n)).
    split; [reflexivity | split; [cbn; tauto | split; [reflexivity |
      split; [apply generic_shape | left; apply generic_opens]]]].
Qed.

(** X14.  Whatever the table, [renderTable] returns, the subtype it reports is
    the detected one, a name of the fixed list, and the merged debug record
    names that subtype as renderer and as guess, even when the dedicated
    renderer fell back to the generic one, and counts the logical rows. *)
Theorem renderTable_debug_names_subtype (c : chunk) (rawRows : list rawrow) :
  exists t : tableRender,
    renderTableOf c rawRows = Returned t /\
    subtype t = detectTableSubtype c (logicalRows (normalizeTableRows rawRows))
                                   (headerRow (normalizeTableRows rawRows)) /\
    In (subtype t) subtypeNames /\
    debugNames (tr_debug t) (subtype t)
               (List.length (logicalRows (normalizeTableRows rawRows)))
               (negb (noLength rawRows)).
Proof.
  destruct (renderTableOf_cases c rawRows) as (name & r & Hd & Hin & Ht & Hs & _).
  eexists. split; [exact Ht |]. cbn [subtype tr_debug].
  split; [exact Hd |]. split; [exact Hin |].
  assert (Hh : match headerRow (normalizeTableRows rawRows) with
               | Some _ => true | None => false end = negb (noLength rawRows)).
  { destruct rawRows; reflexivity. }
  rewrite Hh.
  destruct (Hs (DStr name)
               (DNum (List.length (logicalRows (normalizeTableRows rawRows))))
               (DBool (negb (noLength rawRows)))) as (H1 & H2 & H3 & H4).
  unfold debugNames. auto.
Qed.

(** X15.  The rendered text of every table opens with the chunk's caption and a
    full stop; for a chunk without caption it opens with the default title
    of the reported subtype, or with "Table" when the renderer fell back. *)
Theorem rendered_text_opens_with_caption (c : chunk) (rawRows : list rawrow) :
  exists t : tableRender,
    renderTableOf c rawRows = Returned t /\
    (opensWith c (defaultTitle (subtype t)) (tableText t) \/
     opensWith c "Table" (tableText t)) /\
    (JS.truthy (caption c) = true ->
     JS.startsWith (tableText t) (JS.or_empty (caption c) ^^ ".") = true).
Proof.
  destruct (renderTableOf_cases c rawRows) as (name & r & _ & _ & Ht & _ & Ho).
  eexists. split; [exact Ht |]. cbn [subtype tableText]. split; [exact Ho |].
  intros Hc. unfold opensWith, or_default in Ho. rewrite Hc in Ho.
  destruct Ho as [Ho | Ho]; exact Ho.
Qed.

(** ** Counting rows *)

Lemma forEachFrom_counts (body : counted -> lrow -> nat -> counted) (p : lrow -> bool) :
  (forall s row i, snd (body s row i) = snd s + (if p row then 1 else 0)) ->
  forall rows i s,
    snd (forEachFrom body i rows s) = snd s + List.length (filter p rows).
Proof.
  intros Hbody rows. induction rows as [| row rows IH]; intros i s; simpl.
  - lia.
  - rewrite IH, Hbody. destruct (p row); simpl; lia.
Qed.

Lemma forEachFrom_length (body : list string -> lrow -> nat -> list string)
      (p : lrow -> bool) :
  (forall s row i,
      List.length (body s row i) = List.length s + (if p row then 1 else 0)) ->
  forall rows i s,
    List.length (forEachFrom body i rows s) =
    List.length s + List.length (filter p rows).
Proof.
  intros Hbody rows. induction rows as [| row rows IH]; intros i s; simpl.
  - lia.
  - rewrite IH, Hbody. destruct (p row); simpl; lia.
Qed.

Lemma noLength_snoc {A : Type} (l : list A) (x : A) : noLength (l ++ [x]) = false.
Proof. destruct l; reflexivity. Qed.

Lemma labelledCells_noLength (row : lrow) (keys : list string) :
  noLength (labelledCells row keys) = negb (fillsAny keys row).
Proof.
  unfold labelledCells, fillsAny.
  induction keys as [| k keys IH]; [reflexivity |].
  cbn [flat_map existsb]. destruct (nonEmpty (cell row k)); cbn; [reflexivity | exact IH].
Qed.

Lemma decisionPartsOf_rule (headers : list string) (row : lrow) (p0 : decisionParts) :
  let p :=
    fold_left
      (fun p h =>
         let v := cell row h in
         if negb (nonEmpty v) then p
         else
           let label := h ^^ ": " ^^ JS.trim (JS.to_String v) in
           if isActionHeader h
           then mkDecisionParts (conditionParts p) (actionParts p ++ [label])
                                (otherParts p)
           else if isConditionHeader h
           then mkDecisionParts (conditionParts p ++ [label]) (actionParts p)
                                (otherParts p)
           else mkDecisionParts (conditionParts p) (actionParts p)
                                (otherParts p ++ [label]))
      headers p0 in
  noLength (conditionParts p) && noLength (actionParts p) =
  noLength (conditionParts p0) && noLength (actionParts p0) &&
  negb (statesRule headers row).
Proof.
  cbv zeta. revert p0. unfold statesRule.
  induction headers as [| h headers IH]; intros p0.
  - cbn. rewrite andb_true_r. reflexivity.
  - cbn [fold_left existsb]. rewrite IH. clear IH.
    destruct (nonEmpty (cell row h)); cbn [negb andb orb]; [| reflexivity].
    destruct (isActionHeader h); [| destruct (isConditionHeader h)];
      cbn [orb negb conditionParts actionParts];
      rewrite ?noLength_snoc, ?andb_false_r; reflexivity.
Qed.

Lemma decisionRow_counts (headers : list string) (s : counted) (row : lrow) (i : nat) :
  snd (decisionRow headers s row i) =
  snd s + (if statesRule headers row then 1 else 0).
Proof.
  destruct s as [lines n]. unfold decisionRow.
  pose proof (decisionPartsOf_rule headers row (mkDecisionParts [] [] [])) as H.
  cbv zeta in H. fold (decisionPartsOf headers row) in H.
  cbn [conditionParts actionParts noLength andb] in H. rewrite H.
  destruct (statesRule headers row); cbn [negb snd].
  - reflexivity.
  - destruct (noLength (otherParts (decisionPartsOf headers row))); cbn [snd]; lia.
Qed.

Lemma toxicityRow_counts headers gradeKey descKey mgmtKey (s : counted) row i :
  snd (toxicityRow headers gradeKey descKey mgmtKey s row i) =
  snd s + (if nonEmpty (cell row gradeKey) then 1 else 0).
Proof.
  destruct s as [lines n]. unfold toxicityRow.
  destruct (nonEmpty (cell row gradeKey)); cbn [negb andb snd]; [reflexivity |].
  destruct (negb (nonEmpty (cellAt row descKey)) && negb (nonEmpty (cellAt row mgmtKey)));
    cbn [snd]; [| lia].
  destruct (noLength (labelledCells row headers)); cbn [snd]; lia.
Qed.

Lemma drugs_noLength (row : lrow) (drugHeaders : list string) :
  noLength (map (fun v => JS.trim (JS.to_String v))
                (filter nonEmpty (map (cell row) drugHeaders))) =
  negb (fillsAny drugHeaders row).
Proof.
  unfold fillsAny. induction drugHeaders as [| h hs IH]; [reflexivity |].
  cbn [map filter existsb]. destruct (nonEmpty (cell row h)); cbn; [reflexivity | exact IH].
Qed.

Lemma interactionRow_counts headers drugHeaders effectKey recKey (s : counted) row i :
  snd (interactionRow headers drugHeaders effectKey recKey s row i) =
  snd s + (if fillsAny drugHeaders row then 1 else 0).
Proof.
  destruct s as [lines n]. unfold interactionRow. rewrite drugs_noLength.
  destruct (fillsAny drugHeaders row); cbn [negb andb snd]; [reflexivity |].
  destruct (negb (JS.truthy (trimmedAt row effectKey)) &&
            negb (JS.truthy (trimmedAt row recKey))); cbn [snd]; [| lia].
  destruct (noLength (labelledCells row headers)); cbn [snd]; lia.
Qed.

Lemma timelineRow_length label nameKey partKeys lines row i :
  List.length (timelineRow label nameKey partKeys lines row i) =
  List.length lines + (if yieldsLine nameKey partKeys row then 1 else 0).
Proof.
  unfold timelineRow, yieldsLine. rewrite labelledCells_noLength.
  destruct (nonEmpty (cell row nameKey)); cbn [negb andb]; [| lia].
  destruct (fillsAny partKeys row); cbn [negb]; [| lia].
  rewrite length_app. reflexivity.
Qed.

Lemma headers_rows (rows : list lrow) :
  getTableHeaders rows <> [] ->
  noLength rows || noLength (getTableHeaders rows) = false.
Proof.
  intros H. destruct rows as [| row rows]; [contradiction H; reflexivity |].
  destruct (getTableHeaders (row :: rows)); [contradiction H; reflexivity | reflexivity].
Qed.

(** ** The decision renderer *)

(** X16.  For a decision table with headers, the counter [rows_with_if_then]
    is the number of rows that fill a cell under a condition or action
    column; when there is none the renderer returns the generic rendering
    with the note, otherwise the debug record reports that number, carries
    no note, and the text opens with the decision title. *)
Theorem decision_counts_rule_rows (c : chunk) (rows : list lrow) (hdr : option rawrow) :
  getTableHeaders rows <> [] ->
  let n := List.length (filter (statesRule (getTableHeaders rows)) rows) in
  let r := renderDecisionTable c rows hdr in
  (n = 0 ->
   r = genericFallback "decision" "fallback_generic_no_if_then_rows" c rows hdr) /\
  (n <> 0 ->
   Obj.get (r_debug r) "rows_with_if_then" = Some (DNum n) /\
   Obj.get (r_debug r) "note" = None /\
   opensWith c "Decision table" (r_text r)).
Proof.
  intros Hh. cbv zeta. unfold renderDecisionTable. rewrite (headers_rows rows Hh).
  set (headers := getTableHeaders rows).
  set (title := or_default (caption c) "Decision table" ^^ ". IF-THEN decision rules:").
  pose proof (forEachFrom_counts (decisionRow headers) (statesRule headers)
                (decisionRow_counts headers) rows 0 ([title], 0)) as Hn.
  fold (forEach (decisionRow headers) rows ([title], 0)) in Hn. cbn [snd plus] in Hn.
  destruct (forEach (decisionRow headers) rows ([title], 0)) as [lines k] eqn:El.
  cbn [snd] in Hn. subst k. split.
  - intros ->. reflexivity.
  - intros Hne.
    destruct (List.length (filter (statesRule headers) rows)) as [| m] eqn:E;
      [contradiction Hne; reflexivity |].
    cbn [Nat.eqb r_debug r_text]. repeat split.
    change lines with (fst (lines, S m)). rewrite <- El. unfold opensWith.
    eapply (loop_opens fst); [intros; apply decisionRow_extends | reflexivity].
Qed.

Lemma decision_counts_rule_rows_witness :
  let c := SampleTables.captioned "Eligibility for TB preventive treatment" in
  let rows := SampleTables.decisionRows in
  getTableHeaders rows <> [] /\
  Obj.get (r_debug (renderDecisionTable c rows None)) "rows_with_if_then" =
    Some (DNum 1).
Proof.
  cbv zeta. split; [discriminate |].
  destruct (decision_counts_rule_rows
              (SampleTables.captioned "Eligibility for TB preventive treatment")
              SampleTables.decisionRows None) as [_ H]; [discriminate |].
  apply H. vm_compute. discriminate.
Defined.

(** ** The toxicity renderer *)

(** X17.  For a toxicity table with headers, [rows_with_grades] is the number
    of rows whose cell under the grade column is filled; when no row has a
    grade the generic rendering is returned with the note, whatever the
    description and management cells hold. *)
Theorem toxicity_counts_graded_rows (c : chunk) (rows : list lrow) (hdr : option rawrow) :
  getTableHeaders rows <> [] ->
  let gradeKey := gradeColumn (getTableHeaders rows) in
  let n := List.length (filter (fun row => nonEmpty (cell row gradeKey)) rows) in
  let r := renderToxicityTable c rows hdr in
  (n = 0 -> r = genericFallback "toxicity" "fallback_generic_no_grades" c rows hdr) /\
  (n <> 0 ->
   Obj.get (r_debug r) "rows_with_grades" = Some (DNum n) /\
   Obj.get (r_debug r) "grade_key" = Some (DStr gradeKey) /\
   Obj.get (r_debug r) "note" = None /\
   opensWith c "Toxicity / adverse event table" (r_text r)).
Proof.
  intros Hh. cbv zeta. unfold renderToxicityTable, gradeColumn.
  destruct rows as [| row rows]; [contradiction Hh; reflexivity |].
  destruct (getTableHeaders (row :: rows)) as [| h0 hs] eqn:Eh;
    [contradiction Hh; reflexivity |].
  cbn [hd].
  set (headers := h0 :: hs).
  set (gradeKey := match findHeader ["grade"; "severity"; "ctcae"] headers with
                   | Some h => h
                   | None => h0
                   end).
  set (descKey := findHeader _ headers).
  set (mgmtKey := findHeader _ headers).
  set (title := or_default (caption c) "Toxicity / adverse event table" ^^
                ". Toxicity grades and management:").
  pose proof (forEachFrom_counts (toxicityRow headers gradeKey descKey mgmtKey)
                (fun row => nonEmpty (cell row gradeKey))
                (toxicityRow_counts headers gradeKey descKey mgmtKey)
                (row :: rows) 0 ([title], 0)) as Hn.
  fold (forEach (toxicityRow headers gradeKey descKey mgmtKey) (row :: rows)
                ([title], 0)) in Hn.
  cbn [snd plus] in Hn.
  destruct (forEach (toxicityRow headers gradeKey descKey mgmtKey) (row :: rows)
                    ([title], 0)) as [lines k] eqn:El.
  cbn [snd] in Hn. subst k. split.
  - intros ->. reflexivity.
  - intros Hne.
    destruct (List.length (filter (fun row => nonEmpty (cell row gradeKey))
                                  (row :: rows))) as [| m] eqn:E;
      [contradiction Hne; reflexivity |].
    cbn [Nat.eqb r_debug r_text]. repeat split.
    change lines with (fst (lines, S m)). rewrite <- El. unfold opensWith.
    eapply (loop_opens fst); [intros; apply toxicityRow_extends | reflexivity].
Qed.

Lemma toxicity_counts_graded_rows_witness :
  let c := SampleTables.captioned "Hepatotoxicity grading" in
  let rows := SampleTables.toxicityRows in
  getTableHeaders rows <> [] /\
  Obj.get (r_debug (renderToxicityTable c rows None)) "rows_with_grades" =
    Some (DNum 1).
Proof.
  cbv zeta. split; [discriminate |].
  destruct (toxicity_counts_graded_rows
              (SampleTables.captioned "Hepatotoxicity grading")
              SampleTables.toxicityRows None) as [_ H]; [discriminate |].
  apply H. vm_compute. discriminate.
Defined.

(** ** The interaction renderer *)

(** X18.  An interaction table with headers is rendered generically, with one
    note, when no header names a drug, and with another when no row fills a
    cell under a drug column; otherwise [rows_with_combos] is the number of
    rows that fill one. *)
Theorem interaction_counts_combination_rows
        (c : chunk) (rows : list lrow) (hdr : option rawrow) :
  getTableHeaders rows <> [] ->
  let drugHeaders := filter isDrugHeader (getTableHeaders rows) in
  let n := List.length (filter (fillsAny drugHeaders) rows) in
  let r := renderInteractionTable c rows hdr in
  (drugHeaders = [] ->
   r = genericFallback "interaction" "fallback_generic_no_drug_headers" c rows hdr) /\
  (drugHeaders <> [] -> n = 0 ->
   r = genericFallback "interaction" "fallback_generic_no_combos" c rows hdr) /\
  (n <> 0 ->
   Obj.get (r_debug r) "rows_with_combos" = Some (DNum n) /\
   Obj.get (r_debug r) "drug_headers" = Some (DStrs drugHeaders) /\
   Obj.get (r_debug r) "note" = None /\
   opensWith c "Drug-drug interaction table" (r_text r)).
Proof.
  intros Hh. cbv zeta. unfold renderInteractionTable. rewrite (headers_rows rows Hh).
  set (headers := getTableHeaders rows).
  set (effectKey := findHeader _ headers).
  set (recKey := findHeader _ headers).
  set (drugHeaders := filter isDrugHeader headers).
  set (title := or_default (caption c) "Drug-drug interaction table" ^^
                ". Drug combinations and recommendations:").
  pose proof (forEachFrom_counts (interactionRow headers drugHeaders effectKey recKey)
                (fillsAny drugHeaders)
                (interactionRow_counts headers drugHeaders effectKey recKey)
                rows 0 ([title], 0)) as Hn.
  fold (forEach (interactionRow headers drugHeaders effectKey recKey) rows
                ([title], 0)) in Hn.
  cbn [snd plus] in Hn.
  destruct (forEach (interactionRow headers drugHeaders effectKey recKey) rows
                    ([title], 0)) as [lines k] eqn:El.
  cbn [snd] in Hn. subst k.
  split; [| split].
  - intros ->. reflexivity.
  - intros Hd ->. destruct drugHeaders; [contradiction Hd; reflexivity | reflexivity].
  - intros Hne.
    destruct drugHeaders as [| d ds] eqn:Ed.
    + contradiction Hne. clear. induction rows; [reflexivity | assumption].
    + cbn [noLength].
      destruct (List.length (filter (fillsAny (d :: ds)) rows)) as [| m] eqn:E;
        [contradiction Hne; reflexivity |].
      cbn [Nat.eqb r_debug r_text]. repeat split.
      change lines with (fst (lines, S m)). rewrite <- El. unfold opensWith.
      eapply (loop_opens fst); [intros; apply interactionRow_extends | reflexivity].
Qed.

Lemma interaction_counts_combination_rows_witness :
  let c := SampleTables.captioned "Rifamycins and antiretrovirals" in
  let rows := SampleTables.interactionRows in
  getTableHeaders rows <> [] /\
  Obj.get (r_debug (renderInteractionTable c rows None)) "rows_with_combos" =
    Some (DNum 1).
Proof.
  cbv zeta. split; [discriminate |].
  destruct (interaction_counts_combination_rows
              (SampleTables.captioned "Rifamycins and antiretrovirals")
              SampleTables.interactionRows None) as (_ & _ & H); [discriminate |].
  apply H. vm_compute. discriminate.
Defined.

(** ** The timeline renderer *)

Lemma prefix_includes (s w : string) : prefix w s = true -> JS.includes s w = true.
Proof.
  intros H. destruct s as [| a s].
  - change (JS.includes EmptyString w) with (prefix w EmptyString || false).
    rewrite H. reflexivity.
  - change (JS.includes (String a s) w)
      with (prefix w (String a s) || JS.includes s w).
    rewrite H. reflexivity.
Qed.

Lemma includes_tail (a : ascii) (s w : string) :
  JS.includes s w = true -> JS.includes (String a s) w = true.
Proof.
  intros H. change (JS.includes (String a s) w)
              with (prefix w (String a s) || JS.includes s w).
  rewrite H. apply orb_true_r.
Qed.

Lemma re_unit_number_words (s : string) :
  re_unit_number s = true -> anyIncludes s timeWords = true.
Proof.
  unfold anyIncludes. induction s as [| a s IH].
  - cbn. intros H. discriminate.
  - intros H.
    change (re_unit_number (String a s))
      with (existsb
              (fun unit =>
                 prefix unit (String a s) &&
                 match JS.trimStart
                         (substring (String.length unit)
                                    (String.length (String a s) - String.length unit)
                                    (String a s)) with
                 | String d _ => is_digit d
                 | EmptyString => false
                 end)
              ["month"; "week"; "day"] || re_unit_number s) in H.
    apply orb_true_iff in H. destruct H as [H | H].
    + apply existsb_exists in H. destruct H as (u & Hu & H).
      apply andb_true_iff in H. destruct H as [Hp _].
      apply existsb_exists. exists u. split; [| apply prefix_includes; exact Hp].
      unfold timeWords. cbn [In] in *. tauto.
    + apply IH in H. apply existsb_exists in H. destruct H as (w & Hw & H).
      apply existsb_exists. exists w. split; [exact Hw | apply includes_tail; exact H].
Qed.

(** X19.  [looksTimeLike] answers exactly when the value is truthy and its
    lower-cased text contains one of the time words: the second test, for a
    unit followed by a number, never changes the answer. *)
Theorem looksTimeLike_is_the_word_test (value : option string) :
  looksTimeLike value =
  JS.truthy value && anyIncludes (JS.toLowerCase (JS.to_String value)) timeWords.
Proof.
  unfold looksTimeLike. destruct (JS.truthy value); cbn [negb andb]; [| reflexivity].
  destruct (anyIncludes (JS.toLowerCase (JS.to_String value)) timeWords) eqn:E;
    [reflexivity |].
  destruct (re_unit_number (JS.toLowerCase (JS.to_String value))) eqn:R; [| reflexivity].
  apply re_unit_number_words in R. congruence.
Qed.

Lemma filter_none_existsb {A : Type} (p : A -> bool) (l : list A) :
  (1 <? 1 + List.length (filter p l))%nat = existsb p l.
Proof.
  induction l as [| x l IH]; [reflexivity |].
  cbn [filter existsb]. destruct (p x); [reflexivity | exact IH].
Qed.

Lemma timeline_lines_length label nameKey partKeys rows title :
  List.length (forEach (timelineRow label nameKey partKeys) rows [title]) =
  1 + List.length (filter (yieldsLine nameKey partKeys) rows).
Proof.
  unfold forEach.
  rewrite (forEachFrom_length (timelineRow label nameKey partKeys)
                              (yieldsLine nameKey partKeys)
                              (timelineRow_length label nameKey partKeys)).
  reflexivity.
Qed.

(** X20.  For a timeline table with headers, the orientation is by columns
    when at least two headers look like timepoints, the entity column being
    a header of the table and, when no header is empty, one that is not a
    timepoint unless all are; otherwise by rows when the first column is the
    time key; and the renderer returns the generic rendering with the
    unknown-orientation note both when the orientation is unknown and when
    no row gives a line in the guessed orientation. *)
Theorem timeline_orientation_and_fallback
        (c : chunk) (rows : list lrow) (hdr : option rawrow) :
  getTableHeaders rows <> [] ->
  let headers := getTableHeaders rows in
  let timeLike := filter (fun h => looksTimeLike (Some h)) headers in
  let r := renderTimelineTable c rows hdr in
  let fallback :=
    genericFallback "timeline" "fallback_generic_unknown_orientation" c rows hdr in
  match guessTimelineOrientation rows with
  | OrientationCols entityHeader timeHeaders =>
      timeHeaders = timeLike /\ 2 <= List.length timeHeaders /\
      In entityHeader headers /\
      (~ In EmptyString headers -> In entityHeader timeHeaders ->
       forall h, In h headers -> looksTimeLike (Some h) = true) /\
      (existsb (yieldsLine entityHeader timeHeaders) rows = false -> r = fallback) /\
      (existsb (yieldsLine entityHeader timeHeaders) rows = true ->
       Obj.get (r_debug r) "orientation" = Some (DStr "cols") /\
       Obj.get (r_debug r) "note" = None /\
       opensWith c "Monitoring schedule" (r_text r))
  | OrientationRows timeKey entityHeaders =>
      timeKey :: entityHeaders = headers /\ List.length timeLike < 2 /\
      (existsb (yieldsLine timeKey entityHeaders) rows = false -> r = fallback) /\
      (existsb (yieldsLine timeKey entityHeaders) rows = true ->
       Obj.get (r_debug r) "orientation" = Some (DStr "rows") /\
       Obj.get (r_debug r) "note" = None /\
       opensWith c "Monitoring schedule" (r_text r))
  | OrientationUnknown => List.length timeLike < 2 /\ r = fallback
  end.
Proof.
  intros Hh. cbv zeta. unfold renderTimelineTable. rewrite (headers_rows rows Hh).
  unfold guessTimelineOrientation.
  destruct (getTableHeaders rows) as [| h0 hs] eqn:Eh; [contradiction Hh; reflexivity |].
  set (headers := h0 :: hs).
  set (timeLike := filter (fun h => looksTimeLike (Some h)) headers).
  destruct (2 <=? List.length timeLike)%nat eqn:E2.
  - apply Nat.leb_le in E2.
    set (e := match find (fun h => negb (JS.arr_includes timeLike h)) headers with
              | Some h => if JS.truthy (Some h) then h else h0
              | None => h0
              end).
    assert (He : In e headers).
    { unfold e. destruct (find _ headers) as [h |] eqn:Ef; [| left; reflexivity].
      destruct (JS.truthy (Some h)); [| left; reflexivity].
      apply find_some in Ef. apply Ef. }
    split; [reflexivity |]. split; [exact E2 |]. split; [exact He |].
    rewrite timeline_lines_length, filter_none_existsb.
    split; [| split].
    + intros Hne Hin h Hhin. unfold e in Hin.
      destruct (find _ headers) as [h' |] eqn:Ef.
      * apply find_some in Ef. destruct Ef as [Hh' Hnot].
        assert (Ht : JS.truthy (Some h') = true).
        { destruct h' as [| a h']; [contradiction Hne | reflexivity]. }
        rewrite Ht in Hin. apply arr_includes_In in Hin.
        rewrite Hin in Hnot. discriminate.
      * pose proof (find_none _ _ Ef h Hhin) as Hn. cbv beta in Hn.
        apply negb_false_iff in Hn. apply arr_includes_In in Hn.
        unfold timeLike in Hn. apply filter_In in Hn. apply Hn.
    + intros ->. reflexivity.
    + intros ->. cbn [r_debug r_text]. repeat split.
      unfold opensWith.
      eapply (loop_opens (fun l => l)); [intros; apply timelineRow_extends | reflexivity].
  - apply Nat.leb_gt in E2.
    destruct (2 <=? _)%nat eqn:E3.
    + split; [reflexivity |]. split; [exact E2 |].
      rewrite timeline_lines_length, filter_none_existsb.
      split.
      * intros ->. reflexivity.
      * intros ->. cbn [r_debug r_text]. repeat split.
        unfold opensWith.
        eapply (loop_opens (fun l => l)); [intros; apply timelineRow_extends | reflexivity].
    + split; [exact E2 | reflexivity].
Qed.

Lemma timeline_orientation_and_fallback_witness :
  let c := SampleTables.captioned "Monitoring schedule for the shorter regimen" in
  getTableHeaders SampleTables.timelineByColumn <> [] /\
  guessTimelineOrientation SampleTables.timelineByColumn =
    OrientationCols "Test" ["Baseline"; "Month 1"; "Month 6"] /\
  Obj.get (r_debug (renderTimelineTable c SampleTables.timelineByColumn None))
          "orientation" = Some (DStr "cols").
Proof.
  cbv zeta. split; [discriminate |]. split; [vm_compute; reflexivity |].
  pose proof (timeline_orientation_and_fallback
                (SampleTables.captioned "Monitoring schedule for the shorter regimen")
                SampleTables.timelineByColumn None) as H.
  cbv zeta in H.
  change (guessTimelineOrientation SampleTables.timelineByColumn)
    with (OrientationCols "Test" ["Baseline"; "Month 1"; "Month 6"]) in H.
  cbv iota in H.
  destruct H as (_ & _ & _ & _ & _ & H); [discriminate |].
  apply H. vm_compute. reflexivity.
Defined.

(** * Properties of the embedding loader *)

Lemma npyRows_from {A : Type} (data : list A) (cols : nat) (rows i : nat) :
  List.length data = (i + rows) * cols ->
  let e := map (fun j => slice data (j * cols) (j * cols + cols)) (seq i rows) in
  List.length e = rows /\
  Forall (fun r => List.length r = cols) e /\
  concat e = skipn (i * cols) data.
Proof.
  cbv zeta. revert i. induction rows as [| rows IH]; intros i Hlen.
  - cbn. repeat split; [constructor |].
    rewrite skipn_all2; [reflexivity | lia].
  - cbn [seq map concat List.length].
    destruct (IH (S i)) as (Hl & Hf & Hc); [rewrite Hlen; lia |].
    assert (Hs : List.length (slice data (i * cols) (i * cols + cols)) = cols).
    { unfold slice. rewrite length_firstn, length_skipn. nia. }
    split; [rewrite length_map, length_seq; reflexivity |].
    split; [constructor; [exact Hs | exact Hf] |].
    rewrite Hc. unfold slice.
    replace (i * cols + cols - i * cols) with cols by lia.
    replace (S i * cols) with (cols + i * cols) by lia.
    rewrite <- skipn_skipn. apply firstn_skipn.
Qed.

(** X21.  When [embeddings.json] is missing, is a Git LFS pointer or does not
    parse, and the [.npy] array has shape rows x cols with both positive and rows * cols
    values, the loader returns rows vectors of cols components each, which
    laid end to end are the data of the array. *)
Theorem npy_fallback_partitions_data
        (jsonPath npyPath : string) (embeddingsJson : option string)
        (parseJson : string -> outcome (list (list Q)))
        (rows cols : nat) (more : list nat) (data : list Q) :
  (forall raw, embeddingsJson = Some raw ->
               isLfsPointer raw = true \/ exists m, parseJson raw = Thrown m) ->
  0 < rows -> 0 < cols -> List.length data = rows * cols ->
  exists e,
    loadEmbeddings jsonPath npyPath embeddingsJson parseJson
                   (Some (Returned (rows :: cols :: more, data))) = Returned e /\
    List.length e = rows /\
    Forall (fun v => List.length v = cols) e /\
    concat e = data.
Proof.
  intros Hjson Hr Hc Hlen. exists (npyRows data rows cols).
  split.
  - unfold loadEmbeddings, loadNpy. cbn [nth].
    assert (E : (rows =? 0)%nat || (cols =? 0)%nat = false).
    { destruct rows, cols; try lia. reflexivity. }
    destruct embeddingsJson as [raw |]; [| rewrite E; reflexivity].
    destruct (Hjson raw eq_refl) as [Hp | [m Hm]].
    + rewrite Hp. cbn [negb]. rewrite E. reflexivity.
    + rewrite Hm. destruct (negb (isLfsPointer raw)); rewrite E; reflexivity.
  - apply (npyRows_from data cols rows 0). exact Hlen.
Qed.

Lemma npy_fallback_partitions_data_witness :
  exists e,
    loadEmbeddings "public/rag/embeddings.json" "public/rag/embeddings.npy"
                   (Some "version https://git-lfs.github.com/spec/v1
oid sha256:4d7a214614ab2935c943f9e0ff69d22eadbb8f32b1258daaa5e2ca24d17e2393
size 12345
")
                   (fun _ => Thrown "Unexpected token v in JSON at position 0")
                   (Some (Returned ([2; 3], [1; 0; 0; 0; 1; 0]%Q))) = Returned e /\
    List.length e = 2 /\
    Forall (fun v => List.length v = 3) e /\
    concat e = [1; 0; 0; 0; 1; 0]%Q.
Proof.
  apply (npy_fallback_partitions_data
           "public/rag/embeddings.json" "public/rag/embeddings.npy" _ _ 2 3 []
           [1; 0; 0; 0; 1; 0]%Q).
  - intros raw E. injection E as <-. left. vm_compute. reflexivity.
  - lia.
  - lia.
  - reflexivity.
Defined.

(** * Properties of the paediatric TB calculator *)

(** ** Objects and their entries *)

Lemma obj_set_keys_NoDup {V : Type} (o : Obj.t V) (k : string) (v : V) :
  NoDup (map fst o) -> NoDup (map fst (Obj.set o k v)).
Proof.
  induction o as [| [k' v'] o IH]; intros Hnd.
  - cbn. constructor; [intros [] | constructor].
  - cbn [Obj.set]. destruct (String.eqb k' k) eqn:E; [exact Hnd |].
    cbn [map fst] in *. inversion Hnd as [| ? ? Hnot Hrest]; subst.
    constructor; [| apply IH; exact Hrest].
    intros Hin. apply Hnot. clear - Hin E.
    induction o as [| [k2 v2] o IH]; cbn [Obj.set map fst In] in *.
    + destruct Hin as [<- | []]. rewrite String.eqb_refl in E. discriminate.
    + destruct (String.eqb k2 k) eqn:E2; cbn [map fst In] in Hin; [exact Hin |].
      destruct Hin as [<- | Hin]; [left; reflexivity | right; apply IH; exact Hin].
Qed.

Lemma obj_spread_keys_NoDup {V : Type} (b a : Obj.t V) :
  NoDup (map fst a) -> NoDup (map fst (Obj.spread a b)).
Proof.
  unfold Obj.spread. revert a. induction b as [| [k v] b IH]; intros a Ha; [exact Ha |].
  cbn [fold_left fst snd]. apply IH. apply obj_set_keys_NoDup. exact Ha.
Qed.

Lemma insert_index_perm (e : N * string) (l : list (N * string)) :
  Permutation (Obj.insert_index e l) (e :: l).
Proof.
  induction l as [| x l IH]; [apply Permutation_refl |].
  cbn [Obj.insert_index]. destruct (fst e <=? fst x)%N; [apply Permutation_refl |].
  eapply perm_trans; [apply perm_skip; exact IH | apply perm_swap].
Qed.

Lemma obj_keys_perm {V : Type} (o : Obj.t V) : Permutation (Obj.keys o) (map fst o).
Proof.
  unfold Obj.keys. induction (map fst o) as [| k ks IH]; [apply Permutation_refl |].
  cbn [fold_right filter]. destruct (Obj.array_index k) as [v |].
  - cbn [map app]. eapply perm_trans; [| apply perm_skip; exact IH].
    change (k :: ?a ++ ?b) with ((k :: a) ++ b).
    apply Permutation_app_tail.
    change (k :: map snd ?l) with (map snd ((v, k) :: l)).
    apply Permutation_map. apply insert_index_perm.
  - eapply perm_trans; [apply Permutation_sym, Permutation_middle |].
    apply perm_skip. exact IH.
Qed.

Lemma obj_get_In {V : Type} (o : Obj.t V) (k : string) (v : V) :
  NoDup (map fst o) -> In (k, v) o -> Obj.get o k = Some v.
Proof.
  induction o as [| [k' v'] o IH]; intros Hnd Hin; [destruct Hin |].
  cbn [map fst] in Hnd. inversion Hnd as [| ? ? Hnot Hrest]; subst.
  cbn [Obj.get]. destruct Hin as [E | Hin].
  - injection E as -> ->. rewrite String.eqb_refl. reflexivity.
  - destruct (String.eqb k' k) eqn:E.
    + apply String.eqb_eq in E. subst k'. contradiction Hnot.
      apply (in_map fst) in Hin. exact Hin.
    + apply IH; assumption.
Qed.

Lemma entries_of_names {V : Type} (o : Obj.t V) :
  NoDup (map fst o) ->
  flat_map (fun k => match Obj.get o k with Some v => [(k, v)] | None => [] end)
           (map fst o) = o.
Proof.
  intros Hnd.
  assert (H : forall l, incl l o ->
                        flat_map (fun k => match Obj.get o k with
                                           | Some v => [(k, v)]
                                           | None => []
                                           end) (map fst l) = l).
  { induction l as [| [k v] l IH]; intros Hl; [reflexivity |].
    cbn [map fst flat_map].
    rewrite (obj_get_In o k v Hnd (Hl (k, v) (or_introl eq_refl))).
    cbn [app]. f_equal. apply IH. intros x Hx. apply Hl. right. exact Hx. }
  apply H. apply incl_refl.
Qed.

Lemma entries_perm {V : Type} (o : Obj.t V) :
  NoDup (map fst o) -> Permutation (Tda.entries o) o.
Proof.
  intros Hnd. unfold Tda.entries.
  eapply perm_trans; [apply Permutation_flat_map, obj_keys_perm |].
  rewrite (entries_of_names o Hnd). apply Permutation_refl.
Qed.

(** ** The scoring loop *)

Lemma tally_none (label : string) (table : Obj.t Z) (es : list (string * json)) :
  fold_left (Tda.addPoints label table) es None = None.
Proof. induction es as [| kv es IH]; [reflexivity | exact IH]. Qed.

Lemma tally_fold (label : string) (table : Obj.t Z) (es : list (string * json))
      (s0 : Z) (e0 : list string) :
  match fold_left (Tda.addPoints label table) es (Some (s0, e0)) with
  | None => existsb (Tda.garbles table) es = true
  | Some (s, e) =>
      existsb (Tda.garbles table) es = false /\
      s = (s0 + Tda.sumZ (map (Tda.gain table) es))%Z /\
      List.length e = List.length e0 + List.length (filter (Tda.scores table) es)
  end.
Proof.
  revert s0 e0. induction es as [| [k v] es IH]; intros s0 e0.
  - cbn. repeat split; lia.
  - change (Tda.sumZ (map (Tda.gain table) ((k, v) :: es)))
      with (Tda.gain table (k, v) + Tda.sumZ (map (Tda.gain table) es))%Z.
    cbn [fold_left existsb filter].
    unfold Tda.addPoints at 2, Tda.garbles at 1 3, Tda.gain at 1, Tda.scores at 1.
    cbn [fst snd].
    destruct (json_truthy v); cbn [andb orb];
      [destruct (Tda.lookup table k) as [n | |]; cbn [orb] |].
    + specialize (IH (s0 + n)%Z
                     (e0 ++ [label ^^ Tda.human k ^^ " (" ^^ Tda.formatPoints n ^^ ")"])).
      destruct (fold_left _ es _) as [[s e] |]; [| exact IH].
      destruct IH as (Hg & Hs & He). split; [exact Hg |].
      split; [rewrite Hs; lia |].
      rewrite He, length_app. cbn [List.length]. lia.
    + rewrite tally_none. reflexivity.
    + specialize (IH s0 e0).
      destruct (fold_left _ es _) as [[s e] |]; [| exact IH].
      destruct IH as (Hg & Hs & He). split; [exact Hg |].
      split; [rewrite Hs; lia | exact He].
    + specialize (IH s0 e0).
      destruct (fold_left _ es _) as [[s e] |]; [| exact IH].
      destruct IH as (Hg & Hs & He). split; [exact Hg |].
      split; [rewrite Hs; lia | exact He].
Qed.

Lemma existsb_perm {A : Type} (f : A -> bool) (l l' : list A) :
  Permutation l l' -> existsb f l = existsb f l'.
Proof.
  induction 1 as [| x l l' _ IH | x y l | l l' l'' _ IH1 _ IH2]; cbn.
  - reflexivity.
  - rewrite IH. reflexivity.
  - destruct (f x), (f y); reflexivity.
  - congruence.
Qed.

Lemma sumZ_perm (l l' : list Z) : Permutation l l' -> Tda.sumZ l = Tda.sumZ l'.
Proof.
  unfold Tda.sumZ.
  induction 1 as [| x l l' _ IH | x y l | l l' l'' _ IH1 _ IH2];
    cbn [fold_right] in *; lia.
Qed.

Lemma filter_length_perm {A : Type} (f : A -> bool) (l l' : list A) :
  Permutation l l' -> List.length (filter f l) = List.length (filter f l').
Proof.
  induction 1 as [| x l l' _ IH | x y l | l l' l'' _ IH1 _ IH2]; cbn.
  - reflexivity.
  - destruct (f x); cbn; rewrite IH; reflexivity.
  - destruct (f x), (f y); reflexivity.
  - congruence.
Qed.

Lemma obj_get_absent {V : Type} (o : Obj.t V) (k : string) :
  ~ In k (map fst o) -> Obj.get o k = None.
Proof.
  induction o as [| [k' v'] o IH]; intros Hn; [reflexivity |].
  cbn [Obj.get]. destruct (String.eqb k' k) eqn:E.
  - apply String.eqb_eq in E. subst. contradiction Hn. left. reflexivity.
  - apply IH. intros Hin. apply Hn. right. exact Hin.
Qed.

Lemma ticked_cons (k : string) (v : json) (o : Obj.t json) (k' : string) :
  Tda.ticked ((k, v) :: o) k' =
  if String.eqb k k' then json_truthy v else Tda.ticked o k'.
Proof. unfold Tda.ticked. cbn [Obj.get]. destruct (String.eqb k k'); reflexivity. Qed.

Lemma ticked_absent (o : Obj.t json) (k : string) :
  ~ In k (map fst o) -> Tda.ticked o k = false.
Proof. intros H. unfold Tda.ticked. rewrite (obj_get_absent o k H). reflexivity. Qed.

(** the rows of a table other than [k] see no difference when the member
    [k] is added *)
Lemma table_rows_other (k : string) (v : json) (o : Obj.t json) (table : Obj.t Z) :
  ~ In k (map fst table) ->
  Tda.pointsOf table ((k, v) :: o) = Tda.pointsOf table o /\
  Tda.tickedRows table ((k, v) :: o) = Tda.tickedRows table o.
Proof.
  unfold Tda.pointsOf, Tda.tickedRows.
  induction table as [| [k1 n1] table IH]; intros Hn; [split; reflexivity |].
  cbn [map fst In] in Hn.
  destruct IH as [IH1 IH2]; [tauto |].
  cbn [fold_right filter fst snd]. rewrite ticked_cons.
  destruct (String.eqb k k1) eqn:E; [apply String.eqb_eq in E; subst; tauto |].
  rewrite IH1. split; [reflexivity |].
  destruct (Tda.ticked o k1); cbn [List.length]; rewrite IH2; reflexivity.
Qed.

Lemma table_rows_cons (k : string) (v : json) (o : Obj.t json) (table : Obj.t Z) :
  NoDup (map fst table) -> ~ In k (map fst o) ->
  (forall h, In h Tda.inheritedNames -> Obj.get table h = None) ->
  Tda.pointsOf table ((k, v) :: o) = (Tda.gain table (k, v) + Tda.pointsOf table o)%Z /\
  Tda.tickedRows table ((k, v) :: o) =
  (if Tda.scores table (k, v) then 1 else 0) + Tda.tickedRows table o.
Proof.
  intros Hnd Hk _. unfold Tda.gain, Tda.scores, Tda.lookup. cbn [fst snd].
  induction table as [| [k1 n1] table IH].
  - unfold Tda.pointsOf, Tda.tickedRows.
    cbn [fold_right filter Obj.get List.length].
    destruct (json_truthy v); cbn [andb];
      [destruct (JS.arr_includes Tda.inheritedNames k) |]; split; reflexivity.
  - cbn [map fst] in Hnd. inversion Hnd as [| ? ? Hnot Hrest]; subst.
    specialize (IH Hrest).
    unfold Tda.pointsOf, Tda.tickedRows in *.
    cbn [fold_right filter fst snd Obj.get]. rewrite ticked_cons.
    rewrite (String.eqb_sym k1 k).
    destruct (String.eqb k k1) eqn:E.
    + apply String.eqb_eq in E. subst k1.
      rewrite (ticked_absent o k Hk).
      destruct (table_rows_other k v o table Hnot) as [R1 R2].
      unfold Tda.pointsOf, Tda.tickedRows in R1, R2. rewrite R1.
      destruct (json_truthy v); cbn [andb List.length]; rewrite R2; split; lia.
    + destruct IH as [IH1 IH2]. rewrite IH1.
      destruct (Tda.ticked o k1); cbn [List.length]; rewrite IH2; split; lia.
Qed.

Lemma tickedInherited_cons (k : string) (v : json) (o : Obj.t json) (table : Obj.t Z) :
  ~ In k (map fst o) ->
  (forall h, In h Tda.inheritedNames -> Obj.get table h = None) ->
  Tda.tickedInherited ((k, v) :: o) = Tda.garbles table (k, v) || Tda.tickedInherited o.
Proof.
  intros Hk Hdis. unfold Tda.tickedInherited, Tda.garbles, Tda.lookup. cbn [fst snd].
  assert (E : match
                match Obj.get table k with
                | Some n => Tda.Points n
                | None =>
                    if JS.arr_includes Tda.inheritedNames k
                    then Tda.Inherited else Tda.Undefined
                end
              with
              | Tda.Inherited => true
              | _ => false
              end = JS.arr_includes Tda.inheritedNames k).
  { destruct (JS.arr_includes Tda.inheritedNames k) eqn:Ei.
    - apply arr_includes_In in Ei. rewrite (Hdis k Ei). reflexivity.
    - destruct (Obj.get table k); reflexivity. }
  rewrite E. clear E Hdis.
  pose proof (ticked_absent o k Hk) as Hf.
  induction Tda.inheritedNames as [| h hs IH]; cbn [existsb JS.arr_includes].
  - rewrite andb_false_r. reflexivity.
  - rewrite ticked_cons. unfold JS.arr_includes in *. cbn [existsb].
    rewrite IH. rewrite (String.eqb_sym k h).
    destruct (String.eqb h k) eqn:E.
    + apply String.eqb_eq in E. subst h. rewrite Hf.
      destruct (json_truthy v); cbn; [reflexivity |].
      reflexivity.
    + cbn [orb]. destruct (json_truthy v), (Tda.ticked o h), (existsb (String.eqb k) hs);
        reflexivity.
Qed.

(** the loop over the members of an object, in any order *)
Lemma tally_members (table : Obj.t Z) (o : Obj.t json) :
  NoDup (map fst table) -> NoDup (map fst o) ->
  (forall h, In h Tda.inheritedNames -> Obj.get table h = None) ->
  existsb (Tda.garbles table) o = Tda.tickedInherited o /\
  Tda.sumZ (map (Tda.gain table) o) = Tda.pointsOf table o /\
  List.length (filter (Tda.scores table) o) = Tda.tickedRows table o.
Proof.
  intros Ht Ho Hdis. induction o as [| [k v] o IH].
  - split; [reflexivity | split].
    + unfold Tda.pointsOf. clear. induction table as [| [k n] t IH]; [reflexivity |].
      cbn [fold_right map Tda.sumZ]. exact IH.
    + unfold Tda.tickedRows. clear. induction table as [| [k n] t IH]; [reflexivity |].
      cbn [filter]. exact IH.
  - cbn [map fst] in Ho. inversion Ho as [| ? ? Hnot Hrest]; subst.
    destruct (IH Hrest) as (I1 & I2 & I3).
    destruct (table_rows_cons k v o table Ht Hnot Hdis) as [R1 R2].
    cbn [existsb map Tda.sumZ fold_right filter].
    rewrite (tickedInherited_cons k v o table Hnot Hdis), I1.
    split; [reflexivity |]. split.
    + fold (Tda.sumZ (map (Tda.gain table) o)). rewrite I2, R1. reflexivity.
    + rewrite R2. destruct (Tda.scores table (k, v)); cbn [List.length]; rewrite I3; lia.
Qed.

Lemma tally_entries (label : string) (table : Obj.t Z) (o : Obj.t json)
      (s0 : Z) (e0 : list string) :
  NoDup (map fst table) -> NoDup (map fst o) ->
  (forall h, In h Tda.inheritedNames -> Obj.get table h = None) ->
  match fold_left (Tda.addPoints label table) (Tda.entries o) (Some (s0, e0)) with
  | None => Tda.tickedInherited o = true
  | Some (s, e) =>
      Tda.tickedInherited o = false /\
      s = (s0 + Tda.pointsOf table o)%Z /\
      List.length e = List.length e0 + Tda.tickedRows table o
  end.
Proof.
  intros Ht Ho Hdis.
  pose proof (tally_fold label table (Tda.entries o) s0 e0) as H.
  pose proof (entries_perm o Ho) as Hp.
  destruct (tally_members table o Ht Ho Hdis) as (M1 & M2 & M3).
  rewrite (existsb_perm _ _ _ Hp), M1 in H.
  rewrite (sumZ_perm _ _ (Permutation_map (Tda.gain table) Hp)), M2 in H.
  rewrite (filter_length_perm _ _ _ Hp), M3 in H.
  exact H.
Qed.

(** ** The score *)

Lemma pointsOf_bounds (table : Obj.t Z) (o : Obj.t json) :
  (Tda.sumZ (map (fun kn => Z.min (snd kn) 0) table) <= Tda.pointsOf table o <=
   Tda.sumZ (map (fun kn => Z.max (snd kn) 0) table))%Z.
Proof.
  unfold Tda.pointsOf, Tda.sumZ. induction table as [| [k n] table IH]; cbn [map fold_right].
  - lia.
  - cbn [fst snd]. destruct (Tda.ticked o k); lia.
Qed.

Lemma table_names_distinct :
  NoDup (map fst Tda.B_POINTS) /\ NoDup (map fst Tda.A_SYMPTOMS) /\
  NoDup (map fst Tda.A_CXR).
Proof.
  repeat split;
    repeat (constructor; [cbn [In]; intuition discriminate |]); constructor.
Qed.

Lemma table_names_own (h : string) :
  In h Tda.inheritedNames ->
  Obj.get Tda.B_POINTS h = None /\ Obj.get Tda.A_SYMPTOMS h = None /\
  Obj.get Tda.A_CXR h = None.
Proof.
  unfold Tda.inheritedNames. cbn [In]. intros H.
  repeat (destruct H as [<- | H]; [repeat split; reflexivity |]). destruct H.
Qed.

Lemma flags_names_distinct (i : Tda.input) : NoDup (map fst (Tda.flags i)).
Proof.
  unfold Tda.flags, Tda.flagsOf.
  do 2 apply obj_set_keys_NoDup. apply obj_spread_keys_NoDup. constructor.
Qed.

Lemma findings_names_distinct (i : Tda.input) : NoDup (map fst (Tda.findings i)).
Proof. unfold Tda.findings. apply obj_spread_keys_NoDup. constructor. Qed.

(** X22.  For a request with an age band, Algorithm B scores the sum of the
    B points of the ticked members of the flags (the symptoms with the two
    derived signs), between 0 and 52, and Algorithm A the sum of the A points
    of the ticked flags and of the ticked chest X-ray findings, between -1
    and 76; the threshold is met exactly from 11 points on, and the
    explanation has one line per ticked row.  The score is a number exactly
    when no ticked member bears a name inherited from [Object.prototype]. *)
Theorem tda_score_sums_ticked_rows (i : Tda.input) :
  JS.truthy (Tda.age_band i) = true ->
  let answer := Tda.computePediatricTbTdaScore i in
  let d := Tda.derivedOf i in
  (Tda.algorithm i = Some "B" ->
   (Tda.tickedInherited (Tda.flags i) = true -> answer = Returned (Tda.NotANumber d)) /\
   (Tda.tickedInherited (Tda.flags i) = false ->
    exists r,
      answer = Returned (Tda.Score r) /\
      Tda.sc_algorithm r = "B" /\ Tda.sc_derived r = d /\
      Tda.sc_score r = Tda.pointsOf Tda.B_POINTS (Tda.flags i) /\
      (0 <= Tda.sc_score r <= 52)%Z /\
      Tda.sc_meets_threshold r = (11 <=? Tda.sc_score r)%Z /\
      List.length (Tda.sc_explanation r) = Tda.tickedRows Tda.B_POINTS (Tda.flags i))) /\
  (Tda.algorithm i = Some "A" ->
   (Tda.tickedInherited (Tda.flags i) || Tda.tickedInherited (Tda.findings i) = true ->
    answer = Returned (Tda.NotANumber d)) /\
   (Tda.tickedInherited (Tda.flags i) || Tda.tickedInherited (Tda.findings i) = false ->
    exists r,
      answer = Returned (Tda.Score r) /\
      Tda.sc_algorithm r = "A" /\ Tda.sc_derived r = d /\
      Tda.sc_score r =
        (Tda.pointsOf Tda.A_SYMPTOMS (Tda.flags i) +
         Tda.pointsOf Tda.A_CXR (Tda.findings i))%Z /\
      (-1 <= Tda.sc_score r <= 76)%Z /\
      Tda.sc_meets_threshold r = (11 <=? Tda.sc_score r)%Z /\
      List.length (Tda.sc_explanation r) =
        Tda.tickedRows Tda.A_SYMPTOMS (Tda.flags i) +
        Tda.tickedRows Tda.A_CXR (Tda.findings i))).
Proof.
  intros Hage. cbv zeta.
  destruct table_names_distinct as (NB & NA & NC).
  pose proof (flags_names_distinct i) as NF.
  pose proof (findings_names_distinct i) as NX.
  unfold Tda.computePediatricTbTdaScore. rewrite Hage.
  fold (Tda.derivedOf i). fold (Tda.flags i). fold (Tda.findings i).
  split; intros Halg; rewrite Halg; cbn [JS.truthy JS.or_empty negb orb andb String.eqb].
  - change (negb ("B" =? "A")%string && negb ("B" =? "B")%string) with false.
    change ("B" =? "B")%string with true. cbv iota.
    pose proof (tally_entries EmptyString Tda.B_POINTS (Tda.flags i) 0 [] NB NF
                  (fun h Hh => proj1 (table_names_own h Hh))) as H.
    destruct (fold_left _ (Tda.entries (Tda.flags i)) _) as [[s e] |].
    + destruct H as (Hg & Hs & He). split; [rewrite Hg; discriminate |].
      intros _. eexists. split; [reflexivity |].
      cbn [Tda.sc_algorithm Tda.sc_derived Tda.sc_score Tda.sc_meets_threshold
           Tda.sc_explanation].
      assert (Hb : (0 <= Tda.pointsOf Tda.B_POINTS (Tda.flags i) <= 52)%Z)
        by exact (pointsOf_bounds Tda.B_POINTS (Tda.flags i)).
      subst s.
      repeat split; try reflexivity; try lia. exact He.
    + rewrite H. split; [reflexivity | discriminate].
  - change (negb ("A" =? "A")%string && negb ("A" =? "B")%string) with false.
    change ("A" =? "B")%string with false. cbv iota.
    pose proof (tally_entries EmptyString Tda.A_SYMPTOMS (Tda.flags i) 0 [] NA NF
                  (fun h Hh => proj1 (proj2 (table_names_own h Hh)))) as H.
    destruct (fold_left _ (Tda.entries (Tda.flags i)) _) as [[s e] |].
    + destruct H as (Hg & Hs & He). rewrite Hg. cbn [orb].
      pose proof (tally_entries "CXR " Tda.A_CXR (Tda.findings i) s e NC NX
                    (fun h Hh => proj2 (proj2 (table_names_own h Hh)))) as H2.
      destruct (fold_left _ (Tda.entries (Tda.findings i)) _) as [[s2 e2] |].
      * destruct H2 as (Hg2 & Hs2 & He2). split; [rewrite Hg2; discriminate |].
        intros _. eexists. split; [reflexivity |].
        cbn [Tda.sc_algorithm Tda.sc_derived Tda.sc_score Tda.sc_meets_threshold
             Tda.sc_explanation].
        assert (Hb1 : (-1 <= Tda.pointsOf Tda.A_SYMPTOMS (Tda.flags i) <= 25)%Z)
          by exact (pointsOf_bounds Tda.A_SYMPTOMS (Tda.flags i)).
        assert (Hb2 : (0 <= Tda.pointsOf Tda.A_CXR (Tda.findings i) <= 51)%Z)
          by exact (pointsOf_bounds Tda.A_CXR (Tda.findings i)).
        subst s2 s.
        repeat split; try reflexivity; try lia.
        rewrite He2, He. reflexivity.
      * rewrite H2. split; [reflexivity | discriminate].
    + rewrite H. cbn [orb]. rewrite tally_none. split; [reflexivity | discriminate].
Qed.

Lemma tda_score_sums_ticked_rows_witness :
  JS.truthy (Tda.age_band (Tda.sampleInput "A")) = true /\
  exists r,
    Tda.computePediatricTbTdaScore (Tda.sampleInput "A") = Returned (Tda.Score r) /\
    Tda.sc_score r = 24%Z /\ Tda.sc_meets_threshold r = true.
Proof.
  split; [reflexivity |].
  destruct (tda_score_sums_ticked_rows (Tda.sampleInput "A") eq_refl) as [_ HA].
  destruct (HA eq_refl) as [_ H].
  destruct (H eq_refl) as (r & Hr & _ & _ & Hs & _ & Hm & _).
  exists r. split; [exact Hr |]. rewrite Hm, Hs. split; vm_compute; reflexivity.
Defined.

(** ** Requests to the calculator *)

Lemma bearer_matches (auth : option string) (key : string) :
  String.eqb (JS.or_empty auth) ("Bearer " ^^ key) = true <->
  auth = Some ("Bearer " ^^ key).
Proof.
  rewrite String.eqb_eq. destruct auth as [a |]; cbn [JS.or_empty].
  - split; [intros ->; reflexivity | intros E; injection E as ->; reflexivity].
  - split; intros E; discriminate.
Qed.

(** On the body that carries a typed input, the calculator on JSON values
    is the calculator on that input. *)
Lemma compute_json_bodyOf (coercedAtLeast : json -> Q -> bool) (i : Tda.input) :
  let b := Tda.bodyOf i in
  Tda.computePediatricTbTdaScore_json
    coercedAtLeast
    (property b "algorithm") (property b "age_band")
    (orEmptyObject (property b "symptoms"))
    (orEmptyObject (property b "vitals"))
    (orEmptyObject (property b "cxr"))
  = Tda.computePediatricTbTdaScore i.
Proof.
  cbv zeta. unfold Tda.bodyOf.
  destruct i as [alg age sym hr rr cxr].
  cbn [Tda.algorithm Tda.age_band Tda.symptoms Tda.hr Tda.rr Tda.cxr].
  change (property _ "algorithm") with (Some (orNull JStr alg)).
  change (property _ "age_band") with (Some (orNull JStr age)).
  change (orEmptyObject (property _ "symptoms")) with (JObj sym).
  change (orEmptyObject (property _ "vitals"))
    with (JObj [("hr", orNull JNum hr); ("rr", orNull JNum rr)]).
  change (orEmptyObject (property _ "cxr")) with (JObj cxr).
  unfold Tda.computePediatricTbTdaScore_json, Tda.computePediatricTbTdaScore.
  cbn [Tda.algorithm Tda.age_band Tda.symptoms Tda.hr Tda.rr Tda.cxr present].
  destruct alg as [alg |]; [| reflexivity].
  destruct age as [age |];
    [| cbn [orNull json_truthy JS.truthy];
       destruct (String.eqb alg EmptyString); reflexivity].
  cbn [orNull json_truthy JS.truthy JS.or_empty].
  destruct (negb (negb (alg =? "")%string) || negb (negb (age =? "")%string));
    [reflexivity |].
  destruct (negb (alg =? "A")%string && negb (alg =? "B")%string); [reflexivity |].
  change (property (JObj sym) ?n) with (Obj.get sym n).
  change (property (JObj [("hr", orNull JNum hr); ("rr", orNull JNum rr)])
                       "hr") with (Some (orNull JNum hr)).
  change (property (JObj [("hr", orNull JNum hr); ("rr", orNull JNum rr)])
                       "rr") with (Some (orNull JNum rr)).
  assert (Ehr : Tda.isTachycardic_json coercedAtLeast (JStr age)
                                       (Some (orNull JNum hr)) =
                Tda.isTachycardic age hr).
  { destruct hr as [h |]; [| reflexivity].
    unfold Tda.isTachycardic_json, Tda.isTachycardic, Tda.ageIs, Tda.atLeast.
    cbn [orNull]. reflexivity. }
  assert (Err : Tda.isTachypnoeic_json coercedAtLeast (JStr age)
                                       (Some (orNull JNum rr)) =
                Tda.isTachypnoeic age rr).
  { destruct rr as [r |]; [| reflexivity].
    unfold Tda.isTachypnoeic_json, Tda.isTachypnoeic, Tda.ageIs, Tda.atLeast.
    cbn [orNull]. reflexivity. }
  rewrite Ehr, Err. reflexivity.
Qed.

(** X23.  The calculator answers 405 to any method but POST, 500 when no API
    key is configured and 401 unless the authorization header is the word
    Bearer followed by the configured key.  Past these checks a body the
    platform has parsed into an object or an array is taken as it is,
    otherwise the text sent is parsed, an empty text as an empty object; the
    answer is 400 "Invalid JSON" when the text does not parse; no answer
    at all when it parses to null (the handler throws outside its try
    blocks); 400 when algorithm or age_band is missing or falsy, or when
    the algorithm is not the string A or B; and 200 with the result
    without its derived member in every other case, whatever the types of the other
    members.  For a body that carries a typed input the result is the one of
    the calculator on that input.  No request is scored without the
    configured key. *)
Theorem tda_handler_statuses (parseJson : string -> outcome json)
        (coercedAtLeast : json -> Q -> bool)
        (apiKey : option string) (req : Tda.request) :
  let answer := Tda.handler parseJson coercedAtLeast apiKey req in
  let key := JS.or_empty apiKey in
  let parsed := Tda.parsedBody parseJson req in
  (Tda.method req <> "POST" -> answer = Tda.Error 405 "Method not allowed") /\
  (Tda.method req = "POST" -> key = EmptyString ->
   answer = Tda.Error 500 "Server misconfigured: missing API key") /\
  (Tda.method req = "POST" -> key <> EmptyString ->
   Tda.authorization req <> Some ("Bearer " ^^ key) ->
   answer = Tda.Error 401 "Unauthorized") /\
  ((forall o, Tda.body req = Some (JObj o) -> parsed = Returned (JObj o)) /\
   (forall l, Tda.body req = Some (JArr l) -> parsed = Returned (JArr l)) /\
   ((forall o, Tda.body req <> Some (JObj o)) ->
    (forall l, Tda.body req <> Some (JArr l)) ->
    parsed = parseJson (if String.eqb (Tda.sent req) EmptyString
                        then "{}" else Tda.sent req))) /\
  (Tda.method req = "POST" -> key <> EmptyString ->
   Tda.authorization req = Some ("Bearer " ^^ key) ->
   (forall m, parsed = Thrown m -> answer = Tda.Error 400 "Invalid JSON") /\
   (parsed = Returned JNull -> answer = Tda.Uncaught) /\
   (forall b, parsed = Returned b -> b <> JNull ->
      let algorithm := property b "algorithm" in
      let age_band := property b "age_band" in
      (present algorithm = false \/ present age_band = false ->
       answer = Tda.Error 400 "Missing algorithm or age_band") /\
      (present algorithm = true -> present age_band = true ->
       algorithm <> Some (JStr "A") -> algorithm <> Some (JStr "B") ->
       answer = Tda.Error 400 "Algorithm must be 'A' or 'B'") /\
      (present age_band = true ->
       algorithm = Some (JStr "A") \/ algorithm = Some (JStr "B") ->
       exists computed,
         Tda.computePediatricTbTdaScore_json
           coercedAtLeast algorithm age_band
           (orEmptyObject (property b "symptoms"))
           (orEmptyObject (property b "vitals"))
           (orEmptyObject (property b "cxr")) = Returned computed /\
         answer = Tda.Ok (Tda.withoutDerived computed)))) /\
  (forall i,
      key <> EmptyString ->
      Tda.handler parseJson coercedAtLeast apiKey
                  (Tda.post (Some ("Bearer " ^^ key)) i) =
      match Tda.computePediatricTbTdaScore i with
      | Returned computed => Tda.Ok (Tda.withoutDerived computed)
      | Thrown message => Tda.Error 400 message
      end) /\
  (forall result, answer = Tda.Ok result ->
     Tda.method req = "POST" /\ key <> EmptyString /\
     Tda.authorization req = Some ("Bearer " ^^ key)).
Proof.
  cbv zeta.
  assert (Hkey : forall k, JS.truthy (Some k) = negb (String.eqb k EmptyString))
    by reflexivity.
  assert (Hpast : forall r,
             Tda.method r = "POST" -> JS.or_empty apiKey <> EmptyString ->
             Tda.authorization r = Some ("Bearer " ^^ JS.or_empty apiKey) ->
             Tda.handler parseJson coercedAtLeast apiKey r =
             match Tda.parsedBody parseJson r with
             | Thrown _ => Tda.Error 400 "Invalid JSON"
             | Returned JNull => Tda.Uncaught
             | Returned b =>
                 match Tda.computePediatricTbTdaScore_json
                         coercedAtLeast
                         (property b "algorithm") (property b "age_band")
                         (orEmptyObject (property b "symptoms"))
                         (orEmptyObject (property b "vitals"))
                         (orEmptyObject (property b "cxr")) with
                 | Returned computed => Tda.Ok (Tda.withoutDerived computed)
                 | Thrown message =>
                     Tda.Error 400 (if JS.truthy (Some message) then message
                                    else "Invalid request")
                 end
             end).
  { intros r Hm Hk Ha. unfold Tda.handler. rewrite Hkey, Hm.
    apply String.eqb_neq in Hk. rewrite Hk.
    change (negb ("POST" =? "POST")%string) with false. cbn [negb]. cbv iota.
    apply bearer_matches in Ha. rewrite Ha. cbn [negb]. reflexivity. }
  split; [| split; [| split; [| split; [| split; [| split]]]]].
  - intros Hm. unfold Tda.handler. apply String.eqb_neq in Hm. rewrite Hm. reflexivity.
  - intros Hm Hk. unfold Tda.handler. rewrite Hkey, Hm, Hk. reflexivity.
  - intros Hm Hk Ha. unfold Tda.handler. rewrite Hkey, Hm.
    apply String.eqb_neq in Hk. rewrite Hk.
    change (negb ("POST" =? "POST")%string) with false. cbn [negb]. cbv iota.
    destruct (String.eqb (JS.or_empty (Tda.authorization req))
                         ("Bearer " ^^ JS.or_empty apiKey)) eqn:E; [| reflexivity].
    apply bearer_matches in E. contradiction.
  - unfold Tda.parsedBody. split; [intros o ->; reflexivity |].
    split; [intros l ->; reflexivity |].
    intros Ho Hl. destruct (Tda.body req) as [[| | | | l | o] |]; try reflexivity.
    + contradiction (Hl l). reflexivity.
    + contradiction (Ho o). reflexivity.
  - intros Hm Hk Ha. rewrite (Hpast req Hm Hk Ha).
    split; [intros m ->; reflexivity |].
    split; [intros ->; reflexivity |].
    intros b -> Hb.
    assert (E : forall (X : Type) (x y : X),
               match b with JNull => x | _ => y end = y).
    { intros X x y. destruct b; try reflexivity. contradiction Hb. reflexivity. }
    rewrite E. clear E.
    unfold Tda.computePediatricTbTdaScore_json.
    split; [| split].
    + intros [H | H]; rewrite H; cbn [negb orb]; rewrite ?orb_true_r; reflexivity.
    + intros H1 H2 HA HB. rewrite H1, H2. cbn [negb orb].
      destruct (property b "algorithm") as [[| | | a | |] |];
        try discriminate H1;
        destruct (property b "age_band") as [age |];
        try discriminate H2; try reflexivity.
      assert (EA : String.eqb a "A" = false)
        by (apply String.eqb_neq; intros ->; apply HA; reflexivity).
      assert (EB : String.eqb a "B" = false)
        by (apply String.eqb_neq; intros ->; apply HB; reflexivity).
      rewrite EA, EB. reflexivity.
    + intros H2 [H | H]; rewrite H, H2;
        destruct (property b "age_band") as [age |];
        try discriminate H2;
        cbn [present json_truthy negb orb andb];
        eexists; split; reflexivity.
  - intros i Hk.
    rewrite (Hpast (Tda.post (Some ("Bearer " ^^ JS.or_empty apiKey)) i)
                   eq_refl Hk eq_refl).
    change (Tda.parsedBody parseJson (Tda.post _ i)) with (Returned (Tda.bodyOf i)).
    cbv iota beta.
    change (match Tda.bodyOf i with JNull => ?x | _ => ?y end) with y.
    rewrite (compute_json_bodyOf coercedAtLeast i).
    unfold Tda.computePediatricTbTdaScore.
    destruct (negb (JS.truthy (Tda.algorithm i)) || negb (JS.truthy (Tda.age_band i)));
      [reflexivity |].
    destruct (negb (JS.or_empty (Tda.algorithm i) =? "A")%string &&
              negb (JS.or_empty (Tda.algorithm i) =? "B")%string); reflexivity.
  - intros result. unfold Tda.handler. rewrite Hkey.
    destruct (String.eqb (Tda.method req) "POST") eqn:Em; cbn [negb]; [| discriminate].
    destruct (String.eqb (JS.or_empty apiKey) EmptyString) eqn:Ek; cbn [negb];
      [discriminate |].
    destruct (String.eqb (JS.or_empty (Tda.authorization req))
                         ("Bearer " ^^ JS.or_empty apiKey)) eqn:Ea; cbn [negb];
      [| discriminate].
    intros _. apply String.eqb_eq in Em. apply String.eqb_neq in Ek.
    apply bearer_matches in Ea. auto.
Qed.

(** A request whose text parses to null gets no answer. *)
Lemma tda_handler_statuses_witness :
  Tda.handler (fun text => if String.eqb text "null" then Returned JNull
                           else Thrown "Unexpected token")
              (fun _ _ => false)
              (Some "secret")
              (Tda.mkRequest "POST" (Some "Bearer secret") None "null")
  = Tda.Uncaught.
Proof.
  apply (proj1 (proj2
           (proj1 (proj2 (proj2 (proj2 (proj2
              (tda_handler_statuses
                 (fun text => if String.eqb text "null" then Returned JNull
                              else Thrown "Unexpected token")
                 (fun _ _ => false)
                 (Some "secret")
                 (Tda.mkRequest "POST" (Some "Bearer secret") None "null"))))))
              eq_refl ltac:(discriminate) eq_refl)));
    reflexivity.
Defined.

(** X24.  What the calculator does not read: under Algorithm B the chest
    X-ray findings; the vital signs once both signs are given as booleans;
    and the spelling of an age band that is none of "<2m", "2-12m" and
    "1-5y", which is treated as the oldest band. *)
Theorem tda_unread_inputs (i : Tda.input) :
  (Tda.algorithm i = Some "B" ->
   forall c, Tda.computePediatricTbTdaScore (Tda.withCxr i c) =
             Tda.computePediatricTbTdaScore i) /\
  (forall b1 b2,
      Obj.get (Tda.symptoms i) "tachycardia" = Some (JBool b1) ->
      Obj.get (Tda.symptoms i) "tachypnoea" = Some (JBool b2) ->
      forall h r, Tda.computePediatricTbTdaScore (Tda.withVitals i h r) =
                  Tda.computePediatricTbTdaScore i) /\
  (forall age,
      Tda.bandRank age = 3 -> age <> EmptyString ->
      Tda.computePediatricTbTdaScore (Tda.withAge i age) =
      Tda.computePediatricTbTdaScore (Tda.withAge i ">5y")).
Proof.
  split; [| split].
  - intros Halg c. unfold Tda.computePediatricTbTdaScore, Tda.flagsOf, Tda.withCxr.
    cbn [Tda.algorithm Tda.age_band Tda.symptoms Tda.hr Tda.rr Tda.cxr].
    rewrite Halg. cbn [JS.or_empty].
    change ("B" =? "B")%string with true. cbv iota. reflexivity.
  - intros b1 b2 H1 H2 h r.
    unfold Tda.computePediatricTbTdaScore, Tda.flagsOf, Tda.withVitals.
    cbn [Tda.algorithm Tda.age_band Tda.symptoms Tda.hr Tda.rr Tda.cxr].
    rewrite H1, H2. reflexivity.
  - intros age Hr Hne.
    assert (E : forall v, Tda.isTachycardic age v = Tda.isTachycardic ">5y" v /\
                          Tda.isTachypnoeic age v = Tda.isTachypnoeic ">5y" v).
    { intros v. unfold Tda.isTachycardic, Tda.isTachypnoeic, Tda.bandRank in *.
      destruct (String.eqb age "<2m"); [discriminate |].
      destruct (String.eqb age "2-12m"); [discriminate |].
      destruct (String.eqb age "1-5y"); [discriminate |].
      split; reflexivity. }
    assert (Ht : JS.truthy (Some age) = true).
    { destruct age; [contradiction Hne; reflexivity | reflexivity]. }
    unfold Tda.computePediatricTbTdaScore, Tda.flagsOf, Tda.withAge.
    cbn [Tda.algorithm Tda.age_band Tda.symptoms Tda.hr Tda.rr Tda.cxr].
    rewrite Ht. change (JS.truthy (Some ">5y")) with true.
    cbn [JS.or_empty].
    rewrite (proj1 (E (Tda.hr i))), (proj2 (E (Tda.rr i))).
    reflexivity.
Qed.

Lemma Qle_bool_trans (a b c : Q) :
  (a <= b)%Q -> Qle_bool b c = true -> Qle_bool a c = true.
Proof.
  intros H1 H2. apply Qle_bool_iff. apply Qle_bool_iff in H2.
  eapply Qle_trans; eassumption.
Qed.

(** X25.  The thresholds of the vital signs fall with age and each sign is
    monotone in the rate: a rate that counts as tachycardia or tachypnoea
    for an age band counts for every older band, and so does every higher
    rate. *)
Theorem vital_thresholds_monotone (age older : string) (rate higher : Q) :
  Tda.bandRank age <= Tda.bandRank older -> (rate <= higher)%Q ->
  (Tda.isTachycardic age (Some rate) = true ->
   Tda.isTachycardic older (Some higher) = true) /\
  (Tda.isTachypnoeic age (Some rate) = true ->
   Tda.isTachypnoeic older (Some higher) = true).
Proof.
  intros Hb Hr. unfold Tda.isTachycardic, Tda.isTachypnoeic, Tda.bandRank in *.
  assert (Hup : forall t, Qle_bool t rate = true -> Qle_bool t higher = true).
  { intros t H. apply Qle_bool_iff. apply Qle_bool_iff in H.
    eapply Qle_trans; eassumption. }
  destruct (String.eqb age "<2m"), (String.eqb age "2-12m"), (String.eqb age "1-5y"),
    (String.eqb older "<2m"), (String.eqb older "2-12m"), (String.eqb older "1-5y");
    try lia;
    (split; intros H; apply Hup; revert H; apply Qle_bool_trans;
     unfold Qle; cbn; lia).
Qed.

Lemma vital_thresholds_monotone_witness :
  Tda.isTachycardic "2-12m" (Some 165%Q) = true /\
  Tda.isTachycardic "1-5y" (Some 180%Q) = true.
Proof.
  split; [reflexivity |].
  apply (vital_thresholds_monotone "2-12m" "1-5y" 165 180).
  - vm_compute. lia.
  - unfold Qle. cbn. lia.
  - reflexivity.
Defined.

(** * Properties of the mentor chat route *)

Lemma trimEnd_idem (s : string) : JS.trimEnd (JS.trimEnd s) = JS.trimEnd s.
Proof.
  induction s as [| c s IH]; [reflexivity |].
  cbn [JS.trimEnd]. destruct (JS.trimEnd s) as [| a t] eqn:E.
  - destruct (JS.is_space c) eqn:Ec; [reflexivity |].
    cbn [JS.trimEnd]. rewrite Ec. reflexivity.
  - change (JS.trimEnd (String c (String a t)))
      with (match JS.trimEnd (String a t) with
            | EmptyString => if JS.is_space c then EmptyString else String c EmptyString
            | t' => String c t'
            end).
    rewrite IH. reflexivity.
Qed.

Lemma trimStart_head (s : string) :
  match JS.trimStart s with
  | EmptyString => True
  | String c _ => JS.is_space c = false
  end.
Proof.
  induction s as [| c s IH]; [exact I |].
  cbn [JS.trimStart]. destruct (JS.is_space c) eqn:E; [exact IH | exact E].
Qed.

Lemma trimStart_of_trimEnd (s : string) :
  match s with
  | EmptyString => True
  | String c _ => JS.is_space c = false
  end ->
  JS.trimStart (JS.trimEnd s) = JS.trimEnd s.
Proof.
  destruct s as [| c s]; [reflexivity |]. intros Hc.
  cbn [JS.trimEnd]. destruct (JS.trimEnd s); rewrite ?Hc; cbn [JS.trimStart];
    rewrite Hc; reflexivity.
Qed.

Lemma trim_idem (s : string) : JS.trim (JS.trim s) = JS.trim s.
Proof.
  unfold JS.trim.
  rewrite (trimStart_of_trimEnd (JS.trimStart s) (trimStart_head s)).
  apply trimEnd_idem.
Qed.

Lemma lastN_length {A : Type} (n : nat) (l : list A) :
  List.length (Mentor.lastN n l) <= n /\
  (exists older, l = older ++ Mentor.lastN n l) /\
  (List.length l <= n -> Mentor.lastN n l = l).
Proof.
  unfold Mentor.lastN. split; [rewrite length_skipn; lia |]. split.
  - exists (firstn (List.length l - n) l). symmetry. apply firstn_skipn.
  - intros H. replace (List.length l - n) with 0 by lia. reflexivity.
Qed.

Lemma validEntry_entryOf (h : json) :
  Mentor.validEntry h = true ->
  (Mentor.role (Mentor.entryOf h) = "user" \/
   Mentor.role (Mentor.entryOf h) = "assistant") /\
  Mentor.content (Mentor.entryOf h) <> EmptyString /\
  JS.trim (Mentor.content (Mentor.entryOf h)) = Mentor.content (Mentor.entryOf h).
Proof.
  unfold Mentor.validEntry, Mentor.entryOf. cbn [Mentor.role Mentor.content].
  intros H. repeat (apply andb_true_iff in H; destruct H as [H ?]).
  destruct (Mentor.member h "role") as [[| | | r | |] |]; try discriminate.
  destruct (Mentor.member h "content") as [[| | | c | |] |]; try discriminate.
  cbn [Mentor.textOf JS.or_empty] in *.
  split; [| split].
  - match goal with
    | Hr : _ || _ = true |- _ =>
        apply orb_true_iff in Hr; destruct Hr as [Hr | Hr];
        apply String.eqb_eq in Hr; auto
    end.
  - match goal with
    | Hc : JS.truthy _ = true |- _ =>
        intros E; rewrite E in Hc; discriminate
    end.
  - apply trim_idem.
Qed.

Lemma valid_toJson (m : Mentor.message) :
  (Mentor.role m = "user" \/ Mentor.role m = "assistant") ->
  Mentor.content m <> EmptyString ->
  JS.trim (Mentor.content m) = Mentor.content m ->
  Mentor.validEntry (Mentor.toJson m) = true /\
  Mentor.entryOf (Mentor.toJson m) = m.
Proof.
  intros Hr Hc Ht. destruct m as [r c]. cbn [Mentor.role Mentor.content] in *.
  unfold Mentor.validEntry, Mentor.entryOf, Mentor.toJson, Mentor.member.
  cbn [Mentor.role Mentor.content].
  change (Obj.get [("role", JStr r); ("content", JStr c)] "role") with (Some (JStr r)).
  change (Obj.get [("role", JStr r); ("content", JStr c)] "content")
    with (Some (JStr c)).
  cbn [json_truthy Mentor.isObject Mentor.textOf JS.or_empty andb].
  rewrite Ht. split; [| reflexivity].
  assert (E1 : String.eqb r "user" || String.eqb r "assistant" = true).
  { destruct Hr as [-> | ->]; reflexivity. }
  rewrite E1. cbn [andb]. destruct c; [contradiction Hc; reflexivity | reflexivity].
Qed.

(** X26.  The sanitised history holds at most 12 messages, each with the role
    user or assistant and a non-empty content without leading or trailing
    white space; they are the last valid entries of the given array, in
    their order, all of them when there are at most 12; and a history that
    repeats sanitised messages comes back unchanged. *)
Theorem mentor_history_sanitized (history : list json) :
  let s := Mentor.sanitizedHistory (Some (JArr history)) in
  List.length s <= 12 /\
  (forall m, In m s ->
             (Mentor.role m = "user" \/ Mentor.role m = "assistant") /\
             Mentor.content m <> EmptyString /\
             JS.trim (Mentor.content m) = Mentor.content m) /\
  (exists older,
      map Mentor.entryOf (filter Mentor.validEntry history) = older ++ s /\
      (List.length (filter Mentor.validEntry history) <= 12 -> older = [])) /\
  Mentor.sanitizedHistory (Some (JArr (map Mentor.toJson s))) = s.
Proof.
  cbv zeta. unfold Mentor.sanitizedHistory.
  set (valid := filter Mentor.validEntry history).
  destruct (lastN_length 12 valid) as (Hlen & [older Hold] & Hall).
  assert (Hvalid : forall m, In m (map Mentor.entryOf (Mentor.lastN 12 valid)) ->
                             (Mentor.role m = "user" \/ Mentor.role m = "assistant") /\
                             Mentor.content m <> EmptyString /\
                             JS.trim (Mentor.content m) = Mentor.content m).
  { intros m Hm. apply in_map_iff in Hm. destruct Hm as (h & <- & Hh).
    apply validEntry_entryOf.
    assert (Hin : In h valid) by (rewrite Hold; apply in_or_app; right; exact Hh).
    unfold valid in Hin. apply filter_In in Hin. apply Hin. }
  split; [rewrite length_map; exact Hlen |]. split; [exact Hvalid |]. split.
  - exists (map Mentor.entryOf older). split.
    + rewrite <- map_app, <- Hold. reflexivity.
    + intros H. specialize (Hall H). rewrite Hall in Hold.
      destruct older as [| x older]; [reflexivity |].
      apply (f_equal (@List.length json)) in Hold.
      rewrite length_app in Hold. cbn [List.length] in Hold. lia.
  - set (s := map Mentor.entryOf (Mentor.lastN 12 valid)) in *.
    assert (Hs : List.length s <= 12) by (unfold s; rewrite length_map; exact Hlen).
    assert (Hf : filter Mentor.validEntry (map Mentor.toJson s) = map Mentor.toJson s).
    { clear Hs. induction s as [| m s IH]; [reflexivity |].
      cbn [map filter].
      destruct (Hvalid m (or_introl eq_refl)) as (Hr & Hc & Ht).
      rewrite (proj1 (valid_toJson m Hr Hc Ht)). f_equal.
      apply IH. intros m' Hm'. apply Hvalid. right. exact Hm'. }
    rewrite Hf.
    rewrite (proj2 (proj2 (lastN_length 12 (map Mentor.toJson s))))
      by (rewrite length_map; exact Hs).
    rewrite map_map. clear Hs Hf.
    induction s as [| m s IH]; [reflexivity |].
    cbn [map].
    destruct (Hvalid m (or_introl eq_refl)) as (Hr & Hc & Ht).
    rewrite (proj2 (valid_toJson m Hr Hc Ht)). f_equal.
    apply IH. intros m' Hm'. apply Hvalid. right. exact Hm'.
Qed.

Lemma member_or_empty (v : json) (name : string) :
  Mentor.member (if json_truthy v then v else JObj []) name = Mentor.member v name.
Proof.
  destruct v as [| b | n | s | l | o]; cbn [json_truthy]; try reflexivity.
  - destruct b; reflexivity.
  - destruct (negb (Qeq_bool n 0)); reflexivity.
  - destruct (negb (s =? "")%string); reflexivity.
Qed.

(** The route, read through the members of the body as sent. *)
Lemma openConversation_sent (systemPrompt : string) (req : Mentor.request) :
  Mentor.openConversation systemPrompt req =
  if negb (String.eqb (Mentor.method req) "POST")
  then Mentor.Rejected 405 "Method not allowed"
  else
    match Mentor.sent req "message" with
    | Some (JStr text) =>
        if negb (JS.truthy (Some text))
        then Mentor.Rejected 400 "Missing 'message' in request body"
        else
          if match Mentor.sent req "history" with
             | Some (JArr _) => false
             | Some v => json_truthy v
             | None => false
             end
          then Mentor.Rejected 400 "'history' must be an array"
          else
            Mentor.Conversation
              ([Mentor.mkMessage "system" systemPrompt] ++
               Mentor.sanitizedHistory (Mentor.sent req "history") ++
               [Mentor.mkMessage "user" text])
    | _ => Mentor.Rejected 400 "Missing 'message' in request body"
    end.
Proof.
  unfold Mentor.openConversation, Mentor.sent.
  destruct (negb (String.eqb (Mentor.method req) "POST")); [reflexivity |].
  destruct (Mentor.body req) as [v |].
  - rewrite !member_or_empty. reflexivity.
  - reflexivity.
Qed.

(** X27.  The chat route rejects with 405 any method but POST; a POST whose
    message is missing, empty or not a string with 400 "Missing 'message' in
    request body"; a POST with a message whose history is truthy but not an
    array with 400 "'history' must be an array"; every other request opens
    the conversation that starts with the system prompt, carries the
    sanitised history (at most 12 messages, none when the history is not an
    array) and ends with the message as given. *)
Theorem mentor_request_outcomes (systemPrompt : string) (req : Mentor.request) :
  let answer := Mentor.openConversation systemPrompt req in
  let message := Mentor.sent req "message" in
  let history := Mentor.sent req "history" in
  (Mentor.method req <> "POST" -> answer = Mentor.Rejected 405 "Method not allowed") /\
  (Mentor.method req = "POST" ->
   (forall text, message = Some (JStr text) -> text = EmptyString) ->
   answer = Mentor.Rejected 400 "Missing 'message' in request body") /\
  (forall text h,
      Mentor.method req = "POST" ->
      message = Some (JStr text) -> text <> EmptyString ->
      history = Some h -> json_truthy h = true -> Mentor.isArray h = false ->
      answer = Mentor.Rejected 400 "'history' must be an array") /\
  (forall text,
      Mentor.method req = "POST" ->
      message = Some (JStr text) -> text <> EmptyString ->
      (forall h, history = Some h -> json_truthy h = false \/ Mentor.isArray h = true) ->
      answer =
        Mentor.Conversation
          (Mentor.mkMessage "system" systemPrompt ::
           Mentor.sanitizedHistory history ++ [Mentor.mkMessage "user" text]) /\
      List.length (Mentor.sanitizedHistory history) <= 12 /\
      ((forall l, history <> Some (JArr l)) -> Mentor.sanitizedHistory history = [])) /\
  (forall messages,
      answer = Mentor.Conversation messages ->
      Mentor.method req = "POST" /\
      exists b text history,
        Mentor.body req = Some b /\
        Mentor.member b "message" = Some (JStr text) /\ text <> EmptyString /\
        messages =
          Mentor.mkMessage "system" systemPrompt :: history ++
          [Mentor.mkMessage "user" text] /\
        history = Mentor.sanitizedHistory (Mentor.member b "history") /\
        List.length messages <= 14) /\
  (forall status error,
      answer = Mentor.Rejected status error ->
      (status = 405 /\ Mentor.method req <> "POST") \/
      (status = 400 /\ Mentor.method req = "POST")) /\
  (forall text history,
      text <> EmptyString ->
      exists kept,
        Mentor.openConversation systemPrompt (Mentor.chat text history) =
        Mentor.Conversation
          (Mentor.mkMessage "system" systemPrompt :: kept ++
           [Mentor.mkMessage "user" text]) /\
        kept = Mentor.sanitizedHistory (Some (JArr history))).
Proof.
  cbv zeta.
  split; [| split; [| split; [| split]]].
  - intros Hm. unfold Mentor.openConversation.
    apply String.eqb_neq in Hm. rewrite Hm. reflexivity.
  - intros Hm Hmsg. rewrite openConversation_sent.
    apply String.eqb_eq in Hm. rewrite Hm. cbn [negb].
    destruct (Mentor.sent req "message") as [[| | | text | |] |]; try reflexivity.
    rewrite (Hmsg text eq_refl). reflexivity.
  - intros text h Hm Hmsg Hne Hh Ht Ha. rewrite openConversation_sent.
    apply String.eqb_eq in Hm. rewrite Hm. cbn [negb].
    rewrite Hmsg, Hh.
    destruct text as [| a text]; [contradiction Hne; reflexivity |].
    cbn [JS.truthy String.eqb negb].
    destruct h; try discriminate Ha; rewrite Ht; reflexivity.
  - intros text Hm Hmsg Hne Hh. rewrite openConversation_sent.
    apply String.eqb_eq in Hm. rewrite Hm. cbn [negb].
    rewrite Hmsg.
    destruct text as [| a text]; [contradiction Hne; reflexivity |].
    cbn [JS.truthy String.eqb negb].
    split; [| split].
    + destruct (Mentor.sent req "history") as [h |]; [| reflexivity].
      destruct (Hh h eq_refl) as [Hf | Ha].
      * destruct h; try (rewrite Hf); reflexivity.
      * destruct h; try discriminate Ha. reflexivity.
    + unfold Mentor.sanitizedHistory. rewrite length_map.
      apply (proj1 (lastN_length 12 _)).
    + intros Hna. unfold Mentor.sanitizedHistory.
      destruct (Mentor.sent req "history") as [[| | | | l |] |]; try reflexivity.
      contradiction (Hna l). reflexivity.
  - unfold Mentor.openConversation. split; [| split].
    + intros messages.
      destruct (String.eqb (Mentor.method req) "POST") eqn:Em; cbn [negb];
        [| discriminate].
      apply String.eqb_eq in Em.
      destruct (Mentor.body req) as [b |] eqn:Eb; [| cbn; discriminate].
      destruct (json_truthy b) eqn:Etb;
        [| cbn [Mentor.member Obj.get]; discriminate].
      destruct (Mentor.member b "message") as [[| | | text | |] |] eqn:Emsg;
        try discriminate.
      destruct (JS.truthy (Some text)) eqn:Et; cbn [negb]; [| discriminate].
      destruct (match Mentor.member b "history" with
                | Some (JArr _) => false
                | Some v => json_truthy v
                | None => false
                end); [discriminate |].
      intros E. injection E as <-. split; [exact Em |].
      exists b, text, (Mentor.sanitizedHistory (Mentor.member b "history")).
      split; [reflexivity |]. split; [exact Emsg |]. split.
      { intros ->. discriminate. }
      split; [reflexivity |]. split; [reflexivity |].
      cbn [app List.length]. rewrite length_app. cbn [List.length].
      assert (H : List.length (Mentor.sanitizedHistory (Mentor.member b "history")) <= 12).
      { unfold Mentor.sanitizedHistory. rewrite length_map.
        apply (proj1 (lastN_length 12 _)). }
      lia.
    + intros status error.
      destruct (String.eqb (Mentor.method req) "POST") eqn:Em; cbn [negb].
      * apply String.eqb_eq in Em. intros H. right. split; [| exact Em].
        repeat match type of H with
               | context [match ?x with _ => _ end] => destruct x
               end;
          try discriminate; injection H as <- _; reflexivity.
      * apply String.eqb_neq in Em. intros H. injection H as <- _. left. auto.
    + intros text history Hne. eexists. split; [| reflexivity].
      unfold Mentor.chat. cbn [Mentor.method Mentor.body String.eqb negb json_truthy].
      change (negb ("POST" =? "POST")%string) with false. cbv iota.
      change (Mentor.member (JObj [("message", JStr text); ("history", JArr history)])
                            "message") with (Some (JStr text)).
      change (Mentor.member (JObj [("message", JStr text); ("history", JArr history)])
                            "history") with (Some (JArr history)).
      cbv iota.
      destruct text as [| a text]; [contradiction Hne; reflexivity |].
      reflexivity.
Qed.

Lemma mentor_request_outcomes_witness :
  Mentor.openConversation
    "You are a TB mentor."
    (Mentor.mkRequest "POST"
       (Some (JObj [("message", JStr "Which regimen?"); ("history", JStr "none")])))
  = Mentor.Rejected 400 "'history' must be an array".
Proof.
  apply (proj1 (proj2 (proj2
           (mentor_request_outcomes
              "You are a TB mentor."
              (Mentor.mkRequest "POST"
                 (Some (JObj [("message", JStr "Which regimen?");
                              ("history", JStr "none")]))))))
           "Which regimen?" (JStr "none"));
    try reflexivity.
  discriminate.
Defined.

(** ** One line per row *)

Lemma findHeader_In (pats headers : list string) (h : string) :
  findHeader pats headers = Some h -> In h headers.
Proof.
  unfold findHeader. destruct (find _ headers) as [x |] eqn:E; [| discriminate].
  destruct (JS.truthy (Some x)); [| discriminate].
  intros H. injection H as <-. apply find_some in E. apply E.
Qed.

Lemma column_In (pats : list string) (h0 : string) (hs : list string) :
  In (match findHeader pats (h0 :: hs) with Some h => h | None => h0 end) (h0 :: hs).
Proof.
  destruct (findHeader pats (h0 :: hs)) as [h |] eqn:E.
  - apply (findHeader_In pats). exact E.
  - left. reflexivity.
Qed.

Lemma fillsAny_In (keys : list string) (row : lrow) (k : string) :
  In k keys -> nonEmpty (cell row k) = true -> fillsAny keys row = true.
Proof.
  intros Hin Hn. unfold fillsAny. apply existsb_exists. exists k. auto.
Qed.

Lemma singleLine_append (a b : string) :
  singleLine (a ^^ b) = singleLine a && singleLine b.
Proof.
  induction a as [| x a IH]; [reflexivity |].
  cbn [String.append singleLine]. rewrite IH, andb_assoc. reflexivity.
Qed.

Lemma singleLine_join (sep : string) (parts : list string) :
  singleLine sep = true ->
  Forall (fun p => singleLine p = true) parts ->
  singleLine (JS.join sep parts) = true.
Proof.
  intros Hsep H. induction H as [| p rest Hp Hrest IH]; [reflexivity |].
  destruct rest as [| q rest]; [exact Hp |].
  change (JS.join sep (p :: q :: rest)) with (p ^^ sep ^^ JS.join sep (q :: rest)).
  rewrite !singleLine_append, Hp, Hsep, IH. reflexivity.
Qed.

Lemma singleLine_trimStart (s : string) :
  singleLine s = true -> singleLine (JS.trimStart s) = true.
Proof.
  induction s as [| c s IH]; [reflexivity |].
  intros H. cbn [JS.trimStart]. destruct (JS.is_space c); [| exact H].
  apply IH. cbn [singleLine] in H. apply andb_true_iff in H. apply H.
Qed.

Lemma singleLine_trimEnd (s : string) :
  singleLine s = true -> singleLine (JS.trimEnd s) = true.
Proof.
  induction s as [| c s IH]; [reflexivity |].
  intros H. cbn [singleLine] in H. apply andb_true_iff in H. destruct H as [Hc Hs].
  specialize (IH Hs). cbn [JS.trimEnd].
  destruct (JS.trimEnd s) as [| d t].
  - destruct (JS.is_space c); [reflexivity |].
    cbn [singleLine]. rewrite Hc. reflexivity.
  - change (singleLine (String c (String d t)))
      with (negb (Ascii.eqb c lineFeed) && singleLine (String d t)).
    rewrite Hc, IH. reflexivity.
Qed.

Lemma singleLine_trim (s : string) :
  singleLine s = true -> singleLine (JS.trim s) = true.
Proof.
  intros H. unfold JS.trim. apply singleLine_trimEnd, singleLine_trimStart, H.
Qed.

Lemma singleLine_uint (d : Decimal.uint) :
  singleLine (NilEmpty.string_of_uint d) = true.
Proof. induction d; cbn [NilEmpty.string_of_uint singleLine]; try exact IHd; reflexivity. Qed.

Lemma singleLine_nat_to_string (n : nat) : singleLine (nat_to_string n) = true.
Proof. apply singleLine_uint. Qed.

Lemma split_singleLine (s : string) :
  singleLine s = true -> JS.split lineFeed s = [s].
Proof.
  induction s as [| c s IH]; [reflexivity |].
  intros H. cbn [singleLine] in H. apply andb_true_iff in H. destruct H as [Hc Hs].
  cbn [JS.split]. apply negb_true_iff in Hc. rewrite Hc, (IH Hs). reflexivity.
Qed.

Lemma split_first_line (a b : string) :
  singleLine a = true ->
  JS.split lineFeed (a ^^ newline ^^ b) = a :: JS.split lineFeed b.
Proof.
  induction a as [| c a IH]; intros H.
  - reflexivity.
  - cbn [singleLine] in H. apply andb_true_iff in H. destruct H as [Hc Ha].
    cbn [String.append JS.split]. apply negb_true_iff in Hc.
    rewrite Hc, (IH Ha). reflexivity.
Qed.

Lemma split_join_lines (l : list string) :
  l <> [] ->
  Forall (fun p => singleLine p = true) l ->
  linesOf (JS.join newline l) = l.
Proof.
  unfold linesOf. intros Hne H. induction H as [| p rest Hp Hrest IH];
    [contradiction Hne; reflexivity |].
  destruct rest as [| q rest]; [apply split_singleLine; exact Hp |].
  change (JS.join newline (p :: q :: rest))
    with (p ^^ newline ^^ JS.join newline (q :: rest)).
  rewrite (split_first_line _ _ Hp), IH by discriminate. reflexivity.
Qed.

Lemma obj_get_In_entry {V : Type} (o : Obj.t V) (k : string) (v : V) :
  Obj.get o k = Some v -> In (k, v) o.
Proof.
  induction o as [| [k' v'] o IH]; [discriminate |].
  cbn [Obj.get]. destruct (String.eqb k' k) eqn:E.
  - apply String.eqb_eq in E. subst k'. intros H. injection H as ->. left. reflexivity.
  - intros H. right. apply IH. exact H.
Qed.

Lemma cell_singleLine (row : lrow) (k : string) :
  singleLineRow row = true ->
  singleLine (JS.to_String (cell row k)) = true /\
  singleLine (JS.or_empty (cell row k)) = true.
Proof.
  intros Hrow. unfold cell. destruct (Obj.get row k) as [v |] eqn:E.
  - apply obj_get_In_entry in E. unfold singleLineRow in Hrow.
    rewrite forallb_forall in Hrow. specialize (Hrow _ E).
    apply andb_true_iff in Hrow. destruct Hrow as [_ Hv]. cbn [snd] in Hv.
    destruct v as [s |]; [split; exact Hv | split; reflexivity].
  - split; reflexivity.
Qed.

Lemma cellAt_singleLine (row : lrow) (key : option string) :
  singleLineRow row = true -> singleLine (JS.to_String (cellAt row key)) = true.
Proof.
  intros Hrow. unfold cellAt. destruct (JS.truthy key); [| reflexivity].
  apply cell_singleLine. exact Hrow.
Qed.

Lemma labelledCells_singleLine (row : lrow) (keys : list string) :
  singleLineRow row = true ->
  Forall (fun k => singleLine k = true) keys ->
  Forall (fun p => singleLine p = true) (labelledCells row keys).
Proof.
  intros Hrow Hkeys. unfold labelledCells.
  induction Hkeys as [| k keys Hk Hkeys IH]; [constructor |].
  cbn [flat_map]. destruct (negb (nonEmpty (cell row k))); [exact IH |].
  cbn [app]. constructor; [| exact IH].
  rewrite !singleLine_append, Hk.
  rewrite (singleLine_trim _ (proj1 (cell_singleLine row k Hrow))). reflexivity.
Qed.

Lemma headers_singleLine (c : chunk) (rows : list lrow) :
  singleLineTable c rows = true ->
  Forall (fun k => singleLine k = true) (getTableHeaders rows).
Proof.
  intros H. apply andb_true_iff in H. destruct H as [_ Hrows].
  destruct rows as [| r rows]; [constructor |].
  cbn [forallb] in Hrows. apply andb_true_iff in Hrows. destruct Hrows as [Hr _].
  cbn [getTableHeaders]. apply Forall_forall. intros k Hk.
  apply filter_In in Hk. destruct Hk as [Hk _].
  apply (Permutation_in _ (obj_keys_perm r)) in Hk.
  apply in_map_iff in Hk. destruct Hk as ([k' v] & <- & Hin).
  unfold singleLineRow in Hr. rewrite forallb_forall in Hr.
  specialize (Hr _ Hin). apply andb_true_iff in Hr. apply Hr.
Qed.

Lemma rows_singleLine (c : chunk) (rows : list lrow) (row : lrow) :
  singleLineTable c rows = true -> In row rows -> singleLineRow row = true.
Proof.
  intros H Hin. apply andb_true_iff in H. destruct H as [_ Hrows].
  rewrite forallb_forall in Hrows. apply Hrows, Hin.
Qed.

Lemma title_singleLine (c : chunk) (rows : list lrow) (d more : string) :
  singleLineTable c rows = true ->
  singleLine d = true -> singleLine more = true ->
  singleLine (or_default (caption c) d ^^ more) = true.
Proof.
  intros H Hd Hm. apply andb_true_iff in H. destruct H as [Hc _].
  rewrite singleLine_append, Hm, andb_true_r.
  unfold or_default. destruct (JS.truthy (caption c)); assumption.
Qed.

Lemma filter_sublist_Forall {A : Type} (P : A -> Prop) (p : A -> bool) (l : list A) :
  Forall P l -> Forall P (filter p l).
Proof.
  intros H. apply Forall_forall. intros x Hx. apply filter_In in Hx.
  rewrite Forall_forall in H. apply H, Hx.
Qed.

(** A loop whose body pushes one entry for the rows that pass [p] and none
    for the others collects the entries of those rows in their order. *)
Lemma forEachFrom_entries (body : list string -> lrow -> nat -> list string)
      (p : lrow -> bool) (R : nat * lrow -> string -> Prop) :
  (forall s row i,
      if p row then exists e, body s row i = s ++ [e] /\ R (i, row) e
      else body s row i = s) ->
  forall rows i s,
  exists entries,
    forEachFrom body i rows s = s ++ entries /\
    Forall2 R (filter (fun ir => p (snd ir)) (combine (seq i (List.length rows)) rows))
            entries.
Proof.
  intros Hbody rows. induction rows as [| row rows IH]; intros i s.
  - exists []. split; [cbn; rewrite app_nil_r; reflexivity | constructor].
  - cbn [forEachFrom List.length seq combine filter snd].
    specialize (Hbody s row i).
    destruct (IH (i + 1) (body s row i)) as (entries & E & HR).
    replace (i + 1) with (S i) in HR by lia.
    destruct (p row).
    + destruct Hbody as (e & Eb & He).
      exists (e :: entries). split.
      * rewrite E, Eb, <- app_assoc. reflexivity.
      * constructor; assumption.
    + exists entries. split; [rewrite E, Hbody; reflexivity | exact HR].
Qed.

Lemma forEach_entries (body : list string -> lrow -> nat -> list string)
      (p : lrow -> bool) (R : nat * lrow -> string -> Prop)
      (rows : list lrow) (title : string) :
  (forall s row i,
      if p row then exists e, body s row i = s ++ [e] /\ R (i, row) e
      else body s row i = s) ->
  exists entries,
    forEach body rows [title] = title :: entries /\
    Forall2 R (filter (fun ir => p (snd ir)) (indexed rows)) entries.
Proof.
  intros Hbody. apply (forEachFrom_entries body p R Hbody rows 0 [title]).
Qed.

Lemma filter_indexed_length (p : lrow -> bool) (rows : list lrow) :
  List.length (filter (fun ir => p (snd ir)) (indexed rows)) =
  List.length (filter p rows).
Proof.
  unfold indexed. generalize 0 as i.
  induction rows as [| row rows IH]; intros i; [reflexivity |].
  cbn [List.length seq combine filter snd].
  destruct (p row); cbn [List.length]; rewrite IH; reflexivity.
Qed.

Lemma filter_indexed_rows (p : lrow -> bool) (rows : list lrow) :
  map snd (filter (fun ir => p (snd ir)) (indexed rows)) = filter p rows.
Proof.
  unfold indexed. generalize 0 as i.
  induction rows as [| row rows IH]; intros i; [reflexivity |].
  cbn [List.length seq combine filter snd].
  destruct (p row); cbn [map snd]; rewrite IH; reflexivity.
Qed.

Lemma indexed_In (rows : list lrow) (ir : nat * lrow) :
  In ir (indexed rows) -> In (snd ir) rows /\ nth_error rows (fst ir) = Some (snd ir).
Proof.
  unfold indexed.
  assert (H : forall i, In ir (combine (seq i (List.length rows)) rows) ->
                        In (snd ir) rows /\
                        i <= fst ir /\ nth_error rows (fst ir - i) = Some (snd ir)).
  { induction rows as [| row rows IH]; intros i Hin; [destruct Hin |].
    cbn [List.length seq combine] in Hin. destruct Hin as [<- | Hin].
    - cbn [fst snd]. split; [left; reflexivity |]. split; [lia |].
      rewrite Nat.sub_diag. reflexivity.
    - destruct (IH (S i) Hin) as (Hr & Hle & Hn).
      split; [right; exact Hr |]. split; [lia |].
      replace (fst ir - i) with (S (fst ir - S i)) by lia. exact Hn. }
  intros Hin. destruct (H 0 Hin) as (Hr & _ & Hn).
  rewrite Nat.sub_0_r in Hn. split; assumption.
Qed.

Lemma Forall2_length_eq {A B : Type} (R : A -> B -> Prop) (l : list A) (l' : list B) :
  Forall2 R l l' -> List.length l' = List.length l.
Proof. intros H. induction H; cbn; congruence. Qed.

Lemma Forall2_Forall_r {A B : Type} (R : A -> B -> Prop) (P : A -> Prop) (Q : B -> Prop)
      (l : list A) (l' : list B) :
  (forall a b, P a -> R a b -> Q b) ->
  Forall P l -> Forall2 R l l' -> Forall Q l'.
Proof.
  intros H HP HR. induction HR as [| a b l l' Hab HR IH]; [constructor |].
  inversion HP; subst. constructor; [eapply H; eassumption | apply IH; assumption].
Qed.

Lemma Forall2_weaken {A B : Type} (R R' : A -> B -> Prop) (l : list A) (l' : list B) :
  (forall a b, R a b -> R' a b) -> Forall2 R l l' -> Forall2 R' l l'.
Proof. intros H HR. induction HR; constructor; auto. Qed.

Lemma Forall2_map_l {A B C : Type} (f : A -> B) (R : B -> C -> Prop)
      (l : list A) (l' : list C) :
  Forall2 (fun a c => R (f a) c) l l' -> Forall2 R (map f l) l'.
Proof. intros H. induction H; constructor; auto. Qed.

Lemma flat_map_entries {A : Type} (f : A -> list string) (p : A -> bool)
      (R : A -> string -> Prop) (l : list A) :
  (forall x, In x l ->
             if p x then exists e, f x = [e] /\ R x e else f x = []) ->
  Forall2 R (filter p l) (flat_map f l).
Proof.
  induction l as [| x l IH]; intros H; [constructor |].
  cbn [filter flat_map].
  pose proof (H x (or_introl eq_refl)) as Hx.
  assert (IH' := IH (fun y Hy => H y (or_intror Hy))).
  destruct (p x).
  - destruct Hx as (e & -> & He). cbn [app]. constructor; assumption.
  - rewrite Hx. exact IH'.
Qed.

Lemma prefix_append_more (p a b : string) : prefix p ((p ^^ a) ^^ b) = true.
Proof. rewrite append_assoc. apply prefix_append. Qed.

(** The entry the row loop of [renderDosingTable] pushes for a row. *)
Lemma dosingRowLine_entry (headers weightBandKeys : list string) (medKey : string)
      (row : lrow) :
  In medKey headers ->
  if nonEmpty (cell row medKey)
  then exists e,
      dosingRowLine headers weightBandKeys medKey row = [e] /\
      JS.startsWith e (JS.or_empty (cell row medKey) ^^ ": ") = true /\
      (singleLineRow row = true ->
       Forall (fun k => singleLine k = true) headers ->
       Forall (fun k => singleLine k = true) weightBandKeys ->
       singleLine e = true)
  else dosingRowLine headers weightBandKeys medKey row = [].
Proof.
  intros Hin. unfold dosingRowLine.
  destruct (nonEmpty (cell row medKey)) eqn:En; cbn [negb]; [| reflexivity].
  change (flat_map _ weightBandKeys) with
    (flat_map (fun k => if negb (nonEmpty (cell row k)) then []
                        else [k ^^ ": " ^^ JS.trim (JS.or_empty (cell row k))])
              weightBandKeys).
  assert (Hparts : forall keys,
             singleLineRow row = true ->
             Forall (fun k => singleLine k = true) keys ->
             Forall (fun p => singleLine p = true)
                    (flat_map (fun k => if negb (nonEmpty (cell row k)) then []
                                        else [k ^^ ": " ^^
                                              JS.trim (JS.or_empty (cell row k))])
                              keys)).
  { intros keys Hrow Hkeys.
    induction Hkeys as [| k keys Hk Hkeys IH]; [constructor |].
    cbn [flat_map]. destruct (negb (nonEmpty (cell row k))); [exact IH |].
    cbn [app]. constructor; [| exact IH].
    rewrite !singleLine_append, Hk.
    rewrite (singleLine_trim _ (proj2 (cell_singleLine row k Hrow))). reflexivity. }
  assert (Hentry : forall parts,
             JS.startsWith (JS.or_empty (cell row medKey) ^^ ": " ^^ JS.join "; " parts)
                           (JS.or_empty (cell row medKey) ^^ ": ") = true).
  { intros parts. unfold JS.startsWith. rewrite <- append_assoc. apply prefix_append. }
  assert (Hsingle : forall parts,
             singleLineRow row = true ->
             Forall (fun p => singleLine p = true) parts ->
             singleLine (JS.or_empty (cell row medKey) ^^ ": " ^^ JS.join "; " parts)
             = true).
  { intros parts Hrow Hp. rewrite !singleLine_append.
    rewrite (proj2 (cell_singleLine row medKey Hrow)).
    rewrite (singleLine_join "; " parts eq_refl Hp). reflexivity. }
  destruct (flat_map _ weightBandKeys) as [| b bs] eqn:Eb.
  - destruct (flat_map _ headers) as [| x xs] eqn:Ef.
    + exfalso.
      assert (Hx : In (medKey ^^ ": " ^^ JS.trim (JS.or_empty (cell row medKey)))
                      (flat_map
                         (fun k =>
                            if negb (nonEmpty (cell row k)) then []
                            else [k ^^ ": " ^^ JS.trim (JS.or_empty (cell row k))])
                         headers)).
      { apply in_flat_map. exists medKey. split; [exact Hin |].
        rewrite En. left. reflexivity. }
      rewrite Ef in Hx. destruct Hx.
    + eexists. split; [reflexivity |]. split; [apply Hentry |].
      intros Hrow Hh _. apply Hsingle; [exact Hrow |].
      rewrite <- Ef. apply Hparts; assumption.
  - eexists. split; [reflexivity |]. split; [apply Hentry |].
    intros Hrow _ Hw. apply Hsingle; [exact Hrow |].
    rewrite <- Eb. apply Hparts; assumption.
Qed.

(** X30.  A dosing table with weight-band columns is rendered as the title
    followed by one entry for every row whose medicine cell is filled, in
    the order of the rows, each beginning with the medicine of its row
    followed by a colon; a row with an empty medicine cell is left out
    whatever its dose cells hold.  When neither the caption nor any header
    or cell holds a line break, the title and these entries are exactly the
    lines of the text: one line per row that names a medicine. *)
Theorem dosing_one_line_per_medicine
        (c : chunk) (rows : list lrow) (hdr : option rawrow) :
  filter weightBandLike (getTableHeaders rows) <> [] ->
  let headers := getTableHeaders rows in
  let medKey := medicineColumn headers in
  let r := renderDosingTable c rows hdr in
  let title := or_default (caption c) "Dosing table" ^^ ". Weight-band dosing summary:" in
  let named := filter (fun row => nonEmpty (cell row medKey)) rows in
  In medKey headers /\
  exists entries,
    r_text r = JS.join newline (title :: entries) /\
    Forall2 (fun row entry =>
               JS.startsWith entry (JS.or_empty (cell row medKey) ^^ ": ") = true)
            named entries /\
    List.length entries = List.length named /\
    (singleLineTable c rows = true ->
     linesOf (r_text r) = title :: entries /\
     List.length (linesOf (r_text r)) = 1 + List.length named) /\
    Obj.get (r_debug r) "med_key" = Some (DStr medKey) /\
    Obj.get (r_debug r) "note" = None.
Proof.
  intros Hw. cbv zeta.
  pose proof (headers_singleLine c rows) as Hheaders.
  pose proof (rows_singleLine c rows) as Hrows.
  pose proof (fun d more => title_singleLine c rows d more) as Htitle.
  unfold renderDosingTable, medicineColumn, findHeader.
  destruct rows as [| row rows]; [contradiction Hw; reflexivity |].
  destruct (getTableHeaders (row :: rows)) as [| h0 hs] eqn:Eh;
    [contradiction Hw; reflexivity |].
  cbn [hd].
  assert (Ek : match
                 match find (fun h => anyIncludes (JS.toLowerCase h) medicinePatterns)
                            (h0 :: hs) with
                 | Some h => if JS.truthy (Some h) then Some h else None
                 | None => None
                 end
               with
               | Some h => h
               | None => h0
               end =
               match find (fun h => anyIncludes (JS.toLowerCase h)
                                      ["medicine"; "drug"; "product"; "regimen"; "group";
                                       "tb drug"]) (h0 :: hs) with
               | Some h => if String.eqb h EmptyString then h0 else h
               | None => h0
               end).
  { unfold medicinePatterns. destruct (find _ (h0 :: hs)) as [h |]; [| reflexivity].
    destruct h; reflexivity. }
  rewrite Ek. clear Ek.
  set (medKey := match find _ (h0 :: hs) with
                 | Some h => if String.eqb h EmptyString then h0 else h
                 | None => h0
                 end).
  assert (Hin : In medKey (h0 :: hs)).
  { unfold medKey. destruct (find _ (h0 :: hs)) as [h |] eqn:Ef; [| left; reflexivity].
    destruct (String.eqb h EmptyString); [left; reflexivity |].
    apply find_some in Ef. apply Ef. }
  split; [exact Hin |].
  destruct (filter weightBandLike (h0 :: hs)) as [| w ws] eqn:Ew;
    [contradiction Hw; reflexivity |].
  cbn [r_text r_debug].
  set (entries := flat_map (dosingRowLine (h0 :: hs) (w :: ws) medKey) (row :: rows)).
  set (named := filter (fun x => nonEmpty (cell x medKey)) (row :: rows)).
  assert (HR : Forall2
                 (fun x e =>
                    JS.startsWith e (JS.or_empty (cell x medKey) ^^ ": ") = true /\
                    (singleLineTable c (row :: rows) = true -> singleLine e = true))
                 named entries).
  { apply flat_map_entries. intros x Hx.
    pose proof (dosingRowLine_entry (h0 :: hs) (w :: ws) medKey x Hin) as Hd.
    destruct (nonEmpty (cell x medKey)); [| exact Hd].
    destruct Hd as (e & -> & Hs & Hl). exists e. split; [reflexivity |].
    split; [exact Hs |]. intros Ht. apply Hl.
    - apply Hrows; assumption.
    - apply Hheaders. exact Ht.
    - rewrite <- Ew. apply filter_sublist_Forall, Hheaders, Ht. }
  exists entries. split; [reflexivity |].
  split; [eapply Forall2_weaken; [| exact HR]; intros x e He; apply He |].
  split; [apply (Forall2_length_eq _ _ _ HR) |].
  split; [| split; reflexivity].
  intros Ht.
  assert (El : linesOf (JS.join newline
                          ((or_default (caption c) "Dosing table" ^^
                            ". Weight-band dosing summary:") :: entries)) =
               (or_default (caption c) "Dosing table" ^^
                ". Weight-band dosing summary:") :: entries).
  { apply split_join_lines; [discriminate |].
    constructor; [apply Htitle; [exact Ht | reflexivity | reflexivity] |].
    eapply Forall2_Forall_r with (P := fun _ => True);
      [| apply Forall_forall; intros; exact I | exact HR].
    intros x e _ He. apply He, Ht. }
  split; [exact El |].
  rewrite El. cbn [List.length]. rewrite (Forall2_length_eq _ _ _ HR). reflexivity.
Qed.

Lemma dosing_one_line_per_medicine_witness :
  filter weightBandLike (getTableHeaders SampleTables.pedsDosingRows) <> [] /\
  List.length
    (linesOf (r_text (renderDosingTable (SampleTables.captioned "Dosing of isoniazid")
                                        SampleTables.pedsDosingRows None))) = 2.
Proof.
  split; [discriminate |].
  destruct (dosing_one_line_per_medicine
              (SampleTables.captioned "Dosing of isoniazid")
              SampleTables.pedsDosingRows None) as (_ & entries & _ & _ & _ & Hl & _);
    [discriminate |].
  destruct (Hl eq_refl) as [_ Hn]. exact Hn.
Defined.

Lemma indexed_filter_In (p : lrow -> bool) (rows : list lrow) :
  Forall (fun ir => In (snd ir) rows) (filter (fun ir => p (snd ir)) (indexed rows)).
Proof.
  apply Forall_forall. intros ir Hir. apply filter_In in Hir.
  apply (indexed_In rows ir), Hir.
Qed.

(** The lines of a rendering whose title and entries hold no line break. *)
Lemma rendered_lines (title : string) (entries : list string) :
  singleLine title = true ->
  Forall (fun e => singleLine e = true) entries ->
  linesOf (JS.join newline (title :: entries)) = title :: entries /\
  List.length (linesOf (JS.join newline (title :: entries))) = 1 + List.length entries.
Proof.
  intros Ht He.
  assert (El : linesOf (JS.join newline (title :: entries)) = title :: entries).
  { apply split_join_lines; [discriminate | constructor; assumption]. }
  split; [exact El | rewrite El; reflexivity].
Qed.

(** The entry the row loop of [renderPedsDosingTable] pushes for a row. *)
Lemma pedsDosingRow_entry headers wk ok ek medKey formKey medIsWeight lines row i :
  In medKey headers ->
  if nonEmpty (cell row medKey)
  then exists e,
      pedsDosingRow headers wk ok ek medKey formKey medIsWeight lines row i
      = lines ++ [e] /\
      JS.startsWith e (JS.to_String (cell row medKey)) = true /\
      (singleLineRow row = true ->
       Forall (fun k => singleLine k = true) headers ->
       Forall (fun k => singleLine k = true) wk ->
       Forall (fun k => singleLine k = true) (ok ++ ek) ->
       singleLine e = true)
  else pedsDosingRow headers wk ok ek medKey formKey medIsWeight lines row i = lines.
Proof.
  intros Hin. unfold pedsDosingRow.
  destruct (nonEmpty (cell row medKey)) eqn:En; cbn [negb]; [| reflexivity].
  rewrite (labelledCells_noLength row headers),
    (fillsAny_In headers row medKey Hin En). cbn [negb].
  set (line1 := if JS.truthy (cellAt row formKey)
                then JS.to_String (cell row medKey) ^^ " (" ^^
                     JS.to_String (cellAt row formKey) ^^ ")"
                else JS.to_String (cell row medKey)).
  assert (Hopen : forall rest,
             JS.startsWith (line1 ^^ rest) (JS.to_String (cell row medKey)) = true).
  { intros rest. unfold JS.startsWith, line1.
    destruct (JS.truthy (cellAt row formKey));
      [apply prefix_append_more | apply prefix_append]. }
  assert (Hline1 : singleLineRow row = true -> singleLine line1 = true).
  { intros Hrow. unfold line1.
    destruct (JS.truthy (cellAt row formKey)).
    - rewrite !singleLine_append, (proj1 (cell_singleLine row medKey Hrow)),
        (cellAt_singleLine row formKey Hrow). reflexivity.
    - apply cell_singleLine. exact Hrow. }
  assert (Hsingle : forall parts,
             singleLineRow row = true ->
             Forall (fun p => singleLine p = true) parts ->
             singleLine (line1 ^^ " -> " ^^ JS.join "; " parts) = true).
  { intros parts Hrow Hp.
    rewrite !singleLine_append, (Hline1 Hrow),
      (singleLine_join "; " parts eq_refl Hp). reflexivity. }
  assert (Hmed : forall k, In k headers ->
                           Forall (fun k => singleLine k = true) headers ->
                           singleLine k = true).
  { intros k Hk Hh. rewrite Forall_forall in Hh. apply Hh, Hk. }
  destruct (noLength (labelledCells row wk) && noLength (labelledCells row (ok ++ ek))).
  - eexists. split; [reflexivity |]. split; [apply Hopen |].
    intros Hrow Hh _ _. apply Hsingle; [exact Hrow |].
    apply labelledCells_singleLine; assumption.
  - eexists. split; [reflexivity |]. split; [apply Hopen |].
    intros Hrow Hh Hw Ho. apply Hsingle; [exact Hrow |].
    apply Forall_app. split.
    + destruct medIsWeight; [| apply labelledCells_singleLine; assumption].
      constructor; [| constructor].
      rewrite !singleLine_append, (Hmed medKey Hin Hh),
        (singleLine_trim _ (proj1 (cell_singleLine row medKey Hrow))). reflexivity.
    + apply labelledCells_singleLine; assumption.
Qed.

(** X29.  A paediatric dosing table with headers but no weight-band column is
    rendered generically with the note; with weight-band columns its text
    is the title followed by one entry for every row whose medicine cell is
    filled, in the order of the rows, each beginning with the medicine of
    its row, so a row with an empty medicine cell is left out whatever its
    dose cells hold.  When neither the caption nor any header or cell holds
    a line break, the title and these entries are exactly the lines of the
    text. *)
Theorem peds_dosing_one_line_per_medicine
        (c : chunk) (rows : list lrow) (hdr : option rawrow) :
  getTableHeaders rows <> [] ->
  let headers := getTableHeaders rows in
  let medKey := medicineColumn headers in
  let r := renderPedsDosingTable c rows hdr in
  let title :=
    or_default (caption c) "Paediatric dosing table" ^^
    ". Paediatric weight-band dosing summary:" in
  let named := filter (fun row => nonEmpty (cell row medKey)) rows in
  In medKey headers /\
  (filter weightBandLike headers = [] ->
   r = genericFallback "peds_dosing" "fallback_generic_no_weight_bands" c rows hdr) /\
  (filter weightBandLike headers <> [] ->
   exists entries,
     r_text r = JS.join newline (title :: entries) /\
     Forall2 (fun row entry =>
                JS.startsWith entry (JS.to_String (cell row medKey)) = true)
             named entries /\
     List.length entries = List.length named /\
     (singleLineTable c rows = true ->
      linesOf (r_text r) = title :: entries /\
      List.length (linesOf (r_text r)) = 1 + List.length named) /\
     Obj.get (r_debug r) "med_key" = Some (DStr medKey) /\
     Obj.get (r_debug r) "note" = None).
Proof.
  intros Hh. cbv zeta.
  pose proof (headers_singleLine c rows) as Hheaders.
  pose proof (rows_singleLine c rows) as Hrows.
  pose proof (fun d more => title_singleLine c rows d more) as Htitle.
  unfold renderPedsDosingTable, medicineColumn.
  destruct rows as [| row rows]; [contradiction Hh; reflexivity |].
  destruct (getTableHeaders (row :: rows)) as [| h0 hs] eqn:Eh;
    [contradiction Hh; reflexivity |].
  cbn [hd].
  pose proof (column_In medicinePatterns h0 hs) as Hin.
  set (medKey := match findHeader medicinePatterns (h0 :: hs) with
                 | Some h => h
                 | None => h0
                 end) in *.
  split; [exact Hin |].
  destruct (filter weightBandLike (h0 :: hs)) as [| w ws] eqn:Ew.
  - split; [reflexivity | intros H; contradiction H; reflexivity].
  - split; [discriminate |]. intros _. cbn [noLength r_text r_debug].
    match goal with
    | |- context [forEach (pedsDosingRow ?hd ?wk ?ok ?ek ?mk ?fk ?mw) (row :: rows)
                          [?title]] =>
        destruct (forEach_entries
                    (pedsDosingRow hd wk ok ek mk fk mw)
                    (fun x => nonEmpty (cell x medKey))
                    (fun ir e =>
                       JS.startsWith e (JS.to_String (cell (snd ir) medKey)) = true /\
                       (singleLineRow (snd ir) = true ->
                        singleLineTable c (row :: rows) = true ->
                        singleLine e = true))
                    (row :: rows) title) as (entries & El & HR);
          [intros s x i;
           pose proof (pedsDosingRow_entry hd wk ok ek mk fk mw s x i Hin) as Hd;
           assert (Hok : Forall (fun k => singleLine k = true) (h0 :: hs) ->
                         Forall (fun k => singleLine k = true) (ok ++ ek)) |]
    end.
    + intros Hhs. apply Forall_app. split; [apply filter_sublist_Forall, Hhs |].
      destruct (JS.arr_includes (w :: ws) medKey); [| constructor].
      apply filter_sublist_Forall. rewrite <- Ew. apply filter_sublist_Forall, Hhs.
    + destruct (nonEmpty (cell x medKey)); [| exact Hd].
      destruct Hd as (e & E & Hs & Hl). exists e. split; [exact E |].
      split; [exact Hs |]. intros Hrow Ht. apply Hl.
      * exact Hrow.
      * apply Hheaders, Ht.
      * rewrite <- Ew. apply filter_sublist_Forall, Hheaders, Ht.
      * apply Hok, Hheaders, Ht.
    + exists entries. rewrite El. split; [reflexivity |].
      split.
      { rewrite <- (filter_indexed_rows (fun x => nonEmpty (cell x medKey))).
        apply Forall2_map_l. eapply Forall2_weaken; [| exact HR].
        intros ir e He. apply He. }
      split.
      { rewrite (Forall2_length_eq _ _ _ HR).
        apply (filter_indexed_length (fun x => nonEmpty (cell x medKey))). }
      split; [| split; reflexivity].
      intros Ht.
      assert (He : Forall (fun e => singleLine e = true) entries).
      { eapply Forall2_Forall_r;
          [| apply (indexed_filter_In (fun x => nonEmpty (cell x medKey))) | exact HR].
        intros ir e Hir Hre. cbv beta in Hir. apply Hre; [| exact Ht].
        apply Hrows; assumption. }
      destruct (rendered_lines _ entries
                  (Htitle "Paediatric dosing table"
                          ". Paediatric weight-band dosing summary:" Ht eq_refl eq_refl)
                  He) as [E1 E2].
      split; [exact E1 |].
      rewrite E2, (Forall2_length_eq _ _ _ HR),
        (filter_indexed_length (fun x => nonEmpty (cell x medKey))). reflexivity.
Qed.

Lemma peds_dosing_one_line_per_medicine_witness :
  getTableHeaders SampleTables.pedsDosingRows <> [] /\
  List.length
    (linesOf (r_text (renderPedsDosingTable
                        (SampleTables.captioned "Dosing of isoniazid in children")
                        SampleTables.pedsDosingRows None))) = 2.
Proof.
  split; [discriminate |].
  destruct (peds_dosing_one_line_per_medicine
              (SampleTables.captioned "Dosing of isoniazid in children")
              SampleTables.pedsDosingRows None) as (_ & _ & H); [discriminate |].
  destruct H as (entries & _ & _ & _ & Hl & _); [discriminate |].
  destruct (Hl eq_refl) as [_ Hn]. exact Hn.
Defined.

(** The entry the row loop of [renderRegimenTable] pushes for a row. *)
Lemma regimenRow_entry headers regimenKey drugsKey durationKey lines row i :
  In regimenKey headers ->
  if fillsAny headers row
  then exists e,
      regimenRow headers regimenKey drugsKey durationKey lines row i = lines ++ [e] /\
      JS.startsWith e (regimenEntryOpening regimenKey (i, row)) = true /\
      (singleLineRow row = true ->
       Forall (fun k => singleLine k = true) headers ->
       singleLine e = true)
  else regimenRow headers regimenKey drugsKey durationKey lines row i = lines.
Proof.
  intros Hin. unfold regimenRow, regimenEntryOpening. cbn [fst snd].
  rewrite labelledCells_noLength.
  destruct (nonEmpty (cell row regimenKey)) eqn:En; cbn [negb].
  - rewrite (fillsAny_In headers row regimenKey Hin En).
    assert (Hsingle : forall sep parts,
               singleLine sep = true ->
               singleLineRow row = true ->
               Forall (fun p => singleLine p = true) parts ->
               singleLine (JS.to_String (cell row regimenKey) ^^ sep ^^
                           JS.join "; " parts) = true).
    { intros sep parts Hsep Hrow Hp.
      rewrite !singleLine_append, (proj1 (cell_singleLine row regimenKey Hrow)), Hsep,
        (singleLine_join "; " parts eq_refl Hp). reflexivity. }
    destruct (noLength _).
    + eexists. split; [reflexivity |].
      split; [unfold JS.startsWith; apply prefix_append |].
      intros Hrow Hh. apply Hsingle; [reflexivity | exact Hrow |].
      apply labelledCells_singleLine; assumption.
    + eexists. split; [reflexivity |].
      split; [unfold JS.startsWith; apply prefix_append |].
      intros Hrow Hh. apply Hsingle; [reflexivity | exact Hrow |].
      apply Forall_app. split.
      * destruct (JS.truthy drugsKey && nonEmpty (cellAt row drugsKey));
          [| constructor].
        constructor; [| constructor].
        apply singleLine_trim, cellAt_singleLine, Hrow.
      * destruct (JS.truthy durationKey && nonEmpty (cellAt row durationKey));
          [| constructor].
        constructor; [| constructor].
        rewrite singleLine_append,
          (singleLine_trim _ (cellAt_singleLine row durationKey Hrow)).
        reflexivity.
  - destruct (fillsAny headers row); cbn [negb]; [| reflexivity].
    eexists. split; [reflexivity |]. unfold rowLine. split.
    + unfold JS.startsWith.
      replace ("Row " ^^ nat_to_string (i + 1) ^^ ": " ^^
               JS.join "; " (labelledCells row headers))
        with (("Row " ^^ nat_to_string (i + 1) ^^ ": ") ^^
              JS.join "; " (labelledCells row headers))
        by (rewrite !append_assoc; reflexivity).
      apply prefix_append.
    + intros Hrow Hh.
      rewrite !singleLine_append, singleLine_nat_to_string.
      rewrite (singleLine_join "; " _ eq_refl
                 (labelledCells_singleLine row headers Hrow Hh)).
      reflexivity.
Qed.

(** X28.  The regimen renderer never falls back to the generic rendering: for
    a table with headers its text is the title followed by one entry for
    every row that fills at least one cell, in the order of the rows (blank
    rows are left out); the entry begins with the regimen of its row, or
    with "Row n: ", n being the position of the row in the table, when the
    regimen cell is empty.  When neither the caption nor any header or cell
    holds a line break, the title and these entries are exactly the lines
    of the text.  The debug record names the regimen column, a header of
    the table, and carries no note. *)
Theorem regimen_one_line_per_filled_row
        (c : chunk) (rows : list lrow) (hdr : option rawrow) :
  getTableHeaders rows <> [] ->
  let headers := getTableHeaders rows in
  let r := renderRegimenTable c rows hdr in
  let title :=
    or_default (caption c) "Regimen composition table" ^^
    ". Regimen components and options:" in
  let filled := filter (fun ir => fillsAny headers (snd ir)) (indexed rows) in
  exists entries,
    r_text r = JS.join newline (title :: entries) /\
    Forall2 (fun ir entry =>
               JS.startsWith entry (regimenEntryOpening (regimenColumn headers) ir)
               = true)
            filled entries /\
    map snd filled = filter (fillsAny headers) rows /\
    List.length entries = List.length (filter (fillsAny headers) rows) /\
    (singleLineTable c rows = true ->
     linesOf (r_text r) = title :: entries /\
     List.length (linesOf (r_text r)) =
       1 + List.length (filter (fillsAny headers) rows)) /\
    In (regimenColumn headers) headers /\
    Obj.get (r_debug r) "regimen_key" = Some (DStr (regimenColumn headers)) /\
    Obj.get (r_debug r) "note" = None.
Proof.
  intros Hh. cbv zeta.
  pose proof (headers_singleLine c rows) as Hheaders.
  pose proof (rows_singleLine c rows) as Hrows.
  pose proof (fun d more => title_singleLine c rows d more) as Htitle.
  unfold renderRegimenTable, regimenColumn.
  destruct rows as [| row rows]; [contradiction Hh; reflexivity |].
  destruct (getTableHeaders (row :: rows)) as [| h0 hs] eqn:Eh;
    [contradiction Hh; reflexivity |].
  cbn [hd r_text r_debug].
  pose proof (column_In ["regimen"; "name"; "strategy"; "option"] h0 hs) as Hin.
  set (regimenKey := match findHeader _ (h0 :: hs) with Some h => h | None => h0 end)
    in *.
  set (drugsKey := findHeader _ (h0 :: hs)).
  set (durationKey := findHeader _ (h0 :: hs)).
  destruct (forEach_entries
              (regimenRow (h0 :: hs) regimenKey drugsKey durationKey)
              (fillsAny (h0 :: hs))
              (fun ir e =>
                 JS.startsWith e (regimenEntryOpening regimenKey ir) = true /\
                 (singleLineRow (snd ir) = true ->
                  singleLineTable c (row :: rows) = true ->
                  singleLine e = true))
              (row :: rows)
              (or_default (caption c) "Regimen composition table" ^^
               ". Regimen components and options:")) as (entries & El & HR).
  { intros s x i.
    pose proof (regimenRow_entry (h0 :: hs) regimenKey drugsKey durationKey s x i Hin)
      as Hd.
    destruct (fillsAny (h0 :: hs) x); [| exact Hd].
    destruct Hd as (e & E & Hs & Hl). exists e. split; [exact E |].
    split; [exact Hs |]. intros Hrow Ht. apply Hl; [exact Hrow | apply Hheaders, Ht]. }
  exists entries. rewrite El. split; [reflexivity |].
  split.
  { eapply Forall2_weaken; [| exact HR]. intros ir e He. apply He. }
  split; [apply (filter_indexed_rows (fillsAny (h0 :: hs))) |].
  split.
  { rewrite (Forall2_length_eq _ _ _ HR).
    apply (filter_indexed_length (fillsAny (h0 :: hs))). }
  split; [| split; [exact Hin | split; reflexivity]].
  intros Ht.
  assert (He : Forall (fun e => singleLine e = true) entries).
  { eapply Forall2_Forall_r;
      [| apply (indexed_filter_In (fillsAny (h0 :: hs))) | exact HR].
    intros ir e Hir Hre. cbv beta in Hir. apply Hre; [| exact Ht].
    apply Hrows; assumption. }
  destruct (rendered_lines _ entries
              (Htitle "Regimen composition table"
                      ". Regimen components and options:" Ht eq_refl eq_refl)
              He) as [E1 E2].
  split; [exact E1 |].
  rewrite E2, (Forall2_length_eq _ _ _ HR),
    (filter_indexed_length (fillsAny (h0 :: hs))). reflexivity.
Qed.

Lemma regimen_one_line_per_filled_row_witness :
  getTableHeaders SampleTables.regimenRows <> [] /\
  List.length
    (linesOf (r_text (renderRegimenTable (SampleTables.captioned "Regimens for MDR/RR-TB")
                                         SampleTables.regimenRows None))) = 3.
Proof.
  split; [discriminate |].
  destruct (regimen_one_line_per_filled_row
              (SampleTables.captioned "Regimens for MDR/RR-TB")
              SampleTables.regimenRows None)
    as (entries & _ & _ & _ & _ & Hl & _);
    [discriminate |].
  destruct (Hl eq_refl) as [_ Hn]. exact Hn.
Defined.
